(* ===== verification/_CoqProject ===== *)
-Q . S2P
Prelude.v
RangeCoder.v
RangeBits.v
RangeSim.v
RangeCodec.v
RangeRun.v
RangeStream.v
Charset.v
Interpolative.v
CString.v
CFloat.v
NonAlpha.v
Unicode.v
PackedStats.v
LCAlpha.v
CaseModel.v
PackedAscii.v
Smac.v
BlockHash.v
Sha256.v
Md5.v
Recipe.v
RecipeText.v
RecipeRead.v
RecipeCompress.v
RecipeFields.v
RecipeRecords.v
Dexml.v
DexmlStrip.v
DexmlFill.v
DexmlForms.v
Xhtml.v
XmlReader.v
XhtmlRun.v
XhtmlForm.v
Compression.v
FormChain.v
SyncKeys.v
SyncTree.v
SyncProtocol.v
SyncSafety.v
SyncLearn.v
SyncNewDevice.v
Lmdb.v
Storage.v
StorageRefine.v
StorageMessages.v
StorageJourney.v
Stun.v
StatsPages.v
Networks.v
