(* ===== verification/Prelude.v ===== *)
(** * Succinct: verification of the native code

    Succinct carries forms that were filled in on a telephone over links on which
    every byte counts: satellite messengers, SMS, mesh radios.  Its native code
    (src/app/src/main/cpp) compresses short messages and forms with a range coder
    and statistics, names recipes and messages by hashes, and finds the differences
    of two sets of messages with as few packets as it can.  This library models
    that code in Gallina, function by function, and proves what its parts promise.

    ** The parts

    - The range coder, forms/arithmetic.c: [RangeCoder] holds the coder as a record
      with the registers of 32 bits and the byte buffer, and every operation on it.
      [RangeBits] is the stream as bits, [RangeSim] the invariant that ties the
      encoder to the decoder through the renormalisation loops, [RangeCodec] one
      symbol and the class [Codec] of what a client of the coder promises, [RangeRun]
      flushing and the round trip of any client written against that class,
      [RangeStream] the round trip and the size of streams of symbols.
    - The layers of a message, forms/: [Interpolative] (gsinterpolative.c, both of
      the instances that the preprocessor makes), [Charset] (charset.h, charset.c),
      [NonAlpha] (nonalpha.c), [Unicode] (unicode.c), [PackedStats] (packed_stats.c:
      the statistics file, its tree of contexts and its unicode pages; [StatsPages]
      opens the file, and shows that one that cannot be mapped is not read), [LCAlpha]
      (lowercasealpha.c), [CaseModel] (case.c), [PackedAscii] (packedascii.c).
      Each file has the code first, then the codec instance and the round trip
      of the layer; [LCAlpha] and [CaseModel] are proved against an interface of a
      text model that [PackedStats] implements.
    - [Smac] (smac.c) composes the layers: stats3_compress chooses between the text
      model and the packed form, stats3_decompress reads both and the raw form.
    - [Sha256] (hash.c) and [Md5] (forms/md5.c), with what they share in
      [BlockHash]: a reference hash (padding, blocks, a fold of a compression
      function) and the invariant of a buffered interface.  The references are in
      the form of FIPS 180-4 and of RFC 1321.
    - Forms: [CString] and [CFloat] are what the form code uses of the C library
      (strings, case, integers, sscanf; strtof, frexp, lroundf on [SpecFloat]).
      [Recipe] (recipe.c) has the recipe of a form, its hash, the reader of recipe
      files and the parser of filled-in forms; [RecipeText] and [RecipeRead] prove
      them against printers.  [RecipeCompress] (recipe_compress.c) codes a record;
      [RecipeFields] proves the types of fields, [RecipeRecords] whole records.
      [Dexml] (dexml.c) turns the XML of a form into the text and back: module
      [Strip] is xml2stripped, which [DexmlStrip] proves on the level of tags, module
      [Fill] is stripped2xml, with [DexmlFill] (that it ends, and a template without
      sub-forms) and [DexmlForms] (with sub-forms, and the way back).  [Xhtml]
      (xhtml2recipe.c) has the handlers that make recipes and templates of the definition
      of a form, with expat as the calls it makes; [XhtmlRun] follows them over a
      document, which is a form with its sub-forms, and [XhtmlForm] proves which recipes they
      make of it.  [XmlReader] is a reader of XML that takes the place of expat in the
      witnesses.
      [Compression] (compression.cpp) has the calls of the application, and
      [FormChain] the way of a form through all of this.
    - Storage: [Lmdb] is a class of what storage.cpp asks of LMDB, with the laws of
      its documentation.  [Storage] (storage.cpp) has the store of files, whose root
      hash is kept with it, the messages about what peers have, and the dispatch of
      theirs; [StorageRefine] proves it against a map from names to versions,
      [StorageMessages] what the messages say and what peers agree about,
      [StorageJourney] how metadata comes from one device to another.
    - Synchronisation: [SyncKeys] (sync_keys.cpp) has the prefix tree, the state with
      its peers, the handling of records and the callbacks; [SyncTree] proves that
      the tree is a set, [SyncProtocol] what the operations do to the sets and what
      the root message says, [SyncSafety] that no record can make the handler fail,
      [SyncLearn] what a packet of announced keys teaches, [SyncNewDevice] that a device
      without keys hears of all keys of another one.
    - [Stun] (stun/stun.c) is the service that tells senders of broadcasts about each
      other: the table of those it heard and its replies.

    - [Networks] (networks.cpp) reads what the kernel says about addresses.

    They meet where the code calls them: recipe_compress encodes texts with
    stats3_compress_append, names the form with the MD5 of [Md5], and gives its
    result in the bytes of the coder; the message layers share one coder.  The store
    hashes with [Sha256] and gives its keys to [SyncKeys], whose callbacks it handles.

    ** Conventions

    - Integers are [Z], with [u8], [u16], [u32], [u64], [i32] where the code's type
      wraps.  [char] is unsigned, as on ARM, where the code reads bytes above 127.
    - Arrays are lists; [rd] and [wr] index them with C integers, and are 0 and
      nothing outside, below the array as behind it.  Where the code can leave an array,
      the model has a result for it ([Overrun] in [Recipe] and [Dexml], [None] in [Xhtml]
      and [Storage], [Undefined] in [PackedStats] and [RecipeCompress]), or a theorem
      says when it does not ([recv_record_safe]).  Memory that nothing has written is an
      instance of [Memory]; the theorems hold for every instance.  A string is the list of its
      characters without the terminator, or, where the code reads on behind it, memory
      from its first character on.
    - The text coder (smac.c) has arrays of 1024 units without a test of the length, and
      follows the pages of statistics that it is given: the model goes on where a text is
      longer, or where [extractVector] or [unicode_page] are [Undefined], and its theorems
      are about texts that fit and pages that are there ([message], [text_room]).  A handle
      on statistics in memory, as Android has it, has no file, so that only characters
      of seven bits have pages.  What is behind the end of a statistics file in memory is read as
      zeros when a node is extracted there.
    - Errors are values: the codes of the functions, [option] where a pointer may be
      NULL or a null pointer may be followed, [outcome] where undefined behaviour and
      running out of fuel have results of their own.  The coder of a form is
      a heap cell that is live or freed.
    - Code that includes another file as a template, or pastes macros, is a
      definition for each instance, or a higher-order one.
    - What the code gets from outside is a parameter: mktime, the look-up of recipes
      by name, the values of variables that were never set, and the memory behind a value
      (class [Environment]).  Of expat it is assumed that it reads a given text as a
      given document with one root element, each value of a choice in one call; it
      gives values with references in several, which the code takes for several values
      ([value_split]).  The locale is that of C, and isupper gives 1 for capitals, as the C
      library of Android does.
    - [assert] does nothing (release build); malloc does not fail; logging and the
      counters of entropy are left out, since nothing reads them.
    - md5.c is taken in the variant that does not read words through a cast pointer.

    ** The properties

    - Round trips: symbols through the coder ([range_stream_roundtrip]), each layer
      ([interpolative_roundtrip], [LCAlphaSpace_roundtrip], [case_roundtrip],
      [utf_roundtrip]), XML and text ([dexml_roundtrip]), whole messages ([smac_roundtrip]), fields and records
      ([field_roundtrip], [recipe_compress_roundtrip]); printed texts
      ([record_roundtrip], [recipe_read_print]).  There is no decoder of records in
      the code, so that the library has one, which the receiving side can follow.
    - Refinement: the hashes ([sha256_incremental], [md5_incremental] and the
      equivalences of the unrolled rounds), fields as sequences of symbols
      ([recipe_encode_field_spec]), keys as a set ([sync_add_key_set]), the string
      builder ([strgrow_appends]); the definition of a form as a recipe
      and one for each of its sub-forms ([specification_recipes]; sub-forms are one level
      deep, a question of the form comes before each, and the last bind and select are the
      form's own); files, versions and their root hash as a
      map that flushes extend ([storage_refines], [file_flush_commits]; a commit that fails
      is followed by an abort, of which LMDB says nothing, so that these are about runs
      without one).
    - Function: [xml2stripped_form], [stun_reply], [read_addresses_messages].
    - Composition: [form_journey] (definition of a form, template, XML, text, bytes),
      [same_files_same_root], [metadata_roundtrip], [metadata_journey] and
      [sync_new_device] (two devices).
    - Invariants and bounds: [extractVector_codable] (contexts of the alphabet),
      [parsed_record_ok], [recipe_read_ok], [range_stream_fits], [field_symbols_in_range]
      (with what is asked of times, positions and ranges), [stun_one_slot].
    - Termination and safety: [recipe_compress_terminates], [stripped2xml_ends],
      [read_addresses_ends], [recv_record_safe], [unEscape_in_place], and [recipe_compress_double_free] for what is not safe.
    - Progress: [sync_keys_announced], [sync_new_device].  They are about keys that no
      node is mistaken for; [private_unmistaken] is a condition for that.  That a conversation of two peers ends with both
      knowing all differences does not hold for all sets of keys (evaluated in
      SyncProtocol), since cmp_message does not compare all bits.
    - Errors: [smac_rejects_bad_utf8], [integer_escape_collision],
      [sync_add_key_collision], [process_difference_asks].

    ** Fuel

    Loops that are not structural have fuel, and the theorems are about the result,
    never about running out of it.  The renormalisation loops of the coder have 33
    turns (a word has 32 bits, and each turn shifts one out).  The walks through the
    tree of keys have 66 (a turn for each of 64 bits, and the ends); the loop of
    recv_key has 132, since a turn may advance the node only.  The recursion of
    recipe_compress has one unit for each level of the record, which
    [recipe_compress_terminates] proves to be enough for any recipe.  stripped2xml,
    which goes back in its template, has the length of the template for each field,
    and [stripped2xml_ends] proves that this is enough.  pack_uint has ten turns, of
    seven bits each, for a number of 64 bits; read_addresses has 1025, since an
    attribute has four bytes at least.  Readers of texts have the
    length of the text.

    ** Not modelled

    - native-lib.cpp, and in the other files the sockets, the looper and the
      registration of methods with the Java runtime; its calls are values.
    - expat, lmdb: libraries that the repository carries.
    - Printing functions, the reports on statistics and the dump of a record among
      them, and the release of memory. *)
From Stdlib Require Export ZArith Lia.
From stdpp Require Export base list numbers.

Declare Scope succinct_scope.
Delimit Scope succinct_scope with succinct.
Local Open Scope Z_scope.

(** ** Machine integers: the wrap-around of the C unsigned types, and the
    conversion to the signed ones. *)
Definition u8 (z : Z) : Z := z mod 2 ^ 8.
Definition u16 (z : Z) : Z := z mod 2 ^ 16.
Definition u32 (z : Z) : Z := z mod 2 ^ 32.
Definition u64 (z : Z) : Z := z mod 2 ^ 64.
Definition i32 (z : Z) : Z := (z + 2 ^ 31) mod 2 ^ 32 - 2 ^ 31.
Definition i64 (z : Z) : Z := (z + 2 ^ 63) mod 2 ^ 64 - 2 ^ 63.
Definition i8 (z : Z) : Z := (z + 2 ^ 7) mod 2 ^ 8 - 2 ^ 7.

(** ** Arrays indexed by C integers.  Reading outside of the array is
    undefined behaviour in C; the model reads [0] there and a write there does
    nothing, and the bounds theorems show where the code stays inside. *)
Definition rd (l : list Z) (i : Z) : Z := if i <? 0 then 0 else nth (Z.to_nat i) l 0.
Definition wr (l : list Z) (i v : Z) : list Z := if i <? 0 then l else <[Z.to_nat i := v]> l.

(** The contents of fresh memory: what [malloc] returns, or an array of the
    stack. *)
Class Memory := garbage : Z -> list Z.
Class MemoryOk (M : Memory) : Prop := garbage_length n : 0 <= n -> Z.of_nat (length (garbage n)) = n.
(** memory on which the properties are evaluated *)
Definition sample_memory : Memory := fun n => repeat 0xa5 (Z.to_nat n).
Lemma sample_memory_ok : MemoryOk sample_memory.
Proof. intros n Hn. unfold garbage, sample_memory. rewrite repeat_length. lia. Qed.

(** ** C calls that return an error code: [if (e) return -1; k]. *)
Notation "'call' c <- e ;; k" :=
  (let '(r_, c) := e in if (r_ =? 0)%Z then k else ((-1)%Z, c))
  (at level 90, c pattern, e at level 60, k at level 200, right associativity)
  : succinct_scope.
(** a call whose error code is dropped: [e; k] *)
Notation "'run' c <- e ;; k" :=
  (let c := snd e in k)
  (at level 90, c name, e at level 60, k at level 200, right associativity)
  : succinct_scope.

(** calls that may give nothing *)
Notation "'opt' s <- e ;; k" := (match e with Some s => k | None => None end)
  (at level 90, s pattern, e at level 60, k at level 200, right associativity) : succinct_scope.

(** calls that may leave an array or use what was freed, or have no fuel left *)
Inductive outcome (A : Type) := Done (a : A) | Undefined | OutOfFuel.
Arguments Done {A} a.
Arguments Undefined {A}.
Arguments OutOfFuel {A}.
Definition and_then {A B} (o : outcome A) (k : A -> outcome B) : outcome B :=
  match o with Done a => k a | Undefined => Undefined | OutOfFuel => OutOfFuel end.
Notation "'do' x <- e ;; k" := (and_then e (fun x => k))
  (at level 90, x pattern, e at level 60, k at level 200, right associativity) : succinct_scope.

Definition b2z : bool -> Z := Z.b2z.
Definition nz (z : Z) : bool := negb (z =? 0).

Create HintDb succinct.
Create Rewrite HintDb succinct_rw.

(** ** Tactics *)
Ltac b2p :=
  repeat match goal with
  | H : _ && _ = true |- _ => apply andb_true_iff in H; destruct H
  | H : _ && _ = false |- _ => apply andb_false_iff in H
  | H : _ || _ = true |- _ => apply orb_true_iff in H
  | H : _ || _ = false |- _ => apply orb_false_iff in H; destruct H
  | H : negb _ = true |- _ => apply negb_true_iff in H
  | H : negb _ = false |- _ => apply negb_false_iff in H
  | H : (_ =? _) = true |- _ => apply Z.eqb_eq in H
  | H : (_ =? _) = false |- _ => apply Z.eqb_neq in H
  | H : (_ <? _) = true |- _ => apply Z.ltb_lt in H
  | H : (_ <? _) = false |- _ => apply Z.ltb_ge in H
  | H : (_ <=? _) = true |- _ => apply Z.leb_le in H
  | H : (_ <=? _) = false |- _ => apply Z.leb_gt in H
  | H : (_ >? _) = true |- _ => rewrite Z.gtb_ltb in H
  | H : (_ >? _) = false |- _ => rewrite Z.gtb_ltb in H
  | H : (_ >=? _) = true |- _ => rewrite Z.geb_leb in H
  | H : (_ >=? _) = false |- _ => rewrite Z.geb_leb in H
  end.
(** decides the boolean guard of the first [if] of the goal *)
Ltac split_guard :=
  match goal with
  | |- context [if ?b then _ else _] =>
      let E := fresh "E" in destruct b eqn:E; b2p
  end.
Ltac divmod := Z.div_mod_to_equations; lia.
(** decides a guard that the context determines *)
Ltac iff_true b := replace b with true by (symmetry; first [apply Z.eqb_eq | apply Z.ltb_lt | apply Z.leb_le]; lia).

(** ** Lists *)
Lemma flat_map_of_map {A B C} (f : B -> list C) (g : A -> B) l : flat_map f (map g l) = flat_map (fun x => f (g x)) l.
Proof. induction l as [|x l IH]; [done|]. cbn [map flat_map]. by rewrite IH. Qed.

(** ** Wrap-around lemmas *)
Lemma u32_range z : 0 <= u32 z < 2 ^ 32.
Proof. apply Z.mod_pos_bound. lia. Qed.
Lemma u32_small z : 0 <= z < 2 ^ 32 -> u32 z = z.
Proof. apply Z.mod_small. Qed.
Lemma u64_small z : 0 <= z < 2 ^ 64 -> u64 z = z.
Proof. apply Z.mod_small. Qed.
Lemma i64_small z : - 2 ^ 63 <= z < 2 ^ 63 -> i64 z = z.
Proof. intros H. unfold i64. rewrite Z.mod_small; lia. Qed.
Lemma u8_range z : 0 <= u8 z < 2 ^ 8.
Proof. apply Z.mod_pos_bound. lia. Qed.
Lemma u8_small z : 0 <= z < 2 ^ 8 -> u8 z = z.
Proof. apply Z.mod_small. Qed.
Lemma u16_small z : 0 <= z < 2 ^ 16 -> u16 z = z.
Proof. apply Z.mod_small. Qed.
Lemma u32_add_l a b : u32 (u32 a + b) = u32 (a + b).
Proof. apply Zplus_mod_idemp_l. Qed.
Lemma u32_add_r a b : u32 (a + u32 b) = u32 (a + b).
Proof. apply Zplus_mod_idemp_r. Qed.
Lemma i32_small z : - 2 ^ 31 <= z < 2 ^ 31 -> i32 z = z.
Proof. intros. unfold i32. rewrite Z.mod_small; lia. Qed.

(** ** Array lemmas *)
Lemma rd_nth l i : 0 <= i -> rd l i = nth (Z.to_nat i) l 0.
Proof. intros. unfold rd. by destruct (Z.ltb_spec i 0); [lia|]. Qed.
Lemma rd_of_nat l k : rd l (Z.of_nat k) = nth k l 0.
Proof. rewrite rd_nth by lia. by rewrite Nat2Z.id. Qed.
Lemma rd_neg l i : i < 0 -> rd l i = 0.
Proof. intros. unfold rd. by destruct (Z.ltb_spec i 0); [|lia]. Qed.
Lemma wr_insert l i v : 0 <= i -> wr l i v = <[Z.to_nat i := v]> l.
Proof. intros. unfold wr. by destruct (Z.ltb_spec i 0); [lia|]. Qed.
Lemma length_wr l i v : length (wr l i v) = length l.
Proof. unfold wr. destruct (i <? 0); [done | apply length_insert]. Qed.
Lemma rd_wr_eq l i v : 0 <= i < Z.of_nat (length l) -> rd (wr l i v) i = v.
Proof.
  intros. rewrite wr_insert, rd_nth by lia. rewrite nth_lookup, list_lookup_insert_eq by lia. done.
Qed.
Lemma rd_wr_ne l i j v : 0 <= i -> 0 <= j -> i <> j -> rd (wr l i v) j = rd l j.
Proof.
  intros. rewrite wr_insert, !rd_nth by lia. rewrite !nth_lookup, list_lookup_insert_ne by lia. done.
Qed.
Lemma rd_nonneg_out l i : Z.of_nat (length l) <= i -> rd l i = 0.
Proof. intros. rewrite rd_nth by lia. apply nth_overflow. lia. Qed.

Lemma rd_wr l i j v : 0 <= i -> 0 <= j ->
  rd (wr l i v) j = if (i =? j) && (i <? Z.of_nat (length l)) then v else rd l j.
Proof.
  intros. destruct (Z.eqb_spec i j) as [->|Hne]; cbn [andb]; [|by apply rd_wr_ne].
  destruct (Z.ltb_spec j (Z.of_nat (length l))); [apply rd_wr_eq; lia|].
  rewrite !rd_nonneg_out by (rewrite ?length_wr; lia). done.
Qed.
Lemma rd_ext l m : length l = length m ->
  (forall i, 0 <= i < Z.of_nat (length l) -> rd l i = rd m i) -> l = m.
Proof.
  intros Hlen H. apply (nth_ext _ _ 0 0 Hlen). intros i Hi.
  specialize (H (Z.of_nat i) ltac:(lia)). by rewrite !rd_of_nat in H.
Qed.

Lemma rd_app_l l m i : 0 <= i < Z.of_nat (length l) -> rd (l ++ m) i = rd l i.
Proof. intros. rewrite !rd_nth by lia. apply app_nth1. lia. Qed.
Lemma rd_app_r l m k : 0 <= k -> rd (l ++ m) (Z.of_nat (length l) + k) = rd m k.
Proof. intros. rewrite !rd_nth by lia. rewrite app_nth2 by lia. f_equal. lia. Qed.
Lemma rd_cons_0 x l : rd (x :: l) 0 = x.
Proof. done. Qed.
Lemma rd_cons x l i : 0 < i -> rd (x :: l) i = rd l (i - 1).
Proof. intros. rewrite !rd_nth by lia. destruct (Z.to_nat i) eqn:E; [lia|]. cbn [nth]. f_equal. lia. Qed.
Lemma wr_app_r l m k v : 0 <= k -> wr (l ++ m) (Z.of_nat (length l) + k) v = l ++ wr m k v.
Proof. intros. rewrite !wr_insert by lia. rewrite insert_app_r_alt by lia. do 2 f_equal. lia. Qed.

(** the array whose element [i] is [f i] *)
Definition tabulate (n : nat) (f : Z -> Z) : list Z := map (fun i => f (Z.of_nat i)) (seq 0 n).
Lemma length_tabulate n f : length (tabulate n f) = n.
Proof. unfold tabulate. by rewrite length_map, length_seq. Qed.
Lemma rd_tabulate n f i : 0 <= i < Z.of_nat n -> rd (tabulate n f) i = f i.
Proof.
  intros Hi. rewrite rd_nth by lia. unfold tabulate.
  rewrite (nth_indep _ 0 (f (Z.of_nat 0))) by (rewrite length_map, length_seq; lia).
  rewrite (map_nth (fun i => f (Z.of_nat i))), seq_nth by lia. f_equal. lia.
Qed.

(** ** Bit operations as arithmetic *)
Lemma testbit_b2z a n : 0 <= n -> Z.b2z (Z.testbit a n) = (a / 2 ^ n) mod 2.
Proof. apply Z.testbit_spec'. Qed.

Lemma land_pow2_testbit a n : 0 <= n -> nz (Z.land a (Z.shiftl 1 n)) = Z.testbit a n.
Proof.
  intros Hn. unfold nz. destruct (Z.testbit a n) eqn:E.
  - apply negb_true_iff, Z.eqb_neq. intros H0.
    assert (Z.testbit (Z.land a (Z.shiftl 1 n)) n = true) as H1; [|by rewrite H0, Z.bits_0 in H1].
    rewrite Z.land_spec, E, Z.shiftl_spec, Z.sub_diag by lia. done.
  - apply negb_false_iff, Z.eqb_eq. apply Z.bits_inj'. intros k Hk.
    rewrite Z.land_spec, Z.shiftl_spec, Z.bits_0 by lia.
    destruct (decide (k = n)) as [->|]; [by rewrite E|].
    destruct (decide (k < n)).
    + rewrite (Z.testbit_neg_r 1) by lia. apply andb_false_r.
    + change 1 with (2 ^ 0). rewrite Z.pow2_bits_false by lia. apply andb_false_r.
Qed.

Lemma shl1_or1 a : 0 <= a -> Z.lor (2 * a) 1 = 2 * a + 1.
Proof. destruct a; [done | done | lia]. Qed.
Lemma shl1_or_b2z a b : 0 <= a -> Z.lor (2 * a) (Z.b2z b) = 2 * a + Z.b2z b.
Proof. destruct a, b; done. Qed.

Lemma lor_disjoint a b n : 0 <= n -> 0 <= a < 2 ^ n -> Z.lor a (b * 2 ^ n) = a + b * 2 ^ n.
Proof.
  intros Hn Ha. rewrite <- Z.shiftl_mul_pow2 by lia.
  rewrite <- Z.lxor_lor, <- Z.add_nocarry_lxor; try done;
  apply Z.bits_inj'; intros k Hk; rewrite Z.land_spec, Z.shiftl_spec, Z.bits_0 by lia;
  (destruct (decide (k < n)); [rewrite (Z.testbit_neg_r b) by lia; apply andb_false_r |];
   rewrite <- (Z.mod_small a (2 ^ n)), Z.mod_pow2_bits_high by lia; done).
Qed.

(** [(a<<n)|b] for a [b] of [n] bits *)
Lemma lor_shiftl a b n : 0 <= n -> 0 <= b < 2 ^ n -> Z.lor (Z.shiftl a n) b = a * 2 ^ n + b.
Proof. intros. rewrite Z.lor_comm, Z.shiftl_mul_pow2, lor_disjoint by lia. lia. Qed.
(** a mask of the low bits *)
Lemma b2z_range b : 0 <= Z.b2z b <= 1.
Proof. by destruct b. Qed.
Lemma shiftr_bit v k : 0 <= k -> Z.land (Z.shiftr v k) 1 = Z.b2z (Z.testbit v k).
Proof.
  intros. change 1 with (Z.ones 1) at 1. rewrite Z.land_ones, Z.shiftr_div_pow2, testbit_b2z by lia. done.
Qed.
Lemma land_mod a n : 0 <= n -> Z.land a (2 ^ n - 1) = a mod 2 ^ n.
Proof. intros. rewrite Z.sub_1_r, <- Z.ones_equiv. by apply Z.land_ones. Qed.

#[export] Hint Rewrite length_wr Z.shiftl_mul_pow2 Z.shiftr_div_pow2 using lia : succinct_rw.
#[export] Hint Resolve u32_range u8_range : succinct.

(** ** Case analysis on small ranges *)
Lemma below_cases (n : nat) (P : Z -> bool) :
  forallb P (map Z.of_nat (seq 0 n)) = true -> forall c, 0 <= c < Z.of_nat n -> P c = true.
Proof.
  intros H c Hc. rewrite forallb_forall in H. apply H, in_map_iff. exists (Z.to_nat c).
  rewrite in_seq. lia.
Qed.
Lemma byte_cases (P : Z -> bool) :
  forallb P (map Z.of_nat (seq 0 256)) = true -> forall c, 0 <= c < 256 -> P c = true.
Proof. apply below_cases. Qed.
