(* ===== verification/RangeCoder.v ===== *)
(** The range coder of arithmetic.c. *)
From S2P Require Import Prelude.
Local Open Scope Z_scope.
Local Open Scope succinct_scope.

Definition MAXVALUE : Z := 0xffffff.
Definition MAXVALUEPLUS1 : Z := MAXVALUE + 1.
Definition SHIFTUPBITS : Z := 32 - 24.

Record range_coder := RangeCoder {
  low : Z; high : Z; value : Z;
  underflow : Z; errors : Z; decodingP : bool; norescale : bool;
  bit_stream : list Z; bit_stream_length : Z; bits_used : Z;
  out_of_bits : bool (* LOGE("out of bits") has been reported *) }.

Definition set_low v c := RangeCoder v (high c) (value c) (underflow c) (errors c)
  (decodingP c) (norescale c) (bit_stream c) (bit_stream_length c) (bits_used c) (out_of_bits c).
Definition set_high v c := RangeCoder (low c) v (value c) (underflow c) (errors c)
  (decodingP c) (norescale c) (bit_stream c) (bit_stream_length c) (bits_used c) (out_of_bits c).
Definition set_value v c := RangeCoder (low c) (high c) v (underflow c) (errors c)
  (decodingP c) (norescale c) (bit_stream c) (bit_stream_length c) (bits_used c) (out_of_bits c).
Definition set_underflow v c := RangeCoder (low c) (high c) (value c) v (errors c)
  (decodingP c) (norescale c) (bit_stream c) (bit_stream_length c) (bits_used c) (out_of_bits c).
Definition set_errors v c := RangeCoder (low c) (high c) (value c) (underflow c) v
  (decodingP c) (norescale c) (bit_stream c) (bit_stream_length c) (bits_used c) (out_of_bits c).
Definition set_decodingP v c := RangeCoder (low c) (high c) (value c) (underflow c) (errors c)
  v (norescale c) (bit_stream c) (bit_stream_length c) (bits_used c) (out_of_bits c).
Definition set_bits v n c := RangeCoder (low c) (high c) (value c) (underflow c) (errors c)
  (decodingP c) (norescale c) v (bit_stream_length c) n (out_of_bits c).
Definition report_out_of_bits c := RangeCoder (low c) (high c) (value c) (underflow c) (errors c)
  (decodingP c) (norescale c) (bit_stream c) (bit_stream_length c) (bits_used c) true.

(** ** Bit input and output *)
Definition bits2bytes (b : Z) : Z :=
  let extra := if nz (Z.land b 7) then 1 else 0 in
  Z.shiftr b 3 + extra.

Definition range_decode_getnextbit (c : range_coder) : Z * range_coder :=
  if bit_stream_length c <=? bits_used c
  then (0, set_bits (bit_stream c) (u32 (bits_used c + 1)) c)
  else
    let bit := Z.land (rd (bit_stream c) (Z.shiftr (bits_used c) 3))
                      (Z.shiftl 1 (7 - Z.land (bits_used c) 7)) in
    ((if nz bit then 1 else 0), set_bits (bit_stream c) (u32 (bits_used c + 1)) c).

Definition range_emitbit (c : range_coder) (b : Z) : Z * range_coder :=
  if bits_used c >=? bit_stream_length c then (-1, report_out_of_bits c)
  else
    let bit := Z.lxor (Z.land (bits_used c) 7) 7 in
    let k := Z.shiftr (bits_used c) 3 in
    let bs := if bit =? 7 then wr (bit_stream c) k 0 else bit_stream c in
    let bs := if nz b then wr bs k (u8 (Z.lor (rd bs k) (Z.shiftl b bit)))
              else wr bs k (Z.land (rd bs k) (Z.lnot (Z.shiftl b bit))) in
    (0, set_bits bs (u32 (bits_used c + 1)) c).

(** [while (c->underflow-->0) if (emit) if (range_emitbit(c,u)) return -1;] *)
Fixpoint emit_underflow (fuel : nat) (emit : bool) (u : Z) (c : range_coder) : Z * range_coder :=
  match fuel with
  | O => (0, c)
  | S fuel =>
      let more := underflow c >? 0 in
      let c := set_underflow (underflow c - 1) c in
      if more then
        call c <- (if emit then range_emitbit c u else (0, c)) ;;
        emit_underflow fuel emit u c
      else (0, c)
  end.

(** ** Renormalisation *)

(** One turn of the [while] loop of range_rescale; [None] when its guard fails. *)
Definition rescale_step (c : range_coder) : option (Z * range_coder) :=
  if (Z.shiftr (low c) 30 =? 1) && (Z.shiftr (high c) 30 =? 2) then
    let c := set_underflow (underflow c + 1) c in
    let new_low := Z.land (u32 (Z.shiftl (low c) 1)) 0x7fffffff in
    let new_high := Z.lor (Z.lor (u32 (Z.shiftl (high c) 1)) 1) 0x80000000 in
    if new_low >=? new_high then Some (-1, c)
    else
      let c :=
        if decodingP c then
          let value_bits := Z.land (u32 (Z.shiftl (value c) 1)) 0x7ffffffe in
          let c := set_value (Z.lor (Z.land (value c) 0x80000000) value_bits) c in
          let '(nextbit, c) := range_decode_getnextbit c in
          set_value (Z.lor (value c) nextbit) c
        else c in
      Some (0, set_high new_high (set_low new_low c))
  else None.

Fixpoint rescale_loop (fuel : nat) (c : range_coder) : Z * range_coder :=
  match fuel with
  | O => (0, c)
  | S fuel =>
      match rescale_step c with
      | None => (0, c)
      | Some rc => call c <- rc ;; rescale_loop fuel c
      end
  end.

Definition range_rescale (c : range_coder) : Z * range_coder := rescale_loop 33 c.

(** One turn of the [while] loop of range_emit_stable_bits. *)
Definition stable_step (c : range_coder) : option (Z * range_coder) :=
  if Z.land (Z.lxor (low c) (high c)) 0x80000000 =? 0 then
    let msb := Z.shiftr (low c) 31 in
    Some (
      call c <- (if decodingP c then (0, c) else range_emitbit c msb) ;;
      call c <-
        (if nz (underflow c) then
           let u := if nz msb then 0 else 1 in
           call c <- emit_underflow (S (Z.to_nat (underflow c))) (negb (decodingP c)) u c ;;
           (0, set_underflow 0 c)
         else (0, c)) ;;
      let c := set_low (u32 (Z.shiftl (low c) 1)) c in
      let c := set_high (Z.lor (u32 (Z.shiftl (high c) 1)) 1) c in
      if decodingP c then
        let c := set_value (u32 (Z.shiftl (value c) 1)) c in
        let '(nextbit, c) := range_decode_getnextbit c in
        (0, set_value (Z.lor (value c) nextbit) c)
      else (0, c))
  else None.

Fixpoint stable_loop (fuel : nat) (c : range_coder) : Z * range_coder :=
  match fuel with
  | O => (0, c)
  | S fuel =>
      match stable_step c with
      | None => (0, c)
      | Some rc => call c <- rc ;; stable_loop fuel c
      end
  end.

Definition range_emit_stable_bits (c : range_coder) : Z * range_coder :=
  call c <- stable_loop 33 c ;;
  if norescale c then (0, c) else (0, snd (range_rescale c)).

(** ** Debugging aids that fold the underflow back into the state *)
Definition range_unrescale_value (v underflow_bits : Z) : Z :=
  let msb := Z.land v 0x80000000 in
  let o := Z.lor msb (Z.shiftr (Z.land v 0x7fffffff) underflow_bits) in
  if msb =? 0 then
    fold_left (fun o i => Z.lor o (Z.shiftr 0x40000000 (Z.of_nat i)))
              (seq 0 (Z.to_nat underflow_bits)) o
  else o.

Definition range_unrescale (c : range_coder) : Z * range_coder :=
  if nz (underflow c) then
    let u := underflow c in
    let c := set_low (range_unrescale_value (low c) u) c in
    let c := set_value (range_unrescale_value (value c) u) c in
    let c := set_high (range_unrescale_value (high c) u) c in
    (0, set_underflow 0 c)
  else (0, c).

Fixpoint range_emitbits (c : range_coder) (n : nat) : Z * range_coder :=
  match n with
  | O => (0, c)
  | S n =>
      call c <- range_emitbit c (Z.shiftr (low c) 31) ;;
      let c := set_low (u32 (Z.shiftl (low c) 1)) c in
      let c := set_high (Z.lor (u32 (Z.shiftl (high c) 1)) 1) c in
      range_emitbits c n
  end.

(** ** Encoding *)
Definition range_space (c : range_coder) : Z :=
  Z.land (u64 (high c - low c)) 0xffffff00.

Definition _range_check (c : range_coder) : Z :=
  if low c >=? high c then -1
  else if negb (decodingP c) then 0
  else if (value c >? high c) || (value c <? low c) then -1
  else 0.

(** returns the error code, [*new_low], [*new_high] and the coder *)
Definition range_calc_new_range (c : range_coder) (p_low p_high : Z)
  : Z * Z * Z * range_coder :=
  let space := range_space c in
  if space <? MAXVALUEPLUS1 then (-1, 0, 0, set_errors (errors c + 1) c)
  else
    let new_low := u32 (low c + Z.shiftr (u64 (p_low * space)) (32 - SHIFTUPBITS)) in
    let new_high := u32 (low c + Z.shiftr (u64 (p_high * space)) (32 - SHIFTUPBITS) - 1) in
    let new_high := if p_high >=? MAXVALUEPLUS1 then high c else new_high in
    if decodingP c && ((new_low >? value c) || (new_high <? value c))
    then (-1, new_low, new_high, c)
    else (0, new_low, new_high, c).

Definition range_encode (c : range_coder) (p_low p_high : Z) : Z * range_coder :=
  if p_low >? p_high then (-1, c)
  else if (p_low >? MAXVALUE) || (p_high >? MAXVALUEPLUS1) then (-1, c)
  else
    let '(r, new_low, new_high, c) := range_calc_new_range c p_low p_high in
    if nz r then (-1, c)
    else
      let c := set_high new_high (set_low new_low c) in
      let p_diff := u32 (p_high - p_low) in
      let p_range := u64 (Z.shiftl p_diff SHIFTUPBITS) in
      (* this_entropy = -log2 (p_range / 2^32) is negative *)
      if p_range >? 0x100000000 then (-1, c)
      else call c <- range_emit_stable_bits c ;; (0, c).

(** [*p_low], [*p_high] *)
Definition range_equiprobable_range (alphabet_size symbol : Z) : Z * Z :=
  let p_low := u32 (u64 (u64 symbol * 0xffffff) / u64 alphabet_size) in
  let p_high := u32 (u64 (u64 (1 + u64 symbol) * 0xffffff) / u64 alphabet_size) in
  (p_low, if symbol =? alphabet_size - 1 then 0xffffff else p_high).

Definition encode_equiprobable_small (c : range_coder) (alphabet_size symbol : Z) : Z * range_coder :=
  if alphabet_size <? 1 then (0, c)
  else
    let '(p_low, p_high) := range_equiprobable_range alphabet_size symbol in
    range_encode c p_low p_high.

(** The recursive calls are on alphabets below 0x400000, where the function
    does not recurse again ([encode_equiprobable_small]). *)
Definition range_encode_equiprobable (c : range_coder) (alphabet_size symbol : Z) : Z * range_coder :=
  if alphabet_size >=? 0x400000 then
    run c <- encode_equiprobable_small c (1 + Z.quot alphabet_size 0x10000) (Z.quot symbol 0x10000) ;;
    run c <- encode_equiprobable_small c 0x10000 (Z.land symbol 0xffff) ;;
    (0, c)
  else encode_equiprobable_small c alphabet_size symbol.

Definition range_encode_symbol (c : range_coder) (frequencies : list Z)
    (alphabet_size symbol : Z) : Z * range_coder :=
  if nz (errors c) then (-1, c)
  else
    let p_low := if symbol >? 0 then rd frequencies (symbol - 1) else 0 in
    let p_high := if symbol <? alphabet_size - 1 then rd frequencies symbol else MAXVALUEPLUS1 in
    range_encode c p_low p_high.

(** [while((1<<bits)<len) { range_encode_equiprobable(c,2,1); bits++; }] *)
Fixpoint encode_length_prefix (fuel : nat) (c : range_coder) (bits len : Z) : Z * range_coder :=
  match fuel with
  | O => (bits, c)
  | S fuel =>
      if Z.shiftl 1 bits <? len then
        run c <- range_encode_equiprobable c 2 1 ;;
        encode_length_prefix fuel c (bits + 1) len
      else (bits, c)
  end.

Fixpoint encode_length_bits (n : nat) (c : range_coder) (len : Z) : range_coder :=
  match n with
  | O => c
  | S i =>
      encode_length_bits i
        (snd (range_encode_equiprobable c 2 (Z.land (Z.shiftr len (Z.of_nat i)) 1))) len
  end.

Definition range_encode_length (c : range_coder) (len : Z) : Z * range_coder :=
  let '(bits, c) := encode_length_prefix 32 c 0 len in
  run c <- range_encode_equiprobable c 2 0 ;;
  (0, encode_length_bits (Z.to_nat bits) c len).

(** ** Flushing *)

(** The search loop: the number of leading bits of [mean] to output, [None]
    when 32 bits would be needed.  [v] and [mask] are those of [bits]. *)
Fixpoint conclude_search (fuel : nat) (lo hi mean bits v mask : Z) : option Z :=
  if (v <? lo) || (u32 (v + mask) >? hi) then
    match fuel with
    | O => None
    | S fuel =>
        let bits := bits + 1 in
        if bits >=? 32 then None
        else conclude_search fuel lo hi mean bits
               (u32 (Z.shiftl (Z.shiftr mean (32 - bits)) (32 - bits)))
               (Z.shiftr 0xffffffff bits)
    end
  else Some bits.

(** [for(i=0;i<bits;i++) if (range_emitbit(c,(v>>(31-i))&1)) return -1;] *)
Fixpoint emit_msbs (n : nat) (i v : Z) (c : range_coder) : Z * range_coder :=
  match n with
  | O => (0, c)
  | S n =>
      call c <- range_emitbit c (Z.land (Z.shiftr v (31 - i)) 1) ;;
      emit_msbs n (i + 1) v c
  end.

Definition range_conclude (c : range_coder) : Z * range_coder :=
  let mean := u32 (u32 (high c - low c) / 2 + low c) in
  let msb := Z.land (Z.shiftr mean 31) 1 in
  call c <- range_emitbit c msb ;;
  (* the loop leaves underflow decremented below 0, as the C loop does *)
  call c <- emit_underflow (S (Z.to_nat (underflow c))) true (Z.lxor msb 1) c ;;
  let c := set_low (Z.land (u32 (Z.shiftl (low c) 1)) 0x7fffffff) c in
  let c := set_high (Z.lor (u32 (Z.shiftl (high c) 1)) 0x80000001) c in
  let mean := u32 (u32 (high c - low c) / 2 + low c) in
  match conclude_search 32 (low c) (high c) mean 0 0 (-1) with
  | None => (-1, c)
  | Some bits =>
      let v := u32 (Z.shiftl (Z.shiftr mean (32 - bits)) (32 - bits)) in
      let v := Z.lor v (Z.shiftr 0xffffffff bits) in
      emit_msbs (Z.to_nat bits) 0 v c
  end.

(** ** Decoding *)
Definition range_decode_common (c : range_coder) (p_low p_high s : Z) : Z * range_coder :=
  if (bits_used c >=? bit_stream_length c) && (low c >=? high c) then (-1, c)
  else if nz (_range_check c) then (-1, c)
  else
    let '(r, new_low, new_high, c) := range_calc_new_range c p_low p_high in
    if nz r then (-1, c)
    else
      let new_high := if new_high >? 0xffffffff then 0xffffffff else new_high in
      let c := set_decodingP true c in
      if nz (_range_check c) then (-1, c)
      else if (new_low >? value c) || (new_high <? value c) then (-1, c)
      else
        let c := set_high new_high (set_low new_low c) in
        if nz (_range_check c) then (-1, c)
        else
          run c <- range_emit_stable_bits c ;;
          (0, set_decodingP false c).

(** [for(symbol=...;symbol<s+2&&symbol<alphabet_size;symbol++)]: the first
    symbol that range_decode_common accepts. *)
Fixpoint decode_equiprobable_try (fuel : nat) (c : range_coder) (alphabet_size s symbol : Z)
  : option Z * range_coder :=
  match fuel with
  | O => (None, c)
  | S fuel =>
      if (u32 symbol <? u32 (s + 2)) && (symbol <? alphabet_size) then
        let '(p_low, p_high) := range_equiprobable_range alphabet_size symbol in
        let '(r, c) := range_decode_common c p_low p_high symbol in
        if r =? 0 then (Some symbol, c)
        else decode_equiprobable_try fuel c alphabet_size s (symbol + 1)
      else (None, c)
  end.

(** The diagnostic loop after a failure: the same calls, results dropped. *)
Fixpoint decode_equiprobable_diag (fuel : nat) (c : range_coder) (alphabet_size s symbol : Z)
  : range_coder :=
  match fuel with
  | O => c
  | S fuel =>
      if (u32 symbol <? u32 (s + 2)) && (symbol <? alphabet_size) then
        let '(p_low, p_high) := range_equiprobable_range alphabet_size symbol in
        decode_equiprobable_diag fuel (snd (range_decode_common c p_low p_high symbol))
          alphabet_size s (symbol + 1)
      else c
  end.

Definition decode_equiprobable_small (c : range_coder) (alphabet_size : Z) : Z * range_coder :=
  if alphabet_size <? 1 then (0, c)
  else
    let space := range_space c in
    let v := u32 (value c - low c) in
    let s := u32 (u64 (v * u64 alphabet_size) / space) in
    let first := if nz s then i32 (s - 1) else 0 in
    match decode_equiprobable_try 4 c alphabet_size s first with
    | (Some symbol, c) => (symbol, c)
    | (None, c) => (-1, decode_equiprobable_diag 4 c alphabet_size s first)
    end.

Definition range_decode_equiprobable (c : range_coder) (alphabet_size : Z) : Z * range_coder :=
  if alphabet_size >=? 0x400000 then
    let '(hi, c) := decode_equiprobable_small c (1 + Z.quot alphabet_size 0x10000) in
    let '(lo, c) := decode_equiprobable_small c 0x10000 in
    (i32 (Z.lor (u32 lo) (u32 (Z.shiftl (u32 hi) 16))), c)
  else decode_equiprobable_small c alphabet_size.

(** the symbol whose interval contains [value]: the [for] loop over [s] *)
Fixpoint decode_symbol_search (n : nat) (s : Z) (c : range_coder) (frequencies : list Z) : Z :=
  match n with
  | O => s
  | S n =>
      let boundary := u32 (low c + Z.shiftr (u64 (rd frequencies s * range_space c)) (32 - SHIFTUPBITS)) in
      if value c <? boundary then s else decode_symbol_search n (s + 1) c frequencies
  end.

Definition range_decode_symbol (c : range_coder) (frequencies : list Z) (alphabet_size : Z)
  : Z * range_coder :=
  let c := set_decodingP false c in
  let s := decode_symbol_search (Z.to_nat (alphabet_size - 1)) 0 c frequencies in
  let p_low := if s >? 0 then rd frequencies (s - 1) else 0 in
  let p_high := if s <? alphabet_size - 1 then rd frequencies s else MAXVALUEPLUS1 in
  let '(r, c) := range_decode_common c p_low p_high s in
  if nz r then (-1, c) else (s, c).

(** [for(i=0;i<32;i++) c->value=(c->value<<1)|range_decode_getnextbit(c);] *)
Fixpoint prefetch_bits (n : nat) (c : range_coder) : range_coder :=
  match n with
  | O => c
  | S n =>
      let v := u32 (Z.shiftl (value c) 1) in
      let '(bit, c) := range_decode_getnextbit c in
      prefetch_bits n (set_value (Z.lor v bit) c)
  end.

Definition range_decode_prefetch (c : range_coder) : range_coder :=
  prefetch_bits 32 (set_value 0 (set_high 0xffffffff (set_low 0 c))).

(** ** Creation and copies *)
Definition range_coder_reset (c : range_coder) : range_coder :=
  RangeCoder 0 0xffffffff (value c) 0 0 (decodingP c) (norescale c)
    (bit_stream c) (bit_stream_length c) 0 (out_of_bits c).

(** [mem] is the block returned by [malloc(bytes)]: its contents are
    unspecified, its length is [bytes]. *)
Definition range_new_coder (mem : list Z) (bytes : Z) : range_coder :=
  range_coder_reset
    (RangeCoder 0 0 0 0 0 false false (if nz bytes then mem else []) (bytes * 8) 0 false).

(** [mem] is the block returned by [malloc]; [None] is the NULL result. *)
Definition range_coder_dup (mem : list Z) (c : range_coder) : option range_coder :=
  if bits_used c >? bit_stream_length c then None
  else
    let n := Z.to_nat (bits2bytes (bits_used c)) in
    Some (set_bits (take n (bit_stream c) ++ drop n mem) (bits_used c) c).
