(* ===== verification/RangeBits.v ===== *)
(** Bits of the range coder's stream, and its 32-bit register operations as
    arithmetic. *)
From S2P Require Import Prelude RangeCoder.
Local Open Scope Z_scope.
Local Open Scope succinct_scope.

(** ** The register operations *)
Lemma testbit31 a : 0 <= a < 2 ^ 32 -> Z.testbit a 31 = (2 ^ 31 <=? a).
Proof.
  intros. apply Z.b2z_inj. rewrite testbit_b2z by lia.
  destruct (Z.leb_spec (2 ^ 31) a); simpl Z.b2z; divmod.
Qed.

Lemma msb_differ_spec a b : 0 <= a < 2 ^ 32 -> 0 <= b < 2 ^ 32 ->
  (Z.land (Z.lxor a b) 0x80000000 =? 0) = (a / 2 ^ 31 =? b / 2 ^ 31).
Proof.
  intros Ha Hb. change 0x80000000 with (Z.shiftl 1 31).
  assert (forall z, (z =? 0) = negb (nz z)) as -> by (intros; unfold nz; by rewrite negb_involutive).
  rewrite land_pow2_testbit, Z.lxor_spec, !testbit31 by lia.
  destruct (Z.leb_spec (2 ^ 31) a), (Z.leb_spec (2 ^ 31) b); simpl; symmetry;
    first [apply Z.eqb_eq | apply Z.eqb_neq]; divmod.
Qed.

Lemma u32_shl1 a : 0 <= a < 2 ^ 32 -> u32 (Z.shiftl a 1) = 2 * (a mod 2 ^ 31).
Proof. intros. unfold u32. rewrite Z.shiftl_mul_pow2 by lia. divmod. Qed.

Lemma lor_shl1_1 a : 0 <= a < 2 ^ 32 -> Z.lor (u32 (Z.shiftl a 1)) 1 = 2 * (a mod 2 ^ 31) + 1.
Proof. intros. rewrite u32_shl1, shl1_or1; [done | divmod | done]. Qed.

Lemma lor_shl1_b2z a b : 0 <= a < 2 ^ 32 ->
  Z.lor (u32 (Z.shiftl a 1)) (Z.b2z b) = 2 * (a mod 2 ^ 31) + Z.b2z b.
Proof. intros. rewrite u32_shl1, shl1_or_b2z; [done | divmod | done]. Qed.

Lemma rescale_guard_spec a b : 0 <= a -> 0 <= b ->
  (Z.shiftr a 30 =? 1) && (Z.shiftr b 30 =? 2)
  = ((2 ^ 30 <=? a) && (a <? 2 ^ 31)) && ((2 ^ 31 <=? b) && (b <? 3 * 2 ^ 30)).
Proof.
  intros. rewrite !Z.shiftr_div_pow2 by lia. apply eq_true_iff_eq.
  rewrite !andb_true_iff, !Z.eqb_eq, !Z.leb_le, !Z.ltb_lt. divmod.
Qed.

Lemma rescale_low a : 2 ^ 30 <= a < 2 ^ 31 ->
  Z.land (u32 (Z.shiftl a 1)) 0x7fffffff = 2 * a - 2 ^ 31.
Proof.
  intros. change 0x7fffffff with (Z.ones 31). rewrite Z.land_ones, u32_shl1 by lia. divmod.
Qed.

Lemma rescale_high a : 2 ^ 31 <= a < 3 * 2 ^ 30 ->
  Z.lor (Z.lor (u32 (Z.shiftl a 1)) 1) 0x80000000 = 2 * a - 2 ^ 31 + 1.
Proof.
  intros. rewrite lor_shl1_1 by lia. change 0x80000000 with (1 * 2 ^ 31).
  rewrite lor_disjoint; divmod.
Qed.

Lemma land_msb a : 0 <= a < 2 ^ 32 -> Z.land a 0x80000000 = 2 ^ 31 * (a / 2 ^ 31).
Proof.
  intros. change 0x80000000 with (Z.shiftl 1 31).
  apply Z.bits_inj'. intros k Hk.
  rewrite Z.land_spec, (Z.mul_comm (2 ^ 31)), <- Z.shiftl_mul_pow2, <- Z.shiftr_div_pow2 by lia.
  rewrite !Z.shiftl_spec by lia.
  destruct (decide (k < 31)); [rewrite !(Z.testbit_neg_r _ (k - 31)) by lia; apply andb_false_r|].
  rewrite Z.shiftr_spec by lia. replace (k - 31 + 31) with k by lia.
  destruct (decide (k = 31)) as [->|]; [by rewrite andb_true_r|].
  rewrite <- (Z.mod_small a (2 ^ 32)), Z.mod_pow2_bits_high by lia. done.
Qed.

Lemma rescale_value_bits a : 0 <= a < 2 ^ 32 ->
  Z.land (u32 (Z.shiftl a 1)) 0x7ffffffe = 2 * (a mod 2 ^ 30).
Proof.
  intros. rewrite u32_shl1 by lia. change 0x7ffffffe with (2 * Z.ones 30).
  rewrite !(Z.mul_comm 2). change 2 with (2 ^ 1) at 3 5.
  rewrite <- !(Z.shiftl_mul_pow2 _ 1), <- Z.shiftl_land, Z.land_ones by lia. f_equal. divmod.
Qed.

Lemma rescale_value a b : 0 <= a < 2 ^ 32 ->
  Z.lor (Z.lor (Z.land a 0x80000000) (Z.land (u32 (Z.shiftl a 1)) 0x7ffffffe)) (Z.b2z b)
  = 2 ^ 31 * (a / 2 ^ 31) + 2 * (a mod 2 ^ 30) + Z.b2z b.
Proof.
  intros. rewrite land_msb, rescale_value_bits by lia.
  rewrite Z.lor_comm with (b := 2 * _), (Z.mul_comm (2 ^ 31)), lor_disjoint by divmod.
  replace (2 * (a mod 2 ^ 30) + a / 2 ^ 31 * 2 ^ 31)
    with (2 * (a mod 2 ^ 30 + a / 2 ^ 31 * 2 ^ 30)) by lia.
  rewrite shl1_or_b2z; divmod.
Qed.

(** ** The bits of a byte array, most significant first *)
Definition bitat (bs : list Z) (i : Z) : bool := Z.testbit (rd bs (i / 8)) (7 - i mod 8).

Lemma land7 a : Z.land a 7 = a mod 8.
Proof. change 7 with (Z.ones 3). by rewrite Z.land_ones. Qed.

Lemma lxor7 a : 0 <= a < 8 -> Z.lxor a 7 = 7 - a.
Proof.
  intros. assert (a = 0 \/ a = 1 \/ a = 2 \/ a = 3 \/ a = 4 \/ a = 5 \/ a = 6 \/ a = 7) as Ha by lia.
  repeat (destruct Ha as [-> | Ha]; [done|]). by subst.
Qed.

Lemma range_decode_getnextbit_spec c : 0 <= bits_used c -> bits_used c + 1 < 2 ^ 32 ->
  range_decode_getnextbit c =
  (Z.b2z (if bits_used c <? bit_stream_length c then bitat (bit_stream c) (bits_used c) else false),
   set_bits (bit_stream c) (bits_used c + 1) c).
Proof.
  intros. unfold range_decode_getnextbit. rewrite u32_small by lia.
  destruct (Z.leb_spec (bit_stream_length c) (bits_used c)), (Z.ltb_spec (bits_used c) (bit_stream_length c)); try lia.
  - done.
  - rewrite Z.shiftr_div_pow2, land7 by lia. change (2 ^ 3) with 8.
    rewrite land_pow2_testbit by divmod. unfold bitat. by destruct (Z.testbit _ _).
Qed.

(** ** Appending bits to the encoder's stream *)
Record appended_bits (bs : list Z) (n : Z) (bs' : list Z) (n' : Z) (l : list bool) : Prop := {
  app_used : n' = n + Z.of_nat (length l);
  app_len : length bs' = length bs;
  app_old : forall i, 0 <= i < n -> bitat bs' i = bitat bs i;
  app_new : forall k b, l !! k = Some b -> bitat bs' (n + Z.of_nat k) = b
}.
Definition appended (c c' : range_coder) (l : list bool) : Prop :=
  appended_bits (bit_stream c) (bits_used c) (bit_stream c') (bits_used c') l.

Lemma appended_nil c c' : bits_used c' = bits_used c -> bit_stream c' = bit_stream c -> appended c c' [].
Proof. intros H1 H2. split; [rewrite H1; simpl; lia | by rewrite H2 | by rewrite H2 | done]. Qed.

Lemma appended_trans c1 c2 c3 l1 l2 : 0 <= bits_used c1 ->
  appended c1 c2 l1 -> appended c2 c3 l2 -> appended c1 c3 (l1 ++ l2).
Proof.
  intros H0 H1 H2. split.
  - rewrite (app_used _ _ _ _ _ H2), (app_used _ _ _ _ _ H1), length_app. lia.
  - rewrite (app_len _ _ _ _ _ H2). apply (app_len _ _ _ _ _ H1).
  - intros i Hi. rewrite (app_old _ _ _ _ _ H2) by (rewrite (app_used _ _ _ _ _ H1); lia).
    by apply (app_old _ _ _ _ _ H1).
  - intros k b Hk. apply lookup_app_Some in Hk as [Hk | [Hge Hk]].
    + rewrite (app_old _ _ _ _ _ H2); [by apply (app_new _ _ _ _ _ H1)|].
      rewrite (app_used _ _ _ _ _ H1). apply lookup_lt_Some in Hk. lia.
    + rewrite <- (app_new _ _ _ _ _ H2 _ _ Hk). f_equal. rewrite (app_used _ _ _ _ _ H1). lia.
Qed.

(** the static part of the encoder's well-formedness: its buffer *)
Record buffer_bits (bs : list Z) (len n : Z) : Prop := {
  buf_used : 0 <= n <= len;
  buf_len : len <= 8 * Z.of_nat (length bs);
  buf_cap : len < 2 ^ 31;
  (* the part of the current byte that is not used yet is clear *)
  buf_tail : n mod 8 <> 0 -> forall i, n <= i -> i / 8 = n / 8 -> bitat bs i = false
}.
Definition buffer_ok (c : range_coder) : Prop :=
  buffer_bits (bit_stream c) (bit_stream_length c) (bits_used c).

Lemma testbit_setbit_u8 x b m k : 0 <= m < 8 -> 0 <= k < 8 ->
  Z.testbit (u8 (Z.lor x (Z.shiftl b m))) k = Z.testbit x k || Z.testbit (Z.shiftl b m) k.
Proof.
  intros. unfold u8. rewrite Z.mod_pow2_bits_low, Z.lor_spec by lia. done.
Qed.

(** what range_emitbit stores in the current byte, bit by bit *)
Definition emit_byte (x bit : Z) (b : bool) : Z :=
  let x := if bit =? 7 then 0 else x in
  if b then u8 (Z.lor x (Z.shiftl 1 bit)) else Z.land x (Z.lnot (Z.shiftl 0 bit)).

Lemma emit_byte_new x bit b : 0 <= bit < 8 ->
  (bit = 7 \/ Z.testbit x bit = false) -> Z.testbit (emit_byte x bit b) bit = b.
Proof.
  intros Hb Hz. unfold emit_byte.
  assert (Z.testbit (if bit =? 7 then 0 else x) bit = false) as Hx.
  { destruct (Z.eqb_spec bit 7); [apply Z.bits_0|]. destruct Hz; [done|]. done. }
  destruct b.
  - rewrite testbit_setbit_u8, Z.shiftl_spec, Z.sub_diag, Hx by lia. done.
  - by rewrite Z.shiftl_0_l, Z.lnot_0, Z.land_m1_r.
Qed.

Lemma emit_byte_old x bit b k : 0 <= bit < 8 -> bit < k < 8 ->
  Z.testbit (emit_byte x bit b) k = Z.testbit x k.
Proof.
  intros Hb Hk. unfold emit_byte. destruct (Z.eqb_spec bit 7); [lia|].
  destruct b.
  - rewrite testbit_setbit_u8, Z.shiftl_spec by lia.
    change 1 with (2 ^ 0). rewrite Z.pow2_bits_false by lia. apply orb_false_r.
  - by rewrite Z.shiftl_0_l, Z.lnot_0, Z.land_m1_r.
Qed.

Lemma emit_byte_low x bit b k : 0 <= bit < 8 -> 0 <= k < bit ->
  Z.testbit (emit_byte x bit b) k = if bit =? 7 then false else Z.testbit x k.
Proof.
  intros Hb Hk. unfold emit_byte. destruct b.
  - rewrite testbit_setbit_u8, Z.shiftl_spec, (Z.testbit_neg_r 1) by lia.
    rewrite orb_false_r. destruct (bit =? 7); [apply Z.bits_0 | done].
  - rewrite Z.shiftl_0_l, Z.lnot_0, Z.land_m1_r. destruct (bit =? 7); [apply Z.bits_0 | done].
Qed.

Lemma range_emitbit_stores c b : buffer_ok c -> bits_used c < bit_stream_length c ->
  range_emitbit c (Z.b2z b) =
  (0, set_bits (wr (bit_stream c) (bits_used c / 8)
                  (emit_byte (rd (bit_stream c) (bits_used c / 8)) (7 - bits_used c mod 8) b))
               (bits_used c + 1) c).
Proof.
  intros [Hu Hl Hc _] Hlt. unfold range_emitbit, emit_byte.
  destruct (Z.geb_spec (bits_used c) (bit_stream_length c)); [lia|].
  rewrite Z.shiftr_div_pow2, land7, lxor7 by divmod. change (2 ^ 3) with 8.
  rewrite u32_small by lia. set (k := bits_used c / 8). assert (0 <= k < Z.of_nat (length (bit_stream c))) by (unfold k; divmod).
  f_equal. f_equal.
  assert (forall v w, wr (wr (bit_stream c) k v) k w = wr (bit_stream c) k w) as Hww.
  { intros. rewrite !wr_insert by lia. apply list_insert_insert_eq. }
  destruct (7 - bits_used c mod 8 =? 7), b; simpl Z.b2z; unfold nz; simpl negb; cbv iota;
    rewrite ?Hww, ?rd_wr_eq by done; done.
Qed.

Lemma range_emitbit_full c b : bit_stream_length c <= bits_used c ->
  range_emitbit c b = (-1, report_out_of_bits c).
Proof. intros. unfold range_emitbit. destruct (Z.geb_spec (bits_used c) (bit_stream_length c)); [done | lia]. Qed.

Definition bits_only (c c' : range_coder) : Prop :=
  exists bs n, c' = set_bits bs n c.

Lemma range_emitbit_appends c b : buffer_ok c -> bits_used c < bit_stream_length c ->
  exists c', range_emitbit c (Z.b2z b) = (0, c') /\ bits_only c c' /\ buffer_ok c' /\ appended c c' [b].
Proof.
  intros Hok Hlt. rewrite range_emitbit_stores by done. eexists. split; [done|]. split; [by do 2 eexists|].
  pose proof Hok as [Hu Hl Hc Ht]. set (k := bits_used c / 8). set (x := rd (bit_stream c) k).
  set (bit := 7 - bits_used c mod 8).
  assert (0 <= k < Z.of_nat (length (bit_stream c))) by (unfold k; divmod).
  assert (0 <= bit < 8) by (unfold bit; divmod).
  assert (bit = 7 \/ Z.testbit x bit = false) as Hz.
  { destruct (decide (bit = 7)); [by left | right].
    assert (bits_used c mod 8 <> 0) as Hm by (unfold bit in *; divmod).
    specialize (Ht Hm (bits_used c) ltac:(lia) eq_refl). done. }
  assert (forall i, 0 <= i -> i / 8 <> k -> bitat (wr (bit_stream c) k (emit_byte x bit b)) i = bitat (bit_stream c) i) as Hother.
  { intros i Hi Hne. unfold bitat. rewrite rd_wr_ne by divmod. done. }
  assert (forall i, i / 8 = k -> bitat (wr (bit_stream c) k (emit_byte x bit b)) i = Z.testbit (emit_byte x bit b) (7 - i mod 8)) as Hsame.
  { intros i Hi. unfold bitat at 1. rewrite Hi, rd_wr_eq by done. done. }
  split; split; simpl; rewrite ?length_wr; try lia; try done.
  - (* the tail stays clear *)
    intros Hm i Hi Hd. assert (i / 8 = k) as Hk by (unfold k; divmod).
    rewrite Hsame by done. rewrite emit_byte_low by (unfold bit, k in *; divmod).
    destruct (Z.eqb_spec bit 7) as [|Hb7]; [done|].
    assert (bitat (bit_stream c) i = false) as <-; [|unfold bitat, x; by rewrite Hk].
    apply Ht; [unfold bit in *; divmod | lia | done].
  - intros i Hi. destruct (decide (i / 8 = k)) as [Hk|]; [|by apply Hother; lia].
    rewrite Hsame by done. rewrite emit_byte_old by (unfold bit, k in *; divmod).
    unfold bitat, x. by rewrite Hk.
  - intros [|j] b' Hj; [|done]. simpl in Hj. injection Hj as <-. rewrite Z.add_0_r.
    rewrite Hsame by done. by apply emit_byte_new.
Qed.
