(* ===== verification/RangeSim.v ===== *)
(** The encoder and the decoder of the range coder move in step: the
    renormalisation loops. *)
From S2P Require Import Prelude RangeCoder RangeBits.
Local Open Scope Z_scope.
Local Open Scope succinct_scope.

(** ** Emitting runs of bits *)
Lemma emit_underflow_cases n c b : buffer_ok c -> underflow c = Z.of_nat n ->
  (exists bs k, let c' := set_underflow (-1) (set_bits bs k c) in
     emit_underflow (S n) true (Z.b2z b) c = (0, c') /\ buffer_ok c' /\
     appended c c' (replicate n b)) \/
  (exists c', emit_underflow (S n) true (Z.b2z b) c = (-1, c') /\ out_of_bits c' = true /\
     bit_stream_length c < bits_used c + Z.of_nat n).
Proof.
  revert c. induction n as [|n IH]; intros c Hok Hu.
  - left. exists (bit_stream c), (bits_used c). simpl. rewrite Hu. split; [done|].
    split; [exact Hok|]. by apply appended_nil.
  - cbn [emit_underflow]. rewrite Hu.
    destruct (Z.gtb_spec (Z.of_nat (S n)) 0) as [_|]; [|lia].
    set (c1 := set_underflow (Z.of_nat (S n) - 1) c).
    assert (buffer_ok c1) as Hok1 by done.
    destruct (decide (bits_used c < bit_stream_length c)) as [Hlt|Hge].
    + destruct (range_emitbit_appends c1 b Hok1 Hlt) as (c2 & He & (bs & k & ->) & Hok2 & Happ).
      rewrite He. cbn [Z.eqb].
      destruct (IH _ Hok2 ltac:(simpl; lia)) as [(bs' & k' & He' & Hok' & Happ') | (c' & He' & Hb & Hl)].
      * left. exists bs', k'.
        split; [exact He'|]. split; [exact Hok'|].
        change (replicate (S n) b) with ([b] ++ replicate n b).
        destruct Hok. eapply appended_trans; [lia | exact Happ | exact Happ'].
      * right. exists c'. split; [exact He'|]. split; [done|].
        pose proof (app_used _ _ _ _ _ Happ) as Hn. simpl in Hl, Hn. lia.
    + right. rewrite range_emitbit_full by (simpl; lia). cbn [Z.eqb]. eexists. split; [done|].
      split; [done|]. simpl in *. lia.
Qed.

(** when nothing is emitted the loop only clears the counter *)
Lemma emit_underflow_quiet n u c : (Z.to_nat (underflow c) <= n)%nat ->
  exists w, emit_underflow (S n) false u c = (0, set_underflow w c).
Proof.
  revert c. induction n as [|n IH]; intros c Hn; cbn [emit_underflow].
  - destruct (Z.gtb_spec (underflow c) 0); [lia|]. by eexists.
  - destruct (Z.gtb_spec (underflow c) 0); [|by eexists]. cbn [Z.eqb].
    destruct (IH (set_underflow (underflow c - 1) c) ltac:(simpl; lia)) as [w Hw].
    exists w. exact Hw.
Qed.

(** ** One turn of the loops, on the encoder *)
Record enc_wf (c : range_coder) : Prop := {
  wf_buffer : buffer_ok c;
  wf_low : 0 <= low c < 2 ^ 32;
  wf_high : 0 <= high c < 2 ^ 32;
  wf_order : low c < high c;
  wf_underflow : 0 <= underflow c;
  wf_encoding : decodingP c = false;
  wf_rescales : norescale c = false;
  wf_errors : errors c = 0
}.

(** the position the encoder stands for: bits written and bits owed *)
Definition pos (c : range_coder) : Z := bits_used c + underflow c.

Definition msb_of (c : range_coder) : bool := 2 ^ 31 <=? low c.

Lemma shiftr31 a : 0 <= a < 2 ^ 32 -> Z.shiftr a 31 = Z.b2z (2 ^ 31 <=? a).
Proof. intros. rewrite Z.shiftr_div_pow2 by lia. destruct (Z.leb_spec (2 ^ 31) a); simpl Z.b2z; divmod. Qed.

Lemma stable_step_none c : 0 <= low c < 2 ^ 32 -> 0 <= high c < 2 ^ 32 ->
  stable_step c = None <-> low c / 2 ^ 31 <> high c / 2 ^ 31.
Proof.
  intros. unfold stable_step. rewrite msb_differ_spec by done.
  destruct (Z.eqb_spec (low c / 2 ^ 31) (high c / 2 ^ 31)); split; done.
Qed.

Definition shifted_enc (c : range_coder) (bs : list Z) (n : Z) : range_coder :=
  RangeCoder (2 * (low c mod 2 ^ 31)) (2 * (high c mod 2 ^ 31) + 1) (value c) 0 (errors c)
    (decodingP c) (norescale c) bs (bit_stream_length c) n (out_of_bits c).

Lemma stable_step_enc c : enc_wf c -> low c / 2 ^ 31 = high c / 2 ^ 31 ->
  (exists bs n, let c' := shifted_enc c bs n in
     stable_step c = Some (0, c') /\ enc_wf c' /\ pos c' = pos c + 1 /\
     appended c c' (msb_of c :: replicate (Z.to_nat (underflow c)) (negb (msb_of c)))) \/
  (exists c', stable_step c = Some (-1, c') /\ out_of_bits c' = true /\
     bit_stream_length c < pos c + 1).
Proof.
  intros [Hok Hl Hh Hlh Hu Hd Hn He] Heq. unfold stable_step, msb_of, pos.
  rewrite msb_differ_spec by done. destruct (Z.eqb_spec (low c / 2 ^ 31) (high c / 2 ^ 31)) as [_|]; [|done].
  rewrite Hd, shiftr31 by done. set (m := 2 ^ 31 <=? low c).
  destruct (decide (bits_used c < bit_stream_length c)) as [Hlt|Hge].
  2: { right. rewrite range_emitbit_full by lia. eexists. split; [done|]. split; [done|]. lia. }
  destruct (range_emitbit_appends c m Hok Hlt) as (c1 & E1 & (bs & k & ->) & Hok1 & Happ1).
  rewrite E1. cbn [Z.eqb underflow set_bits decodingP].
  assert ((if nz (Z.b2z m) then 0 else 1) = Z.b2z (negb m)) as -> by (by destruct m).
  rewrite Hd. cbn [negb]. destruct (nz (underflow c)) eqn:Enz.
  - destruct (emit_underflow_cases (Z.to_nat (underflow c)) (set_bits bs k c) (negb m) Hok1 ltac:(simpl; lia))
      as [(bs2 & k2 & E2 & Hok2 & Happ2) | (c2 & E2 & Hb2 & Hl2)]; rewrite E2; cbn [Z.eqb].
    + left. exists bs2, k2.
      assert (appended c (shifted_enc c bs2 k2) (m :: replicate (Z.to_nat (underflow c)) (negb m))) as Happ.
      { change (m :: ?l) with ([m] ++ l). destruct Hok. eapply appended_trans; [lia| |].
        { exact Happ1. }
        exact Happ2. }
      split; [|split; [|split; [|exact Happ]]].
      * simpl. rewrite Hd, lor_shl1_1, u32_shl1 by done. done.
      * split; simpl; try done; divmod.
      * pose proof (app_used _ _ _ _ _ Happ) as Hx. simpl in Hx |- *. rewrite length_replicate in Hx. lia.
    + right. eexists. split; [done|]. split; [done|].
      pose proof (app_used _ _ _ _ _ Happ1) as Hx. simpl in *. lia.
  - left. exists bs, k. unfold nz in Enz. b2p. rewrite Enz.
    assert (appended c (shifted_enc c bs k) [m]) as Happ.
    { exact Happ1. }
    split; [|split; [|split; [|exact Happ]]].
    + simpl. rewrite Hd, lor_shl1_1, u32_shl1 by done. unfold shifted_enc, set_high, set_low, set_bits. simpl. by rewrite Enz.
    + split; simpl; try done; divmod.
    + pose proof (app_used _ _ _ _ _ Happ) as Hx. simpl in Hx |- *. lia.
Qed.

(** ** The stream as the decoder sees it *)

(** the [n] bits of [S] from position [p], most significant first *)
Fixpoint word (S : Z -> bool) (p : Z) (n : nat) : Z :=
  match n with
  | O => 0
  | Datatypes.S n => 2 * word S p n + Z.b2z (S (p + Z.of_nat n))
  end.

Lemma word_succ S p n :
  word S p (Datatypes.S n) = 2 * word S p n + Z.b2z (S (p + Z.of_nat n)).
Proof. reflexivity. Qed.

(** the 32-bit window of a decoder that is [n] bits into the stream with [u]
    bits of underflow: the bit at [n], then the [u] owed bits are skipped *)
Definition window (S : Z -> bool) (n u : Z) : Z :=
  2 ^ 31 * Z.b2z (S n) + word S (n + u + 1) 31.

Lemma word_range S p n : 0 <= word S p n < 2 ^ Z.of_nat n.
Proof.
  induction n as [|n IH]; simpl word; [lia|].
  rewrite Nat2Z.inj_succ, Z.pow_succ_r by lia. destruct (S _); simpl Z.b2z; lia.
Qed.

Lemma word_head S p n : word S p (Datatypes.S n) = 2 ^ Z.of_nat n * Z.b2z (S p) + word S (p + 1) n.
Proof.
  induction n as [|n IH].
  - simpl. rewrite Z.add_0_r. lia.
  - rewrite word_succ, IH, (word_succ S (p + 1) n), Nat2Z.inj_succ, Z.pow_succ_r by lia.
    replace (p + 1 + Z.of_nat n) with (p + Z.succ (Z.of_nat n)) by lia. lia.
Qed.

#[global] Opaque word.

(** both ways to split the 32 bits after the first one *)
Lemma word32_split S p :
  2 * word S p 31 + Z.b2z (S (p + 31)) = 2 ^ 31 * Z.b2z (S p) + word S (p + 1) 31.
Proof. transitivity (word S p 32); [symmetry; exact (word_succ S p 31) | exact (word_head S p 31)]. Qed.

Lemma window_range S n u : 0 <= window S n u < 2 ^ 32.
Proof. unfold window. pose proof (word_range S (n + u + 1) 31). destruct (S n); simpl Z.b2z; lia. Qed.

Lemma window_msb S n u : window S n u / 2 ^ 31 = Z.b2z (S n).
Proof.
  unfold window. pose proof (word_range S (n + u + 1) 31) as Hw. change (Z.of_nat 31) with 31 in Hw.
  rewrite (Z.mul_comm (2 ^ 31)), Z.add_comm, Z.div_add, Z.div_small by lia. lia.
Qed.

(** one more bit read: the window slides by one *)
Lemma window_slide S n u :
  window S (n + u + 1) 0 = 2 * (window S n u mod 2 ^ 31) + Z.b2z (S (n + u + 32)).
Proof.
  unfold window. replace (n + u + 1 + 0 + 1) with (n + u + 1 + 1) by lia.
  rewrite <- word32_split. replace (n + u + 1 + 31) with (n + u + 32) by lia.
  pose proof (word_range S (n + u + 1) 31) as Hw. change (Z.of_nat 31) with 31 in Hw.
  f_equal. f_equal. apply (Z.mod_unique_pos _ _ (Z.b2z (S n))); lia.
Qed.

(** one more bit owed: the second bit of the window is dropped *)
Lemma window_drop S n u : S (n + u + 1) = negb (S n) ->
  window S n (u + 1) = 2 * (window S n u) + Z.b2z (S (n + u + 32)) - 2 ^ 31.
Proof.
  intros Hs. unfold window. replace (n + (u + 1) + 1) with (n + u + 1 + 1) by lia.
  pose proof (word32_split S (n + u + 1)) as Hh.
  replace (n + u + 1 + 31) with (n + u + 32) in Hh by lia.
  rewrite Hs in Hh. destruct (S n); simpl Z.b2z in *; lia.
Qed.

(** [S] is a stream the encoder can still produce *)
Record compat (S : Z -> bool) (c : range_coder) : Prop := {
  cm_bits : forall i, 0 <= i < bits_used c -> S i = bitat (bit_stream c) i;
  cm_owed : forall i, 1 <= i <= underflow c -> S (bits_used c + i) = negb (S (bits_used c));
  cm_range : low c <= window S (bits_used c) (underflow c) <= high c;
  cm_pos : pos c < 2 ^ 32 - 64
}.

(** the decoder [d] of the stream [S] stands where the encoder [e] stood *)
Record sync (S : Z -> bool) (e d : range_coder) : Prop := {
  sy_low : low d = low e;
  sy_high : high d = high e;
  sy_value : value d = window S (bits_used e) (underflow e);
  sy_used : bits_used d = pos e + 32;
  sy_stream : forall i, 0 <= i ->
    S i = if i <? bit_stream_length d then bitat (bit_stream d) i else false;
  sy_rescales : norescale d = false
}.

Lemma appended_compat S c c' l : 0 <= bits_used c -> appended c c' l ->
  (forall i, 0 <= i < bits_used c' -> S i = bitat (bit_stream c') i) ->
  (forall i, 0 <= i < bits_used c -> S i = bitat (bit_stream c) i) /\
  (forall k b, l !! k = Some b -> S (bits_used c + Z.of_nat k) = b).
Proof.
  intros H0 Ha Hs. pose proof (app_used _ _ _ _ _ Ha) as Hn. split.
  - intros i Hi. rewrite Hs by lia. by apply (app_old _ _ _ _ _ Ha).
  - intros k b Hk. pose proof (lookup_lt_Some _ _ _ Hk). rewrite Hs by lia.
    by apply (app_new _ _ _ _ _ Ha).
Qed.

Lemma getnextbit_sync S e d : compat S e -> 0 <= pos e -> sync S e d ->
  range_decode_getnextbit d =
    (Z.b2z (S (pos e + 32)), set_bits (bit_stream d) (pos e + 33) d).
Proof.
  intros Hc Hp Hs. pose proof (cm_pos _ _ Hc).
  rewrite range_decode_getnextbit_spec by (rewrite (sy_used _ _ _ Hs); lia).
  rewrite (sy_used _ _ _ Hs), <- (sy_stream _ _ _ Hs) by lia.
  by replace (pos e + 32 + 1) with (pos e + 33) by lia.
Qed.

(** ** One turn of stable_loop, on both sides *)
Lemma slide_bounds l h w b : 0 <= l < 2 ^ 32 -> 0 <= h < 2 ^ 32 -> 0 <= w < 2 ^ 32 ->
  l / 2 ^ 31 = h / 2 ^ 31 -> w / 2 ^ 31 = l / 2 ^ 31 -> 0 <= b <= 1 ->
  2 * (l mod 2 ^ 31) <= 2 * (w mod 2 ^ 31) + b <= 2 * (h mod 2 ^ 31) + 1 ->
  l <= w <= h.
Proof. intros. divmod. Qed.

Lemma stable_step_sim S e bs n : enc_wf e -> low e / 2 ^ 31 = high e / 2 ^ 31 ->
  let e' := shifted_enc e bs n in
  appended e e' (msb_of e :: replicate (Z.to_nat (underflow e)) (negb (msb_of e))) ->
  compat S e' -> compat S e /\
  forall d, decodingP d = true -> sync S e d ->
  exists d', stable_step d = Some (0, d') /\ decodingP d' = true /\ sync S e' d'.
Proof.
  intros Hwf Heq e' Happ Hc. pose proof Hwf as [Hok Hl Hh Hlh Hu Hd Hn He]. pose proof (buf_used _ _ _ Hok) as Hbu.
  destruct (appended_compat S e e' _ ltac:(lia) Happ (cm_bits _ _ Hc)) as [Hb Hnew].
  pose proof (Hnew 0%nat _ eq_refl) as H0. rewrite Z.add_0_r in H0.
  assert (n = bits_used e + underflow e + 1) as Hn'.
  { pose proof (app_used _ _ _ _ _ Happ) as Hx. simpl in Hx. rewrite length_replicate in Hx. lia. }
  pose proof (window_slide S (bits_used e) (underflow e)) as Hsl.
  pose proof (window_msb S (bits_used e) (underflow e)) as Hm.
  pose proof (window_range S (bits_used e) (underflow e)) as Hr.
  rewrite H0 in Hm. unfold msb_of in *.
  pose proof (cm_range _ _ Hc) as Hcr. simpl in Hcr. rewrite Hn', Hsl in Hcr.
  assert (compat S e) as Hce.
  { split; [done | | | pose proof (cm_pos _ _ Hc) as Hp; unfold pos in *; simpl in Hp; lia].
    - intros i Hi. rewrite H0. replace (bits_used e + i) with (bits_used e + Z.of_nat (Datatypes.S (Z.to_nat (i - 1)))) by lia.
      apply Hnew. simpl. apply lookup_replicate. split; [done | lia].
    - eapply slide_bounds; [done | done | done | done | | apply b2z_range | exact Hcr].
      rewrite Hm. destruct (Z.leb_spec (2 ^ 31) (low e)); simpl Z.b2z; divmod. }
  split; [exact Hce|]. intros d Hdd Hs. pose proof Hs as [Sl Sh Sv Su Ss Sn].
  assert (getnext : forall d2, bits_used d2 = bits_used d -> bit_stream_length d2 = bit_stream_length d ->
    bit_stream d2 = bit_stream d -> range_decode_getnextbit d2 =
    (Z.b2z (S (pos e + 32)), set_bits (bit_stream d) (pos e + 33) d2)).
  { intros d2 U1 U2 U3. pose proof (cm_pos _ _ Hce). unfold pos in *. rewrite range_decode_getnextbit_spec by lia.
    rewrite U1, U2, U3, Su, <- Ss by lia. by replace (bits_used e + underflow e + 32 + 1) with (bits_used e + underflow e + 33) by lia. }
  unfold stable_step. rewrite Sl, Sh, msb_differ_spec by done.
  destruct (Z.eqb_spec (low e / 2 ^ 31) (high e / 2 ^ 31)) as [_|]; [|done].
  rewrite Hdd. cbn [Z.eqb negb].
  destruct (emit_underflow_quiet (Z.to_nat (underflow d)) (if nz (Z.shiftr (low e) 31) then 0 else 1) d ltac:(lia)) as [w Hw].
  rewrite Hdd. cbn [negb]. rewrite Hw. cbn [Z.eqb].
  destruct (nz (underflow d)); cbn [Z.eqb decodingP set_low set_high set_underflow]; rewrite Hdd; cbn [Z.eqb];
    rewrite getnext by done; eexists; (split; [done|]); (split; [done|]);
    (split; simpl; rewrite ?Sl, ?Sh, ?Sv, ?lor_shl1_1, ?lor_shl1_b2z, ?u32_shl1 by done; try done;
     [rewrite Hn', Hsl; unfold pos; by replace (bits_used e + underflow e + 32) with (bits_used e + underflow e + 32) by lia
     | unfold pos; simpl; lia]).
Qed.

(** ** One turn of rescale_loop *)
Definition owing (c : range_coder) : range_coder :=
  RangeCoder (2 * low c - 2 ^ 31) (2 * high c - 2 ^ 31 + 1) (value c) (underflow c + 1) (errors c)
    (decodingP c) (norescale c) (bit_stream c) (bit_stream_length c) (bits_used c) (out_of_bits c).

Definition straddles (c : range_coder) : Prop :=
  2 ^ 30 <= low c < 2 ^ 31 /\ 2 ^ 31 <= high c < 3 * 2 ^ 30.
#[export] Instance straddles_dec c : Decision (straddles c).
Proof. unfold straddles. apply _. Defined.

Lemma rescale_step_none c : 0 <= low c -> 0 <= high c -> ~ straddles c -> rescale_step c = None.
Proof.
  intros Hl Hh Hn. unfold rescale_step. rewrite rescale_guard_spec by done.
  destruct (_ && _) eqn:E; [|done]. b2p. exfalso. apply Hn. unfold straddles. lia.
Qed.

Lemma rescale_step_enc c : enc_wf c -> straddles c ->
  rescale_step c = Some (0, owing c) /\ enc_wf (owing c).
Proof.
  intros [Hok Hl Hh Hlh Hu Hd Hn He] [H1 H2]. split.
  - unfold rescale_step. rewrite rescale_guard_spec by lia.
    replace (_ && _) with true by (symmetry; rewrite !andb_true_iff, !Z.leb_le, !Z.ltb_lt; lia).
    cbn [low high set_underflow]. rewrite rescale_low, rescale_high by lia.
    destruct (Z.geb_spec (2 * low c - 2 ^ 31) (2 * high c - 2 ^ 31 + 1)); [lia|].
    cbn [decodingP set_underflow]. by rewrite Hd.
  - split; simpl; try done; lia.
Qed.

Lemma rescale_step_sim S e : enc_wf e -> straddles e -> compat S (owing e) ->
  compat S e /\
  forall d, decodingP d = true -> sync S e d ->
  exists d', rescale_step d = Some (0, d') /\ decodingP d' = true /\ sync S (owing e) d'.
Proof.
  intros Hwf Hst Hc. pose proof Hwf as [Hok Hl Hh Hlh Hu Hd Hn He]. pose proof (buf_used _ _ _ Hok) as Hbu.
  destruct Hst as [H1 H2].
  assert (S (bits_used e + underflow e + 1) = negb (S (bits_used e))) as Hneg.
  { rewrite <- Z.add_assoc. apply (cm_owed _ _ Hc). simpl. lia. }
  pose proof (window_drop S _ _ Hneg) as Hdr.
  pose proof (window_range S (bits_used e) (underflow e)) as Hr.
  pose proof (cm_range _ _ Hc) as Hcr. simpl in Hcr. rewrite Hdr in Hcr.
  pose proof (b2z_range (S (bits_used e + underflow e + 32))).
  assert (compat S e) as Hce.
  { split; [apply (cm_bits _ _ Hc) | | lia | pose proof (cm_pos _ _ Hc) as Hp; unfold pos in *; simpl in Hp; lia].
    intros i Hi. apply (cm_owed _ _ Hc). simpl. lia. }
  split; [exact Hce|]. intros d Hdd [Sl Sh Sv Su Ss Sn].
  unfold rescale_step. rewrite Sl, Sh, rescale_guard_spec by lia.
  replace (_ && _) with true by (symmetry; rewrite !andb_true_iff, !Z.leb_le, !Z.ltb_lt; lia).
  cbn [low high set_underflow]. rewrite Sl, Sh, rescale_low, rescale_high by lia.
  destruct (Z.geb_spec (2 * low e - 2 ^ 31) (2 * high e - 2 ^ 31 + 1)); [lia|].
  cbn [decodingP set_underflow]. rewrite ?Hdd. pose proof (cm_pos _ _ Hce). unfold pos in *.
  rewrite range_decode_getnextbit_spec by (simpl; lia). simpl. rewrite Su, <- Ss by lia.
  eexists. split; [done|]. split; [done|].
  split; simpl; rewrite ?Sl, ?Sh, ?Sv; try done; [|unfold pos; simpl; lia].
  rewrite rescale_value, Hdr by lia. divmod.
Qed.

(** ** The loops *)

(** [f], run by a decoder, follows the encoder from [e] to [e'] *)
Definition follows (f : range_coder -> Z * range_coder) (e e' : range_coder) : Prop :=
  forall S, compat S e' -> compat S e /\
  forall d, decodingP d = true -> sync S e d ->
  exists d', f d = (0, d') /\ decodingP d' = true /\ sync S e' d'.

(** the number of code values between [low] and [high] *)
Definition width (c : range_coder) : Z := high c - low c + 1.

(** The encoder has advanced without losing a bit.  Every position it gains
    doubles its range. *)
Record advanced (e e' : range_coder) : Prop := {
  adv_wf : enc_wf e';
  adv_pos : pos e <= pos e';
  adv_width : width e' = width e * 2 ^ (pos e' - pos e);
  adv_flag : out_of_bits e' = out_of_bits e;
  adv_len : bit_stream_length e' = bit_stream_length e
}.

Lemma advanced_refl e : enc_wf e -> advanced e e.
Proof. intros. split; [done | lia | rewrite Z.sub_diag; lia | done | done]. Qed.

Lemma advanced_trans e1 e2 e3 : advanced e1 e2 -> advanced e2 e3 -> advanced e1 e3.
Proof.
  intros [A1 A2 AW A3 A4] [B1 B2 BW B3 B4]. split; [done | lia | | by rewrite B3 | by rewrite B4].
  rewrite BW, AW. rewrite <- Z.mul_assoc, <- Z.pow_add_r by lia. do 2 f_equal. lia.
Qed.

Lemma advanced_double e e' : enc_wf e' -> pos e' = pos e + 1 -> width e' = 2 * width e ->
  out_of_bits e' = out_of_bits e -> bit_stream_length e' = bit_stream_length e -> advanced e e'.
Proof.
  intros ? Hp Hw ??. split; [done | lia | | done | done]. rewrite Hw, Hp.
  replace (pos e + 1 - pos e) with 1 by lia. lia.
Qed.

(** The buffer ends less than [t + 1] positions away, [t] of them being
    justified by the width of the range. *)
Definition exhausted (e : range_coder) : Prop :=
  exists t, 0 <= t /\ width e * 2 ^ t <= 2 ^ 31 /\ bit_stream_length e < pos e + t + 1.

Lemma exhausted_back e e1 : advanced e e1 -> exhausted e1 -> exhausted e.
Proof.
  intros [A1 A2 AW A3 A4] (t & Ht & Hw & Hb). exists (t + (pos e1 - pos e)).
  split; [lia|]. split; [|lia]. rewrite Z.add_comm, Z.pow_add_r, Z.mul_assoc, <- AW by lia. done.
Qed.

Lemma shifted_width e bs n : enc_wf e -> low e / 2 ^ 31 = high e / 2 ^ 31 ->
  width (shifted_enc e bs n) = 2 * width e /\ width e <= 2 ^ 31.
Proof. intros [] Heq. unfold width, shifted_enc. simpl. rewrite !Z.mod_eq by lia. divmod. Qed.

Lemma stable_loop_enc fuel e : enc_wf e ->
  (exists e', stable_loop fuel e = (0, e') /\ advanced e e' /\ follows (stable_loop fuel) e e') \/
  (exists e', stable_loop fuel e = (-1, e') /\ out_of_bits e' = true /\ exhausted e).
Proof.
  revert e. induction fuel as [|fuel IH]; intros e Hwf.
  { left. exists e. split; [done|]. split; [by apply advanced_refl|].
    intros S Hc. split; [done|]. intros d Hd Hs. by exists d. }
  cbn [stable_loop].
  destruct (decide (low e / 2 ^ 31 = high e / 2 ^ 31)) as [Heq|Hne].
  2: { pose proof Hwf as [Hok Hl Hh Hlh Hu Hd Hn He].
       rewrite (proj2 (stable_step_none e Hl Hh) Hne). left. exists e. split; [done|].
       split; [by apply advanced_refl|]. intros S Hc. split; [done|]. intros d Hdd Hs. exists d.
       cbn [stable_loop].
       rewrite <- (sy_low _ _ _ Hs), <- (sy_high _ _ _ Hs) in *.
       by rewrite (proj2 (stable_step_none d Hl Hh) Hne). }
  destruct (stable_step_enc e Hwf Heq) as [(bs & n & E & Hwf1 & Hp & Happ) | (e1 & E & Hb & Hl)]; rewrite E; cbn [Z.eqb].
  2: { right. exists e1. split; [done|]. split; [done|]. exists 0.
       destruct (shifted_width e [] 0 Hwf Heq). split; [lia|]. split; lia. }
  destruct (shifted_width e bs n Hwf Heq) as [Hw _].
  set (e1 := shifted_enc e bs n) in *. assert (advanced e e1) as Hadv1 by by apply advanced_double.
  destruct (IH e1 Hwf1) as [(e' & E' & Hadv & Hf) | (e' & E' & Hb & Hl)].
  - left. exists e'. split; [done|]. split.
    + by eapply advanced_trans.
    + intros S Hc. destruct (Hf S Hc) as [Hc1 Hf1].
      destruct (stable_step_sim S e bs n Hwf Heq Happ Hc1) as [Hce Hs1]. split; [done|].
      intros d Hd Hs. destruct (Hs1 d Hd Hs) as (d1 & D1 & Hd1 & Hsy1).
      destruct (Hf1 d1 Hd1 Hsy1) as (d' & D' & ?). exists d'. cbn [stable_loop]. rewrite D1. done.
  - right. exists e'. split; [done|]. split; [done|]. by eapply exhausted_back.
Qed.

Lemma rescale_loop_enc fuel e : enc_wf e ->
  exists e', rescale_loop fuel e = (0, e') /\ advanced e e' /\ follows (rescale_loop fuel) e e'.
Proof.
  revert e. induction fuel as [|fuel IH]; intros e Hwf.
  { exists e. split; [done|]. split; [by apply advanced_refl|].
    intros S Hc. split; [done|]. intros d Hd Hs. by exists d. }
  cbn [rescale_loop]. pose proof Hwf as [Hok Hl Hh Hlh Hu Hd Hn He].
  destruct (decide (straddles e)) as [Hst|Hst].
  2: { rewrite rescale_step_none by (done || lia). exists e. split; [done|].
       split; [by apply advanced_refl|]. intros S Hc. split; [done|]. intros d Hdd Hs. exists d.
       cbn [rescale_loop]. unfold straddles in Hst. rewrite <- (sy_low _ _ _ Hs), <- (sy_high _ _ _ Hs) in *.
       by rewrite rescale_step_none by (done || lia). }
  destruct (rescale_step_enc e Hwf Hst) as [E Hwf1]. rewrite E. cbn [Z.eqb].
  destruct (IH _ Hwf1) as (e' & E' & Hadv & Hf). exists e'. split; [done|]. split.
  - eapply advanced_trans; [|exact Hadv].
    apply advanced_double; [done | unfold pos; simpl; lia | unfold width; simpl; lia | done | done].
  - intros S Hc. destruct (Hf S Hc) as [Hc1 Hf1].
    destruct (rescale_step_sim S e Hwf Hst Hc1) as [Hce Hs1]. split; [done|].
    intros d Hdd Hs. destruct (Hs1 d Hdd Hs) as (d1 & D1 & Hd1 & Hsy1).
    destruct (Hf1 d1 Hd1 Hsy1) as (d' & D' & ?). exists d'. cbn [rescale_loop]. by rewrite D1.
Qed.

(** ** The loops end: after [k] turns the low [k] bits of the range are known *)
Definition aligned (k : Z) (c : range_coder) : Prop :=
  exists q r, low c = q * 2 ^ k /\ high c + 1 = r * 2 ^ k.

Lemma aligned_full c : 0 <= low c < 2 ^ 32 -> 0 <= high c < 2 ^ 32 -> aligned 32 c ->
  low c = 0 /\ high c = 2 ^ 32 - 1.
Proof. intros Hl Hh (q & r & H1 & H2). nia. Qed.

Lemma stable_loop_done fuel k e e' : enc_wf e -> 0 <= k <= 32 -> 33 <= k + Z.of_nat fuel ->
  aligned k e -> stable_loop fuel e = (0, e') -> low e' / 2 ^ 31 <> high e' / 2 ^ 31.
Proof.
  revert k e. induction fuel as [|fuel IH]; intros k e Hwf Hk Hf Hal; [lia|].
  cbn [stable_loop]. pose proof Hwf as [Hok Hl Hh Hlh Hu Hd Hn He].
  destruct (decide (low e / 2 ^ 31 = high e / 2 ^ 31)) as [Heq|Hne].
  2: { rewrite (proj2 (stable_step_none e Hl Hh) Hne). by intros [= <-]. }
  destruct (decide (k = 32)) as [->|Hk32].
  { destruct (aligned_full e Hl Hh Hal) as [H1 H2]. rewrite H1, H2 in Heq. done. }
  destruct (stable_step_enc e Hwf Heq) as [(bs & n & E & Hwf1 & Hp & Happ) | (e1 & E & Hb & Hl')]; rewrite E; cbn [Z.eqb].
  2: done.
  apply (IH (k + 1)); [done | lia | lia |].
  destruct Hal as (q & r & H1 & H2). set (m := low e / 2 ^ 31).
  assert (2 ^ 31 = 2 ^ (31 - k) * 2 ^ k) as Hpow
    by (rewrite <- Z.pow_add_r by lia; replace (31 - k + k) with 31 by lia; done).
  exists (q - 2 ^ (31 - k) * m), (r - 2 ^ (31 - k) * m).
  assert (low e mod 2 ^ 31 = low e - 2 ^ 31 * m) as Hml by (apply Z.mod_eq; lia).
  assert (high e mod 2 ^ 31 = high e - 2 ^ 31 * m) as Hmh by (unfold m; rewrite Heq; apply Z.mod_eq; lia).
  unfold shifted_enc. cbn [low high]. rewrite Hml, Hmh, Hpow, (Z.pow_add_r 2 k 1) by lia.
  change (2 ^ 1) with 2. split; [rewrite H1; ring|].
  replace (high e) with (r * 2 ^ k - 1) by lia. ring.
Qed.

Lemma rescale_loop_done fuel k e e' : enc_wf e -> 0 <= k <= 31 -> 32 <= k + Z.of_nat fuel ->
  (exists q, low e = q * 2 ^ k) -> rescale_loop fuel e = (0, e') -> ~ straddles e'.
Proof.
  revert k e. induction fuel as [|fuel IH]; intros k e Hwf Hk Hf Hal; [lia|].
  cbn [rescale_loop]. pose proof Hwf as [Hok Hl Hh Hlh Hu Hd Hn He].
  destruct (decide (straddles e)) as [Hst|Hst].
  2: { rewrite rescale_step_none by (done || lia). by intros [= <-]. }
  destruct (rescale_step_enc e Hwf Hst) as [E Hwf1]. rewrite E. cbn [Z.eqb].
  destruct Hal as [q Hq]. destruct (decide (k = 31)) as [->|Hk31].
  { destruct Hst as [H1 H2]. nia. }
  apply (IH (k + 1)); [done | lia | lia |]. exists (q - 2 ^ (30 - k)). simpl.
  rewrite Hq, Z.pow_add_r by lia. change (2 ^ 1) with 2.
  assert (2 ^ 31 = 2 * (2 ^ (30 - k) * 2 ^ k)) as Hpow
    by (rewrite <- Z.pow_add_r by lia; replace (30 - k + k) with 30 by lia; done).
  nia.
Qed.

Lemma rescale_split fuel e e' : enc_wf e -> low e < 2 ^ 31 <= high e ->
  rescale_loop fuel e = (0, e') -> low e' < 2 ^ 31 <= high e'.
Proof.
  revert e. induction fuel as [|fuel IH]; intros e Hwf Hs; cbn [rescale_loop]; [by intros [= <-]|].
  pose proof Hwf as [Hok Hl Hh Hlh Hu Hd Hn He].
  destruct (decide (straddles e)) as [Hst|Hst].
  - destruct (rescale_step_enc e Hwf Hst) as [E Hwf1]. rewrite E. cbn [Z.eqb].
    destruct Hst. apply IH; [done | simpl; lia].
  - rewrite rescale_step_none by (done || lia). by intros [= <-].
Qed.
