(* ===== verification/RangeCodec.v ===== *)
(** Encoding and decoding one interval; what a codec built on the range coder
    promises. *)
From S2P Require Import Prelude RangeCoder RangeBits RangeSim.
Local Open Scope Z_scope.
Local Open Scope succinct_scope.

(** The encoder between two symbols: normalised. *)
Record enc_ok (c : range_coder) : Prop := {
  ok_wf : enc_wf c;
  ok_split : low c < 2 ^ 31 <= high c;
  ok_straddle : ~ straddles c
}.

Lemma enc_ok_space c : enc_ok c -> 2 ^ 30 - 256 < range_space c <= high c - low c.
Proof.
  intros [[] ? Hs]. unfold straddles in Hs.
  unfold range_space. rewrite u64_small by lia.
  assert (Z.land (high c - low c) 0xffffff00 = 256 * ((high c - low c) / 256)) as ->; [|divmod].
  apply Z.bits_inj'. intros k Hk. rewrite Z.land_spec.
  change 0xffffff00 with (Z.shiftl (Z.ones 24) 8). rewrite Z.shiftl_spec by lia.
  rewrite (Z.mul_comm 256). change 256 with (2 ^ 8).
  rewrite <- Z.shiftr_div_pow2, <- Z.shiftl_mul_pow2, Z.shiftl_spec by lia.
  destruct (decide (k < 8)); [rewrite !(Z.testbit_neg_r _ (k - 8)) by lia; apply andb_false_r|].
  rewrite Z.shiftr_spec by lia. replace (k - 8 + 8) with k by lia.
  destruct (decide (k < 32)); [rewrite Z.ones_spec_low by lia; apply andb_true_r|].
  rewrite Z.ones_spec_high, <- (Z.mod_small (high c - low c) (2 ^ 32)), Z.mod_pow2_bits_high by lia. done.
Qed.

(** ** Renormalisation *)
Lemma follows_trans f g e1 e2 e3 : follows f e1 e2 -> follows g e2 e3 ->
  follows (fun c => call c <- f c ;; g c) e1 e3.
Proof.
  intros Hf Hg S Hc. destruct (Hg S Hc) as [Hc2 Hg2]. destruct (Hf S Hc2) as [Hc1 Hf1].
  split; [done|]. intros d Hd Hs. destruct (Hf1 d Hd Hs) as (d1 & -> & Hd1 & Hs1).
  cbn [Z.eqb]. by apply Hg2.
Qed.

Lemma emit_stable_enc e : enc_wf e ->
  (exists e', range_emit_stable_bits e = (0, e') /\ advanced e e' /\ enc_ok e' /\
     follows range_emit_stable_bits e e') \/
  (exists e', range_emit_stable_bits e = (-1, e') /\ out_of_bits e' = true /\ exhausted e).
Proof.
  intros Hwf. unfold range_emit_stable_bits.
  destruct (stable_loop_enc 33 e Hwf) as [(e1 & E1 & Hadv1 & Hf1) | (e1 & E1 & Hb & Hx)]; rewrite E1; cbn [Z.eqb].
  2: { right. by exists e1. }
  left. pose proof (adv_wf _ _ Hadv1) as Hwf1. rewrite (wf_rescales _ Hwf1).
  destruct (rescale_loop_enc 33 e1 Hwf1) as (e2 & E2 & Hadv2 & Hf2). unfold range_rescale. rewrite E2.
  exists e2. split; [done|]. split; [by eapply advanced_trans|]. split.
  - pose proof (adv_wf _ _ Hadv2) as Hwf2. split; [done | |].
    + assert (low e1 / 2 ^ 31 <> high e1 / 2 ^ 31) as Hs.
      { apply (stable_loop_done 33 0 e e1); [done | lia | lia | | done]. exists (low e), (high e + 1). lia. }
      apply (rescale_split 33 e1); [done | | done].
      destruct Hwf1. divmod.
    + apply (rescale_loop_done 33 0 e1 e2); [done | lia | lia | | done]. exists (low e1). lia.
  - intros S Hc. destruct (Hf2 S Hc) as [Hc1 Hf2']. destruct (Hf1 S Hc1) as [Hc0 Hf1'].
    split; [done|]. intros d Hd Hs. destruct (Hf1' d Hd Hs) as (d1 & D1 & Hd1 & Hs1). rewrite D1. cbn [Z.eqb].
    rewrite (sy_rescales _ _ _ Hs1). destruct (Hf2' d1 Hd1 Hs1) as (d2 & D2 & Hd2 & Hs2).
    exists d2. by rewrite D2.
Qed.

(** ** Narrowing the range to one interval *)
Definition new_low (c : range_coder) (p_low : Z) : Z := low c + p_low * range_space c / 2 ^ 24.
Definition new_high (c : range_coder) (p_high : Z) : Z :=
  if p_high >=? MAXVALUEPLUS1 then high c else low c + p_high * range_space c / 2 ^ 24 - 1.
Definition narrow (c : range_coder) (p_low p_high : Z) : range_coder :=
  set_high (new_high c p_high) (set_low (new_low c p_low) c).

Definition interval (p_low p_high : Z) : Prop := 0 <= p_low < p_high /\ p_high <= MAXVALUEPLUS1.

(** the arithmetic of the scaled boundaries *)
Lemma scaled_mono a b sp : 0 <= sp -> a <= b -> a * sp / 2 ^ 24 <= b * sp / 2 ^ 24.
Proof. intros. apply Z.div_le_mono; [lia|]. nia. Qed.
Lemma scaled_bound a sp : 0 <= sp -> 0 <= a <= 2 ^ 24 -> 0 <= a * sp / 2 ^ 24 <= sp.
Proof.
  intros. split; [apply Z.div_pos; nia|].
  apply Z.div_le_upper_bound; nia.
Qed.
Lemma scaled_gap a b sp : 2 ^ 30 - 256 < sp -> 0 <= a < b ->
  a * sp / 2 ^ 24 + 63 <= b * sp / 2 ^ 24.
Proof.
  intros. rewrite <- Z.div_add by lia. apply Z.div_le_mono; [lia|]. nia.
Qed.

Lemma calc_new_range_eq c pl ph : 0 <= low c < 2 ^ 32 -> 0 <= high c < 2 ^ 32 ->
  2 ^ 30 - 256 < range_space c <= high c - low c -> interval pl ph ->
  range_calc_new_range c pl ph =
  (if decodingP c && ((new_low c pl >? value c) || (new_high c ph <? value c)) then -1 else 0,
   new_low c pl, new_high c ph, c).
Proof.
  intros Hl Hh Hsp [Hp1 Hp2]. unfold MAXVALUEPLUS1, MAXVALUE in Hp2.
  unfold range_calc_new_range, new_low, new_high, SHIFTUPBITS.
  change (32 - (32 - 24)) with 24.
  destruct (Z.ltb_spec (range_space c) MAXVALUEPLUS1) as [Hx|_]; [unfold MAXVALUEPLUS1, MAXVALUE in Hx; lia|].
  rewrite !u64_small, !Z.shiftr_div_pow2 by nia.
  pose proof (scaled_bound pl (range_space c)). pose proof (scaled_bound ph (range_space c)).
  pose proof (scaled_gap pl ph (range_space c)).
  rewrite !u32_small by lia. by destruct (_ && _).
Qed.

Lemma narrow_range c pl ph : 0 <= low c -> low c < high c -> high c < 2 ^ 32 ->
  2 ^ 30 - 256 < range_space c <= high c - low c -> interval pl ph ->
  low c <= new_low c pl /\ new_low c pl + 62 <= new_high c ph /\ new_high c ph <= high c.
Proof.
  intros Hl Hlh Hh Hsp [Hp1 Hp2]. unfold MAXVALUEPLUS1, MAXVALUE in Hp2. unfold new_low, new_high.
  pose proof (scaled_bound pl (range_space c)). pose proof (scaled_bound ph (range_space c)).
  pose proof (scaled_gap pl ph (range_space c)).
  destruct (Z.geb_spec ph MAXVALUEPLUS1) as [Hx|Hx]; unfold MAXVALUEPLUS1, MAXVALUE in Hx; [|lia].
  replace ph with (2 ^ 24) in * by lia. lia.
Qed.

Lemma narrow_wf e pl ph : enc_ok e -> interval pl ph ->
  enc_wf (narrow e pl ph) /\ 63 <= width (narrow e pl ph).
Proof.
  intros Hok Hp. pose proof (enc_ok_space e Hok) as Hsp. destruct Hok as [[] ??].
  destruct (narrow_range e pl ph) as (H1 & H2 & H3); [lia..|done|].
  split; [split; simpl; try done; lia|]. unfold width. simpl. lia.
Qed.

Lemma range_encode_eq e pl ph : enc_ok e -> interval pl ph ->
  range_encode e pl ph = range_emit_stable_bits (narrow e pl ph).
Proof.
  intros Hok Hp. pose proof (enc_ok_space e Hok) as Hsp.
  pose proof Hp as [Hp1 Hp2]. unfold MAXVALUEPLUS1, MAXVALUE in Hp2.
  destruct (narrow_wf e pl ph Hok Hp) as [Hwf _]. destruct Hok as [[Hbuf Hl Hh Hlh Hu Hd Hn He] Hsplit Hstr].
  unfold range_encode, MAXVALUE.
  destruct (Z.gtb_spec pl ph); [lia|].
  replace (_ || _) with false by (symmetry; apply orb_false_iff; rewrite !Z.gtb_ltb, !Z.ltb_ge; unfold MAXVALUEPLUS1, MAXVALUE; lia).
  rewrite calc_new_range_eq, Hd by (done || lia). simpl nz. cbv iota.
  rewrite (u32_small (ph - pl)), Z.shiftl_mul_pow2, u64_small by (unfold SHIFTUPBITS; lia).
  destruct (Z.gtb_spec ((ph - pl) * 2 ^ SHIFTUPBITS) 0x100000000) as [Hx|_]; [unfold SHIFTUPBITS in Hx; lia|].
  fold (narrow e pl ph).
  destruct (emit_stable_enc _ Hwf) as [(e' & -> & _) | (e' & -> & _)]; done.
Qed.

Lemma narrow_compat S e pl ph : enc_ok e -> interval pl ph ->
  compat S (narrow e pl ph) -> compat S e /\
  new_low e pl <= window S (bits_used e) (underflow e) <= new_high e ph.
Proof.
  intros Hok Hp [C1 C2 C3 C4]. pose proof (enc_ok_space e Hok) as Hsp. destruct Hok as [[] ??].
  destruct (narrow_range e pl ph) as (H1 & H2 & H3); [lia..|done|].
  simpl in C3. split; [|done]. split; [done | done | lia | done].
Qed.

(** ** Decoding one interval *)
Lemma sync_range S e d : sync S e d -> range_space d = range_space e /\
  (forall p, new_low d p = new_low e p) /\ (forall p, new_high d p = new_high e p).
Proof.
  intros [Sl Sh _ _ _ _].
  assert (range_space d = range_space e) as Hsp by (unfold range_space; by rewrite Sl, Sh).
  split; [done|]. unfold new_low, new_high. by rewrite Hsp, Sl, Sh.
Qed.

Lemma sync_mode S e d b : sync S e d -> sync S e (set_decodingP b d).
Proof. intros []. by split. Qed.

Lemma sync_check S e d : enc_ok e -> compat S e -> sync S e d -> _range_check d = 0.
Proof.
  intros [[] _ _] Hc [Sl Sh Sv _ _ _]. pose proof (cm_range _ _ Hc). unfold _range_check.
  rewrite Sl, Sh, Sv. destruct (Z.geb_spec (low e) (high e)); [lia|].
  destruct (decodingP d); [|done]. cbn [negb].
  by replace (_ || _) with false by (symmetry; apply orb_false_iff; rewrite Z.gtb_ltb, !Z.ltb_ge; lia).
Qed.

(** both outcomes of range_decode_common, decided by where the window lies *)
Lemma decode_common_eq S e d pl ph s : enc_ok e -> interval pl ph -> compat S e -> sync S e d ->
  let w := window S (bits_used e) (underflow e) in
  if decide (new_low e pl <= w <= new_high e ph)
  then range_decode_common d pl ph s =
       (0, set_decodingP false (snd (range_emit_stable_bits (set_decodingP true (narrow d pl ph)))))
  else exists b, range_decode_common d pl ph s = (-1, set_decodingP b d).
Proof.
  intros Hok Hp Hc Hs w. pose proof (enc_ok_space e Hok) as Hsp.
  destruct (sync_range S e d Hs) as (Hds & Hdl & Hdh).
  pose proof (sync_check _ _ _ Hok Hc Hs) as Hck1.
  pose proof (sync_check _ _ _ Hok Hc (sync_mode _ _ _ true Hs)) as Hck2.
  pose proof Hok as [[Hbuf Hl Hh Hlh Hu Hd Hn He] Hsplit Hstr].
  pose proof Hs as [Sl Sh Sv Su Ss Sn].
  destruct (narrow_range e pl ph) as (H1 & H2 & H3); [lia..|done|].
  assert (range_decode_common d pl ph s =
    if (new_low e pl >? w) || (new_high e ph <? w)
    then (-1, set_decodingP (negb (decodingP d) || decodingP d && decodingP d) d)
    else (0, set_decodingP false (snd (range_emit_stable_bits (set_decodingP true (narrow d pl ph)))))) as ->.
  { unfold range_decode_common. rewrite Hck1. cbn [nz negb Z.eqb].
    replace (_ && _) with false by (symmetry; apply andb_false_iff; right; rewrite Z.geb_leb; apply Z.leb_gt; lia).
    rewrite calc_new_range_eq by (rewrite ?Sl, ?Sh, ?Hds; done || lia).
    rewrite Hdl, Hdh, Sv. fold w.
    assert ((if new_high e ph >? 0xffffffff then 0xffffffff else new_high e ph) = new_high e ph) as Hcap
      by (destruct (Z.gtb_spec (new_high e ph) 0xffffffff); lia).
    destruct ((new_low e pl >? w) || (new_high e ph <? w)) eqn:Eout; destruct (decodingP d) eqn:Edp;
      cbn [andb nz negb Z.eqb orb]; rewrite ?Hcap, ?Hck2; cbn [nz negb Z.eqb value set_decodingP];
      rewrite ?Sv; fold w; rewrite ?Eout.
    - destruct d; simpl in *; by subst.
    - done.
    - unfold _range_check at 1. cbn [low high value decodingP set_high set_low set_decodingP negb].
      apply orb_false_iff in Eout as [E1 E2]. rewrite Sv. fold w. rewrite Z.gtb_ltb in *.
      destruct (Z.geb_spec (new_low e pl) (new_high e ph)); [lia|]. rewrite E2.
      replace (w <? new_low e pl) with false by (symmetry; apply Z.ltb_ge; apply Z.ltb_ge in E1; lia).
      cbn [orb negb Z.eqb]. unfold narrow. by rewrite Hdl, Hdh.
    - unfold _range_check at 1. cbn [low high value decodingP set_high set_low set_decodingP negb].
      apply orb_false_iff in Eout as [E1 E2]. rewrite Sv. fold w. rewrite Z.gtb_ltb in *.
      destruct (Z.geb_spec (new_low e pl) (new_high e ph)); [lia|]. rewrite E2.
      replace (w <? new_low e pl) with false by (symmetry; apply Z.ltb_ge; apply Z.ltb_ge in E1; lia).
      cbn [orb negb Z.eqb]. unfold narrow. by rewrite Hdl, Hdh. }
  case_decide as Hw.
  - replace (_ || _) with false; [done|]. symmetry. apply orb_false_iff. rewrite Z.gtb_ltb, !Z.ltb_ge. lia.
  - replace (_ || _) with true; [by eexists|]. symmetry. apply orb_true_iff. rewrite Z.gtb_ltb, !Z.ltb_lt. lia.
Qed.

Lemma encode_interval e pl ph : enc_ok e -> interval pl ph ->
  let e' := snd (range_encode e pl ph) in
  out_of_bits e' = false ->
  enc_ok e' /\ out_of_bits e = false /\ bit_stream_length e' = bit_stream_length e /\
  pos e <= pos e' /\ fst (range_encode e pl ph) = 0 /\
  forall S, compat S e' -> compat S e /\
    new_low e pl <= window S (bits_used e) (underflow e) <= new_high e ph /\
    forall d s, sync S e d -> exists d', range_decode_common d pl ph s = (0, d') /\ sync S e' d'.
Proof.
  intros Hok Hp e' Hb. destruct (narrow_wf e pl ph Hok Hp) as [Hwf _].
  subst e'. rewrite range_encode_eq in * by done.
  destruct (emit_stable_enc _ Hwf) as [(e' & E & Hadv & Hok' & Hf) | (e' & E & Hb' & _)]; rewrite E in *; simpl in *; [|congruence].
  split; [done|]. split; [by rewrite <- Hb, (adv_flag _ _ Hadv)|].
  split; [apply (adv_len _ _ Hadv)|]. split; [apply (adv_pos _ _ Hadv)|]. split; [done|].
  intros S Hc. destruct (Hf S Hc) as [Hc1 Hf1].
  destruct (narrow_compat S e pl ph Hok Hp Hc1) as [Hce Hw]. split; [done|]. split; [done|].
  intros d s Hs. pose proof (decode_common_eq S e d pl ph s Hok Hp Hce Hs) as Hdc. simpl in Hdc.
  rewrite decide_True in Hdc by done. rewrite Hdc.
  destruct (sync_range S e d Hs) as (_ & Hdl & Hdh). destruct Hs as [Sl Sh Sv Su Ss Sn].
  destruct (Hf1 (set_decodingP true (narrow d pl ph))) as (d' & -> & _ & Hs'); [done| |].
  { split; try done; simpl; rewrite ?Hdl, ?Hdh; done. }
  eexists. split; [done|]. by apply sync_mode.
Qed.

(** ** The codec interface

    A client of the range coder is a pair of an encoder, which updates the
    coder and may drop error codes, and a decoder.  [Codes enc dec a] says that
    [dec] returns [a] wherever [enc] has been run: the encoder never hides that
    it ran out of bits, it leaves a normalised coder, a stream that is still
    possible after it was possible before, and from such a stream the decoder
    gets [a] and stands again where the encoder stands. *)
Record Codes {A} (enc : range_coder -> range_coder) (dec : range_coder -> A * range_coder) (a : A) : Prop := {
  cd_mono : forall e, out_of_bits e = true -> out_of_bits (enc e) = true;
  cd_ok : forall e, enc_ok e -> out_of_bits (enc e) = false -> enc_ok (enc e);
  cd_law : forall S e, enc_ok e -> out_of_bits (enc e) = false -> compat S (enc e) ->
    compat S e /\ forall d, sync S e d -> exists d', dec d = (a, d') /\ sync S (enc e) d'
}.

Lemma Codes_ext {A} enc1 enc2 dec1 dec2 (a : A) :
  (forall e, enc1 e = enc2 e) -> (forall d, dec1 d = dec2 d) -> Codes enc1 dec1 a -> Codes enc2 dec2 a.
Proof.
  intros He Hd [M O L]. split; intros *; rewrite <- ?He; [apply M | apply O |].
  intros H1 H2 H3. destruct (L _ _ H1 H2 H3) as [H4 H5]. split; [done|].
  intros d. rewrite <- Hd. apply H5.
Qed.

Lemma Codes_ret {A} (a : A) : Codes (fun e => e) (fun d => (a, d)) a.
Proof. split; [done | done |]. intros S e ?? Hc. split; [done|]. intros d Hs. by exists d. Qed.

(** the decoder may go on with what it has just read *)
Lemma Codes_bind {A B} enc1 enc2 dec1 (dec2 : A -> range_coder -> B * range_coder) a b :
  Codes enc1 dec1 a -> Codes enc2 (dec2 a) b ->
  Codes (fun e => enc2 (enc1 e)) (fun d => let '(x, d) := dec1 d in dec2 x d) b.
Proof.
  intros [M1 O1 L1] [M2 O2 L2].
  assert (forall e, out_of_bits (enc2 (enc1 e)) = false -> out_of_bits (enc1 e) = false) as Hback.
  { intros e H. destruct (out_of_bits (enc1 e)) eqn:E; [|done]. by rewrite M2 in H. }
  split.
  - intros e H. by apply M2, M1.
  - intros e Hok H. by apply O2; [apply O1; [|apply Hback]|].
  - intros S e Hok H Hc. pose proof (Hback e H) as H1. pose proof (O1 e Hok H1) as Hok1.
    destruct (L2 S _ Hok1 H Hc) as [Hc1 Hd2]. destruct (L1 S e Hok H1 Hc1) as [Hce Hd1].
    split; [done|]. intros d Hs. destruct (Hd1 d Hs) as (d1 & -> & Hs1). by apply Hd2.
Qed.

Lemma Codes_map {A B} (f : A -> B) enc dec a : Codes enc dec a ->
  Codes enc (fun d => let '(x, d) := dec d in (f x, d)) (f a).
Proof. intros H. apply (Codes_bind enc (fun e => e) dec (fun x d => (f x, d)) a (f a) H). apply Codes_ret. Qed.

(** A codec for the values that satisfy [valid]. *)
Class Codec {A} (valid : A -> Prop) (enc : A -> range_coder -> range_coder)
    (dec : range_coder -> A * range_coder) : Prop :=
  codec_codes a : valid a -> Codes (enc a) dec a.

(** ** Running out of bits is never forgotten *)
Lemma flag_emitbit c b : out_of_bits c = true -> out_of_bits (snd (range_emitbit c b)) = true.
Proof. intros H. unfold range_emitbit. by destruct (bits_used c >=? bit_stream_length c). Qed.

Lemma flag_getnextbit c : out_of_bits (snd (range_decode_getnextbit c)) = out_of_bits c.
Proof. unfold range_decode_getnextbit. by destruct (bit_stream_length c <=? bits_used c). Qed.

Lemma flag_emit_underflow fuel em u c : out_of_bits c = true ->
  out_of_bits (snd (emit_underflow fuel em u c)) = true.
Proof.
  revert c. induction fuel as [|fuel IH]; intros c H; [done|]. cbn [emit_underflow].
  destruct (underflow c >? 0); [|done]. destruct em; [|cbn [Z.eqb]; by apply IH].
  pose proof (flag_emitbit (set_underflow (underflow c - 1) c) u H) as He.
  destruct (range_emitbit _ _) as [r c1]. destruct (r =? 0); [by apply IH | done].
Qed.

Definition flagged (o : option (Z * range_coder)) : Prop :=
  match o with Some (_, c) => out_of_bits c = true | None => True end.

Lemma flagged_call r (k : range_coder -> Z * range_coder) : out_of_bits (snd r) = true ->
  (forall c, out_of_bits c = true -> out_of_bits (snd (k c)) = true) ->
  out_of_bits (snd (call c <- r ;; k c)) = true.
Proof. intros H Hk. destruct r as [r c]. simpl in H. destruct (r =? 0); [by apply Hk | exact H]. Qed.

Lemma flag_stable_step c : out_of_bits c = true -> flagged (stable_step c).
Proof.
  intros H. unfold stable_step. destruct (_ =? 0); [|exact I].
  set (body := call c <- _ ;; _). cut (out_of_bits (snd body) = true); [by destruct body|]. unfold body. clear body.
  apply flagged_call; [destruct (decodingP c); [exact H | by apply flag_emitbit]|].
  intros c1 H1. apply flagged_call.
  - destruct (nz (underflow c1)); [|exact H1].
    apply flagged_call; [by apply flag_emit_underflow | done].
  - intros c2 H2. destruct (decodingP _); [|exact H2].
    match goal with |- context [range_decode_getnextbit ?x] => pose proof (flag_getnextbit x) as Hn end.
    destruct (range_decode_getnextbit _) as [b c3]. exact (eq_trans Hn H2).
Qed.

Lemma flag_rescale_step c : out_of_bits c = true -> flagged (rescale_step c).
Proof.
  intros H. unfold rescale_step. destruct (_ && _); [|exact I].
  destruct (_ >=? _); [exact H|]. destruct (decodingP _); [|exact H].
  match goal with |- context [range_decode_getnextbit ?x] => pose proof (flag_getnextbit x) as Hn end.
  destruct (range_decode_getnextbit _) as [b c3]. exact (eq_trans Hn H).
Qed.

Lemma flag_loops fuel c : out_of_bits c = true ->
  out_of_bits (snd (stable_loop fuel c)) = true /\ out_of_bits (snd (rescale_loop fuel c)) = true.
Proof.
  revert c. induction fuel as [|fuel IH]; intros c H; [done|]. cbn [stable_loop rescale_loop]. split.
  - pose proof (flag_stable_step c H) as Hs. destruct (stable_step c) as [rc|]; [|exact H].
    apply flagged_call; [by destruct rc|]. intros c1 H1. by apply IH.
  - pose proof (flag_rescale_step c H) as Hs. destruct (rescale_step c) as [rc|]; [|exact H].
    apply flagged_call; [by destruct rc|]. intros c1 H1. by apply IH.
Qed.

Lemma flag_emit_stable_bits c : out_of_bits c = true -> out_of_bits (snd (range_emit_stable_bits c)) = true.
Proof.
  intros H. unfold range_emit_stable_bits. destruct (flag_loops 33 c H) as [H1 _].
  destruct (stable_loop 33 c) as [r c1]. simpl in H1. destruct (r =? 0); [|done].
  destruct (norescale c1); [done|]. by apply (flag_loops 33 c1 H1).
Qed.

Lemma flag_encode e pl ph : out_of_bits e = true -> out_of_bits (snd (range_encode e pl ph)) = true.
Proof.
  intros H. unfold range_encode. destruct (pl >? ph); [done|]. destruct (_ || _); [done|].
  assert (out_of_bits (range_calc_new_range e pl ph).2 = true) as Hc.
  { unfold range_calc_new_range. destruct (_ <? _); [done|]. by destruct (_ && _). }
  destruct (range_calc_new_range e pl ph) as [[[r nl] nh] c]. simpl in Hc.
  destruct (nz r); [done|]. destruct (_ >? _); [done|].
  pose proof (flag_emit_stable_bits (set_high nh (set_low nl c)) Hc) as Hs.
  destruct (range_emit_stable_bits _) as [r2 c2]. simpl in Hs. by destruct (r2 =? 0).
Qed.
#[export] Hint Resolve flag_emitbit flag_encode : succinct.

(** ** Symbols with cumulative frequencies *)
Definition sym_low (f : list Z) (s : Z) : Z := if s >? 0 then rd f (s - 1) else 0.
Definition sym_high (f : list Z) (n s : Z) : Z := if s <? n - 1 then rd f s else MAXVALUEPLUS1.

(** boundaries that never decrease, all below the end of the scale *)
Definition cumulative (f : list Z) (n : Z) : Prop :=
  forall i j, 0 <= i <= j -> j < n - 1 -> 0 <= rd f i <= rd f j /\ rd f j <= MAXVALUE.

(** the same, decided *)
Fixpoint ascending (prev : Z) (l : list Z) : bool :=
  match l with
  | [] => true
  | x :: l => (prev <=? x) && (x <=? MAXVALUE) && ascending x l
  end.
Definition cumulativeb (f : list Z) (n : Z) : bool :=
  (n - 1 <=? Z.of_nat (length f)) && ascending 0 (take (Z.to_nat (n - 1)) f).

Lemma ascending_spec prev l : ascending prev l = true ->
  forall i j, (i <= j < length l)%nat -> prev <= nth i l 0 <= nth j l 0 /\ nth j l 0 <= MAXVALUE.
Proof.
  revert prev. induction l as [|x l IH]; intros prev H i j Hij; [simpl in Hij; lia|].
  cbn [ascending] in H. b2p. destruct i as [|i], j as [|j]; cbn [nth length] in *; [lia | | lia |].
  - specialize (IH x ltac:(done) j j). lia.
  - specialize (IH x ltac:(done) i j). lia.
Qed.

Lemma cumulativeb_spec f n : cumulativeb f n = true -> cumulative f n.
Proof.
  unfold cumulativeb. intros H. b2p. intros i j Hi Hj.
  pose proof (ascending_spec _ _ H0 (Z.to_nat i) (Z.to_nat j)) as Hs. rewrite length_take in Hs.
  rewrite !nth_lookup, !lookup_take, !decide_True in Hs by lia. rewrite !rd_nth, !nth_lookup by lia. apply Hs. lia.
Qed.

(** [s] is a symbol of positive probability *)
Definition codable (f : list Z) (n s : Z) : Prop := 0 <= s < n /\ sym_low f s < sym_high f n s.

Lemma symbol_interval f n s : cumulative f n -> codable f n s -> interval (sym_low f s) (sym_high f n s).
Proof.
  intros Hf [Hs Hlt]. split; [split; [|done]|].
  - unfold sym_low. destruct (Z.gtb_spec s 0); [|lia]. destruct (Hf (s - 1) (s - 1)); lia.
  - unfold sym_high. destruct (Z.ltb_spec s (n - 1)); [|lia]. destruct (Hf s s); unfold MAXVALUEPLUS1; lia.
Qed.

(** what the encoder did to one interval, as a codec for any decoder that finds
    the interval again *)
Lemma Codes_interval {A} enc (dec : range_coder -> A * range_coder) (a : A) pl ph : interval pl ph ->
  (forall e, out_of_bits e = true -> out_of_bits (enc e) = true) ->
  (forall e, enc_ok e -> enc e = snd (range_encode e pl ph)) ->
  (forall S e d, enc_ok e -> compat S e -> sync S e d ->
     new_low e pl <= window S (bits_used e) (underflow e) <= new_high e ph ->
     exists b s, dec d = (a, snd (range_decode_common (set_decodingP b d) pl ph s))) ->
  Codes enc dec a.
Proof.
  intros Hp Hm He Hd. split; [done | |].
  - intros e Hok. rewrite (He e Hok). intros H. by destruct (encode_interval e pl ph Hok Hp H).
  - intros S e Hok. rewrite (He e Hok). intros H Hc.
    destruct (encode_interval e pl ph Hok Hp H) as (_ & _ & _ & _ & _ & Hl).
    destruct (Hl S Hc) as (Hce & Hw & Hdec). split; [done|]. intros d Hs.
    destruct (Hd S e d Hok Hce Hs Hw) as (b & s & ->).
    destruct (Hdec (set_decodingP b d) s (sync_mode _ _ _ b Hs)) as (d' & -> & Hs'). by exists d'.
Qed.

Lemma decode_symbol_search_eq S e d f n t :
  enc_ok e -> cumulative f n -> codable f n t -> sync S e d ->
  new_low e (sym_low f t) <= window S (bits_used e) (underflow e) <= new_high e (sym_high f n t) ->
  forall k s, 0 <= s <= t -> Z.of_nat k = n - 1 - s -> decode_symbol_search k s d f = t.
Proof.
  intros Hok Hf Ht Hs Hw. pose proof (enc_ok_space e Hok) as Hsp. destruct (sync_range S e d Hs) as (Hds & _ & _).
  pose proof Hs as [Sl Sh Sv _ _ _]. destruct Hok as [[Hbuf Hl Hh Hlh Hu Hdp Hn He] _ _].
  destruct Ht as [Htn Hlt].
  induction k as [|k IH]; intros s Hst Hk; cbn [decode_symbol_search]; [lia|].
  rewrite Hds, Sl, Sv. unfold SHIFTUPBITS. change (32 - (32 - 24)) with 24.
  destruct (Hf s s) as [Hfs Hfm]; [lia..|]. unfold MAXVALUE in Hfm.
  rewrite u64_small, Z.shiftr_div_pow2 by nia.
  pose proof (scaled_bound (rd f s) (range_space e) ltac:(lia) ltac:(lia)) as Hb.
  rewrite u32_small by lia. unfold new_low, new_high, sym_low, sym_high in Hw.
  destruct (decide (s = t)) as [->|Hne].
  - destruct (Z.ltb_spec t (n - 1)); [|lia]. unfold MAXVALUEPLUS1, MAXVALUE in Hw.
    destruct (Z.geb_spec (rd f t) (0xffffff + 1)); [lia|].
    by destruct (Z.ltb_spec (window S (bits_used e) (underflow e)) (low e + rd f t * range_space e / 2 ^ 24)); [|lia].
  - destruct (Hf s (t - 1)) as [Hfst _]; [lia..|]. destruct (Z.gtb_spec t 0); [|lia].
    pose proof (scaled_mono (rd f s) (rd f (t - 1)) (range_space e) ltac:(lia) ltac:(lia)).
    destruct (Z.ltb_spec (window S (bits_used e) (underflow e)) (low e + rd f s * range_space e / 2 ^ 24)); [lia|].
    apply IH; lia.
Qed.

#[export] Instance symbol_codec f n : cumulative f n ->
  Codec (codable f n) (fun s c => snd (range_encode_symbol c f n s)) (fun c => range_decode_symbol c f n).
Proof.
  intros Hf t Ht. apply (Codes_interval _ _ _ (sym_low f t) (sym_high f n t)); [by apply symbol_interval| | |].
  - intros e H. unfold range_encode_symbol. destruct (nz (errors e)); [done|]. by apply flag_encode.
  - intros e [[] _ _]. unfold range_encode_symbol. by rewrite wf_errors.
  - intros S e d Hok Hc Hs Hw. exists false, t. unfold range_decode_symbol.
    pose proof (decode_symbol_search_eq S e (set_decodingP false d) f n t Hok Hf Ht (sync_mode _ _ _ false Hs) Hw
                  (Z.to_nat (n - 1)) 0) as ->; [| destruct Ht; lia | destruct Ht; lia].
    fold (sym_low f t). fold (sym_high f n t).
    pose proof (decode_common_eq S e (set_decodingP false d) _ _ t Hok (symbol_interval f n t Hf Ht) Hc
                  (sync_mode _ _ _ false Hs)) as Hdc. simpl in Hdc. rewrite decide_True in Hdc by done.
    by rewrite Hdc.
Qed.

(** ** Equiprobable symbols *)
Definition equi_bound (n t : Z) : Z := t * 0xffffff / n.

Lemma equi_bound_step n t : 1 <= n < 0x400000 -> equi_bound n t + 3 <= equi_bound n (t + 1).
Proof.
  intros. unfold equi_bound. rewrite <- Z.div_add by lia. apply Z.div_le_mono; lia.
Qed.
Lemma equi_bound_mono n s t : 1 <= n -> s <= t -> equi_bound n s <= equi_bound n t.
Proof. intros. unfold equi_bound. apply Z.div_le_mono; lia. Qed.
Lemma equi_bound_range n t : 1 <= n -> 0 <= t <= n -> 0 <= equi_bound n t <= 0xffffff.
Proof.
  intros. unfold equi_bound. split; [apply Z.div_pos; lia|]. apply Z.div_le_upper_bound; lia.
Qed.

Lemma equiprobable_range_eq n t : 1 <= n < 0x400000 -> 0 <= t < n ->
  range_equiprobable_range n t = (equi_bound n t, equi_bound n (t + 1)).
Proof.
  intros Hn Ht. unfold range_equiprobable_range.
  pose proof (equi_bound_range n t ltac:(lia) ltac:(lia)).
  pose proof (equi_bound_range n (t + 1) ltac:(lia) ltac:(lia)).
  rewrite (u64_small t), (u64_small n), (u64_small (1 + t)), !u64_small by lia.
  rewrite (Z.add_comm 1 t). fold (equi_bound n t) (equi_bound n (t + 1)).
  rewrite !u32_small by lia. f_equal.
  destruct (Z.eqb_spec t (n - 1)) as [->|]; [|done].
  unfold equi_bound. replace (n - 1 + 1) with n by lia. rewrite Z.mul_comm, Z.div_mul by lia. done.
Qed.

Lemma equi_interval n t : 1 <= n < 0x400000 -> 0 <= t < n -> interval (equi_bound n t) (equi_bound n (t + 1)).
Proof.
  intros. pose proof (equi_bound_step n t ltac:(lia)). pose proof (equi_bound_range n t ltac:(lia) ltac:(lia)).
  pose proof (equi_bound_range n (t + 1) ltac:(lia) ltac:(lia)).
  split; unfold MAXVALUEPLUS1, MAXVALUE; lia.
Qed.

(** the decoder's estimate of the symbol is exact or one too low *)
Lemma equi_estimate n t sp v : 1 <= n < 0x400000 -> 0 <= t < n -> 2 ^ 30 - 256 < sp ->
  equi_bound n t * sp / 2 ^ 24 <= v <= equi_bound n (t + 1) * sp / 2 ^ 24 - 1 ->
  t - 1 <= v * n / sp <= t.
Proof.
  intros Hn Ht Hsp Hv.
  assert (equi_bound n (t + 1) * n <= (t + 1) * 0xffffff) as Hu.
  { unfold equi_bound. rewrite Z.mul_comm. apply Z.mul_div_le. lia. }
  assert (t * 0xffffff < (equi_bound n t + 1) * n) as Hl.
  { unfold equi_bound. rewrite (Z.mul_comm _ n). apply Z.mul_succ_div_gt. lia. }
  assert (equi_bound n (t + 1) * sp / 2 ^ 24 * 2 ^ 24 <= equi_bound n (t + 1) * sp) as Hu2.
  { rewrite Z.mul_comm. apply Z.mul_div_le. lia. }
  assert (equi_bound n t * sp < (equi_bound n t * sp / 2 ^ 24 + 1) * 2 ^ 24) as Hl2.
  { rewrite (Z.mul_comm _ (2 ^ 24)). apply Z.mul_succ_div_gt. lia. }
  set (A := equi_bound n (t + 1)) in *. set (B := equi_bound n t) in *.
  split.
  - apply Z.div_le_lower_bound; [lia|].
    assert (B * sp * n < (v + 1) * 2 ^ 24 * n) by nia.
    assert (t * 0xffffff * sp - n * sp < B * n * sp) by nia.
    assert ((t - 1) * sp * 2 ^ 24 <= v * n * 2 ^ 24); [|nia].
    assert (t * sp <= n * sp) by nia. nia.
  - apply Z.lt_succ_r. apply Z.div_lt_upper_bound; [lia|].
    assert (v * 2 ^ 24 < A * sp) by lia.
    assert (v * n * 2 ^ 24 < sp * Z.succ t * 2 ^ 24); [|nia]. nia.
Qed.

Lemma equi_reject S e d n j t s : enc_ok e -> compat S e -> sync S e d ->
  1 <= n < 0x400000 -> 0 <= j < t -> t < n ->
  new_low e (equi_bound n t) <= window S (bits_used e) (underflow e) ->
  exists b, range_decode_common d (equi_bound n j) (equi_bound n (j + 1)) s = (-1, set_decodingP b d).
Proof.
  intros Hok Hc Hs Hn Hj Ht Hw. pose proof (enc_ok_space e Hok) as Hsp.
  pose proof (decode_common_eq S e d _ _ s Hok (equi_interval n j Hn ltac:(lia)) Hc Hs) as Hdc.
  simpl in Hdc. rewrite decide_False in Hdc; [done|].
  pose proof (equi_bound_mono n (j + 1) t ltac:(lia) ltac:(lia)).
  pose proof (equi_bound_range n (j + 1) ltac:(lia) ltac:(lia)).
  pose proof (scaled_mono (equi_bound n (j + 1)) (equi_bound n t) (range_space e) ltac:(lia) ltac:(lia)).
  unfold new_low, new_high, MAXVALUEPLUS1, MAXVALUE in *.
  destruct (Z.geb_spec (equi_bound n (j + 1)) (0xffffff + 1)); lia.
Qed.

Lemma decode_equiprobable_try_eq S e n t s : enc_ok e -> compat S e ->
  1 <= n < 0x400000 -> 0 <= t < n -> t - 1 <= s <= t ->
  new_low e (equi_bound n t) <= window S (bits_used e) (underflow e) <= new_high e (equi_bound n (t + 1)) ->
  forall fuel d j, sync S e d -> 0 <= j <= t -> t - j < Z.of_nat fuel ->
  exists b, decode_equiprobable_try fuel d n s j =
    (Some t, snd (range_decode_common (set_decodingP b d) (equi_bound n t) (equi_bound n (t + 1)) t)).
Proof.
  intros Hok Hc Hn Ht Hst Hw. induction fuel as [|fuel IH]; intros d j Hs Hj Hf; [lia|].
  cbn [decode_equiprobable_try]. rewrite !u32_small by lia.
  replace (_ && _) with true by (symmetry; rewrite andb_true_iff, !Z.ltb_lt; lia).
  rewrite equiprobable_range_eq by lia. destruct (decide (j = t)) as [->|Hne].
  - exists (decodingP d). replace (set_decodingP (decodingP d) d) with d by (by destruct d).
    pose proof (decode_common_eq S e d _ _ t Hok (equi_interval n t Hn Ht) Hc Hs) as Hdc. simpl in Hdc.
    rewrite decide_True in Hdc by done. by rewrite Hdc.
  - destruct (equi_reject S e d n j t j Hok Hc Hs Hn ltac:(lia) ltac:(lia) ltac:(lia)) as [b ->]. cbn [Z.eqb].
    destruct (IH (set_decodingP b d) (j + 1) (sync_mode _ _ _ b Hs) ltac:(lia) ltac:(lia)) as [b' ->].
    by exists b'.
Qed.

#[export] Instance equiprobable_small_codec n : n < 0x400000 ->
  Codec (fun t => 0 <= t < n) (fun t c => snd (encode_equiprobable_small c n t))
    (fun c => decode_equiprobable_small c n).
Proof.
  intros Hn t Ht.
  apply (Codes_interval _ _ _ (equi_bound n t) (equi_bound n (t + 1))); [apply equi_interval; lia| | |].
  - intros e H. unfold encode_equiprobable_small. destruct (n <? 1); [done|].
    destruct (range_equiprobable_range n t). by apply flag_encode.
  - intros e Hok. unfold encode_equiprobable_small. destruct (Z.ltb_spec n 1); [lia|].
    by rewrite equiprobable_range_eq by lia.
  - intros S e d Hok Hc Hs Hw. unfold decode_equiprobable_small. destruct (Z.ltb_spec n 1); [lia|].
    pose proof (enc_ok_space e Hok) as Hsp. destruct (sync_range S e d Hs) as (Hds & _ & _).
    pose proof Hs as [Sl Sh Sv _ _ _]. pose proof (window_range S (bits_used e) (underflow e)) as Hwr.
    pose proof (cm_range _ _ Hc) as Hcr. pose proof Hok as [[Hbuf Hl Hh Hlh Hu Hd Hnr He] _ _].
    rewrite Hds, Sl, Sv. set (w := window S (bits_used e) (underflow e)) in *.
    rewrite (u32_small (w - low e)), (u64_small n), u64_small by nia.
    pose proof (equi_estimate n t (range_space e) (w - low e) ltac:(lia) Ht ltac:(lia)) as Hest.
    pose proof (equi_bound_range n (t + 1) ltac:(lia) ltac:(lia)).
    unfold new_low, new_high, MAXVALUEPLUS1, MAXVALUE in Hw.
    destruct (Z.geb_spec (equi_bound n (t + 1)) (0xffffff + 1)); [lia|].
    specialize (Hest ltac:(lia)).
    assert (0 <= (w - low e) * n / range_space e) by (apply Z.div_pos; nia).
    rewrite u32_small by lia. set (s := (w - low e) * n / range_space e) in *.
    assert ((if nz s then i32 (s - 1) else 0) = Z.max 0 (s - 1)) as ->.
    { unfold nz. destruct (Z.eqb_spec s 0); cbn [negb]; [lia|]. rewrite i32_small; lia. }
    destruct (decode_equiprobable_try_eq S e n t s Hok Hc ltac:(lia) Ht Hest) with (fuel := 4%nat) (d := d) (j := Z.max 0 (s - 1))
      as [b ->]; [|done|lia|lia|by exists b, t].
    unfold new_low, new_high, MAXVALUEPLUS1, MAXVALUE.
    destruct (Z.geb_spec (equi_bound n (t + 1)) (0xffffff + 1)); fold w; lia.
Qed.

Lemma join_halves t : 0 <= t < 2 ^ 31 ->
  i32 (Z.lor (u32 (Z.land t 0xffff)) (u32 (Z.shiftl (u32 (t / 0x10000)) 16))) = t.
Proof.
  intros Ht. change 0xffff with (Z.ones 16). rewrite Z.land_ones by lia.
  change 0x10000 with (2 ^ 16).
  assert (0 <= t mod 2 ^ 16 < 2 ^ 16) by (apply Z.mod_pos_bound; lia).
  assert (0 <= t / 2 ^ 16 < 2 ^ 15) by divmod.
  rewrite (u32_small (t mod 2 ^ 16)), (u32_small (t / 2 ^ 16)) by lia.
  rewrite Z.shiftl_mul_pow2, u32_small, lor_disjoint by lia.
  rewrite i32_small by lia. divmod.
Qed.

#[export] Instance equiprobable_codec n : n < 2 ^ 31 ->
  Codec (fun t => 0 <= t < n) (fun t c => snd (range_encode_equiprobable c n t))
    (fun c => range_decode_equiprobable c n).
Proof.
  intros Hn t Ht. unfold range_encode_equiprobable, range_decode_equiprobable.
  destruct (Z.geb_spec n 0x400000).
  - rewrite !Z.quot_div_nonneg by lia.
    assert (n / 0x10000 < 0x8000) by divmod.
    eapply Codes_ext; [reflexivity | reflexivity |].
    apply (Codes_bind _ (fun c => snd (encode_equiprobable_small c 0x10000 (Z.land t 0xffff)))
             (fun c => decode_equiprobable_small c (1 + n / 0x10000))
             (fun hi c => let '(lo, c) := decode_equiprobable_small c 0x10000 in
                          (i32 (Z.lor (u32 lo) (u32 (Z.shiftl (u32 hi) 16))), c))
             (t / 0x10000) t).
    + apply (equiprobable_small_codec (1 + n / 0x10000) ltac:(lia)). divmod.
    + assert (0 <= Z.land t 0xffff < 0x10000) as Hlo.
      { change 0xffff with (Z.ones 16). rewrite Z.land_ones by lia. apply Z.mod_pos_bound. lia. }
      pose proof (Codes_map (fun lo => i32 (Z.lor (u32 lo) (u32 (Z.shiftl (u32 (t / 0x10000)) 16)))) _ _ _
                    (equiprobable_small_codec 0x10000 ltac:(lia) _ Hlo)) as HC.
      cbv beta in HC. rewrite join_halves in HC by lia. exact HC.
  - apply (equiprobable_small_codec n ltac:(lia)). lia.
Qed.
