(* ===== verification/RangeRun.v ===== *)
(** Whole runs of the range coder: flushing, prefetching, and the round trip of
    any client written against the codec interface. *)
From S2P Require Import Prelude RangeCoder RangeBits RangeSim RangeCodec.
Local Open Scope Z_scope.
Local Open Scope succinct_scope.

(** ** Words cut at a bit *)
Lemma word_app S p a b : word S p (a + b) = word S p a * 2 ^ Z.of_nat b + word S (p + Z.of_nat a) b.
Proof.
  induction b as [|b IH].
  - rewrite Nat.add_0_r. change (word S (p + Z.of_nat a) 0) with 0. lia.
  - rewrite Nat.add_succ_r, !word_succ, IH, Nat2Z.inj_succ, Z.pow_succ_r, Nat2Z.inj_add, Z.add_assoc by lia. lia.
Qed.

Lemma word_top_bits S p v b : 0 <= v < 2 ^ 32 -> (b <= 32)%nat ->
  (forall i, 0 <= i < Z.of_nat b -> S (p + i) = Z.testbit v (31 - i)) ->
  word S p b = v / 2 ^ (32 - Z.of_nat b).
Proof.
  intros Hv. induction b as [|b IH]; intros Hb Hs.
  - rewrite Z.div_small by (simpl; lia). reflexivity.
  - rewrite word_succ, IH, Hs, testbit_b2z by (lia || (intros; apply Hs; lia)).
    replace (32 - Z.of_nat b) with (Z.succ (32 - Z.of_nat (Datatypes.S b))) by lia.
    replace (31 - Z.of_nat b) with (32 - Z.of_nat (Datatypes.S b)) by lia.
    rewrite Z.pow_succ_r, (Z.mul_comm 2 (2 ^ _)), <- Z.div_div by lia.
    symmetry. apply Z.div_mod. lia.
Qed.

(** ** The search for the shortest suffix *)
Definition top (mean b : Z) : Z := mean / 2 ^ (32 - b) * 2 ^ (32 - b).
Definition fits (lo hi mean b : Z) : Prop := lo <= top mean b /\ top mean b + 2 ^ (32 - b) - 1 <= hi.

Lemma top_shift mean b : 0 <= mean < 2 ^ 32 -> 0 <= b <= 32 ->
  u32 (Z.shiftl (Z.shiftr mean (32 - b)) (32 - b)) = top mean b.
Proof.
  intros Hm Hb. rewrite Z.shiftr_div_pow2, Z.shiftl_mul_pow2 by lia. apply u32_small. unfold top.
  assert (0 < 2 ^ (32 - b)) by lia. split; [apply Z.mul_nonneg_nonneg; [apply Z.div_pos|]; lia|].
  pose proof (Z.mul_div_le mean (2 ^ (32 - b)) ltac:(lia)). lia.
Qed.

Lemma mask_shift b : 0 <= b <= 32 -> Z.shiftr 0xffffffff b = 2 ^ (32 - b) - 1.
Proof.
  intros. change 0xffffffff with (Z.ones 32). rewrite Z.shiftr_div_pow2 by lia.
  rewrite Z.ones_div_pow2, Z.ones_equiv by lia. lia.
Qed.

Lemma top_room mean b : 0 <= mean < 2 ^ 32 -> 0 <= b <= 32 ->
  0 <= top mean b <= mean /\ mean <= top mean b + 2 ^ (32 - b) - 1 /\ top mean b + 2 ^ (32 - b) <= 2 ^ 32.
Proof.
  intros Hm Hb. unfold top. assert (0 < 2 ^ (32 - b)) by lia.
  pose proof (Z.mul_div_le mean (2 ^ (32 - b)) ltac:(lia)).
  pose proof (Z.mul_succ_div_gt mean (2 ^ (32 - b)) ltac:(lia)).
  assert (0 <= mean / 2 ^ (32 - b)) by (apply Z.div_pos; lia).
  assert (mean / 2 ^ (32 - b) < 2 ^ b) as Hlt.
  { apply Z.div_lt_upper_bound; [lia|]. rewrite <- Z.pow_add_r by lia. replace (32 - b + b) with 32 by lia. lia. }
  assert (2 ^ 32 = 2 ^ b * 2 ^ (32 - b)) as -> by (rewrite <- Z.pow_add_r by lia; f_equal; lia).
  nia.
Qed.

Lemma fits_31 lo hi mean : 0 <= lo <= mean -> mean <= hi < 2 ^ 32 -> lo mod 2 = 0 -> hi mod 2 = 1 ->
  fits lo hi mean 31.
Proof. intros. unfold fits, top. change (32 - 31) with 1. split; divmod. Qed.

Lemma conclude_search_spec lo hi mean : 0 <= lo <= mean -> mean <= hi < 2 ^ 32 ->
  lo mod 2 = 0 -> hi mod 2 = 1 ->
  forall fuel b v mask, 0 <= b <= 31 -> 31 - b < Z.of_nat fuel ->
  v = top mean b -> u32 (v + mask) = top mean b + 2 ^ (32 - b) - 1 ->
  exists b', conclude_search fuel lo hi mean b v mask = Some b' /\ b <= b' <= 31 /\ fits lo hi mean b'.
Proof.
  intros Hlo Hhi Hev Hodd. induction fuel as [|fuel IH]; intros b v mask Hb Hf Hv Hm; [lia|].
  cbn [conclude_search]. rewrite Hm, Hv. destruct (_ || _) eqn:E.
  - destruct (decide (b = 31)) as [->|Hne].
    { destruct (fits_31 lo hi mean Hlo Hhi Hev Hodd) as [F1 F2].
      apply orb_true_iff in E. rewrite Z.gtb_ltb, !Z.ltb_lt in E. lia. }
    destruct (Z.geb_spec (b + 1) 32); [lia|].
    destruct (IH (b + 1) (u32 (Z.shiftl (Z.shiftr mean (32 - (b + 1))) (32 - (b + 1))))
                (Z.shiftr 0xffffffff (b + 1))) as (b' & Hb' & Hr & Hfit).
    + lia.
    + lia.
    + apply top_shift; lia.
    + pose proof (top_room mean (b + 1) ltac:(lia) ltac:(lia)).
      rewrite top_shift, mask_shift, u32_small by lia. lia.
    + exists b'. split; [done|]. split; [lia | done].
  - exists b. split; [done|]. split; [lia|]. apply orb_false_iff in E as [E1 E2].
    rewrite Z.gtb_ltb, Z.ltb_ge in *. split; lia.
Qed.

(** ** range_conclude *)
Fixpoint msbs (n : nat) (i v : Z) : list bool :=
  match n with O => [] | Datatypes.S n => Z.testbit v (31 - i) :: msbs n (i + 1) v end.

Lemma length_msbs n i v : length (msbs n i v) = n.
Proof. revert i. induction n; intros; simpl; by rewrite ?IHn. Qed.

Lemma lookup_msbs n i v k : (k < n)%nat -> msbs n i v !! k = Some (Z.testbit v (31 - (i + Z.of_nat k))).
Proof.
  revert i k. induction n as [|n IH]; intros i k Hk; [lia|]. destruct k as [|k]; simpl msbs.
  - simpl. do 3 f_equal. lia.
  - simpl lookup. rewrite IH by lia. do 2 f_equal. lia.
Qed.


Lemma emit_msbs_cases n i v c : buffer_ok c -> 0 <= i -> i + Z.of_nat n <= 32 ->
  (exists c', emit_msbs n i v c = (0, c') /\ bits_only c c' /\ buffer_ok c' /\ appended c c' (msbs n i v)) \/
  (fst (emit_msbs n i v c) = -1 /\ out_of_bits (snd (emit_msbs n i v c)) = true /\
   bit_stream_length c < bits_used c + Z.of_nat n).
Proof.
  revert i c. induction n as [|n IH]; intros i c Hok Hi Hn; cbn [emit_msbs msbs].
  { left. exists c. split; [done|]. split; [exists (bit_stream c), (bits_used c); by destruct c|].
    split; [done|]. by apply appended_nil. }
  rewrite shiftr_bit by lia. pose proof (buf_used _ _ _ Hok) as Hbu.
  destruct (decide (bits_used c < bit_stream_length c)) as [Hlt|Hge].
  - destruct (range_emitbit_appends c (Z.testbit v (31 - i)) Hok Hlt) as (c1 & -> & (bs & k & ->) & Hok1 & Happ1).
    cbn [Z.eqb]. destruct (IH (i + 1) _ Hok1 ltac:(lia) ltac:(lia)) as [(c' & -> & (bs' & k' & ->) & Hok' & Happ') | (H1 & H2 & H3)].
    + left. eexists. split; [done|]. split; [by exists bs', k'|]. split; [done|].
      change (?b :: ?l) with ([b] ++ l). eapply appended_trans; [lia | exact Happ1 | exact Happ'].
    + right. split; [done|]. split; [done|]. pose proof (app_used _ _ _ _ _ Happ1) as Hx. simpl in *. lia.
  - right. rewrite range_emitbit_full by lia. cbn [Z.eqb]. split; [done|]. split; [done|]. lia.
Qed.

Lemma conclude_low l : 0 <= l < 2 ^ 31 -> Z.land (u32 (Z.shiftl l 1)) 0x7fffffff = (2 * l) mod 2 ^ 31.
Proof. intros. change 0x7fffffff with (Z.ones 31). rewrite Z.land_ones, u32_shl1 by lia. by rewrite (Z.mod_small l). Qed.

Lemma conclude_high h : 2 ^ 31 <= h < 2 ^ 32 ->
  Z.lor (u32 (Z.shiftl h 1)) 0x80000001 = 2 * (h mod 2 ^ 30) + 2 ^ 31 + 1.
Proof.
  intros. change 0x80000001 with (Z.lor 1 (1 * 2 ^ 31)). rewrite Z.lor_assoc, lor_shl1_1 by lia.
  replace (2 * (h mod 2 ^ 31) + 1) with ((2 * (h mod 2 ^ 30) + 1) + ((h / 2 ^ 30) mod 2) * 2 ^ 31) by divmod.
  rewrite <- (lor_disjoint (2 * (h mod 2 ^ 30) + 1) _ 31) by divmod.
  assert ((h / 2 ^ 30) mod 2 = 0 \/ (h / 2 ^ 30) mod 2 = 1) as [-> | ->] by divmod.
  - rewrite Z.mul_0_l, Z.lor_0_r, lor_disjoint by divmod. lia.
  - rewrite <- Z.lor_assoc, Z.lor_diag, lor_disjoint by divmod. lia.
Qed.

(** The range left after the first bit: a window whose tail lies in it lies in
    the coder's range.  The straddling ranges are the only ones this fails for. *)
Lemma conclude_geometry l h w b : 0 <= l < 2 ^ 31 -> 2 ^ 31 <= h < 2 ^ 32 ->
  ~ (2 ^ 30 <= l /\ h < 3 * 2 ^ 30) -> 0 <= w < 2 ^ 31 -> 0 <= b <= 1 ->
  (2 * l) mod 2 ^ 31 <= 2 * w + b <= 2 * (h mod 2 ^ 30) + 2 ^ 31 + 1 ->
  l <= 2 ^ 31 * (((h - l) / 2 + l) / 2 ^ 31) + w <= h.
Proof. intros. divmod. Qed.

Lemma conclude_mean l h : 0 <= l < h -> h < 2 ^ 32 ->
  u32 (u32 (h - l) / 2 + l) = (h - l) / 2 + l /\ l <= (h - l) / 2 + l <= h /\ 0 <= (h - l) / 2 + l < 2 ^ 32.
Proof.
  intros. rewrite (u32_small (h - l)) by lia.
  assert (l <= (h - l) / 2 + l <= h) by divmod. rewrite u32_small by lia. split; [done|]. split; lia.
Qed.

(** the bits that are emitted are the leading bits of the mean *)
Lemma conclude_bits mean b j : 0 <= mean < 2 ^ 32 -> 0 <= b <= 32 -> 32 - b <= j < 32 ->
  Z.testbit (Z.lor (u32 (Z.shiftl (Z.shiftr mean (32 - b)) (32 - b))) (Z.shiftr 0xffffffff b)) j
  = Z.testbit mean j.
Proof.
  intros Hm Hb Hj. rewrite Z.lor_spec, mask_shift, Z.sub_1_r, <- Z.ones_equiv, Z.ones_spec_high by lia.
  rewrite orb_false_r. unfold u32. rewrite Z.mod_pow2_bits_low, Z.shiftl_spec, Z.shiftr_spec by lia.
  f_equal. lia.
Qed.

(** every stream that starts with the leading [b] bits of a fitting mean keeps
    the 32-bit word inside of the range *)
Lemma fits_word S p lo hi mean b : 0 <= mean < 2 ^ 32 -> 0 <= b <= 31 -> fits lo hi mean b ->
  (forall i, 0 <= i < b -> S (p + i) = Z.testbit mean (31 - i)) ->
  lo <= 2 * word S p 31 + Z.b2z (S (p + 31)) <= hi.
Proof.
  intros Hm Hb [Hlo Hhi] Hs.
  pose proof (word_top_bits S p mean (Z.to_nat b) Hm ltac:(lia)) as Ht.
  rewrite Z2Nat.id in Ht by lia. specialize (Ht Hs).
  pose proof (word_app S p (Z.to_nat b) (32 - Z.to_nat b)) as Ha.
  replace (Z.to_nat b + (32 - Z.to_nat b))%nat with 32%nat in Ha by lia.
  pose proof (word_range S (p + Z.of_nat (Z.to_nat b)) (32 - Z.to_nat b)) as Hr.
  replace (Z.of_nat (32 - Z.to_nat b)) with (32 - b) in * by lia.
  pose proof (word_succ S p 31) as Hw. change (Z.of_nat 31) with 31 in Hw. unfold top in *. nia.
Qed.

(** the range that is left when the first bit has been taken off *)
Definition tail_low (l : Z) : Z := (2 * l) mod 2 ^ 31.
Definition tail_high (h : Z) : Z := 2 * (h mod 2 ^ 30) + 2 ^ 31 + 1.
Definition tail_mean (l h : Z) : Z := (tail_high h - tail_low l) / 2 + tail_low l.

Lemma conclude_tail_search l h : 0 <= l < 2 ^ 31 -> 2 ^ 31 <= h < 2 ^ 32 ->
  0 <= tail_mean l h < 2 ^ 32 /\
  u32 (u32 (tail_high h - tail_low l) / 2 + tail_low l) = tail_mean l h /\
  exists b, conclude_search 32 (tail_low l) (tail_high h) (tail_mean l h) 0 0 (-1) = Some b /\
    0 <= b <= 31 /\ fits (tail_low l) (tail_high h) (tail_mean l h) b.
Proof.
  intros Hl Hh. assert (0 <= tail_low l < tail_high h) as H1 by (unfold tail_low, tail_high; divmod).
  assert (tail_high h < 2 ^ 32) as H2 by (unfold tail_high; divmod).
  destruct (conclude_mean _ _ H1 H2) as (E & Hm & Hr). split; [exact Hr|]. split; [exact E|].
  destruct (conclude_search_spec (tail_low l) (tail_high h) (tail_mean l h)) with (fuel := 32%nat) (b := 0) (v := 0) (mask := -1)
    as (b & Hb & Hbb & Hf); try (unfold tail_mean in *; lia).
  - unfold tail_low. divmod.
  - unfold tail_high. divmod.
  - unfold top. rewrite Z.sub_0_r, Z.div_small by exact Hr. done.
  - unfold top. rewrite Z.sub_0_r, Z.div_small by exact Hr. done.
  - by exists b.
Qed.

(** What flushing leaves: a stream that is possible for the coder whatever
    bits follow it. *)
Record concluded (e e' : range_coder) : Prop := {
  cc_buffer : buffer_ok e';
  cc_flag : out_of_bits e' = out_of_bits e;
  cc_len : bit_stream_length e' = bit_stream_length e;
  cc_used : pos e < bits_used e' <= pos e + 32;
  cc_any : forall S, (forall i, 0 <= i < bits_used e' -> S i = bitat (bit_stream e') i) -> compat S e
}.

(** the emitted bits: the mean's top bit, the owed bits, the tail's leading bits *)
Definition conclude_stream (e : range_coder) (b : Z) : list bool :=
  let m := Z.testbit ((high e - low e) / 2 + low e) 31 in
  m :: replicate (Z.to_nat (underflow e)) (negb m) ++ msbs (Z.to_nat b) 0
    (Z.lor (u32 (Z.shiftl (Z.shiftr (tail_mean (low e) (high e)) (32 - b)) (32 - b))) (Z.shiftr 0xffffffff b)).

Lemma conclude_stream_compat e b S : enc_ok e -> bits_used e + underflow e < 2 ^ 32 - 64 ->
  0 <= b <= 31 ->
  fits (tail_low (low e)) (tail_high (high e)) (tail_mean (low e) (high e)) b ->
  (forall i, 0 <= i < bits_used e -> S i = bitat (bit_stream e) i) ->
  (forall k x, conclude_stream e b !! k = Some x -> S (bits_used e + Z.of_nat k) = x) ->
  compat S e.
Proof.
  intros [Hwf Hsp Hst] Hp Hb Hf Hold Hnew. pose proof Hwf as [Hok Hl Hh Hlh Hu Hd Hn He].
  pose proof (conclude_tail_search (low e) (high e) ltac:(lia) ltac:(lia)) as (Hm & _ & _).
  set (m := Z.testbit ((high e - low e) / 2 + low e) 31) in *.
  assert (S (bits_used e) = m) as H0.
  { rewrite <- (Z.add_0_r (bits_used e)). apply (Hnew 0%nat). done. }
  assert (forall i, 1 <= i <= underflow e -> S (bits_used e + i) = negb m) as Hu'.
  { intros i Hi. rewrite <- (Z2Nat.id i) by lia. apply Hnew. unfold conclude_stream. fold m.
    destruct (Z.to_nat i) as [|k] eqn:E; [lia|]. simpl. rewrite lookup_app_l by (rewrite length_replicate; lia).
    apply lookup_replicate_2. lia. }
  split; [done | by rewrite H0 | | unfold pos; lia].
  unfold window. rewrite H0.
  pose proof (fits_word S (bits_used e + underflow e + 1) _ _ _ b Hm Hb Hf) as Hw.
  pose proof (conclude_geometry (low e) (high e) (word S (bits_used e + underflow e + 1) 31)
                (Z.b2z (S (bits_used e + underflow e + 1 + 31)))) as Hg.
  assert (Z.b2z m = ((high e - low e) / 2 + low e) / 2 ^ 31) as ->.
  { unfold m. rewrite testbit_b2z by lia. apply Z.mod_small. split; [apply Z.div_pos; divmod|]. divmod. }
  pose proof (word_range S (bits_used e + underflow e + 1) 31). pose proof (b2z_range (S (bits_used e + underflow e + 1 + 31))).
  apply Hg; try lia.
  - unfold straddles in Hst. lia.
  - apply Hw. intros i Hi. replace (bits_used e + underflow e + 1 + i)
      with (bits_used e + Z.of_nat (Datatypes.S (Z.to_nat (underflow e) + Z.to_nat i))) by lia.
    apply Hnew. unfold conclude_stream. fold m. simpl. rewrite lookup_app_r by (rewrite length_replicate; lia).
    rewrite length_replicate. replace (Z.to_nat (underflow e) + Z.to_nat i - Z.to_nat (underflow e))%nat with (Z.to_nat i) by lia.
    rewrite lookup_msbs by lia. f_equal. rewrite Z.add_0_l, Z2Nat.id by lia. apply conclude_bits; lia.
Qed.

Lemma range_conclude_cases e : enc_ok e ->
  (exists b e', range_conclude e = (0, e') /\ buffer_ok e' /\ out_of_bits e' = out_of_bits e /\
     bit_stream_length e' = bit_stream_length e /\ appended e e' (conclude_stream e b) /\
     0 <= b <= 31 /\ fits (tail_low (low e)) (tail_high (high e)) (tail_mean (low e) (high e)) b) \/
  (fst (range_conclude e) = -1 /\ out_of_bits (snd (range_conclude e)) = true /\
   bit_stream_length e < pos e + 32).
Proof.
  intros [Hwf Hsp Hst]. pose proof Hwf as [Hok Hl Hh Hlh Hu Hd Hn He]. pose proof (buf_used _ _ _ Hok) as Hbu.
  destruct (conclude_mean (low e) (high e) ltac:(lia) ltac:(lia)) as (Em & Hmb & Hm).
  destruct (conclude_tail_search (low e) (high e) ltac:(lia) ltac:(lia)) as (Htm & Et & b & Hb & Hbr & Hf).
  unfold range_conclude. rewrite Em, shiftr_bit by lia.
  unfold conclude_stream. set (m := Z.testbit ((high e - low e) / 2 + low e) 31).
  replace (Z.lxor (Z.b2z m) 1) with (Z.b2z (negb m)) by (by destruct m).
  destruct (decide (bits_used e < bit_stream_length e)) as [Hlt|Hge].
  2: { right. rewrite range_emitbit_full by lia. cbn [Z.eqb fst snd]. split; [done|]. split; [done|]. unfold pos. lia. }
  destruct (range_emitbit_appends e m Hok Hlt) as (c1 & -> & (bs & k & ->) & Hok1 & Happ1).
  change (0 =? 0) with true. cbn iota. cbn [underflow set_bits].
  destruct (emit_underflow_cases (Z.to_nat (underflow e)) (set_bits bs k e) (negb m) Hok1 ltac:(simpl; lia))
    as [(bs2 & k2 & -> & Hok2 & Happ2) | (c2 & -> & Hc2 & Hfull)].
  2: { right. cbn [Z.eqb fst snd]. split; [done|]. split; [done|].
       pose proof (app_used _ _ _ _ _ Happ1) as Hx. cbn in Hx, Hfull. unfold pos. lia. }
  change (0 =? 0) with true. cbn iota.
  cbn [low high underflow set_underflow set_bits set_low set_high].
  rewrite conclude_low, conclude_high by lia. fold (tail_low (low e)) (tail_high (high e)). rewrite Et, Hb.
  match goal with |- context [emit_msbs ?n ?i ?v ?c] =>
    destruct (emit_msbs_cases n i v c) as [(c' & -> & (bs' & k' & ->) & Hok' & Happ') | (H1 & H2 & H3)] end;
    [exact Hok2 | lia | lia | |].
  - left. exists b. eexists. split; [reflexivity|]. split; [exact Hok'|]. split; [done|]. split; [done|].
    split; [|done]. change (m :: ?l) with ([m] ++ l).
    eapply appended_trans; [lia | exact Happ1|]. pose proof (app_used _ _ _ _ _ Happ1) as Hx. cbn in Hx.
    eapply appended_trans; [cbn; lia | exact Happ2 | exact Happ'].
  - right. split; [exact H1|]. split; [exact H2|].
    pose proof (app_used _ _ _ _ _ Happ1) as Hx. pose proof (app_used _ _ _ _ _ Happ2) as Hy.
    rewrite length_replicate in Hy. cbn in Hx, Hy, H3. unfold pos. lia.
Qed.

Lemma range_conclude_law e : enc_ok e -> out_of_bits (snd (range_conclude e)) = false ->
  concluded e (snd (range_conclude e)) /\ fst (range_conclude e) = 0.
Proof.
  intros Hok Hflag. destruct (range_conclude_cases e Hok) as [(b & e' & E & Hb & Hfl & Hlen & Happ & Hr & Hf) | (_ & Hx & _)];
    [|congruence].
  rewrite E in *. cbn [fst snd] in *. split; [|done].
  pose proof Hok as [[Hbok Hl Hh Hlh Hu Hd Hn He] _ _]. pose proof (buf_used _ _ _ Hbok). pose proof (buf_cap _ _ _ Hb).
  pose proof (buf_used _ _ _ Hb). pose proof (app_used _ _ _ _ _ Happ) as Hn'.
  assert (Z.of_nat (length (conclude_stream e b)) = 1 + underflow e + b) as Hlenb.
  { unfold conclude_stream. cbn [length]. rewrite length_app, length_replicate, length_msbs. lia. }
  rewrite Hlenb in Hn'.
  split; [done | done | done | unfold pos; lia |].
  intros S HS. destruct (appended_compat S e e' _ ltac:(lia) Happ HS) as [Hold Hnew].
  eapply conclude_stream_compat; eauto. lia.
Qed.

(** enough room for flushing *)
Lemma range_conclude_room e : enc_ok e -> pos e + 32 <= bit_stream_length e ->
  fst (range_conclude e) = 0 /\ out_of_bits (snd (range_conclude e)) = out_of_bits e.
Proof.
  intros Hok Hroom. destruct (range_conclude_cases e Hok) as [(b & e' & -> & _ & Hfl & _) | (_ & _ & H)]; [done | lia].
Qed.

(** ** The start of a run *)

(** a coder on which nothing has been written yet *)
Record fresh (c : range_coder) : Prop := {
  fr_low : low c = 0; fr_high : high c = 0xffffffff; fr_underflow : underflow c = 0;
  fr_used : bits_used c = 0; fr_errors : errors c = 0; fr_mode : decodingP c = false;
  fr_rescales : norescale c = false; fr_flag : out_of_bits c = false;
  fr_len : 0 <= bit_stream_length c < 2 ^ 31;
  fr_mem : bit_stream_length c <= 8 * Z.of_nat (length (bit_stream c))
}.

Lemma fresh_ok c : fresh c -> enc_ok c.
Proof.
  intros []. split; [split | |]; rewrite ?fr_low0, ?fr_high0, ?fr_underflow0; try lia; try done.
  - split; rewrite ?fr_used0; [lia | lia | lia |]. by rewrite Zmod_0_l.
  - unfold straddles. rewrite fr_low0. lia.
Qed.

Lemma fresh_pos c : fresh c -> pos c = 0.
Proof. intros []. unfold pos. by rewrite fr_used0, fr_underflow0. Qed.

Lemma range_new_coder_fresh mem bytes : 0 <= bytes < 2 ^ 28 -> Z.of_nat (length mem) = bytes ->
  fresh (range_new_coder mem bytes).
Proof.
  intros Hb Hm. unfold range_new_coder, range_coder_reset. split; cbn; try done; try lia.
  unfold nz. destruct (Z.eqb_spec bytes 0) as [->|]; cbn; lia.
Qed.

(** the 32 bits that follow the position of the decoder *)
Lemma prefetch_bits_spec S n d : 0 <= bits_used d -> bits_used d + Z.of_nat n < 2 ^ 32 ->
  0 <= value d < 2 ^ 32 ->
  (forall i, 0 <= i -> S i = if i <? bit_stream_length d then bitat (bit_stream d) i else false) ->
  exists v, prefetch_bits n d = set_value v (set_bits (bit_stream d) (bits_used d + Z.of_nat n) d) /\
    v = (value d * 2 ^ Z.of_nat n + word S (bits_used d) n) mod 2 ^ 32.
Proof.
  revert d. induction n as [|n IH]; intros d H0 Hn Hv HS.
  { exists (value d). split; [by destruct d; cbn; rewrite Z.add_0_r|].
    change (word S (bits_used d) 0) with 0. rewrite Z.mul_1_r, Z.add_0_r, Z.mod_small; done. }
  cbn [prefetch_bits]. rewrite range_decode_getnextbit_spec by lia. rewrite <- HS, lor_shl1_b2z by lia.
  pose proof (b2z_range (S (bits_used d))) as Hb.
  destruct (IH (set_value (2 * (value d mod 2 ^ 31) + Z.b2z (S (bits_used d))) (set_bits (bit_stream d) (bits_used d + 1) d)))
    as (v & -> & ->); cbn [bits_used set_value set_bits value bit_stream bit_stream_length];
    [lia | lia | divmod | done |].
  eexists. split; [by replace (bits_used d + Z.of_nat (Datatypes.S n)) with (bits_used d + 1 + Z.of_nat n) by lia|].
  rewrite word_head, Nat2Z.inj_succ, Z.pow_succ_r by lia.
  replace (value d * (2 * 2 ^ Z.of_nat n) + (2 ^ Z.of_nat n * Z.b2z (S (bits_used d)) + word S (bits_used d + 1) n))
    with ((2 * (value d mod 2 ^ 31) + Z.b2z (S (bits_used d))) * 2 ^ Z.of_nat n + word S (bits_used d + 1) n
          + (value d / 2 ^ 31 * 2 ^ Z.of_nat n) * 2 ^ 32).
  - by rewrite Z_mod_plus_full.
  - rewrite (Z.div_mod (value d) (2 ^ 31)) at 3 by lia. lia.
Qed.

Lemma range_decode_prefetch_sync S e d : enc_ok e -> low e = 0 -> high e = 0xffffffff -> pos e = 0 ->
  bits_used d = 0 -> norescale d = false ->
  (forall i, 0 <= i -> S i = if i <? bit_stream_length d then bitat (bit_stream d) i else false) ->
  sync S e (range_decode_prefetch d).
Proof.
  intros Hok Hl Hh Hp Hd Hn HS. pose proof Hok as [[Hbok _ _ _ Hu _ _ _] _ _]. pose proof (buf_used _ _ _ Hbok).
  unfold pos in Hp. assert (bits_used e = 0) as He0 by lia. assert (underflow e = 0) as Hu0 by lia.
  unfold range_decode_prefetch.
  destruct (prefetch_bits_spec S 32 (set_value 0 (set_high 0xffffffff (set_low 0 d)))) as (v & -> & ->);
    cbn [bits_used set_value set_high set_low value bit_stream bit_stream_length]; [lia | lia | lia | done |].
  rewrite Hd. split; cbn [low high value bits_used set_value set_bits set_high set_low bit_stream bit_stream_length norescale].
  - done.
  - done.
  - rewrite He0, Hu0, Z.mul_0_l, Z.add_0_l. unfold window.
    change (2 ^ 31) with (2 ^ Z.of_nat 31). change (0 + 0 + 1) with (0 + 1). rewrite <- word_head.
    apply Z.mod_small. apply (word_range S 0 32).
  - unfold pos. rewrite He0, Hu0. lia.
  - done.
  - done.
Qed.

(** ** Whole runs *)
Lemma flag_emit_msbs n i v c : out_of_bits c = true -> out_of_bits (snd (emit_msbs n i v c)) = true.
Proof.
  revert i c. induction n as [|n IH]; intros i c H; cbn [emit_msbs]; [exact H|].
  apply flagged_call; [by apply flag_emitbit | intros; by apply IH].
Qed.

Lemma flag_conclude c : out_of_bits c = true -> out_of_bits (snd (range_conclude c)) = true.
Proof.
  intros H. unfold range_conclude. apply flagged_call; [by apply flag_emitbit|].
  intros c1 H1. apply flagged_call; [by apply flag_emit_underflow|].
  intros c2 H2. cbn zeta. destruct (conclude_search _ _ _ _ _ _ _); [by apply flag_emit_msbs | exact H2].
Qed.

(** the bits of a buffer, and zeros after them *)
Definition stream_of (d : range_coder) (i : Z) : bool :=
  if i <? bit_stream_length d then bitat (bit_stream d) i else false.

(** The decoder's buffer carries the encoder's output: the same bits up to
    [bits_used], anything in the rest of the last byte and after it. *)
Definition carries (e d : range_coder) : Prop :=
  bits_used e <= bit_stream_length d /\
  forall i, 0 <= i < bits_used e -> bitat (bit_stream d) i = bitat (bit_stream e) i.

(** Whatever [enc] writes into an empty buffer, [dec] reads [a] from it. *)
Definition Roundtrips {A} (enc : range_coder -> range_coder) (dec : range_coder -> A * range_coder) (a : A) : Prop :=
  forall c d, fresh c ->
  let e := snd (range_conclude (enc c)) in
  out_of_bits e = false -> carries e d -> bits_used d = 0 -> norescale d = false ->
  fst (dec (range_decode_prefetch d)) = a.

Lemma codes_run {A} enc dec (a : A) : Codes enc dec a -> Roundtrips enc dec a.
Proof.
  intros HC c d Hf e' Hflag [Hlen Hbits] Hd Hn. pose proof (fresh_ok _ Hf) as Hok.
  assert (out_of_bits (enc c) = false) as Henc.
  { destruct (out_of_bits (enc c)) eqn:E; [|done]. by rewrite <- Hflag, <- (flag_conclude _ E). }
  destruct (range_conclude_law (enc c) (cd_ok _ _ _ HC c Hok Henc) Hflag) as [[_ _ _ _ Hany] _].
  destruct (cd_law _ _ _ HC (stream_of d) c Hok Henc) as [_ Hdec].
  { apply Hany. intros i Hi. unfold stream_of. fold e' in Hi.
    destruct (Z.ltb_spec i (bit_stream_length d)); [by apply Hbits | lia]. }
  destruct (Hdec (range_decode_prefetch d)) as (d' & -> & _); [|done].
  apply range_decode_prefetch_sync; try done; [apply Hf | apply Hf | by apply fresh_pos].
Qed.

(** reading back from the encoder's own buffer *)
Definition read_back (e : range_coder) : range_coder :=
  RangeCoder 0 0xffffffff 0 0 0 false false (bit_stream e) (bit_stream_length e) 0 false.

Lemma Roundtrips_read_back {A} enc dec (a : A) c : Roundtrips enc dec a -> fresh c ->
  let e := snd (range_conclude (enc c)) in
  out_of_bits e = false -> (bits_used e <=? bit_stream_length e) = true ->
  fst (dec (range_decode_prefetch (read_back e))) = a.
Proof. intros H Hf e Hflag Hu. apply H with (c := c); try done. split; [by apply Z.leb_le | done]. Qed.

(** ** What a symbol costs *)
Lemma range_encode_room e pl ph : enc_ok e -> interval pl ph -> pos e + 26 <= bit_stream_length e ->
  let e' := snd (range_encode e pl ph) in
  fst (range_encode e pl ph) = 0 /\ enc_ok e' /\ out_of_bits e' = out_of_bits e /\
  bit_stream_length e' = bit_stream_length e /\ pos e <= pos e' <= pos e + 26.
Proof.
  intros Hok Hi Hroom. cbn zeta. rewrite range_encode_eq by done. destruct (narrow_wf e pl ph Hok Hi) as [Hwf Hw].
  assert (pos (narrow e pl ph) = pos e) as Hp by done.
  destruct (emit_stable_enc _ Hwf) as [(e' & -> & [A1 A2 AW A3 A4] & Hok' & _) | (e' & -> & _ & (t & Ht & Hx & Hlen))]; cbn [fst snd].
  - split; [done|]. split; [done|]. split; [done|]. split; [done|]. rewrite Hp in *. split; [done|].
    destruct (Z.le_gt_cases (pos e') (pos e + 26)) as [|Hgt]; [done|]. exfalso.
    pose proof (wf_low _ (ok_wf _ Hok')). pose proof (wf_high _ (ok_wf _ Hok')).
    assert (2 ^ 27 <= 2 ^ (pos e' - pos e)) by (apply Z.pow_le_mono_r; lia).
    assert (width e' <= 2 ^ 32) by (unfold width; lia). nia.
  - exfalso. change (bit_stream_length (narrow e pl ph)) with (bit_stream_length e) in Hlen. rewrite Hp in Hlen.
    assert (2 ^ 26 <= 2 ^ t) by (apply Z.pow_le_mono_r; lia). nia.
Qed.

Definition encode_all (l : list (Z * Z)) (c : range_coder) : range_coder :=
  fold_left (fun c i => snd (range_encode c i.1 i.2)) l c.

(** [n] symbols and the flush fit in [26 * n + 32] bits *)
Lemma encode_all_room l e : enc_ok e -> Forall (fun i => interval i.1 i.2) l ->
  pos e + 26 * Z.of_nat (length l) <= bit_stream_length e ->
  let e' := encode_all l e in
  enc_ok e' /\ out_of_bits e' = out_of_bits e /\ bit_stream_length e' = bit_stream_length e /\
  pos e' <= pos e + 26 * Z.of_nat (length l).
Proof.
  revert e. induction l as [|[pl ph] l IH]; intros e Hok Hl Hroom; cbn zeta.
  { split; [done|]. split; [done|]. split; [done|]. simpl. lia. }
  inversion_clear Hl as [|? ? Hi Hl']. cbn [length] in Hroom. rewrite Nat2Z.inj_succ in Hroom.
  destruct (range_encode_room e pl ph Hok Hi ltac:(lia)) as (_ & Hok' & Hf & Hlen & Hpos).
  unfold encode_all. cbn [fold_left fst snd]. fold (encode_all l (snd (range_encode e pl ph))).
  destruct (IH _ Hok' Hl' ltac:(lia)) as (H1 & -> & -> & H4). rewrite Hf, Hlen.
  split; [done|]. split; [done|]. split; [done|]. cbn [length]. lia.
Qed.

(** ** Encoders that fit in a number of bits *)
Definition Fits (k : Z) (enc : range_coder -> range_coder) : Prop :=
  forall e, enc_ok e -> pos e + k <= bit_stream_length e ->
  enc_ok (enc e) /\ out_of_bits (enc e) = out_of_bits e /\
  bit_stream_length (enc e) = bit_stream_length e /\ pos (enc e) <= pos e + k.

Lemma Fits_ret : Fits 0 (fun e => e).
Proof. intros e Hok _. split; [done|]. split; [done|]. split; [done|]. lia. Qed.

Lemma Fits_bind j k f g : 0 <= k -> Fits j f -> Fits k g -> Fits (j + k) (fun e => g (f e)).
Proof.
  intros Hk Hf Hg e Hok Hroom. destruct (Hf e Hok ltac:(lia)) as (H1 & H2 & H3 & H4).
  destruct (Hg (f e) H1 ltac:(lia)) as (G1 & -> & -> & G4). rewrite H2, H3.
  split; [done|]. split; [done|]. split; [done|]. lia.
Qed.

Lemma Fits_mono j k f : j <= k -> Fits j f -> Fits k f.
Proof.
  intros Hj Hf e Hok Hroom. destruct (Hf e Hok ltac:(lia)) as (H1 & H2 & H3 & H4).
  split; [done|]. split; [done|]. split; [done|]. lia.
Qed.

Lemma Fits_interval pl ph enc : interval pl ph ->
  (forall e, enc_ok e -> enc e = snd (range_encode e pl ph)) -> Fits 26 enc.
Proof.
  intros Hi Heq e Hok Hroom. rewrite Heq by done. destruct (range_encode_room e pl ph Hok Hi Hroom) as (_ & H1 & H2 & H3 & H4).
  split; [done|]. split; [done|]. split; [done|]. lia.
Qed.

Lemma symbol_fits f n s : cumulative f n -> codable f n s ->
  Fits 26 (fun c => snd (range_encode_symbol c f n s)).
Proof.
  intros Hf Hs. apply (Fits_interval (sym_low f s) (sym_high f n s)); [by apply symbol_interval|].
  intros e [[] _ _]. unfold range_encode_symbol. by rewrite wf_errors.
Qed.

Lemma equiprobable_small_fits n t : n < 0x400000 -> 0 <= t < n ->
  Fits 26 (fun c => snd (encode_equiprobable_small c n t)).
Proof.
  intros Hn Ht. apply (Fits_interval (equi_bound n t) (equi_bound n (t + 1))); [apply equi_interval; lia|].
  intros e _. unfold encode_equiprobable_small. destruct (Z.ltb_spec n 1); [lia|].
  by rewrite equiprobable_range_eq by lia.
Qed.

Lemma equiprobable_fits n t : n < 2 ^ 31 -> 0 <= t < n ->
  Fits 52 (fun c => snd (range_encode_equiprobable c n t)).
Proof.
  intros Hn Ht. unfold range_encode_equiprobable. destruct (Z.geb_spec n 0x400000).
  - rewrite !Z.quot_div_nonneg by lia.
    apply (Fits_bind 26 26 (fun c => snd (encode_equiprobable_small c (1 + n / 0x10000) (t / 0x10000)))
             (fun c => snd (encode_equiprobable_small c 0x10000 (Z.land t 0xffff)))); [lia| |].
    + apply equiprobable_small_fits; divmod.
    + apply equiprobable_small_fits; [lia|]. change 0xffff with (Z.ones 16).
      rewrite Z.land_ones by lia. apply Z.mod_pos_bound. lia.
  - apply (Fits_mono 26); [lia|]. by apply equiprobable_small_fits.
Qed.

(** flushing after an encoder that fits *)
Lemma Fits_conclude k enc c : Fits k enc -> fresh c -> 0 <= k -> k + 32 <= bit_stream_length c ->
  out_of_bits (snd (range_conclude (enc c))) = false /\ fst (range_conclude (enc c)) = 0 /\
  bits_used (snd (range_conclude (enc c))) <= k + 32.
Proof.
  intros HF Hf Hk Hroom. pose proof (fresh_pos _ Hf) as Hp. destruct (HF c (fresh_ok _ Hf) ltac:(lia)) as (H1 & H2 & H3 & H4).
  destruct (range_conclude_room (enc c) H1 ltac:(lia)) as [E Hx]. rewrite Hx, H2, E, (fr_flag _ Hf).
  split; [done|]. split; [done|].
  destruct (range_conclude_law (enc c) H1) as [[_ _ _ Hu _] _]; [by rewrite Hx, H2, (fr_flag _ Hf) | lia].
Qed.

(** ** Encoders with their decoder and their cost *)
Definition Sends {A} (k : Z) (enc : range_coder -> range_coder) (dec : range_coder -> A * range_coder) (a : A) : Prop :=
  0 <= k /\ Codes enc dec a /\ Fits k enc.

Lemma Sends_ret {A} (a : A) : Sends 0 (fun c => c) (fun c => (a, c)) a.
Proof. split; [done|]. split; [apply Codes_ret | apply Fits_ret]. Qed.

Lemma Sends_mono {A} j k enc dec (a : A) : j <= k -> Sends j enc dec a -> Sends k enc dec a.
Proof. intros Hj (H0 & HC & HF). split; [lia|]. split; [done|]. by eapply Fits_mono. Qed.

Lemma Sends_bind {A B} j k enc1 enc2 dec1 (dec2 : A -> range_coder -> B * range_coder) a b :
  Sends j enc1 dec1 a -> Sends k enc2 (dec2 a) b ->
  Sends (j + k) (fun c => enc2 (enc1 c)) (fun c => let '(x, c) := dec1 c in dec2 x c) b.
Proof.
  intros (H1 & HC1 & HF1) (H2 & HC2 & HF2). split; [lia|].
  split; [exact (Codes_bind _ _ _ _ _ _ HC1 HC2) | by apply (Fits_bind j k enc1 enc2)].
Qed.

Lemma Sends_map {A B} k (f : A -> B) enc dec a : Sends k enc dec a ->
  Sends k enc (fun c => let '(x, c) := dec c in (f x, c)) (f a).
Proof. intros (H0 & HC & HF). split; [done|]. split; [by apply Codes_map | done]. Qed.

(** a symbol of an equiprobable alphabet, then the rest *)
Lemma equiprobable_step {B} n s k (enc : range_coder -> range_coder) (dec : Z -> range_coder -> B * range_coder) b :
  n < 2 ^ 31 -> 0 <= s < n -> Sends k enc (dec s) b ->
  Sends (52 + k) (fun c => enc (snd (range_encode_equiprobable c n s)))
    (fun c => let '(x, c) := range_decode_equiprobable c n in dec x c) b.
Proof.
  intros Hn Hr HS. refine (Sends_bind 52 k _ enc _ dec s b _ HS).
  split; [done|]. split; [exact (equiprobable_codec n Hn s Hr) | by apply equiprobable_fits].
Qed.

(** a table all of whose [n] symbols can be coded *)
Definition table_ok (f : list Z) (n : Z) : Prop :=
  cumulative f n /\ forall s, 0 <= s < n -> codable f n s.

(** a symbol of a table, then the rest *)
Lemma symbol_step {B} f n s k (enc : range_coder -> range_coder) (dec : Z -> range_coder -> B * range_coder) b :
  table_ok f n -> 0 <= s < n -> Sends k enc (dec s) b ->
  Sends (26 + k) (fun c => enc (snd (range_encode_symbol c f n s)))
    (fun c => let '(x, c) := range_decode_symbol c f n in dec x c) b.
Proof.
  intros [Hc Hs] Hr HS. refine (Sends_bind 26 k _ enc _ dec s b _ HS).
  split; [done|]. split; [exact (symbol_codec f n Hc s (Hs s Hr)) | by apply symbol_fits; auto].
Qed.

Lemma sends_run {A} k enc dec (a : A) : Sends k enc dec a -> Roundtrips enc dec a.
Proof. intros (_ & HC & _). by apply codes_run. Qed.

(** ** Bits that have been written stay *)
Record extends (c c' : range_coder) : Prop := {
  ex_buffer : buffer_ok c';
  ex_len : bit_stream_length c' = bit_stream_length c;
  ex_used : bits_used c <= bits_used c';
  ex_old : forall i, 0 <= i < bits_used c -> bitat (bit_stream c') i = bitat (bit_stream c) i
}.

Lemma extends_refl c : buffer_ok c -> extends c c.
Proof. intros. split; lia || done. Qed.

Lemma extends_trans c1 c2 c3 : extends c1 c2 -> extends c2 c3 -> extends c1 c3.
Proof.
  intros [A1 A2 A3 A4] [B1 B2 B3 B4]. split; [done | congruence | lia |].
  intros i Hi. rewrite B4, A4 by lia. done.
Qed.

Lemma extends_same c1 c2 c3 : bit_stream c3 = bit_stream c2 -> bits_used c3 = bits_used c2 ->
  bit_stream_length c3 = bit_stream_length c2 -> extends c1 c2 -> extends c1 c3.
Proof.
  intros E1 E2 E3 [A1 A2 A3 A4]. split; unfold buffer_ok in *; rewrite ?E1, ?E2, ?E3; done.
Qed.

Lemma emitbit_extends c b : buffer_ok c -> extends c (snd (range_emitbit c (Z.b2z b))).
Proof.
  intros Hok. pose proof (buf_used _ _ _ Hok).
  destruct (decide (bits_used c < bit_stream_length c)) as [Hlt|Hge].
  - destruct (range_emitbit_appends c b Hok Hlt) as (c' & -> & (bs & n & ->) & Hok' & [A1 A2 A3 A4]). cbn [snd].
    split; [done | done | cbn in *; lia | done].
  - rewrite range_emitbit_full by lia. by apply (extends_same _ c), extends_refl.
Qed.

Lemma extends_call c r (k : range_coder -> Z * range_coder) : extends c (snd r) ->
  (forall c', extends c c' -> extends c (snd (k c'))) -> extends c (snd (call c <- r ;; k c)).
Proof. destruct r as [r c']. cbn [snd]. intros H1 H2. destruct (r =? 0); [by apply H2 | done]. Qed.

Lemma emit_underflow_extends fuel c b : buffer_ok c -> extends c (snd (emit_underflow fuel true (Z.b2z b) c)).
Proof.
  revert c. induction fuel as [|fuel IH]; intros c Hok; cbn [emit_underflow]; [by apply extends_refl|].
  destruct (underflow c >? 0).
  - apply extends_call.
    + eapply extends_trans; [|apply emitbit_extends; exact Hok]. by apply (extends_same _ c), extends_refl.
    + intros c' He. eapply extends_trans; [exact He | apply IH, He].
  - by apply (extends_same _ c), extends_refl.
Qed.

Lemma emit_msbs_extends n i v c : buffer_ok c -> 0 <= i -> i + Z.of_nat n <= 32 -> extends c (snd (emit_msbs n i v c)).
Proof.
  revert i c. induction n as [|n IH]; intros i c Hok Hi Hn; cbn [emit_msbs]; [by apply extends_refl|].
  rewrite shiftr_bit by lia. apply extends_call; [by apply emitbit_extends|].
  intros c' He. eapply extends_trans; [exact He | apply IH; [apply He | lia | lia]].
Qed.

Lemma conclude_search_range fuel lo hi mean b v mask n : 0 <= b <= 31 ->
  conclude_search fuel lo hi mean b v mask = Some n -> 0 <= n <= 31.
Proof.
  revert b v mask. induction fuel as [|fuel IH]; intros b v mask Hb; cbn [conclude_search]; destruct (_ || _).
  - done.
  - intros H. injection H as <-. done.
  - destruct (Z.geb_spec (b + 1) 32); [done|]. apply IH. lia.
  - intros H. injection H as <-. done.
Qed.

(** Flushing once more, whatever the state, only adds bits. *)
Lemma range_conclude_extends c : buffer_ok c -> extends c (snd (range_conclude c)).
Proof.
  intros Hok. unfold range_conclude. rewrite shiftr_bit by lia. set (m := Z.testbit _ 31).
  replace (Z.lxor (Z.b2z m) 1) with (Z.b2z (negb m)) by (by destruct m).
  apply extends_call; [by apply emitbit_extends|]. intros c1 H1.
  apply extends_call; [eapply extends_trans; [exact H1 | apply emit_underflow_extends, H1]|]. intros c2 H2. cbn zeta.
  match goal with |- context [conclude_search ?f ?lo ?hi ?me ?b ?v ?ma] => destruct (conclude_search f lo hi me b v ma) as [n|] eqn:E end.
  - apply conclude_search_range in E; [|lia]. eapply extends_trans; [|apply emit_msbs_extends; [|lia|lia]].
    + by apply (extends_same _ c2).
    + apply H2.
  - by apply (extends_same _ c2).
Qed.

(** ** The bound of the buffer, whatever happens *)
Definition within (len : Z) (c : range_coder) : Prop :=
  bit_stream_length c = len /\ 0 <= bits_used c <= len /\ decodingP c = false.

Lemma within_call len r (k : range_coder -> Z * range_coder) : within len (snd r) ->
  (forall c, within len c -> within len (snd (k c))) -> within len (snd (call c <- r ;; k c)).
Proof. destruct r as [r c]. cbn [snd]. intros H1 H2. destruct (r =? 0); [by apply H2 | done]. Qed.

Lemma within_emitbit len c b : within len c -> within len (snd (range_emitbit c b)).
Proof.
  intros (H1 & H2 & H3). unfold range_emitbit. destruct (Z.geb_spec (bits_used c) (bit_stream_length c)); [by split|].
  cbv zeta. cbn [snd]. split; [done|]. split; [|done]. cbn. pose proof (u32_range (bits_used c + 1)).
  unfold u32 in *. pose proof (Z.mod_le (bits_used c + 1) (2 ^ 32)). lia.
Qed.

Lemma within_underflow len fuel u c : within len c -> within len (snd (emit_underflow fuel true u c)).
Proof.
  revert c. induction fuel as [|fuel IH]; intros c H; cbn [emit_underflow]; [done|].
  destruct (underflow c >? 0); [|done]. apply within_call; [by apply within_emitbit | done].
Qed.

Lemma within_conclude len c : within len c -> within len (snd (range_conclude c)).
Proof.
  intros H. unfold range_conclude. apply within_call; [by apply within_emitbit|]. intros c1 H1.
  apply within_call; [by apply within_underflow|]. intros c2 H2. cbn zeta.
  destruct (conclude_search _ _ _ _ _ _ _) as [n|]; [|done].
  assert (forall k i v c, within len c -> within len (snd (emit_msbs k i v c))) as Hm.
  { induction k as [|k IH]; intros i v c' H'; cbn [emit_msbs]; [done|]. apply within_call; [by apply within_emitbit | intros; by apply IH]. }
  by apply Hm.
Qed.

Lemma within_stable_loop len fuel c : within len c -> within len (snd (stable_loop fuel c)).
Proof.
  revert c. induction fuel as [|fuel IH]; intros c H; cbn [stable_loop]; [done|].
  unfold stable_step. destruct (_ =? 0); [|done]. cbv zeta. apply within_call; [|done].
  pose proof H as (_ & _ & Hd). rewrite Hd. apply within_call; [by apply within_emitbit|]. intros c1 H1.
  apply within_call.
  - destruct (nz (underflow c1)); [|done]. pose proof H1 as (_ & _ & Hd1). rewrite Hd1. cbn [negb].
    apply within_call; [by apply within_underflow | done].
  - intros c2 H2. cbv zeta. pose proof H2 as (_ & _ & Hd2). cbn [decodingP set_high set_low]. rewrite Hd2. exact H2.
Qed.

Lemma within_rescale_loop len fuel c : within len c -> within len (snd (rescale_loop fuel c)).
Proof.
  revert c. induction fuel as [|fuel IH]; intros c H; cbn [rescale_loop]; [done|].
  unfold rescale_step. destruct (_ && _); [|done]. cbv zeta. destruct (_ >=? _); [exact H|].
  change (0 =? 0) with true. cbn iota. apply IH. cbn [decodingP set_underflow]. pose proof H as (_ & _ & Hd). by rewrite Hd.
Qed.

Lemma within_encode len c pl ph : within len c -> within len (snd (range_encode c pl ph)).
Proof.
  intros H. unfold range_encode. destruct (pl >? ph); [done|]. destruct (_ || _); [done|].
  unfold range_calc_new_range. destruct (range_space c <? MAXVALUEPLUS1); [exact H|].
  cbv zeta. destruct (decodingP c && _); [exact H|]. cbn [nz Z.eqb negb]. destruct (_ >? _); [exact H|].
  apply within_call; [|done]. unfold range_emit_stable_bits. apply within_call; [by apply within_stable_loop|].
  intros c1 H1. destruct (norescale c1); [done|]. by apply within_rescale_loop.
Qed.

Lemma within_symbol len c f n s : within len c -> within len (snd (range_encode_symbol c f n s)).
Proof. intros H. unfold range_encode_symbol. destruct (nz (errors c)); [done|]. by apply within_encode. Qed.

Lemma within_equiprobable len c n s : within len c -> within len (snd (range_encode_equiprobable c n s)).
Proof.
  assert (forall c n s, within len c -> within len (snd (encode_equiprobable_small c n s))) as Hs.
  { intros c' n' s' H. unfold encode_equiprobable_small. destruct (n' <? 1); [done|].
    destruct (range_equiprobable_range n' s'). by apply within_encode. }
  intros H. unfold range_encode_equiprobable. destruct (n >=? 0x400000); cbn [snd]; auto.
Qed.
#[export] Hint Resolve within_symbol within_equiprobable within_conclude : succinct.
