(* ===== verification/RangeStream.v ===== *)
(** Streams of symbols through the range coder: the contract of arithmetic.c
    that its clients rely on. *)
From S2P Require Import Prelude RangeCoder RangeBits RangeSim RangeCodec RangeRun.
Local Open Scope Z_scope.
Local Open Scope succinct_scope.

(** One call of the coder: a symbol of a frequency table, or an equiprobable
    one. *)
Inductive item :=
  | Symbol (frequencies : list Z) (alphabet_size symbol : Z)
  | Equiprobable (alphabet_size symbol : Z).

Definition encode_item (i : item) (c : range_coder) : range_coder :=
  match i with
  | Symbol f n s => snd (range_encode_symbol c f n s)
  | Equiprobable n s => snd (range_encode_equiprobable c n s)
  end.
(** the decoder knows the alphabet and not the symbol *)
Definition decode_item (i : item) (c : range_coder) : Z * range_coder :=
  match i with
  | Symbol f n _ => range_decode_symbol c f n
  | Equiprobable n _ => range_decode_equiprobable c n
  end.
Definition item_symbol (i : item) : Z :=
  match i with Symbol _ _ s => s | Equiprobable _ s => s end.
Definition item_ok (i : item) : Prop :=
  match i with
  | Symbol f n s => cumulative f n /\ codable f n s
  | Equiprobable n s => n < 2 ^ 31 /\ 0 <= s < n
  end.

Definition encode_items (l : list item) (c : range_coder) : range_coder :=
  fold_left (fun c i => encode_item i c) l c.
Fixpoint decode_items (l : list item) (c : range_coder) : list Z * range_coder :=
  match l with
  | [] => ([], c)
  | i :: l =>
      let '(s, c) := decode_item i c in
      let '(r, c) := decode_items l c in (s :: r, c)
  end.

Lemma item_codes i : item_ok i -> Codes (encode_item i) (decode_item i) (item_symbol i).
Proof. destruct i; intros [H1 H2]; [by apply symbol_codec | by apply equiprobable_codec]. Qed.

Lemma item_fits i : item_ok i -> Fits 52 (encode_item i).
Proof.
  destruct i; intros [H1 H2]; [|by apply equiprobable_fits].
  eapply Fits_mono; [|by apply symbol_fits]. lia.
Qed.

Lemma items_codes l : Forall item_ok l -> Codes (encode_items l) (decode_items l) (map item_symbol l).
Proof.
  induction 1 as [|i l Hi Hl IH]; [apply Codes_ret|].
  apply (Codes_bind (encode_item i) (encode_items l) (decode_item i)
           (fun s c => let '(r, c) := decode_items l c in (s :: r, c)) (item_symbol i)); [by apply item_codes|].
  exact (Codes_map (cons (item_symbol i)) _ _ _ IH).
Qed.

Lemma items_fits l : Forall item_ok l -> Fits (52 * Z.of_nat (length l)) (encode_items l).
Proof.
  induction 1 as [|i l Hi Hl IH]; [apply Fits_ret|].
  apply (Fits_mono (52 + 52 * Z.of_nat (length l))); [cbn [length]; lia|].
  apply (Fits_bind _ _ (encode_item i) (encode_items l)); [lia | by apply item_fits | exact IH].
Qed.

(** C4: Whatever sequence of symbols is encoded, from any mixture of frequency
    tables and equiprobable alphabets, and flushed into a buffer, the decoder
    that knows the same alphabets reads back exactly these symbols.  The
    stream may be cut at the bit after the last one and followed by anything.
    The encoder fails only by running out of buffer. *)
Theorem range_stream_roundtrip l : Forall item_ok l ->
  Roundtrips (encode_items l) (decode_items l) (map item_symbol l).
Proof. intros Hl. by apply codes_run, items_codes. Qed.

(** C31: A buffer of 52 bits for each symbol and 32 bits for the flush is always
    enough: every call succeeds and nothing is written past its end. *)
Theorem range_stream_fits l c :
  Forall item_ok l -> fresh c -> 52 * Z.of_nat (length l) + 32 <= bit_stream_length c ->
  let e := range_conclude (encode_items l c) in
  fst e = 0 /\ out_of_bits (snd e) = false /\ bits_used (snd e) <= 52 * Z.of_nat (length l) + 32.
Proof.
  intros Hl Hf Hr e. destruct (Fits_conclude _ _ c (items_fits l Hl) Hf ltac:(lia) Hr) as (H1 & H2 & H3). done.
Qed.

(** a table of three symbols, an alphabet above 2^22 and small ones *)
Definition sample_items : list item :=
  [Symbol [0x100000; 0xc00000] 3 1; Equiprobable 0x1234567 0xabcdef; Equiprobable 69 68;
   Symbol [0x100000; 0xc00000] 3 2; Symbol [0x100000; 0xc00000] 3 0; Equiprobable 2 1].
Definition sample_coder : range_coder := range_new_coder (repeat 0xa5 100) 100.

Lemma sample_items_ok : Forall item_ok sample_items.
Proof.
  assert (cumulative [0x100000; 0xc00000] 3) by (by apply cumulativeb_spec).
  unfold sample_items. rewrite !Forall_cons_iff. unfold item_ok, codable. cbn. unfold MAXVALUEPLUS1, MAXVALUE.
  repeat (split; [first [lia | naive_solver lia]|]). constructor.
Qed.

Lemma sample_fresh : fresh sample_coder.
Proof. apply range_new_coder_fresh; [lia | done]. Qed.

(** the decoder's copy of the output, cut at the last byte that is used *)
Definition reader (e : range_coder) : range_coder :=
  let n := Z.to_nat (bits2bytes (bits_used e)) in
  range_new_coder (take n (bit_stream e)) (bits2bytes (bits_used e)).
Definition sample_output : range_coder := snd (range_conclude (encode_items sample_items sample_coder)).

(** deciding whether a buffer carries an output *)
Definition carriesb (e d : range_coder) : bool :=
  (bits_used e <=? bit_stream_length d) &&
  forallb (fun i => Bool.eqb (bitat (bit_stream d) (Z.of_nat i)) (bitat (bit_stream e) (Z.of_nat i)))
    (seq 0 (Z.to_nat (bits_used e))).
Lemma carriesb_spec e d : carriesb e d = true -> carries e d.
Proof.
  intros H. apply andb_true_iff in H as [H1 H2]. split; [by apply Z.leb_le|]. intros i Hi.
  rewrite forallb_forall in H2. specialize (H2 (Z.to_nat i)). rewrite in_seq, Z2Nat.id in H2 by lia.
  apply eqb_prop, H2. lia.
Qed.

Lemma range_stream_roundtrip_witness :
  out_of_bits sample_output = false /\
  fst (decode_items sample_items (range_decode_prefetch (reader sample_output))) = [1; 0xabcdef; 68; 2; 0; 1].
Proof.
  split; [vm_compute; reflexivity|].
  apply (range_stream_roundtrip sample_items sample_items_ok sample_coder (reader sample_output) sample_fresh);
    [vm_compute; reflexivity | apply carriesb_spec; vm_compute; reflexivity | vm_compute; reflexivity | vm_compute; reflexivity].
Defined.

Lemma range_stream_fits_witness : fst (range_conclude (encode_items sample_items sample_coder)) = 0.
Proof.
  apply (range_stream_fits sample_items sample_coder sample_items_ok sample_fresh). vm_compute. discriminate.
Defined.
