(* ===== verification/Charset.v ===== *)
(** The character sets of charset.c, and the functions of <ctype.h> in the C
    locale. *)
From Stdlib Require Import String Ascii.
From S2P Require Import Prelude.
Local Open Scope Z_scope.

(** the codes of a string literal *)
Definition codes (s : string) : list Z := map (fun a => Z.of_nat (nat_of_ascii a)) (list_ascii_of_string s).

(** ** <ctype.h> *)
Definition isupper (c : Z) : bool := (65 <=? c) && (c <=? 90).
Definition islower (c : Z) : bool := (97 <=? c) && (c <=? 122).
Definition isalpha (c : Z) : bool := isupper c || islower c.
Definition tolower (c : Z) : Z := if isupper c then c + 32 else c.
Definition toupper (c : Z) : Z := if islower c then c - 32 else c.

(** ** Tables *)
Definition CHARCOUNT : Z := 65.
Definition PRINTABLECHARCOUNT : Z := CHARCOUNT - 2 + 26 + 10.

Definition punctuation : list Z :=
  codes " !@#$%^&*()_+-=~`[{]}\|;:'" ++ [34] ++ codes "<,>.?/" ++ [13; 10; 9].
(** The literals are one character shorter than CHARCOUNT and
    PRINTABLECHARCOUNT say: C fills the last element of the arrays with 0. *)
Definition chars : list Z := codes "abcdefghijklmnopqrstuvwxyz" ++ punctuation ++ codes "0U" ++ [0].
Definition printableChars : list Z :=
  codes "abcdefghijklmnopqrstuvwxyzABCDEFGHIJKLMNOPQRSTUVWXYZ" ++ punctuation ++ codes "0123456789" ++ [0].
Definition wordChars : list Z := codes "abcdefghijklmnopqrstuvwxyz0123456789".

(** [for(i=0;i<n;i++) if (c==table[i]) return i; return -1;] *)
Fixpoint table_idx (i : Z) (table : list Z) (c : Z) : Z :=
  match table with
  | [] => -1
  | x :: table => if c =? x then i else table_idx (i + 1) table c
  end.

Definition charIdx (c : Z) : Z :=
  let c := if c >? 0x7f then 85 (* U *) else c in
  let c := if (c >=? 49) && (c <=? 57) then 48 else c in
  table_idx 0 chars c.

Definition printableCharIdx (c : Z) : Z := table_idx 0 printableChars c.

Definition charInWord (c : Z) : bool :=
  if c <? 0x80 then bool_decide (tolower c ∈ wordChars) else false.

(** ** Lemmas *)
Lemma chars_length : Z.of_nat (length chars) = CHARCOUNT.
Proof. reflexivity. Qed.
Lemma printableChars_length : Z.of_nat (length printableChars) = PRINTABLECHARCOUNT.
Proof. reflexivity. Qed.

Lemma table_idx_spec table i c :
  (table_idx i table c = -1 /\ c ∉ table) \/
  (exists k, (k < length table)%nat /\ table_idx i table c = i + Z.of_nat k /\ nth k table 0 = c).
Proof.
  revert i. induction table as [|x table IH]; intros i; cbn [table_idx].
  { left. split; [done | by apply not_elem_of_nil]. }
  destruct (Z.eqb_spec c x) as [->|Hne].
  - right. exists 0%nat. cbn. split; [lia|]. split; [lia | done].
  - destruct (IH (i + 1)) as [[-> Hn] | (k & Hk & -> & Hx)].
    + left. split; [done|]. by apply not_elem_of_cons.
    + right. exists (S k). cbn [length nth]. split; [lia|]. split; [lia | done].
Qed.

Lemma table_idx_range table c : -1 <= table_idx 0 table c < Z.of_nat (length table).
Proof. destruct (table_idx_spec table 0 c) as [[-> _] | (k & Hk & -> & _)]; lia. Qed.

Lemma table_idx_found table c : 0 <= table_idx 0 table c -> rd table (table_idx 0 table c) = c.
Proof.
  destruct (table_idx_spec table 0 c) as [[-> _] | (k & Hk & -> & Hx)]; [lia|].
  intros _. by rewrite Z.add_0_l, rd_of_nat.
Qed.

Lemma tolower_isalpha c : isalpha (tolower c) = isalpha c.
Proof.
  unfold tolower, isalpha. destruct (isupper c) eqn:E; [|by rewrite E]. unfold isupper, islower in *. b2p. lia.
Qed.

(** ** Exhaustive facts about the tables *)
Lemma charIdx_range c : -1 <= charIdx c < CHARCOUNT.
Proof. apply (table_idx_range chars). Qed.

(** the symbol of a character below 0x80 names it, up to the value of a digit;
    all the characters from 0x80 share the symbol 'U' *)
Lemma charIdx_ascii c : 0 <= c < 0x80 -> 0 <= charIdx c ->
  rd chars (charIdx c) = (if (48 <=? c) && (c <=? 57) then 48 else c).
Proof.
  intros Hc Hi.
  pose proof (below_cases 128 (fun c => (charIdx c <? 0) ||
    (rd chars (charIdx c) =? (if (48 <=? c) && (c <=? 57) then 48 else c))) ltac:(vm_compute; reflexivity) c ltac:(lia)) as H.
  cbv beta in H. apply orb_true_iff in H as [H|H]; b2p; [lia | done].
Qed.

Lemma charIdx_unicode c : 0x80 <= c -> charIdx c = 63 /\ rd chars 63 = 85.
Proof. intros. unfold charIdx. destruct (Z.gtb_spec c 0x7f); [done | lia]. Qed.

Lemma printableCharIdx_range c : -1 <= printableCharIdx c < PRINTABLECHARCOUNT.
Proof. apply (table_idx_range printableChars). Qed.

Lemma printableCharIdx_found c : 0 <= printableCharIdx c -> rd printableChars (printableCharIdx c) = c.
Proof. apply table_idx_found. Qed.

Lemma charInWord_case c : 0 <= c -> charInWord (tolower c) = charInWord c.
Proof.
  intros Hc. destruct (decide (c < 128)) as [H|H].
  - apply eqb_prop. apply (below_cases 128 (fun c => Bool.eqb (charInWord (tolower c)) (charInWord c))); [vm_compute; reflexivity | lia].
  - assert (tolower c = c) as ->; [|done]. unfold tolower, isupper. destruct (Z.leb_spec c 90); [lia|]. by rewrite andb_false_r.
Qed.
