(* ===== verification/Interpolative.v ===== *)
(** The interpolative coder of gsinterpolative.c. *)
From S2P Require Import Prelude RangeCoder RangeSim RangeCodec RangeRun.
Local Open Scope Z_scope.
Local Open Scope succinct_scope.

(** [for(b=n-1;b>=0;b--) if ((1<<b)<v) return 1<<b; return 0;] *)
Fixpoint power_search (n : nat) (v : Z) : Z :=
  match n with
  | O => 0
  | S b => if Z.shiftl 1 (Z.of_nat b) <? v then Z.shiftl 1 (Z.of_nat b) else power_search b v
  end.
Definition biggest_power_of_2 (v : Z) : Z := power_search 31 v.

Definition binary_encode (low p high : Z) (c : range_coder) : range_coder :=
  let range := high - low + 1 in
  let value := p - low in
  snd (range_encode_equiprobable c range value).

Definition binary_decode (low high : Z) (c : range_coder) : Z * range_coder :=
  let range := high - low + 1 in
  let '(value, c) := range_decode_equiprobable c range in
  (value + low, c).

(** [doc_low] and [doc_high]: what is known about [list[p]] when [list[lo]] and
    [list[hi]] are known. *)
Definition doc_bounds (list : list Z) (list_length max_value lo p hi : Z) : Z * Z :=
  let doc_low := if lo >? -1 then rd list lo + 1 else 0 in
  let doc_high := if hi <? list_length then rd list hi - 1 else max_value + (hi - list_length) in
  (doc_low + (p - lo - 1), doc_high - (hi - p - 1)).

(** The recursion halves [step]; 31 levels are enough for an [int]. *)
Fixpoint ic_encode_recursive_r (fuel : nat) (list : list Z) (list_length max_value : Z)
    (c : range_coder) (lo p hi step : Z) : range_coder :=
  match fuel with
  | O => c
  | S fuel =>
      if lo >=? list_length then c
      else
        let c :=
          if p <? list_length then
            let '(doc_low, doc_high) := doc_bounds list list_length max_value lo p hi in
            binary_encode doc_low (rd list p) doc_high c
          else c in
        if step >? 1 then
          let c := ic_encode_recursive_r fuel list list_length max_value c lo (p - Z.shiftr step 1) p (Z.shiftr step 1) in
          ic_encode_recursive_r fuel list list_length max_value c p (p + Z.shiftr step 1) hi (Z.shiftr step 1)
        else c
  end.

Fixpoint ic_decode_recursive_r (fuel : nat) (list : list Z) (list_length max_value : Z)
    (c : range_coder) (lo p hi step : Z) : Datatypes.list Z * range_coder :=
  match fuel with
  | O => (list, c)
  | S fuel =>
      if lo >=? list_length then (list, c)
      else
        let '(list, c) :=
          if p <? list_length then
            let '(doc_low, doc_high) := doc_bounds list list_length max_value lo p hi in
            let '(v, c) := binary_decode doc_low doc_high c in
            (wr list p v, c)
          else (list, c) in
        if step >? 1 then
          let '(list, c) := ic_decode_recursive_r fuel list list_length max_value c lo (p - Z.shiftr step 1) p (Z.shiftr step 1) in
          ic_decode_recursive_r fuel list list_length max_value c p (p + Z.shiftr step 1) hi (Z.shiftr step 1)
        else (list, c)
  end.

Definition ic_fuel : nat := 31.

Definition ic_encode_recursive (list : list Z) (list_length max_value : Z) (c : range_coder) : range_coder :=
  let powerof2 := biggest_power_of_2 (list_length + 1) in
  ic_encode_recursive_r ic_fuel list list_length max_value c (-1) (powerof2 - 1) (list_length + 1) powerof2.

(** [list] is the caller's array before the call *)
Definition ic_decode_recursive (list : list Z) (list_length max_value : Z) (c : range_coder)
  : Datatypes.list Z * range_coder :=
  let powerof2 := biggest_power_of_2 (list_length + 1) in
  ic_decode_recursive_r ic_fuel list list_length max_value c (-1) (powerof2 - 1) (list_length + 1) powerof2.

(** ** The root of the recursion *)
Lemma power_search_spec n v : 1 < v <= 2 ^ Z.of_nat n ->
  exists k, (k < n)%nat /\ power_search n v = 2 ^ Z.of_nat k /\ 2 ^ Z.of_nat k < v <= 2 ^ (Z.of_nat k + 1).
Proof.
  induction n as [|n IH]; intros Hv; [change (2 ^ Z.of_nat 0) with 1 in Hv; lia|].
  cbn [power_search]. rewrite Z.shiftl_1_l. rewrite Nat2Z.inj_succ, <- Z.add_1_r in Hv.
  destruct (Z.ltb_spec (2 ^ Z.of_nat n) v).
  - exists n. split; [lia|]. split; [done|]. lia.
  - destruct IH as (k & Hk & -> & Hr); [lia|]. exists k. split; [lia|]. done.
Qed.

Lemma biggest_power_of_2_spec n : 1 <= n < 2 ^ 31 ->
  exists k, (k < 31)%nat /\ biggest_power_of_2 (n + 1) = 2 ^ Z.of_nat k /\
    2 ^ Z.of_nat k <= n < 2 * 2 ^ Z.of_nat k.
Proof.
  intros Hn. destruct (power_search_spec 31 (n + 1)) as (k & Hk & E & Hr); [lia|].
  exists k. rewrite Z.pow_add_r in Hr by lia. split; [done|]. split; [done|]. lia.
Qed.

(** ** What is coded: strictly increasing lists *)
Definition postings (l : list Z) (n max : Z) : Prop :=
  (forall i j, 0 <= i < j -> j < n -> rd l i < rd l j) /\
  (0 < n -> 0 <= rd l 0 /\ rd l (n - 1) <= max).

(** the list extended by the pseudo entries that bound it *)
Definition virtual (l : list Z) (n max i : Z) : Z :=
  if i <? 0 then -1 else if i <? n then rd l i else max + 1 + (i - n).

Lemma postings_gap l n max i j : postings l n max -> 0 <= i <= j -> j < n -> j - i <= rd l j - rd l i.
Proof.
  intros [Hp _] Hij Hj. replace j with (i + Z.of_nat (Z.to_nat (j - i))) by lia.
  assert (i + Z.of_nat (Z.to_nat (j - i)) < n) as H by lia. revert H.
  induction (Z.to_nat (j - i)) as [|k IH]; intros H; [rewrite Z.add_0_r; lia|].
  pose proof (Hp (i + Z.of_nat k) (i + Z.of_nat (S k)) ltac:(lia) H). lia.
Qed.

Lemma virtual_gap l n max i j : postings l n max -> 0 < n -> -1 <= i -> i <= j ->
  j - i <= virtual l n max j - virtual l n max i.
Proof.
  intros Hp Hn Hi Hij. pose proof (proj2 Hp Hn) as [H0 H1]. unfold virtual.
  assert (forall k, 0 <= k < n -> k <= rd l k <= max - (n - 1 - k)) as Hk.
  { intros k Hk. pose proof (postings_gap l n max 0 k Hp ltac:(lia) ltac:(lia)).
    pose proof (postings_gap l n max k (n - 1) Hp ltac:(lia) ltac:(lia)). lia. }
  destruct (Z.ltb_spec i 0), (Z.ltb_spec j 0), (Z.ltb_spec i n), (Z.ltb_spec j n); try lia.
  - pose proof (Hk j ltac:(lia)). lia.
  - pose proof (Hk 0 ltac:(lia)). lia.
  - by apply (postings_gap l n max).
  - pose proof (Hk i ltac:(lia)). lia.
Qed.

Lemma doc_bounds_virtual l m n max lo p hi : -1 <= lo -> 0 <= hi ->
  (0 <= lo -> rd m lo = rd l lo) -> (hi < n -> rd m hi = rd l hi) -> lo < n ->
  doc_bounds m n max lo p hi = (virtual l n max lo + (p - lo), virtual l n max hi - (hi - p)).
Proof.
  intros Hlo Hhi Hml Hmh Hn. unfold doc_bounds, virtual. rewrite Z.gtb_ltb.
  destruct (Z.ltb_spec (-1) lo), (Z.ltb_spec lo 0), (Z.ltb_spec hi n), (Z.ltb_spec hi 0), (Z.ltb_spec lo n);
    try lia; rewrite ?Hml, ?Hmh by lia; f_equal; lia.
Qed.

(** ** One node of the recursion *)

(** [m] with the entries strictly between [a] and [b] filled in from [l] *)
Definition blend (l m : list Z) (n a b : Z) : list Z :=
  tabulate (length m) (fun i => if (a <? i) && (i <? b) && (i <? n) then rd l i else rd m i).

Lemma length_blend l m n a b : length (blend l m n a b) = length m.
Proof. apply length_tabulate. Qed.
Lemma rd_blend l m n a b i : 0 <= i < Z.of_nat (length m) ->
  rd (blend l m n a b) i = if (a <? i) && (i <? b) && (i <? n) then rd l i else rd m i.
Proof. apply rd_tabulate. Qed.

Lemma blend_empty l m n a b : b - 1 <= a \/ n <= a + 1 -> blend l m n a b = m.
Proof.
  intros H. apply rd_ext; [apply length_blend|]. intros i Hi. rewrite length_blend in Hi.
  rewrite rd_blend by done. destruct (_ && _) eqn:E; [b2p; lia | done].
Qed.

(** a position and the halves on its two sides *)
Lemma blend_split l m n a p b : a <= p <= b -> 
  blend l (blend l (blend l m n (p - 1) (p + 1)) n a p) n p b = blend l m n a b \/ p = a \/ p = b.
Proof.
  intros Hp. destruct (decide (p = a)); [auto|]. destruct (decide (p = b)); [auto|]. left.
  apply rd_ext; rewrite !length_blend; [done|]. intros i Hi.
  rewrite !rd_blend by (rewrite ?length_blend; done).
  destruct (Z.ltb_spec p i), (Z.ltb_spec i b), (Z.ltb_spec a i), (Z.ltb_spec i p), (Z.ltb_spec (p - 1) i), (Z.ltb_spec i (p + 1)), (Z.ltb_spec i n);
    cbn [andb]; try lia; done.
Qed.

Lemma blend_write l m n p : 0 <= p < n -> n <= Z.of_nat (length m) ->
  wr m p (rd l p) = blend l m n (p - 1) (p + 1).
Proof.
  intros Hp Hn. apply rd_ext; rewrite length_wr; [by rewrite length_blend|]. intros i Hi.
  rewrite rd_blend, rd_wr by lia.
  destruct (Z.eqb_spec p i), (Z.ltb_spec p (Z.of_nat (length m))), (Z.ltb_spec (p - 1) i), (Z.ltb_spec i (p + 1)), (Z.ltb_spec i n);
    subst; cbn [andb]; try lia; done.
Qed.

(** what a decoder knows when it comes to a node *)
Record node_ok (l m : list Z) (n lo p hi step : Z) : Prop := {
  nd_lo : lo = p - step; nd_min : -1 <= lo;
  nd_hi : hi = p + step \/ n <= hi /\ n <= p + step;
  nd_known_lo : 0 <= lo < n -> rd m lo = rd l lo;
  nd_known_hi : 0 <= hi < n -> rd m hi = rd l hi;
  nd_len : n <= Z.of_nat (length m)
}.

(** the range a position is coded in contains its value *)
Lemma position_range l m n max lo p hi step : postings l n max -> max + 1 < 2 ^ 31 ->
  node_ok l m n lo p hi step -> 1 <= step -> p < n ->
  let dl := virtual l n max lo + (p - lo) in
  let dh := virtual l n max hi - (hi - p) in
  doc_bounds l n max lo p hi = (dl, dh) /\ doc_bounds m n max lo p hi = (dl, dh) /\
  dh - dl + 1 < 2 ^ 31 /\ 0 <= rd l p - dl < dh - dl + 1.
Proof.
  intros Hp Hmax [Hlo Hmin Hhi Hkl Hkh Hlen] Hs H. assert (0 < n) as H0 by lia.
  cbv zeta. rewrite (doc_bounds_virtual l l), (doc_bounds_virtual l m)
    by (done || lia || (intros; apply Hkl; lia) || (intros; apply Hkh; lia)).
  split; [done|]. split; [done|].
  assert (rd l p = virtual l n max p) as ->.
  { unfold virtual. destruct (Z.ltb_spec p 0), (Z.ltb_spec p n); lia || done. }
  pose proof (virtual_gap l n max lo p Hp H0 Hmin ltac:(lia)) as G1.
  pose proof (virtual_gap l n max p hi Hp H0 ltac:(lia) ltac:(lia)) as G2.
  pose proof (virtual_gap l n max (-1) lo Hp H0 ltac:(lia) ltac:(lia)) as G3.
  assert (virtual l n max hi - (hi - p) <= max) as G4.
  { destruct (decide (hi < n)) as [Hh|Hh].
    - pose proof (virtual_gap l n max hi n Hp H0 ltac:(lia) ltac:(lia)) as G.
      unfold virtual at 1 in G. destruct (Z.ltb_spec n 0), (Z.ltb_spec n n); lia.
    - unfold virtual. destruct (Z.ltb_spec hi 0), (Z.ltb_spec hi n); lia. }
  assert (virtual l n max (-1) = -1) as G5 by done. lia.
Qed.

Lemma position_codes l m n max lo p hi step : postings l n max -> max + 1 < 2 ^ 31 ->
  node_ok l m n lo p hi step -> lo < n -> 1 <= step ->
  Codes (fun c => if p <? n then let '(dl, dh) := doc_bounds l n max lo p hi in binary_encode dl (rd l p) dh c else c)
    (fun c => if p <? n then let '(dl, dh) := doc_bounds m n max lo p hi in
                let '(v, c) := binary_decode dl dh c in (wr m p v, c) else (m, c))
    (blend l m n (p - 1) (p + 1)).
Proof.
  intros Hp Hmax Hnode Hn Hs. destruct (Z.ltb_spec p n); [|rewrite blend_empty by lia; apply Codes_ret].
  destruct (position_range l m n max lo p hi step Hp Hmax Hnode Hs H) as (-> & -> & Hr1 & Hr2).
  destruct Hnode as [Hlo Hmin _ _ _ Hlen]. rewrite <- blend_write by lia. unfold binary_encode, binary_decode.
  set (dl := virtual l n max lo + (p - lo)) in *. set (dh := virtual l n max hi - (hi - p)) in *.
  pose proof (Codes_map (fun v => wr m p (v + dl)) _ _ _ (equiprobable_codec (dh - dl + 1) Hr1 (rd l p - dl) Hr2)) as HC.
  cbv beta in HC. replace (rd l p - dl + dl) with (rd l p) in HC by lia.
  eapply Codes_ext; [reflexivity | | exact HC]. intros d. cbv beta. by destruct (range_decode_equiprobable d (dh - dl + 1)).
Qed.

(** ** The whole recursion *)
Lemma shiftr_half k : Z.shiftr (2 ^ Z.of_nat (S k)) 1 = 2 ^ Z.of_nat k.
Proof. rewrite Z.shiftr_div_pow2, Nat2Z.inj_succ, Z.pow_succ_r by lia. rewrite Z.mul_comm. apply Z.div_mul. lia. Qed.

Lemma ic_codes_r l n max : postings l n max -> max + 1 < 2 ^ 31 ->
  forall k fuel m lo p hi, (k < fuel)%nat -> node_ok l m n lo p hi (2 ^ Z.of_nat k) ->
  Codes (fun c => ic_encode_recursive_r fuel l n max c lo p hi (2 ^ Z.of_nat k))
    (fun c => ic_decode_recursive_r fuel m n max c lo p hi (2 ^ Z.of_nat k))
    (blend l m n lo (p + 2 ^ Z.of_nat k)).
Proof.
  intros Hp Hmax. induction k as [|k IH]; intros fuel m lo p hi Hf Hnode;
    (destruct fuel as [|fuel]; [lia|]); cbn [ic_encode_recursive_r ic_decode_recursive_r];
    (destruct (Z.geb_spec lo n); [rewrite blend_empty by lia; apply Codes_ret|]).
  - change (2 ^ Z.of_nat 0) with 1 in *. change (1 >? 1) with false. cbn iota.
    pose proof (position_codes l m n max lo p hi 1 Hp Hmax Hnode ltac:(lia) ltac:(lia)) as HC.
    destruct Hnode as [-> _ _ _ _ _]. eapply Codes_ext; [reflexivity | | exact HC].
    intros d. cbv beta. clear HC. destruct (p <? n); [|done]. destruct (doc_bounds _ _ _ _ _ _) as [dl dh].
    by destruct (binary_decode dl dh d).
  - rewrite shiftr_half. set (s := 2 ^ Z.of_nat k) in *.
    assert (2 ^ Z.of_nat (S k) = 2 * s) as Es by (unfold s; rewrite Nat2Z.inj_succ, Z.pow_succ_r; lia).
    rewrite Es in *. assert (1 <= s) as Hs by (unfold s; lia).
    destruct (Z.gtb_spec (2 * s) 1); [|lia].
    pose proof (position_codes l m n max lo p hi (2 * s) Hp Hmax Hnode ltac:(lia) ltac:(lia)) as HC.
    destruct Hnode as [-> Hmin Hhi Hkl Hkh Hlen].
    set (m1 := blend l m n (p - 1) (p + 1)) in *. set (m2 := blend l m1 n (p - 2 * s) p).
    assert (Codes (fun c => ic_encode_recursive_r fuel l n max c (p - 2 * s) (p - s) p s)
              (fun c => ic_decode_recursive_r fuel m1 n max c (p - 2 * s) (p - s) p s) m2) as HL.
    { pose proof (IH fuel m1 (p - 2 * s) (p - s) p ltac:(lia)) as HI.
      replace (p - s + s) with p in HI by lia. apply HI.
      split; unfold m1; rewrite ?length_blend; try lia; intros; rewrite rd_blend by lia.
      - rewrite Hkl by lia. by destruct (_ && _).
      - by replace ((p - 1 <? p) && (p <? p + 1) && (p <? n)) with true by (symmetry; rewrite !andb_true_iff, !Z.ltb_lt; lia). }
    assert (Codes (fun c => ic_encode_recursive_r fuel l n max c p (p + s) hi s)
              (fun c => ic_decode_recursive_r fuel m2 n max c p (p + s) hi s)
              (blend l m n (p - 2 * s) (p + 2 * s))) as HR.
    { assert (blend l m n (p - 2 * s) (p + 2 * s) = blend l m2 n p (p + s + s)) as ->.
      { destruct (blend_split l m n (p - 2 * s) p (p + 2 * s) ltac:(lia)) as [<- | [?|?]]; [|lia|lia].
        unfold m2, m1. f_equal. lia. }
      apply IH; [lia|].
      split; unfold m2, m1; rewrite ?length_blend; try lia; intros; rewrite !rd_blend by (rewrite ?length_blend; lia).
      - destruct (_ && _); [done|]. by replace ((p - 1 <? p) && (p <? p + 1) && (p <? n)) with true by (symmetry; rewrite !andb_true_iff, !Z.ltb_lt; lia).
      - rewrite Hkh by lia. destruct (_ && _); [done|]. by destruct (_ && _). }
    pose proof (Codes_bind _ _ _ (fun m c => let '(m, c) := ic_decode_recursive_r fuel m n max c (p - 2 * s) (p - s) p s in
        ic_decode_recursive_r fuel m n max c p (p + s) hi s) _ _ HC
      (Codes_bind _ _ _ (fun m c => ic_decode_recursive_r fuel m n max c p (p + s) hi s) _ _ HL HR)) as HA.
    exact HA.
Qed.

Lemma ic_codes l m n max : 1 <= n < 2 ^ 31 -> postings l n max -> max + 1 < 2 ^ 31 -> n <= Z.of_nat (length m) ->
  Codes (ic_encode_recursive l n max) (ic_decode_recursive m n max) (blend l m n (-1) n).
Proof.
  intros Hn Hp Hmax Hlen. destruct (biggest_power_of_2_spec n Hn) as (k & Hk & Hb & Hr).
  unfold ic_encode_recursive, ic_decode_recursive. rewrite Hb. set (s := 2 ^ Z.of_nat k) in *.
  assert (blend l m n (-1) n = blend l m n (-1) (s - 1 + s)) as ->.
  { apply rd_ext; rewrite !length_blend; [done|]. intros i Hi. rewrite !rd_blend by done.
    destruct (Z.ltb_spec i n), (Z.ltb_spec i (s - 1 + s)); rewrite ?andb_true_r, ?andb_false_r; lia || done. }
  unfold s. apply ic_codes_r; [done | done | unfold ic_fuel; lia|]. fold s.
  split; try lia; intros; lia.
Qed.

(** the cost of the subtree of a node *)
Lemma ic_fits_r l n max : postings l n max -> max + 1 < 2 ^ 31 ->
  forall k fuel lo p hi, (k < fuel)%nat -> node_ok l l n lo p hi (2 ^ Z.of_nat k) ->
  Fits (52 * (2 * 2 ^ Z.of_nat k - 1)) (fun c => ic_encode_recursive_r fuel l n max c lo p hi (2 ^ Z.of_nat k)).
Proof.
  intros Hp Hmax.
  assert (forall lo p hi step, node_ok l l n lo p hi step -> 1 <= step ->
    Fits 52 (fun c => if p <? n then let '(dl, dh) := doc_bounds l n max lo p hi in binary_encode dl (rd l p) dh c else c)) as HP.
  { intros lo p hi step Hnode Hs. destruct (Z.ltb_spec p n); [|by eapply Fits_mono, Fits_ret].
    destruct (position_range l l n max lo p hi step Hp Hmax Hnode Hs H) as (-> & _ & Hr1 & Hr2).
    by apply equiprobable_fits. }
  induction k as [|k IH]; intros fuel lo p hi Hf Hnode; (destruct fuel as [|fuel]; [lia|]);
    cbn [ic_encode_recursive_r]; (destruct (Z.geb_spec lo n); [eapply Fits_mono, Fits_ret; lia|]).
  - change (2 ^ Z.of_nat 0) with 1 in *. change (1 >? 1) with false. cbn iota.
    eapply Fits_mono; [|eapply HP; [exact Hnode | lia]]. lia.
  - rewrite shiftr_half. set (s := 2 ^ Z.of_nat k) in *.
    assert (2 ^ Z.of_nat (S k) = 2 * s) as Es by (unfold s; rewrite Nat2Z.inj_succ, Z.pow_succ_r; lia).
    rewrite Es in *. assert (1 <= s) as Hs by (unfold s; lia).
    destruct (Z.gtb_spec (2 * s) 1); [|lia]. pose proof (HP _ _ _ _ Hnode ltac:(lia)) as H1.
    destruct Hnode as [-> Hmin Hhi _ _ Hlen].
    assert (node_ok l l n (p - 2 * s) (p - s) p s) as N1 by (split; lia || done).
    assert (node_ok l l n p (p + s) hi s) as N2 by (split; lia || done).
    pose proof (Fits_bind (52 * (2 * s - 1)) (52 * (2 * s - 1)) _ _ ltac:(lia) (IH fuel _ _ _ ltac:(lia) N1) (IH fuel _ _ _ ltac:(lia) N2)) as H2.
    pose proof (Fits_bind 52 (52 * (2 * s - 1) + 52 * (2 * s - 1)) _ _ ltac:(lia) H1 H2) as H3. eapply Fits_mono; [|exact H3]. lia.
Qed.

Lemma ic_fits l n max : 1 <= n < 2 ^ 31 -> postings l n max -> max + 1 < 2 ^ 31 -> n <= Z.of_nat (length l) ->
  Fits (104 * n) (ic_encode_recursive l n max).
Proof.
  intros Hn Hp Hmax Hlen. destruct (biggest_power_of_2_spec n Hn) as (k & Hk & Hb & Hr).
  unfold ic_encode_recursive. rewrite Hb.
  eapply Fits_mono; [|apply ic_fits_r; [done | done | unfold ic_fuel; lia |]]; [lia|].
  split; try lia; intros; lia.
Qed.

Lemma within_ic_r len l n max fuel c lo p hi step :
  within len c -> within len (ic_encode_recursive_r fuel l n max c lo p hi step).
Proof.
  revert c lo p hi step. induction fuel as [|fuel IH]; intros c lo p hi step H; cbn [ic_encode_recursive_r]; [done|].
  destruct (lo >=? n); [done|].
  assert (within len (if p <? n then let '(dl, dh) := doc_bounds l n max lo p hi in binary_encode dl (rd l p) dh c else c)) as H1.
  { destruct (p <? n); [|done]. destruct (doc_bounds _ _ _ _ _ _). by apply within_equiprobable. }
  destruct (step >? 1); [apply IH, IH, H1 | exact H1].
Qed.

Lemma within_ic len l n max c : within len c -> within len (ic_encode_recursive l n max c).
Proof. apply within_ic_r. Qed.

(** ** Properties *)

(** C14: A strictly increasing list of [n] values up to [max_value] that was
    written by ic_encode_recursive is read back by ic_decode_recursive into the
    first [n] elements of the caller's array, whatever the array held: the
    halving recursion visits every position once, each in a range that contains
    its value. *)
Theorem interpolative_roundtrip l m n max_value :
  1 <= n < 2 ^ 31 -> postings l n max_value -> max_value + 1 < 2 ^ 31 ->
  n <= Z.of_nat (length l) -> n <= Z.of_nat (length m) ->
  Roundtrips (ic_encode_recursive l n max_value)
    (fun c => let '(m, c) := ic_decode_recursive m n max_value c in (firstn (Z.to_nat n) m, c))
    (firstn (Z.to_nat n) l).
Proof.
  intros Hn Hp Hmax Hl Hm. apply codes_run.
  pose proof (Codes_map (firstn (Z.to_nat n)) _ _ _ (ic_codes l m n max_value Hn Hp Hmax Hm)) as HC.
  assert (firstn (Z.to_nat n) (blend l m n (-1) n) = firstn (Z.to_nat n) l) as <-; [|exact HC].
  apply rd_ext; rewrite !length_firstn, ?length_blend; [lia|]. intros i Hi.
  rewrite !(rd_nth (firstn _ _)), !nth_firstn by lia. destruct (Nat.ltb_spec (Z.to_nat i) (Z.to_nat n)); [|done].
  rewrite <- !rd_nth, rd_blend by lia.
  destruct (Z.ltb_spec (-1) i), (Z.ltb_spec i n); cbn [andb]; lia || done.
Qed.

Definition sample_postings : list Z := [2; 3; 9; 10; 17].
Lemma sample_postings_ok : postings sample_postings 5 20.
Proof.
  split; [|vm_compute; intuition congruence]. intros i j Hi Hj. rewrite !rd_nth by lia. unfold sample_postings.
  assert (exists a b, i = Z.of_nat a /\ j = Z.of_nat b /\ (a < b < 5)%nat) as (a & b & -> & -> & Hab).
  { exists (Z.to_nat i), (Z.to_nat j). lia. }
  rewrite !Nat2Z.id. do 5 (destruct a as [|a]; [do 5 (destruct b as [|b]; [simpl; lia|]); lia|]). lia.
Qed.

Definition sample_target : range_coder := range_new_coder (repeat 0 40) 40.

Lemma interpolative_roundtrip_witness :
  fst ((fun c => let '(m, c) := ic_decode_recursive (repeat 7 6) 5 20 c in (firstn (Z.to_nat 5) m, c))
    (range_decode_prefetch (read_back (snd (range_conclude (ic_encode_recursive sample_postings 5 20 sample_target))))))
  = sample_postings.
Proof.
  exact (Roundtrips_read_back _ _ _ sample_target
    (interpolative_roundtrip sample_postings (repeat 7 6) 5 20 ltac:(lia) sample_postings_ok ltac:(lia)
      ltac:(simpl; lia) ltac:(simpl; lia))
    (range_new_coder_fresh (repeat 0 40) 40 ltac:(lia) ltac:(reflexivity)) ltac:(vm_compute; reflexivity) ltac:(vm_compute; reflexivity)).
Defined.
