(* ===== verification/CString.v ===== *)
(** What the form code uses of the C library: strings that end at a NUL,
    comparisons without case, decimal integers, and sscanf with the directives
    of its formats. *)
From Stdlib Require Import String.
From S2P Require Import Prelude Charset.
Local Open Scope Z_scope.

(** ** Strings: the bytes before the NUL *)
Fixpoint cstr (l : list Z) : list Z :=
  match l with
  | [] => []
  | x :: l => if x =? 0 then [] else x :: cstr l
  end.
Definition streq (a b : list Z) : bool := bool_decide (a = b).
(** [!strcasecmp(a, b)] and [!strncasecmp(a, b, n)] *)
Definition strcaseeq (a b : list Z) : bool := bool_decide (map tolower a = map tolower b).
Definition strncaseeq (a b : list Z) (n : nat) : bool := strcaseeq (firstn n a) (firstn n b).

Definition isspace (c : Z) : bool := (c =? 32) || ((9 <=? c) && (c <=? 13)).
Definition isdigit (c : Z) : bool := (48 <=? c) && (c <=? 57).

(** ** Integers *)
Fixpoint skip_spaces (s : list Z) : list Z :=
  match s with
  | x :: s' => if isspace x then skip_spaces s' else s
  | [] => []
  end.
Fixpoint scan_digits (v : Z) (s : list Z) : Z * list Z :=
  match s with
  | x :: s' => if isdigit x then scan_digits (10 * v + (x - 48)) s' else (v, s)
  | [] => (v, [])
  end.
(** digits, at least one of them *)
Definition scan_nat (s : list Z) : option (Z * list Z) :=
  match s with
  | x :: _ => if isdigit x then Some (scan_digits 0 s) else None
  | [] => None
  end.
(** spaces, a sign, digits; the value is kept within 64 bits *)
Definition clamp64 (v : Z) : Z := Z.max (- 2 ^ 63) (Z.min (2 ^ 63 - 1) v).
Definition scan_int (s : list Z) : option (Z * list Z) :=
  match skip_spaces s with
  | [] => None
  | x :: s =>
      if x =? 43 (* + *) then option_map (fun '(v, s) => (clamp64 v, s)) (scan_nat s)
      else if x =? 45 (* - *) then option_map (fun '(v, s) => (clamp64 (- v), s)) (scan_nat s)
      else option_map (fun '(v, s) => (clamp64 v, s)) (scan_nat (x :: s))
  end.
Definition strtoll (s : list Z) : Z := match scan_int s with Some (v, _) => v | None => 0 end.
Definition atoi (s : list Z) : Z := i32 (strtoll s).

(** ** sscanf: the values of the conversions that were made *)
Inductive directive :=
  | Lit (c : Z)       (* a character that must be there *)
  | Blank             (* any white space *)
  | Int               (* %d *)
  | Word              (* %s *)
  | Until (c : Z).    (* %[^c] *)
Inductive scanned := VInt (v : Z) | VStr (s : list Z).

(** the longest prefix without [c] *)
Fixpoint span_not (c : Z) (s : list Z) : list Z * list Z :=
  match s with
  | x :: s' => if x =? c then ([], s) else let '(a, r) := span_not c s' in (x :: a, r)
  | [] => ([], [])
  end.

(** the longest prefix without white space *)
Fixpoint span_word (s : list Z) : list Z * list Z :=
  match s with
  | x :: s' => if isspace x then ([], s) else let '(a, r) := span_word s' in (x :: a, r)
  | [] => ([], [])
  end.

Fixpoint sscanf (fmt : list directive) (s : list Z) : list scanned :=
  match fmt with
  | [] => []
  | Lit c :: fmt => match s with x :: s => if x =? c then sscanf fmt s else [] | [] => [] end
  | Blank :: fmt => sscanf fmt (skip_spaces s)
  | Int :: fmt => match scan_int s with Some (v, s) => VInt (i32 v) :: sscanf fmt s | None => [] end
  | Word :: fmt =>
      let '(a, s) := span_word (skip_spaces s) in
      match a with [] => [] | _ => VStr a :: sscanf fmt s end
  | Until c :: fmt =>
      let '(a, s) := span_not c s in
      match a with [] => [] | _ => VStr a :: sscanf fmt s end
  end.

Example sscanf_date : sscanf [Int; Lit 47; Int; Lit 47; Int] (codes "2017/ 3/+09 x") = [VInt 2017; VInt 3; VInt 9].
Proof. reflexivity. Qed.

(** ** Printing: a number in decimal *)
Fixpoint show_nat (fuel : nat) (n : Z) (acc : list Z) : list Z :=
  match fuel with
  | O => acc
  | S fuel => let acc := (48 + n mod 10) :: acc in if n <? 10 then acc else show_nat fuel (n / 10) acc
  end.
Definition show_int (v : Z) : list Z :=
  if v <? 0 then 45 :: show_nat 20 (- v) [] else show_nat 20 v [].

(** ** Lemmas *)
Definition no_nul (s : list Z) : Prop := 0 ∉ s.

Lemma cstr_id s : no_nul s -> cstr s = s.
Proof.
  induction s as [|x s IH]; intros H; [done|]. cbn [cstr]. apply not_elem_of_cons in H as [Hx Hs].
  destruct (Z.eqb_spec x 0); [lia|]. by rewrite IH.
Qed.
Lemma cstr_app s t : no_nul s -> cstr (s ++ 0 :: t) = s.
Proof.
  induction s as [|x s IH]; intros H; [done|]. cbn [cstr app]. apply not_elem_of_cons in H as [Hx Hs].
  destruct (Z.eqb_spec x 0); [lia|]. by rewrite IH.
Qed.

Lemma span_not_spec c s rest : c ∉ s -> (rest = [] \/ exists r, rest = c :: r) -> span_not c (s ++ rest) = (s, rest).
Proof.
  intros Hs Hr. induction s as [|x s IH]; cbn [app span_not].
  - destruct Hr as [->|[r ->]]; [done|]. cbn [span_not]. by rewrite Z.eqb_refl.
  - apply not_elem_of_cons in Hs as [Hx Hs]. destruct (Z.eqb_spec x c); [congruence|]. by rewrite IH.
Qed.
Lemma span_not_free c s : c ∉ (span_not c s).1.
Proof.
  induction s as [|x s IH]; cbn [span_not]; [apply not_elem_of_nil|]. destruct (Z.eqb_spec x c); [apply not_elem_of_nil|].
  destruct (span_not c s) as [a r]. cbn [fst] in *. apply not_elem_of_cons. split; [congruence | done].
Qed.

(** a character that ends a number *)
Definition stops (rest : list Z) : Prop := match rest with [] => True | x :: _ => isdigit x = false end.

Lemma scan_digits_app s rest v : Forall (fun x => isdigit x = true) s -> stops rest ->
  scan_digits v (s ++ rest) = (fold_left (fun v x => 10 * v + (x - 48)) s v, rest).
Proof.
  intros Hs Hr. revert v. induction Hs as [|x s Hx Hs IH]; intros v; cbn [app scan_digits fold_left].
  - destruct rest as [|x rest]; [done|]. cbn [scan_digits stops] in *. by rewrite Hr.
  - by rewrite Hx, IH.
Qed.

Lemma isdigit_digit n : isdigit (48 + n mod 10) = true.
Proof. unfold isdigit. apply andb_true_iff. split; apply Z.leb_le; divmod. Qed.

Lemma show_nat_spec fuel : forall n acc, 0 <= n < 10 ^ Z.of_nat fuel -> (0 < fuel)%nat ->
  Forall (fun x => isdigit x = true) acc ->
  let s := show_nat fuel n acc in
  Forall (fun x => isdigit x = true) s /\ s <> [] /\
  forall w, fold_left (fun v x => 10 * v + (x - 48)) s w =
    fold_left (fun v x => 10 * v + (x - 48)) acc (w * 10 ^ Z.of_nat (length s - length acc) + n) /\
    (length acc < length s)%nat.
Proof.
  induction fuel as [|fuel IH]; intros n acc Hn Hf Hacc; [lia|]. cbv zeta. cbn [show_nat].
  assert (Forall (fun x => isdigit x = true) ((48 + n mod 10) :: acc)) as Hacc' by (constructor; [apply isdigit_digit | done]).
  destruct (Z.ltb_spec n 10).
  - split; [done|]. split; [done|]. intros w. cbn [fold_left length]. split; [|lia].
    replace (S (length acc) - length acc)%nat with 1%nat by lia. f_equal. rewrite Z.mod_small by lia. lia.
  - rewrite Nat2Z.inj_succ, Z.pow_succ_r in Hn by lia.
    destruct fuel as [|fuel']; [cbn in Hn; lia|].
    destruct (IH (n / 10) ((48 + n mod 10) :: acc)) as (H1 & H2 & H3); [divmod | lia | done|]. cbv zeta in *.
    split; [done|]. split; [done|]. intros w. destruct (H3 w) as [-> Hl]. cbn [fold_left length] in *. split; [|lia].
    set (k := length (show_nat (S fuel') (n / 10) ((48 + n mod 10) :: acc))) in *. f_equal.
    replace (k - length acc)%nat with (S (k - S (length acc)))%nat by lia.
    rewrite Nat2Z.inj_succ, Z.pow_succ_r by lia. divmod.
Qed.

Lemma show_nat_scan n rest : 0 <= n < 10 ^ 20 -> stops rest ->
  scan_nat (show_nat 20 n [] ++ rest) = Some (n, rest) /\ Forall (fun x => isdigit x = true) (show_nat 20 n []) /\ show_nat 20 n [] <> [].
Proof.
  intros Hn Hr. destruct (show_nat_spec 20 n [] ltac:(done) ltac:(lia) ltac:(constructor)) as (H1 & H2 & H3). cbv zeta in *.
  split; [|by split]. pose proof (scan_digits_app _ rest 0 H1 Hr) as E. destruct (H3 0) as [H3' _]. rewrite H3' in E. cbn [fold_left] in E.
  destruct (show_nat 20 n []) as [|x s] eqn:Es; [done|]. inversion H1 as [|? ? Hx _]; subst. cbn [app scan_nat]. rewrite Hx.
  cbn [app] in E. rewrite E. f_equal.
Qed.

Lemma isdigit_not_space x : isdigit x = true -> isspace x = false /\ x <> 43 /\ x <> 45.
Proof.
  unfold isdigit, isspace. intros H. b2p. split; [|lia].
  destruct (Z.eqb_spec x 32); [lia|]. destruct (Z.leb_spec x 13); [lia|]. by rewrite andb_false_r.
Qed.

(** reading what has been printed *)
Lemma scan_int_show v rest : - 2 ^ 63 <= v < 2 ^ 63 -> stops rest -> scan_int (show_int v ++ rest) = Some (v, rest).
Proof.
  intros Hv Hr. unfold show_int. destruct (Z.ltb_spec v 0).
  - destruct (show_nat_scan (- v) rest ltac:(lia) Hr) as (E & _ & _). unfold scan_int. cbn [app skip_spaces].
    change (isspace 45) with false. cbn [Z.eqb Pos.eqb]. rewrite E. cbn [option_map]. do 2 f_equal. unfold clamp64. lia.
  - destruct (show_nat_scan v rest ltac:(lia) Hr) as (E & Hd & Hne). destruct (show_nat 20 v []) as [|x s]; [done|].
    inversion Hd as [|? ? Hx _]; subst. destruct (isdigit_not_space x Hx) as (Hs & H43 & H45).
    unfold scan_int. cbn [app skip_spaces]. rewrite Hs. destruct (Z.eqb_spec x 43), (Z.eqb_spec x 45); try done.
    cbn [app] in E. rewrite E. cbn [option_map]. do 2 f_equal. unfold clamp64. lia.
Qed.

Lemma atoi_show v : - 2 ^ 31 <= v < 2 ^ 31 -> atoi (show_int v) = v.
Proof.
  intros Hv. unfold atoi, strtoll. pose proof (scan_int_show v [] ltac:(lia) I) as E. rewrite app_nil_r in E. rewrite E.
  apply i32_small. lia.
Qed.

Lemma span_not_split c s : let '(a, r) := span_not c s in s = a ++ r /\ (c ∉ a) /\ (r = [] \/ exists r', r = c :: r').
Proof.
  induction s as [|x s IH]; cbn [span_not]; [split; [done|]; split; [apply not_elem_of_nil | by left]|].
  destruct (Z.eqb_spec x c) as [->|Hne]; [split; [done|]; split; [apply not_elem_of_nil | right; by eexists]|].
  destruct (span_not c s) as [a r]. destruct IH as (-> & Ha & Hr). split; [done|]. split; [|done].
  apply not_elem_of_cons. split; [congruence | done].
Qed.

Lemma cstr_no_nul s : no_nul (cstr s).
Proof.
  induction s as [|x s IH]; cbn [cstr]; [apply not_elem_of_nil|]. destruct (Z.eqb_spec x 0); [apply not_elem_of_nil|].
  apply not_elem_of_cons. split; [congruence | done].
Qed.
Lemma cstr_prefix s : exists t, s = cstr s ++ t.
Proof.
  induction s as [|x s [t IH]]; cbn [cstr]; [by exists []|]. destruct (Z.eqb_spec x 0); [by eexists|].
  exists t. cbn [app]. by rewrite <- IH.
Qed.
