(* ===== verification/CFloat.v ===== *)
(** The floating-point arithmetic that the form code uses: strtof, strtod, frexp,
    lroundf, comparisons and products, on the IEEE 754 formats. *)
From Stdlib Require Import String.
From Stdlib Require Export SpecFloat.
From S2P Require Import Prelude Charset CString.
Local Open Scope Z_scope.

(** ** Scanning *)

(** A number as it is written: [(-1)^neg * m * base^e] with base 10 or 2, an
    infinity, or not a number. *)
Inductive literal :=
  | Decimal (neg : bool) (m e : Z)
  | Binary (neg : bool) (m e : Z)
  | Infinite (neg : bool)
  | NotANumber.

Definition hex_value (c : Z) : option Z :=
  if isdigit c then Some (c - 48)
  else if (97 <=? tolower c) && (tolower c <=? 102) then Some (tolower c - 87) else None.
Definition digit_value (c : Z) : option Z := if isdigit c then Some (c - 48) else None.

(** digits in [base] before and after a point; how many digits there are, the
    value, and how many of the digits are behind the point *)
Fixpoint scan_mantissa (value : Z -> option Z) (base : Z) (point : bool) (n m frac : Z) (s : list Z) : Z * Z * Z * list Z :=
  match s with
  | x :: s' =>
      match value x with
      | Some d => scan_mantissa value base point (n + 1) (m * base + d) (if point then frac + 1 else frac) s'
      | None => if (x =? 46) && negb point then scan_mantissa value base true n m frac s' else (n, m, frac, s)
      end
  | [] => (n, m, frac, [])
  end.

(** an exponent after the letter [c], when there is one *)
Definition scan_exponent (c : Z) (s : list Z) : Z * list Z :=
  match s with
  | x :: y :: s' =>
      if tolower x =? c then
        if (y =? 43) || (y =? 45) then
          match scan_nat s' with Some (v, r) => (if y =? 45 then - v else v, r) | None => (0, s) end
        else match scan_nat (y :: s') with Some (v, r) => (v, r) | None => (0, s) end
      else (0, s)
  | _ => (0, s)
  end.

Definition scan_unsigned (neg : bool) (s : list Z) : option (literal * list Z) :=
  if strncaseeq s (codes "infinity") 8 then Some (Infinite neg, skipn 8 s)
  else if strncaseeq s (codes "inf") 3 then Some (Infinite neg, skipn 3 s)
  else if strncaseeq s (codes "nan") 3 then Some (NotANumber, skipn 3 s)
  else
    let hex := scan_mantissa hex_value 16 false 0 0 0 (skipn 2 s) in
    if strncaseeq s (codes "0x") 2 && (0 <? fst (fst (fst hex))) then
      let '(_, m, frac, r) := hex in
      let '(e, r) := scan_exponent 112 r in Some (Binary neg m (e - 4 * frac), r)
    else
      let '(n, m, frac, r) := scan_mantissa digit_value 10 false 0 0 0 s in
      if n =? 0 then None
      else let '(e, r) := scan_exponent 101 r in Some (Decimal neg m (e - frac), r).

(** spaces, a sign, a number *)
Definition scan_float (s : list Z) : option (literal * list Z) :=
  match skip_spaces s with
  | [] => None
  | x :: s' =>
      if x =? 43 then scan_unsigned false s'
      else if x =? 45 then scan_unsigned true s'
      else scan_unsigned false (x :: s')
  end.

(** ** Values *)
Section Format.
Variables prec emax : Z.

(** the nearest number of the format *)
Definition nearest (l : literal) : spec_float :=
  match l with
  | NotANumber => S754_nan
  | Infinite neg => S754_infinity neg
  | Binary neg m e => match m with Zpos p => binary_round prec emax neg p e | _ => S754_zero neg end
  | Decimal neg m e =>
      match m with
      | Zpos p =>
          if 0 <=? e then binary_round prec emax neg (Z.to_pos (m * 10 ^ e)) 0
          else let '(q, e', l) := SFdiv_core_binary prec emax m 0 (10 ^ (- e)) 0 in binary_round_aux prec emax neg q e' l
      | _ => S754_zero neg
      end
  end.

Definition of_int (v : Z) : spec_float := binary_normalize prec emax v 0 false.
(** a number of another format *)
Definition convert (x : spec_float) : spec_float :=
  match x with S754_finite s m e => binary_round prec emax s m e | _ => x end.
End Format.

(** the formats of float and double *)
Definition float_prec : Z := 24.
Definition float_emax : Z := 128.
Definition double_prec : Z := 53.
Definition double_emax : Z := 1024.

Definition strtof (l : literal) : spec_float := nearest float_prec float_emax l.
(** [atof(s)] *)
Definition atof (s : list Z) : spec_float :=
  match scan_float s with Some (l, _) => nearest double_prec double_emax l | None => S754_zero false end.
Definition float_of_int : Z -> spec_float := of_int float_prec float_emax.
Definition float_mul : spec_float -> spec_float -> spec_float := SFmul float_prec float_emax.

(** ** Integers of floats; [None] where C leaves the result open *)
Definition signed (neg : bool) (v : Z) : Z := if neg then - v else v.
(** halves go away from zero *)
Definition lroundf (x : spec_float) : option Z :=
  match x with
  | S754_zero _ => Some 0
  | S754_finite s m e =>
      Some (signed s (if 0 <=? e then Z.pos m * 2 ^ e else (Z.pos m + 2 ^ (- e - 1)) / 2 ^ (- e)))
  | _ => None
  end.
Definition truncate (x : spec_float) : option Z :=
  match x with
  | S754_zero _ => Some 0
  | S754_finite s m e => Some (signed s (if 0 <=? e then Z.pos m * 2 ^ e else Z.pos m / 2 ^ (- e)))
  | _ => None
  end.

(** ** How large the mantissa and the rounded numbers are *)
Section Rounding.
Variables prec emax : Z.
Hypothesis prec_pos : 0 < prec.

Lemma iter_pos_nat {A} (f : A -> A) p : forall x, SpecFloat.iter_pos f p x = Nat.iter (Pos.to_nat p) f x.
Proof.
  induction p as [p IH|p IH|]; intros x; cbn [SpecFloat.iter_pos]; [| |done].
  - rewrite !IH, <- Nat.iter_add, <- Nat.iter_succ_r. f_equal. lia.
  - rewrite !IH, <- Nat.iter_add. f_equal. lia.
Qed.
Lemma shr_1_m r : 0 <= shr_m r -> shr_m (shr_1 r) = shr_m r / 2 /\ (shr_m r mod 2 = 0 -> shr_r r = false -> shr_s r = false -> shr_r (shr_1 r) = false /\ shr_s (shr_1 r) = false).
Proof.
  destruct r as [[|[p|p|]|p] r s]; cbn [shr_m shr_1 shr_r shr_s]; intros H; try lia.
  - split; [done|]. by intros _ -> ->.
  - split; [rewrite Pos2Z.inj_xI; divmod|]. rewrite Pos2Z.inj_xI. intros Hm. divmod.
  - split; [rewrite Pos2Z.inj_xO; divmod|]. by intros _ -> ->.
  - split; [done|]. by intros Hm.
Qed.
(** [n] places to the right; nothing is lost when the places are zeros *)
Lemma shr_n n : forall r, 0 <= shr_m r -> let r' := Nat.iter n shr_1 r in
  shr_m r' = shr_m r / 2 ^ Z.of_nat n /\ (shr_m r mod 2 ^ Z.of_nat n = 0 -> shr_r r = false -> shr_s r = false -> shr_r r' = false /\ shr_s r' = false).
Proof.
  induction n as [|n IH]; intros r Hr; cbn zeta.
  - cbn [Nat.iter]. change (2 ^ Z.of_nat 0) with 1. by rewrite Z.div_1_r.
  - rewrite Nat.iter_succ_r. destruct (shr_1_m r Hr) as [E1 Z1]. assert (0 <= shr_m (shr_1 r)) as H1 by (rewrite E1; divmod).
    destruct (IH (shr_1 r) H1) as [E2 Z2]. assert (2 ^ Z.of_nat (S n) = 2 * 2 ^ Z.of_nat n) as E by (rewrite Nat2Z.inj_succ, Z.pow_succ_r; lia).
    assert (0 < 2 ^ Z.of_nat n) as Hp by (apply Z.pow_pos_nonneg; lia). rewrite E2, E1, E. split; [rewrite Z.div_div by lia; f_equal|].
    intros Hm Hr0 Hs0. rewrite Z.rem_mul_r in Hm by lia.
    pose proof (Z.mod_pos_bound (shr_m r) 2 ltac:(lia)). pose proof (Z.mod_pos_bound (shr_m r / 2) (2 ^ Z.of_nat n) Hp).
    destruct (Z1 ltac:(lia) Hr0 Hs0) as [R1 S1]. apply Z2; [rewrite E1; lia | done | done].
Qed.

Lemma digits_spec m : 0 < m -> 0 < Zdigits2 m /\ 2 ^ (Zdigits2 m - 1) <= m < 2 ^ Zdigits2 m.
Proof.
  destruct m as [|p|p]; try lia. intros _. cbn [Zdigits2]. induction p as [p IH|p IH|]; cbn [digits2_pos]; [| |cbn; lia];
    rewrite Pos2Z.inj_succ; (split; [lia|]); destruct IH as [H0 [H1 H2]];
    rewrite Z.pow_succ_r by lia; replace (Z.succ (Z.pos (digits2_pos p)) - 1) with (Z.succ (Z.pos (digits2_pos p) - 1)) by lia; rewrite (Z.pow_succ_r 2 (Z.pos _ - 1)) by lia; first [rewrite (Pos2Z.inj_xI p) | rewrite (Pos2Z.inj_xO p)]; lia.
Qed.

(** what shr_fexp makes of a number: so many places to the right that the mantissa has
    at most [prec] digits *)
Record shifted (m e k : Z) (l : location) (r : shr_record) : Prop := {
  sh_nonneg : 0 <= k;
  sh_m : shr_m r = m / 2 ^ k;
  sh_bound : shr_m r < 2 ^ prec;
  sh_exponent : k = 0 \/ e + k = fexp prec emax (Zdigits2 m + e);
  sh_exact : l = loc_Exact -> m mod 2 ^ k = 0 -> loc_of_shr_record r = loc_Exact
}.
Lemma shr_fexp_spec m e l : 0 <= m -> let '(r, e') := shr_fexp prec emax m e l in exists k, e' = e + k /\ shifted m e k l r.
Proof.
  intros Hm. unfold shr_fexp. set (n := fexp prec emax (Zdigits2 m + e) - e).
  assert (shr_m (shr_record_of_loc m l) = m) as E0 by (destruct l as [|[]]; done).
  assert (l = loc_Exact -> shr_r (shr_record_of_loc m l) = false /\ shr_s (shr_record_of_loc m l) = false) as Hl by (by intros ->).
  assert (Zdigits2 m - prec <= n) as Hd by (unfold n, fexp; lia).
  assert (forall k, 0 <= k -> Zdigits2 m - prec <= k -> m / 2 ^ k < 2 ^ prec) as Hbound.
  { intros k Hk Hdk. assert (0 < 2 ^ k) by (apply Z.pow_pos_nonneg; lia). apply Z.div_lt_upper_bound; [lia|]. rewrite <- Z.pow_add_r by lia.
    destruct (Z.eq_dec m 0) as [->|Hne]; [apply Z.pow_pos_nonneg; lia|]. destruct (digits_spec m ltac:(lia)) as (D0 & _ & D2).
    eapply Z.lt_le_trans; [exact D2|]. apply Z.pow_le_mono_r; lia. }
  assert (n <= 0 -> exists k, e = e + k /\ shifted m e k l (shr_record_of_loc m l)) as Hstay.
  { intros Hn. exists 0. split; [lia|]. split; [done | by rewrite E0, Z.div_1_r | rewrite E0, <- (Z.div_1_r m); apply (Hbound 0); lia | by left|]. by intros ->. }
  unfold shr. destruct n as [|p|p] eqn:En; [apply Hstay; lia | | apply Hstay; lia].
  exists (Z.pos p). split; [done|]. rewrite iter_pos_nat. destruct (shr_n (Pos.to_nat p) (shr_record_of_loc m l) ltac:(by rewrite E0)) as [E1 Z1].
  rewrite positive_nat_Z, E0 in *. split; [lia | done | rewrite E1; apply Hbound; lia | right; unfold n in En; lia|].
  intros El Hz. destruct (Hl El) as [R0 S0]. destruct (Z1 Hz R0 S0) as [R1 S1]. destruct (Nat.iter _ _ _) as [m' r' s']. cbn in R1, S1. by subst.
Qed.

Lemma round_even_bounds m l : 0 <= m -> 0 <= m <= round_nearest_even m l /\ round_nearest_even m l <= m + 1 /\ (l = loc_Exact -> round_nearest_even m l = m).
Proof. intros Hm. destruct l as [|[]]; cbn [round_nearest_even]; try destruct (Z.even m); (split; [lia|]; split; [lia|]); (done || intros [=]). Qed.
(** the mantissa of a rounded number *)
Lemma round_mantissa s m e l s' p e' : 0 <= m -> binary_round_aux prec emax s m e l = S754_finite s' p e' -> Z.pos p < 2 ^ prec.
Proof.
  intros Hm. unfold binary_round_aux. pose proof (shr_fexp_spec m e l Hm) as H1. destruct (shr_fexp prec emax m e l) as [r1 e1]. destruct H1 as (k1 & _ & [K1 M1 _ _ _]).
  assert (0 < 2 ^ k1) by (apply Z.pow_pos_nonneg; lia). assert (0 <= shr_m r1) as H1 by (rewrite M1; apply Z.div_pos; lia).
  destruct (round_even_bounds (shr_m r1) (loc_of_shr_record r1) H1) as (B1 & _).
  pose proof (shr_fexp_spec (round_nearest_even (shr_m r1) (loc_of_shr_record r1)) e1 loc_Exact ltac:(lia)) as H2.
  destruct (shr_fexp prec emax _ e1 loc_Exact) as [r2 e2]. destruct H2 as (k2 & _ & [_ _ B2 _ _]).
  destruct (shr_m r2) as [|q|q]; [done | | done]. destruct (_ <=? _); [|done]. by intros [= <- <- <-].
Qed.

(** A number that is not above an integer [k * 2^t] of the format is not above it when
    it is rounded.  ([N] makes the exponents positive.) *)
Lemma round_le s m e t k N : 0 <= m -> 0 <= N -> 0 <= N + e -> 0 <= t -> k * 2 ^ t < 2 ^ (prec + t) -> emin prec emax <= t -> prec + t <= emax - prec ->
  m * 2 ^ (N + e) <= k * 2 ^ t * 2 ^ N ->
  binary_round_aux prec emax s m e loc_Exact = S754_zero s \/
  exists p e', binary_round_aux prec emax s m e loc_Exact = S754_finite s p e' /\ e <= e' /\ Z.pos p * 2 ^ (N + e') <= k * 2 ^ t * 2 ^ N.
Proof.
  intros Hm HN HNe Ht HK Hemin Hemax Hle. unfold binary_round_aux. pose proof (shr_fexp_spec m e loc_Exact Hm) as H1.
  destruct (shr_fexp prec emax m e loc_Exact) as [r1 e1]. destruct H1 as (k1 & -> & [K1 M1 _ X1 Y1]).
  assert (0 < 2 ^ k1) as P1 by (apply Z.pow_pos_nonneg; lia). assert (0 <= shr_m r1) as H1 by (rewrite M1; apply Z.div_pos; lia).
  destruct (round_even_bounds (shr_m r1) (loc_of_shr_record r1) H1) as (B1 & B2 & B3). set (q := round_nearest_even _ _) in *.
  assert (q * 2 ^ (N + (e + k1)) <= k * 2 ^ t * 2 ^ N) as Hq.
  { assert (2 ^ (N + (e + k1)) = 2 ^ k1 * 2 ^ (N + e)) as E1 by (rewrite <- Z.pow_add_r by lia; f_equal; lia).
    assert (0 < 2 ^ (N + e)) as P0 by (apply Z.pow_pos_nonneg; lia).
    pose proof (Z.div_mod m (2 ^ k1) ltac:(lia)) as Hdm. pose proof (Z.mod_pos_bound m (2 ^ k1) P1) as Hmod. rewrite <- M1 in Hdm.
    destruct (Z.eq_dec (m mod 2 ^ k1) 0) as [Hz|Hz].
    - rewrite (B3 (Y1 eq_refl Hz)), E1, Z.mul_assoc. replace (shr_m r1 * 2 ^ k1) with m by lia. done.
    - destruct X1 as [->|X1]; [by rewrite Z.mod_1_r in Hz|]. assert (0 < m) as Hpos by (destruct (Z.eq_dec m 0) as [->|]; [by rewrite Z.mod_0_l in Hz by lia | lia]).
      destruct (digits_spec m Hpos) as (D0 & D1 & _).
      assert (e + k1 <= t) as Hgrid.
      { rewrite X1. unfold fexp. apply Z.max_lub; [|done]. enough (Zdigits2 m - 1 + (N + e) < prec + t + N) by lia.
        apply (Z.pow_lt_mono_r_iff 2); [lia | lia|]. rewrite (Z.pow_add_r 2 (_ - 1)), (Z.pow_add_r 2 (prec + t)) by lia.
        assert (0 < 2 ^ N) by (apply Z.pow_pos_nonneg; lia). nia. }
      assert (k * 2 ^ t * 2 ^ N = k * 2 ^ (t - (e + k1)) * 2 ^ (N + (e + k1))) as E2 by (rewrite <- !Z.mul_assoc, <- !Z.pow_add_r by lia; do 2 f_equal; lia).
      rewrite E2 in Hle |- *. apply Z.mul_le_mono_nonneg_r; [apply Z.pow_nonneg; lia|]. rewrite E1 in Hle.
      set (Q := k * 2 ^ (t - (e + k1))) in *. assert (shr_m r1 * 2 ^ k1 < Q * 2 ^ k1) as Hlt; [|nia].
      apply Z.lt_le_trans with m; [lia|]. apply (Z.mul_le_mono_pos_r _ _ (2 ^ (N + e)) P0). lia. }
  pose proof (shr_fexp_spec q (e + k1) loc_Exact ltac:(lia)) as H2. destruct (shr_fexp prec emax q (e + k1) loc_Exact) as [r2 e2]. destruct H2 as (k2 & -> & [K2 M2 _ _ _]).
  assert (0 < 2 ^ k2) as P2 by (apply Z.pow_pos_nonneg; lia).
  destruct (shr_m r2) as [|p|p] eqn:Er; [by left | | pose proof (Z.div_pos q (2 ^ k2) ltac:(lia) P2); lia]. right.
  assert (Z.pos p * 2 ^ (N + (e + k1 + k2)) <= k * 2 ^ t * 2 ^ N) as Hp.
  { eapply Z.le_trans; [|exact Hq]. replace (N + (e + k1 + k2)) with (k2 + (N + (e + k1))) by lia. rewrite (Z.pow_add_r 2 k2) by lia. rewrite Z.mul_assoc.
    apply Z.mul_le_mono_nonneg_r; [apply Z.pow_nonneg; lia|]. rewrite M2, Z.mul_comm. by apply Z.mul_div_le. }
  assert (e + k1 + k2 < prec + t) as He.
  { enough (N + (e + k1 + k2) < prec + t + N) by lia. apply (Z.pow_lt_mono_r_iff 2); [lia | lia|]. rewrite (Z.pow_add_r 2 (prec + t)) by lia.
    assert (0 < 2 ^ N) by (apply Z.pow_pos_nonneg; lia). assert (0 < 2 ^ (N + (e + k1 + k2))) by (apply Z.pow_pos_nonneg; lia). nia. }
  exists p, (e + k1 + k2). destruct (Z.leb_spec (e + k1 + k2) (emax - prec)); [|lia]. split; [done|]. split; [lia | done].
Qed.
End Rounding.

(** the mantissa of what strtof gives *)
Lemma strtof_mantissa l s m e : strtof l = S754_finite s m e -> Z.pos m < 2 ^ 24.
Proof.
  unfold strtof, nearest, float_prec, float_emax. destruct l as [neg v x|neg v x| |]; [| |done..].
  - destruct v as [|p|p]; [done | | done]. destruct (Z.leb_spec 0 x).
    + unfold binary_round. destruct (shl_align _ _ _) as [mz ez]. by apply round_mantissa.
    + unfold SFdiv_core_binary. destruct (Z.div_eucl _ (10 ^ (- x))) as [q r] eqn:Eq. apply round_mantissa; [lia|].
      match type of Eq with Z.div_eucl ?a ?b = _ => assert (q = a / b) as -> by (unfold Z.div; by rewrite Eq); apply Z.div_pos end;
        [destruct (_ - _ - _); [lia | apply Z.shiftl_nonneg; lia | lia]|].
      apply Z.pow_pos_nonneg; lia.
  - destruct v as [|p|p]; [done | | done]. unfold binary_round. destruct (shl_align _ _ _) as [mz ez]. by apply round_mantissa.
Qed.

(** ** Degrees *)

(** the bounds of the coordinates, 90 = 45 * 2 and 180 = 45 * 4, as floats *)
Inductive degrees : Z -> Prop := latitude : degrees 90 | longitude : degrees 180.
Lemma degrees_float d : degrees d -> exists e, (e = -17 \/ e = -16) /\ float_of_int d = S754_finite false 11796480 e /\
  float_of_int (- d) = S754_finite true 11796480 e /\ 11796480 * 2 ^ (17 + e) = d * 2 ^ 17.
Proof. intros []; [exists (-17) | exists (-16)]; (split; [auto|]); split; [vm_compute; done | split; vm_compute; done | vm_compute; done | split; vm_compute; done]. Qed.

(** a number that is finite and at most [d] in size; [N] makes the exponents positive *)
Definition bounded_by (d : Z) (x : spec_float) : Prop :=
  (exists s, x = S754_zero s) \/ exists s m e N, x = S754_finite s m e /\ Z.pos m < 2 ^ 24 /\ 17 <= N /\ 0 <= N + e /\ Z.pos m * 2 ^ (N + e) <= d * 2 ^ N.

(** the comparison of a bound with a finite number, both of the same sign *)
Definition above (b m : positive) (eb e : Z) : comparison := match Z.compare eb e with Lt => Lt | Gt => Gt | Eq => Pos.compare_cont Eq b m end.
Lemma mantissa_below b m e eb N : Z.pos m < 2 ^ 24 -> 2 ^ 23 <= Z.pos b -> 0 <= N + e -> 0 <= N + eb -> above b m eb e <> Lt ->
  Z.pos m * 2 ^ (N + e) <= Z.pos b * 2 ^ (N + eb).
Proof.
  intros Hm Hb He Heb H. unfold above in H. destruct (Z.compare_spec eb e) as [->|Hlt|Hgt]; [|by destruct H|].
  - apply Z.mul_le_mono_nonneg_r; [apply Z.pow_nonneg; lia|]. fold (Pos.compare b m) in H.
    destruct (Pos.compare_spec b m) as [->|E|E]; [lia | by destruct H | apply Z.lt_le_incl; exact E].
  - replace (N + eb) with (eb - e + (N + e)) by lia. rewrite (Z.pow_add_r 2 (eb - e)) by lia. assert (0 < 2 ^ (N + e)) by (apply Z.pow_pos_nonneg; lia).
    assert (2 ^ 1 <= 2 ^ (eb - e)) by (apply Z.pow_le_mono_r; lia).
    rewrite Z.mul_assoc. apply Z.mul_le_mono_nonneg_r; [lia|]. nia.
Qed.
Lemma above_low b m eb e : SFltb (S754_finite true m e) (S754_finite true b eb) = false -> above b m eb e <> Lt.
Proof.
  unfold SFltb, above. cbn [SFcompare]. rewrite (Z.compare_antisym e eb). destruct (Z.compare e eb); cbn [CompOpp]; try done.
  fold (Pos.compare m b) (Pos.compare b m). rewrite (Pos.compare_antisym m b). by destruct (Pos.compare m b).
Qed.
Lemma above_high b m eb e : SFltb (S754_finite false b eb) (S754_finite false m e) = false -> above b m eb e <> Lt.
Proof. unfold SFltb, above. cbn [SFcompare]. destruct (Z.compare eb e); try done. by destruct (Pos.compare_cont Eq b m). Qed.
(** what the checks of a coordinate leave *)
Lemma in_bounds d x l : degrees d -> x = strtof l -> x <> S754_nan -> SFltb x (float_of_int (- d)) = false -> SFltb (float_of_int d) x = false -> bounded_by d x.
Proof.
  intros Hd -> Hnan. destruct (degrees_float d Hd) as (eb & Heb & -> & -> & Eb). pose proof (strtof_mantissa l) as Hmant.
  destruct (strtof l) as [s|s| |s m e]; [by left; exists s | by destruct s | done|]. intros Hlow Hhigh. right.
  specialize (Hmant s m e eq_refl). set (N := Z.max 17 (- e)). exists s, m, e, N. split; [reflexivity|]. split; [exact Hmant|]. split; [lia|]. split; [lia|].
  assert (11796480 * 2 ^ (N + eb) = d * 2 ^ N) as <-.
  { replace (N + eb) with (N - 17 + (17 + eb)) by lia. rewrite Z.pow_add_r by lia. replace (2 ^ N) with (2 ^ (N - 17) * 2 ^ 17) by (rewrite <- Z.pow_add_r by lia; f_equal; lia). lia. }
  apply mantissa_below; [exact Hmant | lia | lia | lia|]. destruct s; [by apply above_low | by apply above_high].
Qed.

Lemma lroundf_bounded s m e N d : 0 <= N -> 0 <= N + e -> Z.pos m * 2 ^ (N + e) <= d * 2 ^ N ->
  exists v, lroundf (S754_finite s m e) = Some v /\ - d <= v <= d.
Proof.
  intros HN HNe Hle. cbn [lroundf]. eexists. split; [reflexivity|]. set (v := if 0 <=? e then _ else _).
  assert (0 <= v <= d) as Hv; [|destruct s; cbn [signed]; lia]. subst v. assert (0 < 2 ^ N) by (apply Z.pow_pos_nonneg; lia). destruct (Z.leb_spec 0 e).
  - rewrite Z.pow_add_r in Hle by lia. assert (0 < 2 ^ e) by (apply Z.pow_pos_nonneg; lia). nia.
  - replace (2 ^ N) with (2 ^ (- e) * 2 ^ (N + e)) in Hle by (rewrite <- Z.pow_add_r by lia; f_equal; lia).
    assert (0 < 2 ^ (N + e)) by (apply Z.pow_pos_nonneg; lia). assert (2 ^ (- e) = 2 * 2 ^ (- e - 1)) as E by (rewrite <- Z.pow_succ_r by lia; f_equal; lia).
    assert (0 < 2 ^ (- e - 1)) by (apply Z.pow_pos_nonneg; lia). assert (Z.pos m <= d * 2 ^ (- e)) by nia.
    split; [apply Z.div_pos; lia|]. apply Z.lt_succ_r, Z.div_lt_upper_bound; lia.
Qed.
Lemma lroundf_degrees d x : 0 < d -> bounded_by d x -> exists v, lroundf x = Some v /\ - d <= v <= d.
Proof.
  intros Hd [[s ->] | (s & m & e & N & -> & _ & HN & HNe & Hle)]; [exists 0; cbn [lroundf]; split; [done | lia]|]. apply (lroundf_bounded s m e N d); [lia | done | done].
Qed.
(** in steps of about a metre, [112000] to a degree *)
Lemma lroundf_metres d x : degrees d -> bounded_by d x -> exists v, lroundf (float_mul x (float_of_int 112000)) = Some v /\ - (d * 112000) <= v <= d * 112000.
Proof.
  intros Hd [[s ->] | (s & m & e & N & -> & _ & HN & HNe & Hle)].
  { exists 0. change (float_of_int 112000) with (S754_finite false 14336000 (-7)). cbn. destruct Hd; split; (done || lia). }
  assert (float_of_int 112000 = S754_finite false 14336000 (-7)) as -> by (vm_compute; reflexivity).
  unfold float_mul. cbn [SFmul]. rewrite xorb_false_r.
  assert (exists t k, 0 <= t <= 1 /\ d * 112000 = k * 2 ^ t /\ k < 2 ^ 24 /\ 0 <= k) as (t & k & Ht & Ek & Hk & Hk0).
  { destruct Hd; [exists 0, 10080000 | exists 1, 10080000]; by vm_compute. }
  destruct (round_le float_prec float_emax ltac:(done) s (Z.pos (m * 14336000)) (e + -7) t k (N + 7)) as [-> | (p & e' & -> & He' & Hp)]; try lia; unfold float_prec, float_emax.
  - rewrite (Z.pow_add_r 2 24) by lia. apply Z.mul_lt_mono_pos_r; [apply Z.pow_pos_nonneg; lia | done].
  - unfold emin. lia.
  - lia.
  - replace (N + 7 + (e + -7)) with (N + e) by lia. rewrite Pos2Z.inj_mul, <- Ek, (Z.pow_add_r 2 N 7) by lia. change (2 ^ 7) with 128. nia.
  - exists 0. cbn [lroundf]. destruct Hd; split; (done || lia).
  - rewrite <- Ek in Hp. apply (lroundf_bounded s p e' (N + 7)); [lia | lia | done].
Qed.

Example strtof_tenth : option_map (fun '(l, _) => strtof l) (scan_float (codes " -0.1,")) = Some (S754_finite true 13421773 (-27)).
Proof. vm_compute. reflexivity. Qed.
Example strtof_exponent : option_map (fun '(l, _) => strtof l) (scan_float (codes "1.5e1x")) = Some (S754_finite false 15728640 (-20)).
Proof. vm_compute. reflexivity. Qed.
Example lroundf_half : lroundf (strtof (Decimal true 25 (-1))) = Some (-3).
Proof. vm_compute. reflexivity. Qed.
