(* ===== verification/NonAlpha.v ===== *)
(** The layer of nonalpha.c: the characters that are not in the alphabet of the
    text model are coded by position and value. *)
From S2P Require Import Prelude RangeCoder RangeSim RangeCodec RangeRun Charset Interpolative.
Local Open Scope Z_scope.
Local Open Scope succinct_scope.

(** a character that the text model handles *)
Definition is_alpha_space (c : Z) : bool := (c >? 0x80) || (charIdx (tolower c) >=? 0).

Definition stripNonAlpha (m : list Z) : list Z := List.filter is_alpha_space m.

(** [0.95*0xffffff] *)
Definition probNoNonAlpha : Z := 0xffffff * 95 / 100.

(** the loop that collects [pos] and [v], from index [i] on *)
Fixpoint nonAlphaChars (i : Z) (m : list Z) : list (Z * Z) :=
  match m with
  | [] => []
  | c :: m =>
      if c <? 0x80 then
        if charIdx (tolower c) >=? 0 then nonAlphaChars (i + 1) m
        else (i, u8 c) :: nonAlphaChars (i + 1) m
      else nonAlphaChars (i + 1) m
  end.

(** [for(i=0;i<count;i++) range_encode_equiprobable(c,256,v[i]);] *)
Definition encode_values (v : list Z) (c : range_coder) : range_coder :=
  fold_left (fun c x => snd (range_encode_equiprobable c 256 x)) v c.

Definition encodeNonAlpha (m : list Z) (c : range_coder) : range_coder :=
  let found := nonAlphaChars 0 m in
  let pos := map fst found in
  let v := map snd found in
  let count := Z.of_nat (length found) in
  if count =? 0 then snd (range_encode_symbol c [probNoNonAlpha] 2 0)
  else
    let messageLength := Z.of_nat (length m) in
    let c := snd (range_encode_symbol c [probNoNonAlpha] 2 1) in
    let c := snd (range_encode_equiprobable c (messageLength + 1) count) in
    let c := ic_encode_recursive pos count messageLength c in
    encode_values v c.

Fixpoint decode_values (n : nat) (c : range_coder) : list Z * range_coder :=
  match n with
  | O => ([], c)
  | S n =>
      let '(x, c) := range_decode_equiprobable c 256 in
      let '(v, c) := decode_values n c in (u8 x :: v, c)
  end.

(** returns [nonAlphaPositions], [nonAlphaValues] and [*nonAlphaCount];
    [positions] is the caller's array *)
Definition decodeNonAlpha (positions : list Z) (messageLength : Z) (c : range_coder)
  : (list Z * list Z * Z) * range_coder :=
  let '(containsNonAlpha, c) := range_decode_symbol c [probNoNonAlpha] 2 in
  if nz containsNonAlpha then
    let '(count, c) := range_decode_equiprobable c (messageLength + 1) in
    let '(positions, c) := ic_decode_recursive positions count messageLength c in
    let '(v, c) := decode_values (Z.to_nat count) c in
    ((positions, v, count), c)
  else ((positions, [], 0), c).

(** ** What is collected *)
Definition utf16_text (m : list Z) : Prop := Forall (fun c => 0 <= c < 2 ^ 16) m.

Lemma length_nonAlphaChars i m : (length (nonAlphaChars i m) <= length m)%nat.
Proof.
  revert i. induction m as [|c m IH]; intros i; cbn [nonAlphaChars length]; [lia|]. specialize (IH (i + 1)).
  destruct (c <? 0x80), (charIdx (tolower c) >=? 0); cbn [length]; lia.
Qed.

Lemma nonAlphaChars_range i m p : In p (nonAlphaChars i m) ->
  i <= fst p < i + Z.of_nat (length m) /\ 0 <= snd p < 256.
Proof.
  revert i. induction m as [|c m IH]; intros i; cbn [nonAlphaChars length]; [done|]. rewrite Nat2Z.inj_succ. intros Hin.
  assert (In p (nonAlphaChars (i + 1) m) \/ p = (i, u8 c)) as [H | ->].
  { destruct (c <? 0x80), (charIdx (tolower c) >=? 0); auto. destruct Hin; auto. }
  - specialize (IH _ H). lia.
  - cbn. pose proof (u8_range c). lia.
Qed.

Lemma nth_fst (l : list (Z * Z)) k : nth k (map fst l) 0 = fst (nth k l (0, 0)).
Proof. exact (map_nth fst l (0, 0) k). Qed.

Lemma nonAlphaChars_increasing i m j k : (j < k < length (nonAlphaChars i m))%nat ->
  nth j (map fst (nonAlphaChars i m)) 0 < nth k (map fst (nonAlphaChars i m)) 0.
Proof.
  revert i j k. induction m as [|c m IH]; intros i j k Hjk; cbn [nonAlphaChars] in *; [simpl in *; lia|].
  destruct (c <? 0x80); [|by apply IH]. destruct (charIdx (tolower c) >=? 0); [by apply IH|].
  cbn [map fst length] in *. destruct k as [|k]; [lia|]. destruct j as [|j]; cbn [nth]; [|apply IH; lia].
  assert (In (nth k (nonAlphaChars (i + 1) m) (0, 0)) (nonAlphaChars (i + 1) m)) as Hin by (apply nth_In; lia).
  apply nonAlphaChars_range in Hin. rewrite nth_fst. lia.
Qed.

Lemma nonAlphaChars_postings m :
  postings (map fst (nonAlphaChars 0 m)) (Z.of_nat (length (nonAlphaChars 0 m))) (Z.of_nat (length m)).
Proof.
  split.
  - intros i j Hi Hj. rewrite !rd_nth by lia. apply nonAlphaChars_increasing. lia.
  - intros Hn. rewrite !rd_nth by lia. assert (forall k, (k < length (nonAlphaChars 0 m))%nat ->
      0 <= nth k (map fst (nonAlphaChars 0 m)) 0 < Z.of_nat (length m)) as H.
    { intros k Hk. rewrite nth_fst.
      assert (In (nth k (nonAlphaChars 0 m) (0, 0)) (nonAlphaChars 0 m)) as Hin by (apply nth_In; lia).
      apply nonAlphaChars_range in Hin. lia. }
    pose proof (H (Z.to_nat 0)). pose proof (H (Z.to_nat (Z.of_nat (length (nonAlphaChars 0 m)) - 1))). lia.
Qed.

(** ** The codec *)
Lemma values_codes v : Forall (fun x => 0 <= x < 256) v -> Codes (encode_values v) (decode_values (length v)) v.
Proof.
  induction 1 as [|x v Hx Hv IH]; [apply Codes_ret|]. cbn [length decode_values].
  apply (Codes_bind (fun c => snd (range_encode_equiprobable c 256 x)) (encode_values v) (fun c => range_decode_equiprobable c 256)
           (fun x c => let '(v, c) := decode_values (length v) c in (u8 x :: v, c)) x); [by apply equiprobable_codec|].
  pose proof (Codes_map (cons (u8 x)) _ _ _ IH) as HC. rewrite u8_small in HC by done. by rewrite u8_small.
Qed.

Lemma values_fit v : Forall (fun x => 0 <= x < 256) v -> Fits (52 * Z.of_nat (length v)) (encode_values v).
Proof.
  induction 1 as [|x v Hx Hv IH]; [apply Fits_ret|].
  apply (Fits_mono (52 + 52 * Z.of_nat (length v))); [cbn [length]; lia|].
  apply (Fits_bind _ _ (fun c => snd (range_encode_equiprobable c 256 x)) (encode_values v)); [lia | by apply equiprobable_fits | exact IH].
Qed.

Lemma probNoNonAlpha_codable s : 0 <= s < 2 -> cumulative [probNoNonAlpha] 2 /\ codable [probNoNonAlpha] 2 s.
Proof.
  intros Hs. split; [by apply cumulativeb_spec|]. split; [done|].
  assert (s = 0 \/ s = 1) as [-> | ->] by lia; done.
Qed.

Lemma nonalpha_codes m mem : Z.of_nat (length m) < 2 ^ 31 - 1 -> (length m <= length mem)%nat ->
  let found := nonAlphaChars 0 m in
  let count := Z.of_nat (length found) in
  Codes (encodeNonAlpha m) (decodeNonAlpha mem (Z.of_nat (length m)))
    (blend (map fst found) mem count (-1) count, map snd found, count).
Proof.
  intros Hm Hmem. cbv zeta. unfold encodeNonAlpha, decodeNonAlpha.
  destruct (probNoNonAlpha_codable 0 ltac:(lia)) as [Hcum H0]. destruct (probNoNonAlpha_codable 1 ltac:(lia)) as [_ H1].
  pose proof (length_nonAlphaChars 0 m) as Hlen. pose proof (nonAlphaChars_postings m) as Hpost.
  assert (Forall (fun x => 0 <= x < 256) (map snd (nonAlphaChars 0 m))) as Hval.
  { apply Forall_map, List.Forall_forall. intros p Hp. apply (nonAlphaChars_range 0 m p Hp). }
  destruct (nonAlphaChars 0 m) as [|p l] eqn:E.
  - rewrite blend_empty by (simpl; lia).
    exact (Codes_bind _ (fun c => c) _ (fun s c => if nz s then _ else ((mem, [], 0), c)) 0 _ (symbol_codec _ _ Hcum 0 H0) (Codes_ret _)).
  - rewrite <- E in *. assert (1 <= Z.of_nat (length (nonAlphaChars 0 m))) as Hc by (rewrite E; cbn [length]; lia).
    set (found := nonAlphaChars 0 m) in *. set (count := Z.of_nat (length found)) in *.
    destruct (Z.eqb_spec count 0); [lia|].
    assert (count <= Z.of_nat (length m)) as Hcm by (unfold count; lia).
    assert (0 <= count < Z.of_nat (length m) + 1) as Hcr by lia.
    assert (count < 2 ^ 31 /\ count <= Z.of_nat (length mem)) as [Hc31 Hcmem] by lia.
    set (tail1 := fun c => encode_values (map snd found) c).
    set (tail2 := fun c => tail1 (ic_encode_recursive (map fst found) count (Z.of_nat (length m)) c)).
    set (tail3 := fun c => tail2 (snd (range_encode_equiprobable c (Z.of_nat (length m) + 1) count))).
    refine (Codes_bind _ tail3 _ (fun s c => if nz s then _ else _) 1 _ (symbol_codec _ _ Hcum 1 H1) _).
    refine (Codes_bind _ tail2 _ _ _ _ (equiprobable_codec (Z.of_nat (length m) + 1) ltac:(lia) count Hcr) _).
    refine (Codes_bind _ tail1 _ _ _ _ (ic_codes (map fst found) mem count (Z.of_nat (length m)) (conj Hc Hc31) Hpost ltac:(lia) Hcmem) _).
    replace (Z.to_nat count) with (length (map snd found)) by (rewrite length_map; lia).
    exact (Codes_map (fun v => (blend (map fst found) mem count (-1) count, v, count)) _ _ _ (values_codes _ Hval)).
Qed.

Lemma nonalpha_fits m : Z.of_nat (length m) < 2 ^ 31 - 1 ->
  Fits (78 + 156 * Z.of_nat (length m)) (encodeNonAlpha m).
Proof.
  intros Hm. unfold encodeNonAlpha.
  destruct (probNoNonAlpha_codable 0 ltac:(lia)) as [Hcum H0]. destruct (probNoNonAlpha_codable 1 ltac:(lia)) as [_ H1].
  pose proof (length_nonAlphaChars 0 m) as Hlen. pose proof (nonAlphaChars_postings m) as Hpost.
  assert (Forall (fun x => 0 <= x < 256) (map snd (nonAlphaChars 0 m))) as Hval.
  { apply Forall_map, List.Forall_forall. intros p Hp. apply (nonAlphaChars_range 0 m p Hp). }
  set (found := nonAlphaChars 0 m) in *. set (count := Z.of_nat (length found)) in *.
  assert (count <= Z.of_nat (length m)) as Hcm by (unfold count; lia).
  destruct (Z.eqb_spec count 0).
  { eapply Fits_mono; [|apply (symbol_fits _ _ _ Hcum H0)]. lia. }
  assert (0 <= count < Z.of_nat (length m) + 1 /\ 1 <= count < 2 ^ 31) as [Hcr Hc31] by lia.
  pose proof (ic_fits (map fst found) count _ Hc31 Hpost ltac:(lia) ltac:(rewrite length_map; lia)) as F3.
  pose proof (values_fit _ Hval) as F4. rewrite length_map in F4. fold count in F4.
  pose proof (Fits_bind 52 (104 * count + 52 * count) _ _ ltac:(lia) (equiprobable_fits (Z.of_nat (length m) + 1) count ltac:(lia) Hcr)
               (Fits_bind (104 * count) (52 * count) _ _ ltac:(lia) F3 F4)) as F2.
  eapply Fits_mono; [|exact (Fits_bind 26 (52 + (104 * count + 52 * count)) _ _ ltac:(lia) (symbol_fits _ _ _ Hcum H1) F2)]. lia.
Qed.

Lemma within_nonalpha len m c : within len c -> within len (encodeNonAlpha m c).
Proof.
  intros H. unfold encodeNonAlpha. destruct (_ =? 0); [by apply within_symbol|].
  assert (forall v c, within len c -> within len (encode_values v c)) as Hv.
  { induction v as [|x v IH]; intros c' H'; [done|]. apply (IH (snd (range_encode_equiprobable c' 256 x))). by apply within_equiprobable. }
  apply Hv, within_ic, within_equiprobable, within_symbol, H.
Qed.
