(* ===== verification/Unicode.v ===== *)
(** unicode.c: conversions between UTF-8 and UTF-16, and escapes. *)
From S2P Require Import Prelude.
Local Open Scope Z_scope.
Local Open Scope succinct_scope.

(** ** utf16toutf8 *)

(** the loop: [out] is what has been written, [*out_len] its length *)
Fixpoint utf16toutf8_loop (m : list Z) (out : list Z) : Z * list Z :=
  match m with
  | [] => (0, out)
  | codepoint :: m =>
      let out_len := Z.of_nat (length out) in
      if codepoint <? 0x80 then
        if out_len >? 1023 then (-1, out)
        else utf16toutf8_loop m (out ++ [u8 codepoint])
      else if codepoint <? 0x800 then
        if out_len >? 1022 then (-1, out)
        else utf16toutf8_loop m
               (out ++ [u8 (0xc0 + Z.shiftr codepoint 6); u8 (0x80 + Z.land codepoint 0x3f)])
      else if out_len >? 1021 then (-1, out)
      else utf16toutf8_loop m
             (out ++ [u8 (0xe0 + Z.shiftr codepoint 12);
                      u8 (0x80 + Z.land (Z.shiftr codepoint 6) 0x3f);
                      u8 (0x80 + Z.land codepoint 0x3f)])
  end.
Definition utf16toutf8 (m : list Z) : Z * list Z := utf16toutf8_loop m [].

(** ** utf8toutf16 *)

(** the loop from index [i] on; [s] is memory, of which the first [in_len] bytes are the
    text.  A character that the end cuts off is read with the bytes behind it. *)
Fixpoint utf8toutf16_loop (fuel : nat) (s : list Z) (in_len i : Z) (out : list Z) : Z * list Z :=
  match fuel with
  | O => (0, out)
  | S fuel =>
      if i <? in_len then
        if Z.land (rd s i) 0xc0 =? 0x80 then (-1, out)
        else if Z.land (rd s i) 0xc0 <? 0x80 then
          utf8toutf16_loop fuel s in_len (i + 1) (out ++ [rd s i])
        else if Z.land (rd s i) 0xff <? 0xe0 then
          if in_len - i <? 1 then (-1, out)
          else
            let unicode := Z.lor (Z.shiftl (Z.land (rd s i) 0x1f) 6) (Z.land (rd s (i + 1)) 0x3f) in
            utf8toutf16_loop fuel s in_len (i + 2) (out ++ [u16 unicode])
        else if Z.land (rd s i) 0xff <? 0xf8 then
          if in_len - i <? 2 then (-1, out)
          else
            let unicode := Z.lor (Z.lor (Z.shiftl (Z.land (rd s i) 0x0f) 12)
                                        (Z.shiftl (Z.land (rd s (i + 1)) 0x3f) 6))
                                 (Z.land (rd s (i + 2)) 0x3f) in
            utf8toutf16_loop fuel s in_len (i + 3) (out ++ [u16 unicode])
        else (-1, out)
      else (0, out)
  end.
Definition utf8toutf16 (s : list Z) (in_len : Z) : Z * list Z :=
  utf8toutf16_loop (S (Z.to_nat in_len)) s in_len 0 [].

(** ** ascii2utf16 *)
Fixpoint ascii2utf16_loop (n : nat) (s : list Z) (i : Z) : list Z :=
  match n with
  | O => [0]
  | S n => if rd s i =? 0 then [0] else rd s i :: ascii2utf16_loop n s (i + 1)
  end.
(** [for(i=0;in[i]&&i<1024;i++) ret[i]=in[i];] and the terminator *)
Definition ascii2utf16 (s : list Z) : list Z := ascii2utf16_loop 1024 s 0.

(** ** unEscape, which rewrites its buffer in place *)
Fixpoint unEscape_loop (fuel : nat) (line : list Z) (len i outLen : Z) : list Z * Z :=
  match fuel with
  | O => (line, outLen)
  | S fuel =>
      if i <? len then
        if rd line i =? 92 then
          let next := rd line (i + 1) in
          if next =? 114 then unEscape_loop fuel (wr line outLen 13) len (i + 2) (outLen + 1)
          else if next =? 110 then unEscape_loop fuel (wr line outLen 10) len (i + 2) (outLen + 1)
          else if next =? 92 then unEscape_loop fuel (wr line outLen 92) len (i + 2) (outLen + 1)
          else if next =? 39 then unEscape_loop fuel (wr line outLen 39) len (i + 1) (outLen + 1)
          else if next =? 0 then unEscape_loop fuel (wr line outLen 92) len (i + 1) (outLen + 1)
          else unEscape_loop fuel (wr line outLen 92) len (i + 1) (outLen + 1)
        else unEscape_loop fuel (wr line outLen (rd line i)) len (i + 1) (outLen + 1)
      else (line, outLen)
  end.
(** returns the buffer and the new [*utf8len] *)
Definition unEscape (line : list Z) (len : Z) : list Z * Z :=
  unEscape_loop (S (Z.to_nat len)) line len 0 0.

(** ** Round trip *)

(** the UTF-8 form of a 16-bit code unit *)
Definition utf8_char (c : Z) : list Z :=
  if c <? 0x80 then [c]
  else if c <? 0x800 then [0xc0 + c / 0x40; 0x80 + c mod 0x40]
  else [0xe0 + c / 0x1000; 0x80 + (c / 0x40) mod 0x40; 0x80 + c mod 0x40].
Definition utf8 (m : list Z) : list Z := flat_map utf8_char m.

Lemma utf16toutf8_loop_spec m out : Forall (fun c => 0 <= c < 2 ^ 16) m -> Z.of_nat (length out) <= 1024 ->
  if Z.of_nat (length (out ++ utf8 m)) <=? 1024
  then utf16toutf8_loop m out = (0, out ++ utf8 m)
  else exists o, utf16toutf8_loop m out = (-1, o).
Proof.
  intros Hm. revert out. induction Hm as [|c m Hc Hm IH]; intros out Hout.
  { simpl. rewrite app_nil_r. destruct (Z.leb_spec (Z.of_nat (length out)) 1024); [done | lia]. }
  cbn [utf16toutf8_loop]. change (utf8 (c :: m)) with (utf8_char c ++ utf8 m). unfold utf8_char.
  change 0x3f with (2 ^ 6 - 1). rewrite !land_mod, !Z.shiftr_div_pow2 by lia.
  change (2 ^ 6) with 0x40. change (2 ^ 12) with 0x1000.
  destruct (Z.ltb_spec c 0x80); [|destruct (Z.ltb_spec c 0x800)].
  all: match goal with |- context [if (?l >? ?k) then _ else _] => destruct (Z.gtb_spec l k) end.
  1,3,5: match goal with |- if ?b then _ else _ => destruct b eqn:Hx end; [|by eexists];
    apply Z.leb_le in Hx; rewrite !length_app in Hx; cbn [length] in Hx; lia.
  all: rewrite !u8_small by divmod.
  all: match goal with IH : forall o, _ |- context [utf16toutf8_loop _ (?o ++ ?l) = (0, _)] =>
         specialize (IH (o ++ l)); rewrite length_app in IH; cbn [length] in IH; specialize (IH ltac:(lia));
         rewrite <- app_assoc in IH; exact IH end.
Qed.

Lemma land_c0 x : 0 <= x < 256 -> Z.land x 0xc0 = x / 64 * 64.
Proof.
  intros Hx. apply Z.eqb_eq. apply (byte_cases (fun x => Z.land x 0xc0 =? x / 64 * 64)); [reflexivity | done].
Qed.

Lemma land_ff x : 0 <= x < 256 -> Z.land x 0xff = x.
Proof. intros. change 0xff with (2 ^ 8 - 1). rewrite land_mod by lia. by apply Z.mod_small. Qed.

Lemma cat_2 b0 b1 : 0xc0 <= b0 < 0xe0 -> 0x80 <= b1 < 0xc0 ->
  Z.lor (Z.shiftl (Z.land b0 0x1f) 6) (Z.land b1 0x3f) = (b0 - 0xc0) * 0x40 + (b1 - 0x80).
Proof.
  intros H0 H1. change 0x1f with (2 ^ 5 - 1). change 0x3f with (2 ^ 6 - 1).
  rewrite !land_mod, lor_shiftl by (lia || (apply Z.mod_pos_bound; lia)). divmod.
Qed.
Lemma cat_3 b0 b1 b2 : 0xe0 <= b0 < 0xf0 -> 0x80 <= b1 < 0xc0 -> 0x80 <= b2 < 0xc0 ->
  Z.lor (Z.lor (Z.shiftl (Z.land b0 0x0f) 12) (Z.shiftl (Z.land b1 0x3f) 6)) (Z.land b2 0x3f)
  = (b0 - 0xe0) * 0x1000 + (b1 - 0x80) * 0x40 + (b2 - 0x80).
Proof.
  intros H0 H1 H2. change 0x0f with (2 ^ 4 - 1). change 0x3f with (2 ^ 6 - 1). rewrite !land_mod by lia.
  rewrite (Z.shiftl_mul_pow2 (b1 mod 2 ^ 6)), lor_shiftl by (lia || divmod).
  replace (b0 mod 2 ^ 4 * 2 ^ 12 + b1 mod 2 ^ 6 * 2 ^ 6) with (Z.shiftl (b0 mod 2 ^ 4 * 2 ^ 6 + b1 mod 2 ^ 6) 6)
    by (rewrite Z.shiftl_mul_pow2 by lia; lia).
  rewrite lor_shiftl by divmod. divmod.
Qed.

(** one turn of the loop at the start of an encoded character *)
Lemma utf8_char_read c rest fuel pre in_len out : 0 <= c < 2 ^ 16 ->
  let s := pre ++ utf8_char c ++ rest in
  Z.of_nat (length (pre ++ utf8_char c)) <= in_len ->
  utf8toutf16_loop (S fuel) s in_len (Z.of_nat (length pre)) out =
  utf8toutf16_loop fuel s in_len (Z.of_nat (length (pre ++ utf8_char c))) (out ++ [c]).
Proof.
  intros Hc s Hin. cbn [utf8toutf16_loop].
  rewrite length_app in Hin.
  assert (forall k, 0 <= k < Z.of_nat (length (utf8_char c)) ->
    rd s (Z.of_nat (length pre) + k) = rd (utf8_char c) k) as Hrd.
  { intros k Hk. unfold s. rewrite rd_app_r by lia. by apply rd_app_l. }
  set (p := Z.of_nat (length pre)) in *. rewrite length_app, Nat2Z.inj_add. fold p.
  assert (rd s p = rd (utf8_char c) 0) as R0.
  { rewrite <- (Z.add_0_r p). apply Hrd. unfold utf8_char. destruct (c <? 0x80), (c <? 0x800); cbn [length]; lia. }
  unfold utf8_char in *. rewrite R0.
  destruct (Z.ltb_spec c 0x80); [|destruct (Z.ltb_spec c 0x800)]; cbn [length] in *;
    destruct (Z.ltb_spec p in_len); try (unfold p in *; lia); rewrite rd_cons_0, land_c0 by divmod.
  - destruct (Z.eqb_spec (c / 64 * 64) 0x80); [divmod|].
    destruct (Z.ltb_spec (c / 64 * 64) 0x80); [done | divmod].
  - destruct (Z.eqb_spec ((0xc0 + c / 64) / 64 * 64) 0x80); [divmod|].
    destruct (Z.ltb_spec ((0xc0 + c / 64) / 64 * 64) 0x80); [divmod|].
    rewrite land_ff by divmod. destruct (Z.ltb_spec (0xc0 + c / 64) 0xe0); [|divmod].
    destruct (Z.ltb_spec (in_len - p) 1); [lia|].
    rewrite (Hrd 1) by lia. change (rd [?a; ?b] 1) with b. rewrite cat_2, u16_small by divmod.
    do 3 f_equal. divmod.
  - destruct (Z.eqb_spec ((0xe0 + c / 4096) / 64 * 64) 0x80); [divmod|].
    destruct (Z.ltb_spec ((0xe0 + c / 4096) / 64 * 64) 0x80); [divmod|].
    rewrite land_ff by divmod. destruct (Z.ltb_spec (0xe0 + c / 4096) 0xe0); [divmod|].
    destruct (Z.ltb_spec (0xe0 + c / 4096) 0xf8); [|divmod].
    destruct (Z.ltb_spec (in_len - p) 2); [unfold p in *; lia|].
    rewrite (Hrd 1), (Hrd 2) by lia. change (rd [?a; ?b; ?c] 1) with b. change (rd [?a; ?b; ?c] 2) with c.
    rewrite cat_3, u16_small by divmod.
    do 3 f_equal. divmod.
Qed.

Lemma utf8toutf16_loop_spec tail m : Forall (fun c => 0 <= c < 2 ^ 16) m ->
  forall pre fuel out, (length (utf8 m) < fuel)%nat ->
  utf8toutf16_loop fuel (pre ++ utf8 m ++ tail) (Z.of_nat (length (pre ++ utf8 m))) (Z.of_nat (length pre)) out = (0, out ++ m).
Proof.
  induction 1 as [|c m Hc Hm IH]; intros pre fuel out Hf; (destruct fuel as [|fuel]; [lia|]).
  { cbn [utf8 flat_map utf8toutf16_loop]. rewrite !app_nil_r, Z.ltb_irrefl. done. }
  change (utf8 (c :: m)) with (utf8_char c ++ utf8 m) in *. rewrite <- (app_assoc _ (utf8 m)). rewrite utf8_char_read by (done || rewrite !length_app; lia).
  rewrite (app_assoc pre (utf8_char c) (utf8 m ++ tail)), (app_assoc pre (utf8_char c) (utf8 m)), IH.
  - by rewrite <- app_assoc.
  - rewrite length_app in Hf. unfold utf8_char in Hf. destruct (c <? 0x80), (c <? 0x800); cbn [length] in Hf; lia.
Qed.

Lemma utf8toutf16_utf8 m tail : Forall (fun c => 0 <= c < 2 ^ 16) m -> utf8toutf16 (utf8 m ++ tail) (Z.of_nat (length (utf8 m))) = (0, m).
Proof. intros Hm. unfold utf8toutf16. rewrite Nat2Z.id. apply (utf8toutf16_loop_spec tail m Hm [] (S (length (utf8 m))) []). lia. Qed.

Lemma utf16toutf8_utf8 m : Forall (fun c => 0 <= c < 2 ^ 16) m ->
  if Z.of_nat (length (utf8 m)) <=? 1024 then utf16toutf8 m = (0, utf8 m) else fst (utf16toutf8 m) = -1.
Proof.
  intros Hm. pose proof (utf16toutf8_loop_spec m [] Hm ltac:(simpl; lia)) as H. cbn [app] in H. unfold utf16toutf8.
  destruct (_ <=? 1024); [done|]. by destruct H as [o ->].
Qed.

(** ** Escapes *)

(** what unEscape makes of a string: the code as it is, where [\'] becomes a
    quote and the quote is read once more *)
Fixpoint unescape (s : list Z) : list Z :=
  match s with
  | [] => []
  | x :: rest =>
      if x =? 92 then
        match rest with
        | [] => [92]
        | y :: s =>
            if y =? 114 then 13 :: unescape s
            else if y =? 110 then 10 :: unescape s
            else if y =? 92 then 92 :: unescape s
            else if y =? 39 then 39 :: unescape rest
            else 92 :: unescape rest
        end
      else x :: unescape rest
  end.

Lemma wr_mid out mid rest v : mid <> [] ->
  wr (out ++ mid ++ rest) (Z.of_nat (length out)) v = (out ++ [v]) ++ tl mid ++ rest.
Proof.
  intros H. destruct mid as [|g mid]; [done|]. rewrite <- (Z.add_0_r (Z.of_nat (length out))), wr_app_r by lia.
  rewrite <- app_assoc. done.
Qed.

(** The buffer is rewritten behind the reading position: nothing is read after
    it has been overwritten. *)
Lemma unEscape_loop_spec tail : rd tail 0 = 0 ->
  forall fuel out gap rest len, (length rest < fuel)%nat -> len = Z.of_nat (length (out ++ gap ++ rest)) ->
  exists gap', length (unescape rest ++ gap') = length (gap ++ rest) /\
  unEscape_loop fuel (out ++ gap ++ rest ++ tail) len (Z.of_nat (length (out ++ gap))) (Z.of_nat (length out)) =
  (out ++ unescape rest ++ gap' ++ tail, Z.of_nat (length (out ++ unescape rest))).
Proof.
  intros Htail. induction fuel as [|fuel IH]; intros out gap rest len Hf Hlen; [lia|].
  cbn [unEscape_loop]. destruct rest as [|x rest].
  { exists gap. rewrite Hlen, !app_nil_r. rewrite Z.ltb_irrefl. done. }
  assert (Z.of_nat (length (out ++ gap)) < len) as Hlt by (rewrite Hlen, !length_app; cbn [length]; lia).
  destruct (Z.ltb_spec (Z.of_nat (length (out ++ gap))) len); [|lia].
  assert (forall k, 0 <= k -> rd (out ++ gap ++ (x :: rest) ++ tail) (Z.of_nat (length (out ++ gap)) + k) = rd ((x :: rest) ++ tail) k) as Hrd.
  { intros k Hk. rewrite app_assoc. by apply rd_app_r. }
  pose proof (Hrd 0 ltac:(lia)) as R0. pose proof (Hrd 1 ltac:(lia)) as R1. rewrite Z.add_0_r in R0.
  rewrite R0, R1. change (rd ((x :: rest) ++ tail) 0) with x. change (rd ((x :: rest) ++ tail) 1) with (rd (rest ++ tail) 0).
  (* one turn that consumes [used] and writes [v] *)
  assert (forall used rest' v, x :: rest = used ++ rest' -> used <> [] ->
    exists gap', length ((v :: unescape rest') ++ gap') = length (gap ++ x :: rest) /\
    unEscape_loop fuel (wr (out ++ gap ++ (x :: rest) ++ tail) (Z.of_nat (length out)) v) len
      (Z.of_nat (length (out ++ gap)) + Z.of_nat (length used)) (Z.of_nat (length out) + 1) =
    (out ++ (v :: unescape rest') ++ gap' ++ tail, Z.of_nat (length (out ++ v :: unescape rest')))) as Hstep.
  { intros used rest' v E Hu. rewrite E.
    replace (out ++ gap ++ (used ++ rest') ++ tail) with (out ++ (gap ++ used) ++ rest' ++ tail) by (by rewrite <- !app_assoc).
    rewrite wr_mid by (destruct gap; done).
    assert (length (tl (gap ++ used)) = (length gap + length used - 1)%nat) as Hgap by (rewrite length_tl, length_app; lia).
    assert (0 < length used)%nat as Hu1 by (destruct used; [done | simpl; lia]).
    assert (length (x :: rest) = (length used + length rest')%nat) as Hx by (rewrite E; apply length_app).
    destruct (IH (out ++ [v]) (tl (gap ++ used)) rest' len) as (gap' & Hg & HI).
    - cbn [length] in *. lia.
    - rewrite Hlen, !length_app, Hgap. cbn [length] in *. lia.
    - exists gap'. split.
      + cbn [app length]. rewrite !length_app in *. rewrite Hgap in Hg. lia.
      + replace (Z.of_nat (length (out ++ gap)) + Z.of_nat (length used)) with (Z.of_nat (length ((out ++ [v]) ++ tl (gap ++ used))))
          by (rewrite !length_app, Hgap; cbn [length]; lia).
        replace (Z.of_nat (length out) + 1) with (Z.of_nat (length (out ++ [v]))) by (rewrite length_app; cbn [length]; lia).
        rewrite HI. rewrite <- !app_assoc. done. }
  cbn [unescape]. destruct (x =? 92) eqn:Ex; [|exact (Hstep [x] rest x eq_refl ltac:(done))].
  destruct rest as [|y rest].
  - change (rd ([] ++ tail) 0) with (rd tail 0). rewrite Htail. exact (Hstep [x] [] 92 eq_refl ltac:(done)).
  - change (rd ((y :: rest) ++ tail) 0) with y. 
    destruct (y =? 114); [exact (Hstep [x; y] rest 13 eq_refl ltac:(done))|].
    destruct (y =? 110); [exact (Hstep [x; y] rest 10 eq_refl ltac:(done))|].
    destruct (y =? 92); [exact (Hstep [x; y] rest 92 eq_refl ltac:(done))|].
    destruct (y =? 39); [exact (Hstep [x] (y :: rest) 39 eq_refl ltac:(done))|].
    destruct (y =? 0); exact (Hstep [x] (y :: rest) 92 eq_refl ltac:(done)).
Qed.

(** ** Properties *)

(** For text of 16-bit units, utf16toutf8 produces the UTF-8 form and
    utf8toutf16 gives the text back, whatever is behind it, when the form fits in the
    1024 bytes that the buffers hold; it fails when the form does not fit. *)
Theorem utf_roundtrip m tail : Forall (fun c => 0 <= c < 2 ^ 16) m ->
  (Z.of_nat (length (utf8 m)) <= 1024 -> utf16toutf8 m = (0, utf8 m)) /\
  (1024 < Z.of_nat (length (utf8 m)) -> fst (utf16toutf8 m) = -1) /\
  utf8toutf16 (utf8 m ++ tail) (Z.of_nat (length (utf8 m))) = (0, m).
Proof.
  intros Hm. pose proof (utf16toutf8_utf8 m Hm) as H. split; [|split].
  - intros Hl. by destruct (Z.leb_spec (Z.of_nat (length (utf8 m))) 1024); [|lia].
  - intros Hl. by destruct (Z.leb_spec (Z.of_nat (length (utf8 m))) 1024); [lia|].
  - by apply utf8toutf16_utf8.
Qed.

Lemma utf_roundtrip_witness : utf8toutf16 (utf8 [72; 0xe9; 0x20ac; 0xffff] ++ [0]) 9 = (0, [72; 0xe9; 0x20ac; 0xffff]).
Proof. apply (utf_roundtrip [72; 0xe9; 0x20ac; 0xffff] [0]). repeat (constructor; [lia|]). constructor. Defined.

(** C22: unEscape rewrites its buffer in place: it puts the unescaped text at
    its start, returns the length of that text and leaves the bytes from the
    terminator on untouched; nothing is read after it was overwritten. *)
Theorem unEscape_in_place s tail : rd tail 0 = 0 ->
  exists rest, length (unescape s ++ rest) = length s /\
    unEscape (s ++ tail) (Z.of_nat (length s)) = (unescape s ++ rest ++ tail, Z.of_nat (length (unescape s))).
Proof.
  intros Ht. destruct (unEscape_loop_spec tail Ht (S (length s)) [] [] s (Z.of_nat (length s)) ltac:(lia) eq_refl) as (g & Hg & H).
  exists g. split; [exact Hg|]. unfold unEscape. rewrite Nat2Z.id. exact H.
Qed.

Lemma unEscape_in_place_witness : exists rest, length (unescape [97; 92; 110; 92; 92; 92; 39] ++ rest) = 7%nat /\
  unEscape ([97; 92; 110; 92; 92; 92; 39] ++ [0]) 7 = (unescape [97; 92; 110; 92; 92; 92; 39] ++ rest ++ [0], 5).
Proof. apply (unEscape_in_place [97; 92; 110; 92; 92; 92; 39] [0]). reflexivity. Defined.
