(* ===== verification/PackedStats.v ===== *)
(** packed_stats.c: the statistics file, the tree of contexts and the
    probability vectors. *)
From S2P Require Import Prelude RangeCoder RangeSim RangeCodec RangeRun Charset Interpolative.
Local Open Scope Z_scope.
Local Open Scope succinct_scope.

(** ** Data *)
Inductive node := Node {
  count : Z;
  counts : list Z;
  children : list (option node)
}.

(** The handle of a file that is in memory (mapped, or given as a buffer).  [h_file] is
    the file that is open, which a handle on a buffer has not. *)
Record stats_handle := StatsHandle {
  h_file : option (list Z);
  buffer : list Z; fileLength : Z;
  rootNodeAddress : Z; totalCount : Z; unicodeAddress : Z; maximumOrder : Z;
  casestartofmessage : Z;
  casestartofword2 : list Z;          (* [2] *)
  casestartofword3 : list (list Z);   (* [2][2] *)
  caseposn1 : list Z;                 (* [80] *)
  caseposn2 : list (list Z);          (* [2][80] *)
  messagelengths : list Z;            (* [1024] *)
  tree : option node
}.

Definition set_tree (t : option node) (h : stats_handle) : stats_handle :=
  StatsHandle (h_file h) (buffer h) (fileLength h) (rootNodeAddress h) (totalCount h) (unicodeAddress h) (maximumOrder h)
    (casestartofmessage h) (casestartofword2 h) (casestartofword3 h) (caseposn1 h) (caseposn2 h) (messagelengths h) t.

(** ** Reading the file *)
Definition getCompressedBytes (file : list Z) (start : Z) : option (list Z) :=
  if (start <? 0) || (start >=? Z.of_nat (length file)) then None
  else Some (skipn (Z.to_nat start) file).

(** a coder whose buffer is the given bytes, as the functions below set it up *)
Definition coder_at (bytes : list Z) (bits : Z) : range_coder :=
  range_decode_prefetch (RangeCoder 0 0xffffffff 0 0 0 false false bytes bits 0 false).

Definition next_byte (ptr : list Z) : Z * list Z := (rd ptr 0, tl ptr).
Definition read24bits (ptr : list Z) : Z * list Z :=
  let '(a, ptr) := next_byte ptr in
  let '(b, ptr) := next_byte ptr in
  let '(c, ptr) := next_byte ptr in
  (Z.lor (Z.shiftl (Z.lor (Z.shiftl a 8) b) 8) c, ptr).
Definition read32bits (ptr : list Z) : Z * list Z :=
  let '(a, ptr) := read24bits ptr in
  let '(b, ptr) := next_byte ptr in
  (u32 (Z.lor (Z.shiftl a 8) b), ptr).

(** [CHECK(X)] *)
Definition check_probability (x : Z) : bool := negb ((x =? 0) || (x >? 0xfffffe)).

(** [n] probabilities, each one checked; [None] is [return -1] *)
Fixpoint read_checked (n : nat) (ptr : list Z) : option (list Z * list Z) :=
  match n with
  | O => Some ([], ptr)
  | S n =>
      let '(x, ptr) := read24bits ptr in
      if check_probability x then
        match read_checked n ptr with Some (l, ptr) => Some (x :: l, ptr) | None => None end
      else None
  end.

(** the loop over [caseposn1], whose check looks at the first element only *)
Fixpoint read_caseposn1 (n : nat) (first : Z) (ptr : list Z) : list Z * list Z :=
  match n with
  | O => ([], ptr)
  | S n =>
      let '(x, ptr) := read24bits ptr in
      let '(l, ptr) := read_caseposn1 n first ptr in (x :: l, ptr)
  end.

(** element [j] of each of the pairs of a flat list *)
Fixpoint column (j : nat) (l : list Z) : list Z :=
  match l with
  | x :: y :: l => (if Nat.eqb j 0 then x else y) :: column j l
  | _ => []
  end.

(** The message length table: 1024 interpolative coded counts, scaled.  The
    [double] product and quotient are of integers below 2^48 and 2^24, and
    truncate to the integer quotient. *)
Definition read_messagelengths (tally : Z) (ptr : list Z) : list Z :=
  let c := coder_at ptr (4096 * 8) in
  let '(l, _) := ic_decode_recursive (repeat 0 1024) 1024 tally c in
  map (fun m => Z.quot (m * 0xffffff) tally) l.

(** the bytes before the message length table: three addresses and counts, the
    order, and 246 probabilities of three bytes with the tally *)
Definition fixed_header : Z := 3 * 4 + 1 + (1 + 2 + 4 + 80 + 158 + 1) * 3.
(** [Undefined]: there are no such bytes, and a pointer is followed that is NULL or past
    the file; [Done None] is [return -1] *)
Definition load_headers (opened : option (list Z)) (file : list Z) : outcome (option stats_handle) :=
  match getCompressedBytes file 4 with
  | None => Undefined
  | Some ptr =>
      if Z.of_nat (length ptr) <? fixed_header then Undefined else Done (
      let '(root, ptr) := read32bits ptr in
      let '(total, ptr) := read32bits ptr in
      let '(unicode, ptr) := read32bits ptr in
      let '(order, ptr) := next_byte ptr in
      opt (m, ptr) <- read_checked 1 ptr ;;
      opt (w2, ptr) <- read_checked 2 ptr ;;
      opt (w3, ptr) <- read_checked 4 ptr ;;
      let '(p1, ptr) := read_caseposn1 80 0 ptr in
      if negb (check_probability (rd p1 0)) then None
      else
        opt (p2, ptr) <- read_checked 158 ptr ;;
        let '(tally, ptr) := read24bits ptr in
        Some (StatsHandle opened file (Z.of_nat (length file)) root total unicode order
                (rd m 0) w2 [firstn 2 w3; skipn 2 w3] p1 [0 :: column 0 p2; 0 :: column 1 p2]
                (read_messagelengths tally ptr) None))
  end.

Definition stats_mapped_file (file : list Z) : outcome (option stats_handle) := load_headers None file.

(** ** Nodes *)

(** the first loop: the counts of the characters, and [progressiveCount] *)
Fixpoint decode_counts (n : nat) (i children totalCount progressiveCount : Z) (c : range_coder)
  : list Z * Z * range_coder :=
  match n with
  | O => ([], progressiveCount, c)
  | S n =>
      let hasCount := u32 (Z.quot ((CHARCOUNT - i - children) * 0xffffff) (CHARCOUNT - i)) in
      let '(countPresent, c) := range_decode_symbol c [hasCount] 2 in
      if nz countPresent then
        let '(thisCount, c) := range_decode_equiprobable c (i32 (u32 (totalCount - progressiveCount) + 1)) in
        let thisCount := u32 thisCount in
        let '(l, p, c) := decode_counts n (i + 1) (children - 1) totalCount (u32 (progressiveCount + thisCount)) c in
        (thisCount :: l, p, c)
      else
        let '(l, p, c) := decode_counts n (i + 1) children totalCount progressiveCount c in
        (0 :: l, p, c)
  end.

(** the second loop: the addresses of the children; [extract] is the recursive
    call and [wanted] the test of the children to extract *)
Fixpoint decode_children (extract : Z -> outcome (option node)) (wanted : Z -> bool)
    (n : nat) (i storedChildren lowAddr highAddr : Z) (c : range_coder) : outcome (list (option node)) :=
  match n with
  | O => Done []
  | S n =>
      let isStored := u32 (Z.quot ((CHARCOUNT - i - storedChildren) * 0xffffff) (CHARCOUNT - i)) in
      let '(addrP, c) := range_decode_symbol c [isStored] 2 in
      if nz addrP then
        let '(a, c) := range_decode_equiprobable c (i32 (u32 (highAddr - lowAddr) + 1)) in
        let childAddress := u32 (lowAddr + a) in
        do child <- (if wanted i then extract childAddress else Done None) ;;
        do l <- decode_children extract wanted n (i + 1) (storedChildren - 1) childAddress highAddr c ;;
        Done (child :: l)
      else
        do l <- decode_children extract wanted n (i + 1) storedChildren lowAddr highAddr c ;;
        Done (None :: l)
  end.

(** the child that replaces the node when only one context is extracted *)
Definition last_child (l : list (option node)) (n : node) : node :=
  fold_left (fun ret child => match child with Some x => x | None => ret end) l n.

(** [fuel] bounds the depth, which the test on [len] bounds too.  [Done None] is
    NULL; [Undefined]: the address is not in the file, and the bit stream of the coder
    is NULL. *)
Fixpoint extractNodeAt (fuel : nat) (h : stats_handle) (s : list Z) (len nodeAddress superCount : Z)
    (extractAllP : bool) : outcome (option node) :=
  match fuel with
  | O => OutOfFuel
  | S fuel =>
      if len <? 0 - maximumOrder h then Done None
      else if nodeAddress <? 700 then Done None
      else
        match getCompressedBytes (buffer h) (i32 nodeAddress) with
        | None => Undefined
        | Some bytes =>
            let c := coder_at bytes (1024 * 8) in
            let '(total, c) := range_decode_equiprobable c (i32 (superCount + 1)) in
            let total := u32 total in
            let '(nchildren, c) := range_decode_equiprobable c (CHARCOUNT + 1) in
            let '(storedChildren, c) := range_decode_equiprobable c (CHARCOUNT + 1) in
            let '(cs, progressiveCount, c) := decode_counts (Z.to_nat CHARCOUNT) 0 nchildren total 0 c in
            let wanted i := extractAllP || ((len >? 0) && (rd chars i =? rd s (len - 1))) in
            let extract a := extractNodeAt fuel h s (len - 1) a (i32 progressiveCount) extractAllP in
            do ch <- decode_children extract wanted (Z.to_nat CHARCOUNT) 0 storedChildren 0 nodeAddress c ;;
            let n := Node total cs ch in
            Done (Some (if extractAllP then n else last_child ch n))
        end
  end.

Definition extract_fuel (h : stats_handle) (len : Z) : nat := S (Z.to_nat (len + maximumOrder h + 1)).

(** the fuel is enough: each call goes one character further back *)
Lemma decode_children_fuel extract wanted n : (forall a, extract a <> OutOfFuel) -> forall i stored low high c, decode_children extract wanted n i stored low high c <> OutOfFuel.
Proof.
  intros He. induction n as [|n IH]; intros i stored low high c; cbn [decode_children]; [done|].
  destruct (range_decode_symbol _ _ _) as [p c']. destruct (nz p); [destruct (range_decode_equiprobable _ _) as [a c'']|].
  - assert ((if wanted i then extract (u32 (low + a)) else Done None) <> OutOfFuel) as H by (by destruct (wanted i)).
    destruct (if wanted i then _ else _) as [x| |]; cbn [and_then]; [|done..].
    specialize (IH (i + 1) (stored - 1) (u32 (low + a)) high c''). by destruct (decode_children _ _ _ _ _ _ _ _).
  - specialize (IH (i + 1) stored low high c'). by destruct (decode_children _ _ _ _ _ _ _ _).
Qed.
Lemma extractNodeAt_ends fuel : forall h s len a count all, Z.max 0 (len + maximumOrder h + 1) < Z.of_nat fuel -> extractNodeAt fuel h s len a count all <> OutOfFuel.
Proof.
  induction fuel as [|fuel IH]; intros h s len a cnt all Hf; cbn [extractNodeAt].
  - lia.
  - destruct (Z.ltb_spec len (0 - maximumOrder h)); [done|]. destruct (_ <? 700); [done|]. destruct (getCompressedBytes _ _); [|done].
    destruct (range_decode_equiprobable _ _) as [t c1]. destruct (range_decode_equiprobable _ _) as [k c2]. destruct (range_decode_equiprobable _ _) as [st c3].
    destruct (decode_counts _ _ _ _ _ _) as [[cs p] c4].
    match goal with |- and_then (decode_children ?e ?w ?n ?i ?k ?l ?g ?c) _ <> _ => assert (decode_children e w n i k l g c <> OutOfFuel) as Hch by (apply decode_children_fuel; intros a'; apply IH; lia) end.
    by destruct (decode_children _ _ _ _ _ _ _ _).
Qed.

Definition stats_load_tree (h : stats_handle) : outcome stats_handle :=
  do t <- extractNodeAt (extract_fuel h 0) h [] 0 (rootNodeAddress h) (i32 (totalCount h)) true ;;
  Done (set_tree t h).

(** the walk down the tree, along the context backwards.  [None]: a character that
    is not in the alphabet has the index -1, and children[-1] is read *)
Fixpoint walk (n : node) (context : list Z) : option node :=
  match context with
  | [] => Some n
  | ch :: context =>
      if charIdx ch <? 0 then None
      else match nth (Z.to_nat (charIdx ch)) (children n) None with
           | None => Some n
           | Some n => walk n context
           end
  end.

(** [string] is memory, of which the first [len] characters are the context: those
    before the one to predict *)
Definition extractNode (h : stats_handle) (string : list Z) (len : Z) : outcome (option node) :=
  match tree h with
  | Some n => match walk n (rev (firstn (Z.to_nat len) string)) with Some n => Done (Some n) | None => Undefined end
  | None => extractNodeAt (extract_fuel h len) h string len (rootNodeAddress h) (i32 (totalCount h)) false
  end.

(** [for(i=0;i<CHARCOUNT;i++) v->v[i]=cumulative+(n->counts[i]+1)*scale;] *)
Fixpoint cumulate (scale cumulative : Z) (cs : list Z) : list Z :=
  match cs with
  | [] => []
  | x :: cs =>
      let v := u32 (cumulative + u32 (u32 (x + 1) * scale)) in
      v :: cumulate scale v cs
  end.

Definition node_vector (n : node) : option (list Z) :=
  let scale := Z.quot 0xffffff (count n + CHARCOUNT) in
  if scale =? 0 then None else Some (cumulate scale 0 (counts n)).

(** [Done None]: the process exits *)
Definition extractVector (h : stats_handle) (string : list Z) (len : Z) : outcome (option (list Z)) :=
  if nz (rd string len) then Done None
  else
    do n <- extractNode h string len ;;
    match n with
    | None => Done None
    | Some n => Done (node_vector n)
    end.

(** ** Statistics of unicode pages *)

(** IEEE doubles, as far as the rescaling of the counts needs them: the
    quotient and the product of positive numbers, rounded to 53 bits, ties to
    even.  [(m, e)] stands for [m * 2 ^ e]. *)
Definition round_even (num den : Z) : Z :=
  let q := num / den in
  let r := num mod den in
  if 2 * r <? den then q else if 2 * r >? den then q + 1 else if Z.even q then q else q + 1.
Definition double_quot (a b : Z) : Z * Z :=
  let e := Z.log2 a - Z.log2 b - 52 in
  let scaled e := if e <? 0 then (a * 2 ^ (- e), b) else (a, b * 2 ^ e) in
  let '(num, den) := scaled e in
  let e := if num <? 2 ^ 52 * den then e - 1 else e in
  let '(num, den) := scaled e in
  (round_even num den, e).
(** [(int)(x*d)] for an integer [x >= 0] *)
Definition double_scale (x : Z) (d : Z * Z) : Z :=
  let '(m, e) := d in
  let p := x * m in
  let k := Z.max 0 (Z.log2 p - 52) in
  let p := round_even p (2 ^ k) in
  if k + e <? 0 then p / 2 ^ (- (k + e)) else p * 2 ^ (k + e).

Definition running_sums (l : list Z) : list Z :=
  snd (fold_left (fun '(sum, out) x => (sum + x, out ++ [sum + x])) l (0, [])).

Section Pages.
Context `{M : Memory}.
(** [fread(c->bit_stream,8192,1,h->file)] after [fseek] to the address, into fresh
    memory.  [Undefined]: there is no file, or no such position *)
Definition page_coder (file : option (list Z)) (address : Z) : outcome range_coder :=
  match file with
  | None => Undefined
  | Some file =>
      if address <? 0 then Undefined
      else
        let bytes := firstn (Z.to_nat 8192) (skipn (Z.to_nat address) file) in
        Done (coder_at (bytes ++ skipn (length bytes) (garbage 8192)) (8192 * 8))
  end.

(** the table of the addresses of the pages, [unicode_page_addresses] *)
Definition load_page_addresses (h : stats_handle) : outcome (list Z) :=
  let addressRange := i32 (unicodeAddress h - rootNodeAddress h + 512 + 1) in
  do c <- page_coder (h_file h) (unicodeAddress h) ;;
  let '(l, _) := ic_decode_recursive (repeat 0 511) 511 addressRange c in
  Done (0 :: tabulate 511 (fun k => i32 (rd l k + (rootNodeAddress h - (k + 1))))).
(** an element of it.  For page 511, the one behind its end is read, too: whatever
    word the memory has there. *)
Definition page_address (addresses : list Z) (i : Z) : Z :=
  if i <? 512 then rd addresses i else rd (garbage 513) i.

Definition default_page : list Z := running_sums (repeat 40 128 ++ repeat 1 513).

Definition rescale_page (total : Z) (l : list Z) : list Z :=
  map (fun x => double_scale x (double_quot 0xffff00 (total + 1))) l.

Definition load_unicode_page (h : stats_handle) (addresses : list Z) (codePage : Z) : outcome (list Z) :=
  if page_address addresses codePage =? page_address addresses (codePage + 1) then
    Done (rescale_page (rd default_page (128 + 512)) default_page)
  else
    do c <- page_coder (h_file h) (page_address addresses codePage) ;;
    let '(total, c) := range_decode_equiprobable c 0xffffff in
    let '(l, _) := ic_decode_recursive (repeat 0 641) (128 + 512 + 1) (total + 1) c in
    Done (rescale_page total l).

(** What the handle caches of it: [unicode_page_addresses] and [unicode_pages]. *)
Record unicode_cache := UnicodeCache {
  page_addresses : option (list Z);
  pages : list (option (list Z)) (* [512] *)
}.
Definition empty_cache : unicode_cache := UnicodeCache None (repeat None 512).

(** [Done (None, _)] is NULL *)
Definition getUnicodeStatistics (h : stats_handle) (cache : unicode_cache) (codePage : Z)
  : outcome (option (list Z) * unicode_cache) :=
  if (codePage <? 1) || (codePage >? 511) then Done (None, cache)
  else
    do addresses <- match page_addresses cache with Some a => Done a | None => load_page_addresses h end ;;
    match nth (Z.to_nat codePage) (pages cache) None with
    | Some l => Done (Some l, UnicodeCache (Some addresses) (pages cache))
    | None =>
        do l <- load_unicode_page h addresses codePage ;;
        Done (Some l, UnicodeCache (Some addresses) (<[Z.to_nat codePage := Some l]> (pages cache)))
    end.

(** the page without the cache *)
Definition unicode_page (h : stats_handle) (codePage : Z) : outcome (option (list Z)) :=
  if (codePage <? 1) || (codePage >? 511) then Done None
  else
    do addresses <- load_page_addresses h ;;
    do l <- load_unicode_page h addresses codePage ;;
    Done (Some l).

Record cache_ok (h : stats_handle) (cache : unicode_cache) : Prop := {
  ch_addresses : forall a, page_addresses cache = Some a -> load_page_addresses h = Done a;
  ch_pages : forall k l, nth k (pages cache) None = Some l -> exists a, page_addresses cache = Some a /\ load_unicode_page h a (Z.of_nat k) = Done l;
  ch_length : length (pages cache) = 512%nat
}.

Lemma empty_cache_ok h : cache_ok h empty_cache.
Proof.
  split; [done | | done]. intros k l Hk. cbn [pages empty_cache] in Hk. unfold empty_cache in Hk. cbn [pages] in Hk.
  exfalso. destruct (decide (k < 512)%nat); [by rewrite nth_repeat in Hk | by rewrite nth_overflow in Hk by (rewrite repeat_length; lia)].
Qed.

Lemma no_fuel_addresses h : load_page_addresses h <> OutOfFuel.
Proof. unfold load_page_addresses, page_coder. destruct (h_file h); [|done]. destruct (_ <? 0); [done|]. cbn [and_then]. by destruct (ic_decode_recursive _ _ _ _). Qed.
Lemma no_fuel_page h a p : load_unicode_page h a p <> OutOfFuel.
Proof.
  unfold load_unicode_page, page_coder. destruct (_ =? _); [done|]. destruct (h_file h); [|done]. destruct (_ <? 0); [done|]. cbn [and_then].
  destruct (range_decode_equiprobable _ _). by destruct (ic_decode_recursive _ _ _ _).
Qed.

(** The cache of unicode statistics is transparent: a page is the same
    whether it comes from the cache or from the file, and every call leaves a
    cache for which this holds. *)
Theorem getUnicodeStatistics_cached h cache codePage : cache_ok h cache ->
  match getUnicodeStatistics h cache codePage with
  | Done (l, cache) => unicode_page h codePage = Done l /\ cache_ok h cache
  | o => unicode_page h codePage = Undefined /\ o = Undefined
  end.
Proof.
  intros Hc. pose proof Hc as [Ha Hp Hl]. unfold getUnicodeStatistics, unicode_page.
  destruct (_ || _) eqn:E; [done|]. b2p.
  assert (match page_addresses cache with Some a => Done a | None => load_page_addresses h end = load_page_addresses h) as ->
    by (destruct (page_addresses cache) as [a|]; [by rewrite (Ha a) | done]).
  destruct (load_page_addresses h) as [a| |] eqn:Ea; cbn [and_then]; [|done|by apply no_fuel_addresses in Ea].
  destruct (nth (Z.to_nat codePage) (pages cache) None) as [l|] eqn:El.
  - destruct (Hp _ _ El) as (a' & Ha' & Hl'). apply Ha in Ha' as [= <-]. rewrite Z2Nat.id in Hl' by lia. rewrite Hl'. cbn [and_then]. split; [done|].
    split; cbn [page_addresses pages]; [by intros ? [= <-] | | done]. intros k l' Hk. destruct (Hp _ _ Hk) as (a' & Ha' & Hk'). apply Ha in Ha' as [= <-]. by exists a.
  - destruct (load_unicode_page h a codePage) as [l| |] eqn:Elo; cbn [and_then]; [|done|by apply no_fuel_page in Elo]. split; [done|].
    split; cbn [snd page_addresses pages]; [by intros ? [= <-] | | by rewrite length_insert].
    intros k l' Hk. exists a. split; [done|]. destruct (decide (k = Z.to_nat codePage)) as [->|Hne].
    + rewrite nth_lookup, list_lookup_insert_eq in Hk by lia. cbn in Hk. injection Hk as <-. by rewrite Z2Nat.id by lia.
    + rewrite nth_lookup, list_lookup_insert_ne in Hk by done. rewrite <- nth_lookup in Hk. destruct (Hp _ _ Hk) as (a' & Ha' & Hk'). by apply Ha in Ha' as [= <-].
Qed.
End Pages.

(** ** The vectors are codable *)

(** [table_ok], decided: boundaries that increase strictly *)
Fixpoint increasing (prev : Z) (l : list Z) : bool :=
  match l with
  | [] => prev <=? MAXVALUE
  | x :: l => (prev <? x) && increasing x l
  end.
Definition table_okb (f : list Z) (n : Z) : bool :=
  (n - 1 <=? Z.of_nat (length f)) && increasing 0 (firstn (Z.to_nat (n - 1)) f).

Lemma increasing_spec prev l : increasing prev l = true ->
  prev <= MAXVALUE /\
  forall i, (i < length l)%nat -> nth i (prev :: l) 0 < nth i l 0 /\ prev < nth i l 0 <= MAXVALUE.
Proof.
  revert prev. induction l as [|x l IH]; intros prev H; cbn [increasing] in H; b2p.
  { split; [done|]. intros i Hi. simpl in Hi. lia. }
  destruct (IH x ltac:(done)) as [Hx Hr]. split; [lia|]. intros [|i] Hi; cbn [nth length] in *.
  - split; [done|]. split; done.
  - destruct (Hr i ltac:(lia)) as [H1 H2]. cbn [nth] in H1. split; [done|]. lia.
Qed.

Lemma increasing_ascending prev l : increasing prev l = true -> ascending prev l = true.
Proof.
  revert prev. induction l as [|x l IH]; intros prev H; cbn [increasing ascending] in *; [done|]. b2p.
  destruct (increasing_spec x l ltac:(done)) as [Hx _]. rewrite IH by done.
  destruct (Z.leb_spec prev x), (Z.leb_spec x MAXVALUE); lia || done.
Qed.

Lemma table_okb_spec f n : table_okb f n = true -> table_ok f n.
Proof.
  unfold table_okb. intros H. b2p. split.
  - apply cumulativeb_spec. unfold cumulativeb. apply andb_true_iff. split; [by apply Z.leb_le|]. by apply increasing_ascending.
  - intros s Hs. split; [done|]. destruct (increasing_spec _ _ H0) as [_ Hr].
    unfold sym_low, sym_high. rewrite Z.gtb_ltb.
    assert (forall i, 0 <= i < n - 1 -> nth (Z.to_nat i) (firstn (Z.to_nat (n - 1)) f) 0 = nth (Z.to_nat i) f 0) as Hf.
    { intros i Hi. rewrite !nth_lookup, lookup_take, decide_True by lia. done. }
    assert (length (firstn (Z.to_nat (n - 1)) f) = Z.to_nat (n - 1)) as Hlen by (rewrite length_firstn; lia).
    destruct (Z.ltb_spec 0 s), (Z.ltb_spec s (n - 1)).
    + rewrite !rd_nth by lia. rewrite <- !Hf by lia. destruct (Hr (Z.to_nat s) ltac:(lia)) as [Hz _].
      replace (Z.to_nat s) with (S (Z.to_nat (s - 1))) in Hz at 1 by lia. exact Hz.
    + rewrite !rd_nth by lia. rewrite <- Hf by lia. destruct (Hr (Z.to_nat (s - 1)) ltac:(lia)) as [_ Hz]. unfold MAXVALUEPLUS1. lia.
    + rewrite !rd_nth by lia. rewrite <- Hf by lia. destruct (Hr (Z.to_nat s) ltac:(lia)) as [_ Hz]. lia.
    + unfold MAXVALUEPLUS1, MAXVALUE. lia.
Qed.

(** A node whose counts do not add up to more than it says. *)
Definition node_okb (n : node) : bool :=
  forallb (fun x => 0 <=? x) (counts n) && (Z.of_nat (length (counts n)) =? CHARCOUNT) &&
  (fold_left Z.add (counts n) 0 <=? count n) && (count n + CHARCOUNT <=? MAXVALUE).

Fixpoint tree_okb (n : node) : bool :=
  node_okb n &&
  (fix all (l : list (option node)) : bool :=
     match l with
     | [] => true
     | o :: l => match o with Some x => tree_okb x | None => true end && all l
     end) (children n).

Lemma tree_okb_node n : tree_okb n = true -> node_okb n = true.
Proof. destruct n. cbn. intros H. by apply andb_true_iff in H as [H _]. Qed.

Lemma tree_okb_child n k x : tree_okb n = true -> nth k (children n) None = Some x -> tree_okb x = true.
Proof.
  destruct n as [c cs ch]. cbn [tree_okb children]. intros H. apply andb_true_iff in H as [_ H].
  revert k. induction ch as [|o ch IH]; intros k Hk; [by destruct k|]. apply andb_true_iff in H as [H1 H2].
  destruct k as [|k]; [|by apply (IH H2 k)]. cbn in Hk. by subst o.
Qed.

(** characters of the alphabet, those behind 0x7f among them *)
Definition in_alphabet (context : list Z) : Prop := Forall (fun ch => 0 <= charIdx ch) context.
Lemma walk_ok n context : tree_okb n = true -> in_alphabet context -> exists m, walk n context = Some m /\ tree_okb m = true.
Proof.
  intros Hn Hc. revert n Hn. induction Hc as [|ch context Hch Hc IH]; intros n Hn; cbn [walk]; [by exists n|].
  destruct (Z.ltb_spec (charIdx ch) 0); [lia|]. destruct (nth _ (children n) None) as [x|] eqn:E; [|by exists n]. apply IH. by eapply tree_okb_child.
Qed.

Lemma fold_add_shift l x y : fold_left Z.add l (x + y) = fold_left Z.add l x + y.
Proof. revert x. induction l as [|a l IH]; intros x; cbn [fold_left]; [done|]. rewrite <- IH. f_equal. lia. Qed.

Lemma fold_add_nonneg l : forallb (fun x => 0 <=? x) l = true -> 0 <= fold_left Z.add l 0.
Proof.
  induction l as [|a l IH]; cbn [forallb fold_left]; intros H; [done|]. b2p. specialize (IH ltac:(done)).
  rewrite fold_add_shift. lia.
Qed.

Lemma cumulate_increasing scale l : 1 <= scale -> forallb (fun x => 0 <=? x) l = true ->
  forall cumulative, 0 <= cumulative ->
  cumulative + scale * (fold_left Z.add l 0 + Z.of_nat (length l)) <= MAXVALUE ->
  increasing cumulative (cumulate scale cumulative l) = true.
Proof.
  intros Hs. induction l as [|x l IH]; intros Hl cum H0 Hb; cbn [cumulate increasing].
  { simpl in Hb. apply Z.leb_le. lia. }
  cbn [forallb fold_left length] in *. b2p. rewrite fold_add_shift in Hb. 
  pose proof (fold_add_nonneg l ltac:(done)). unfold MAXVALUE in *.
  assert (x + 1 <= (x + 1) * scale) by nia.
  assert (scale * (fold_left Z.add l 0 + x + Z.of_nat (S (length l)))
          = (x + 1) * scale + scale * (fold_left Z.add l 0 + Z.of_nat (length l))) as E by lia.
  assert (0 <= scale * (fold_left Z.add l 0 + Z.of_nat (length l))) by nia.
  rewrite (u32_small (x + 1)), (u32_small ((x + 1) * scale)), u32_small by lia.
  rewrite IH by (done || lia). destruct (Z.ltb_spec cum (cum + (x + 1) * scale)); [done | lia].
Qed.

Lemma length_cumulate scale cum l : length (cumulate scale cum l) = length l.
Proof. revert cum. induction l; intros; cbn; [done|]. by rewrite IHl. Qed.

Lemma increasing_firstn k prev l : increasing prev l = true -> increasing prev (firstn k l) = true.
Proof.
  revert prev k. induction l as [|x l IH]; intros prev k H; [by rewrite firstn_nil|].
  destruct (increasing_spec _ _ H) as [Hp _]. destruct k as [|k]; [by apply Z.leb_le|].
  cbn [firstn increasing] in *. b2p. rewrite IH by done. destruct (Z.ltb_spec prev x); [done | lia].
Qed.

Lemma node_vector_ok n : node_okb n = true ->
  exists v, node_vector n = Some v /\ table_ok v CHARCOUNT.
Proof.
  unfold node_okb. intros H. b2p. unfold node_vector, MAXVALUE, CHARCOUNT in *.
  pose proof (fold_add_nonneg (counts n) ltac:(done)).
  assert (1 <= Z.quot 0xffffff (count n + 65)) as Hs by (apply Z.quot_le_lower_bound; lia).
  destruct (Z.eqb_spec (Z.quot 0xffffff (count n + 65)) 0); [lia|]. eexists. split; [done|].
  pose proof (Z.mul_quot_le 0xffffff (count n + 65) ltac:(lia) ltac:(lia)).
  apply table_okb_spec. unfold table_okb. rewrite length_cumulate. rewrite increasing_firstn; [apply andb_true_iff; split; [apply Z.leb_le; lia | done]|].
  apply cumulate_increasing; [done | done | done |]. unfold MAXVALUE. nia.
Qed.

(** ** The interface of the text model

    What the coder of characters relies on: after any context of characters of the
    alphabet there is a vector in which every character can be coded. *)
Class TextModel (vector : list Z -> option (list Z)) : Prop :=
  text_model context : in_alphabet context -> exists v, vector context = Some v /\ table_ok v CHARCOUNT.

Definition handle_ok (h : stats_handle) : Prop :=
  exists n, tree h = Some n /\ tree_okb n = true.

Lemma extractVector_some h context rest : handle_ok h -> in_alphabet context ->
  exists v, extractVector h (context ++ 0 :: rest) (Z.of_nat (length context)) = Done (Some v) /\ table_ok v CHARCOUNT.
Proof.
  intros (n & Hn & Hok) Hc. unfold extractVector, extractNode.
  rewrite <- (Z.add_0_r (Z.of_nat _)), rd_app_r, rd_cons_0, Z.add_0_r by lia. change (nz 0) with false. cbv iota. rewrite Hn, Nat2Z.id, take_app_length.
  destruct (walk_ok n (rev context) Hok) as (m & -> & Hm); [by apply List.Forall_rev|]. cbn [and_then].
  destruct (node_vector_ok m (tree_okb_node m Hm)) as (v & -> & Hv). by exists v.
Qed.

(** The two services as the coder of characters calls them: it puts the null behind
    the context.  [None] also stands for a call that does not return. *)
Definition vector_of (h : stats_handle) (context : list Z) : option (list Z) :=
  match extractVector h (context ++ [0]) (Z.of_nat (length context)) with Done v => v | _ => None end.
Definition page_of `{Memory} (h : stats_handle) (codePage : Z) : option (list Z) :=
  match unicode_page h codePage with Done l => l | _ => None end.

#[export] Instance vector_of_model h : handle_ok h -> TextModel (vector_of h).
Proof.
  intros Hh context Hc. destruct (extractVector_some h context [] Hh Hc) as (v & Hv & Hok). exists v. unfold vector_of. by rewrite Hv.
Qed.

(** ** Properties *)

(** C32: From a tree whose nodes do not count more characters than they say, every
    context of characters of the alphabet that is null-terminated has a probability
    vector, and in it each of the 65 characters has a part of the range, so that it
    can be coded. *)
Theorem extractVector_codable h root context rest : tree h = Some root -> tree_okb root = true -> in_alphabet context ->
  exists v, extractVector h (context ++ 0 :: rest) (Z.of_nat (length context)) = Done (Some v) /\ cumulative v CHARCOUNT /\
    forall s, 0 <= s < CHARCOUNT -> codable v CHARCOUNT s.
Proof. intros Ht Hok. apply extractVector_some. by exists root. Qed.

Definition sample_tree : node :=
  Node 12 (12 :: repeat 0 64) [None; Some (Node 3 (repeat 0 64 ++ [3]) [])].
Definition sample_handle : stats_handle :=
  StatsHandle None [] 0 0 0 0 1 0 [] [] [] [] [] (Some sample_tree).

Lemma extractVector_codable_witness :
  exists v, extractVector sample_handle [98; 0] 1 = Done (Some v) /\ cumulative v CHARCOUNT /\
    forall s, 0 <= s < CHARCOUNT -> codable v CHARCOUNT s.
Proof.
  apply (extractVector_codable sample_handle sample_tree [98] []); [reflexivity | vm_compute; reflexivity |].
  apply List.Forall_cons; [vm_compute; discriminate | apply List.Forall_nil].
Defined.

(** an upper-case letter is not in the alphabet, a context has to end with a null, and a
    page needs a file *)
Example not_in_alphabet : extractVector sample_handle [65; 0] 1 = Undefined /\ extractVector sample_handle [98; 98] 1 = Done None.
Proof. by split. Qed.
Example page_without_file : unicode_page (M := sample_memory) sample_handle 1 = Undefined.
Proof. reflexivity. Qed.

Lemma getUnicodeStatistics_cached_witness :
  unicode_page (M := sample_memory) sample_handle 600 = Done None /\ cache_ok (M := sample_memory) sample_handle empty_cache.
Proof. exact (getUnicodeStatistics_cached (M := sample_memory) sample_handle empty_cache 600 (empty_cache_ok (M := sample_memory) sample_handle)). Defined.
