(* ===== verification/LCAlpha.v ===== *)
(** lowercasealpha.c: the characters of a lower-case text, coded with the
    context model. *)
From S2P Require Import Prelude RangeCoder RangeSim RangeCodec RangeRun Charset PackedStats.
Local Open Scope Z_scope.
Local Open Scope succinct_scope.

(** [strncmp816] *)
Fixpoint strncmp816 (n : nat) (s1 s2 : list Z) (j : Z) : Z :=
  match n with
  | O => 0
  | S n => let d := rd s1 j - rd s2 j in if nz d then d else strncmp816 n s1 s2 (j + 1)
  end.

Section LCAlphaSpace.
(** The two services of packed_stats.c: [extractVector] and
    [getUnicodeStatistics].  The first exits the process when it has no vector,
    and the second returns NULL, which is dereferenced, or has no file to read from;
    the interfaces below exclude all of it, and the definitions read an empty table. *)
Context (vector : list Z -> option (list Z)) (page : Z -> option (list Z)).

Definition table (o : option (list Z)) : list Z := match o with Some l => l | None => [] end.

(** What the two sides remember of the characters before: [lastCodePage] and
    [firstUnicode]. *)
Record page_state := PageState { lastCodePage : Z; firstUnicode : bool }.
Definition initial_page : page_state := PageState (0x80 / 0x80) true.

Definition isdigit (c : Z) : bool := (48 <=? c) && (c <=? 57).
Definition is_unicode (c : Z) : bool := (c =? 85) || (c >? 0x7f).

(** the body of the loop of encodeLCAlphaSpace; [s] is the text before [t] *)
Definition encode_char (s : list Z) (st : page_state) (t : Z) (c : range_coder) : page_state * range_coder :=
  let v := table (vector s) in
  let symbol := charIdx t in
  let c := snd (range_encode_symbol c v CHARCOUNT symbol) in
  if isdigit t then (st, snd (range_encode_equiprobable c 10 (t - 48)))
  else if is_unicode t then
    let counts := table (page (lastCodePage st)) in
    let '(st, switchedPage, c) :=
      if firstUnicode st then
        (PageState (t / 0x80) false, true, snd (range_encode_equiprobable c 511 (t / 0x80 - 1)))
      else if negb (t / 0x80 =? lastCodePage st) then
        (PageState (t / 0x80) false, true, snd (range_encode_symbol c counts (128 + 512) (128 + t / 0x80)))
      else (st, false, c) in
    let counts := table (page (lastCodePage st)) in
    (st, snd (range_encode_symbol c counts (if switchedPage then 128 else 128 + 512) (Z.land t 0x7f)))
  else (st, c).

Fixpoint encode_chars (s : list Z) (st : page_state) (todo : list Z) (c : range_coder) : range_coder :=
  match todo with
  | [] => c
  | t :: todo =>
      let '(st, c) := encode_char s st t c in
      encode_chars (s ++ [t]) st todo c
  end.
Definition encodeLCAlphaSpace (s : list Z) (c : range_coder) : range_coder :=
  encode_chars [] initial_page s c.

(** [symbol] has been read: a character of the page, or a switch of page and
    then the character; [None] is [return -1] *)
Definition decode_in_page (st : page_state) (symbol : Z) (c : range_coder) : option (Z * page_state) * range_coder :=
  if symbol >? 127 then
    let st := PageState (symbol - 128) (firstUnicode st) in
    match page (lastCodePage st) with
    | None => (None, c)
    | Some counts =>
        let '(symbol, c) := range_decode_symbol c counts 128 in
        (Some (u16 (lastCodePage st * 0x80 + symbol), st), c)
    end
  else (Some (u16 (lastCodePage st * 0x80 + symbol), st), c).

(** the body of the loop of decodeLCAlphaSpace *)
Definition decode_char (s : list Z) (st : page_state) (c : range_coder)
  : option (Z * page_state) * range_coder :=
  let v := table (vector s) in
  let '(symbol, c) := range_decode_symbol c v CHARCOUNT in
  let t := rd chars symbol in
  if isdigit t then
    let '(digit, c) := range_decode_equiprobable c 10 in (Some (48 + digit, st), c)
  else if is_unicode t then
    if firstUnicode st then
      let '(p, c) := range_decode_equiprobable c 511 in
      let '(symbol, c) := range_decode_symbol c (table (page (p + 1))) 128 in
      decode_in_page (PageState (p + 1) false) symbol c
    else
      let '(symbol, c) := range_decode_symbol c (table (page (lastCodePage st))) (128 + 512) in
      decode_in_page st symbol c
  else (Some (t, st), c).

(** [s] is what has been decoded *)
Fixpoint decode_chars (n : nat) (s : list Z) (st : page_state) (c : range_coder)
  : (Z * list Z) * range_coder :=
  match n with
  | O => ((0, s), c)
  | S n =>
      match decode_char s st c with
      | (None, c) => ((-1, s), c)
      | (Some (t, st), c) => decode_chars n (s ++ [t]) st c
      end
  end.
(** returns the code and the characters that have been decoded *)
Definition decodeLCAlphaSpace (length : Z) (c : range_coder) : (Z * list Z) * range_coder :=
  decode_chars (Z.to_nat length) [] initial_page c.

Lemma within_char len s st t c : within len c -> within len (snd (encode_char s st t c)).
Proof.
  intros H. unfold encode_char. destruct (isdigit t); [cbn [snd]; auto with succinct|].
  destruct (is_unicode t); [|cbn [snd]; auto with succinct].
  destruct (firstUnicode st); [|destruct (negb _)]; cbn [snd]; auto with succinct.
Qed.

Lemma within_LCAlphaSpace len s c : within len c -> within len (encodeLCAlphaSpace s c).
Proof.
  unfold encodeLCAlphaSpace. generalize (@nil Z) at 1. generalize initial_page.
  revert c. induction s as [|t s IH]; intros c st pre H; cbn [encode_chars]; [done|].
  pose proof (within_char len pre st t c H) as H1. destruct (encode_char pre st t c) as [st' c']. by apply IH.
Qed.

(** ** The codec *)
Class UnicodeModel : Prop :=
  unicode_model p : 1 <= p <= 511 -> exists l, page p = Some l /\ table_ok l (128 + 512).

(** what is relied on for a text: its own pages only *)
Definition page_good (p : Z) : Prop := exists l, page p = Some l /\ table_ok l (128 + 512).
Context {HV : TextModel vector}.

(** the characters the layer is given: in the alphabet, and not the place
    holder of unicode itself *)
Definition text_char (t : Z) : Prop := 0 <= t < 2 ^ 16 /\ 0 <= charIdx t /\ t <> 85.

Definition page_ok (st : page_state) : Prop := firstUnicode st = false -> page_good (lastCodePage st).
Definition pages_ok (s : list Z) : Prop := Forall (fun t => is_unicode t = true -> page_good (t / 0x80)) s.

Lemma table_ok_128 l : table_ok l (128 + 512) -> table_ok l 128.
Proof.
  intros [Hc Hs]. split.
  - intros i j Hi Hj. apply Hc; lia.
  - intros s Hs'. split; [done|]. destruct (Hs s ltac:(lia)) as [_ Hlt]. unfold sym_high in *.
    destruct (Z.ltb_spec s (128 - 1)), (Z.ltb_spec s (128 + 512 - 1)); try lia; try done.
    unfold sym_low in *. destruct (s >? 0) eqn:E; [|unfold MAXVALUEPLUS1, MAXVALUE; lia].
    rewrite Z.gtb_ltb in E. b2p.
    pose proof (Hc (s - 1) (s - 1) ltac:(lia) ltac:(lia)). unfold MAXVALUEPLUS1. lia.
Qed.

(** the state after a character *)
Definition next_page (st : page_state) (t : Z) : page_state :=
  if isdigit t then st else if is_unicode t then PageState (t / 0x80) false else st.

Lemma isdigit_unicode t : 0 <= t < 2 ^ 16 -> is_unicode t = true -> isdigit t = false.
Proof.
  unfold is_unicode, isdigit. intros Ht H. b2p. destruct (Z.leb_spec t 57); [|apply andb_false_r].
  destruct H; b2p; lia.
Qed.

(** what the alphabet says of a character the layer is given *)
Lemma text_char_symbol t : text_char t ->
  0 <= charIdx t < CHARCOUNT /\
  isdigit (rd chars (charIdx t)) = isdigit t /\ is_unicode (rd chars (charIdx t)) = is_unicode t /\
  (isdigit t = false -> is_unicode t = false -> rd chars (charIdx t) = t).
Proof.
  intros (Ht & Hi & Hu). pose proof (charIdx_range t). split; [lia|].
  destruct (decide (t < 0x80)) as [Hlt|Hge].
  - rewrite charIdx_ascii by lia. unfold isdigit, is_unicode. destruct ((48 <=? t) && (t <=? 57)) eqn:E; [|done].
    b2p. destruct (Z.gtb_spec t 0x7f), (Z.eqb_spec t 85); lia || done.
  - destruct (charIdx_unicode t ltac:(lia)) as [-> ->]. unfold isdigit, is_unicode.
    destruct (Z.leb_spec t 57), (Z.leb_spec 48 t), (Z.gtb_spec t 0x7f), (Z.eqb_spec t 85); lia || done.
Qed.

(** the page and the offset of a unicode character *)
Lemma unicode_split t : 0x80 <= t < 2 ^ 16 ->
  1 <= t / 0x80 <= 511 /\ 0 <= Z.land t 0x7f < 128 /\ u16 (t / 0x80 * 0x80 + Z.land t 0x7f) = t.
Proof.
  intros. change 0x7f with (2 ^ 7 - 1). rewrite land_mod, u16_small by divmod. divmod.
Qed.

Definition char_sent (s : list Z) (st : page_state) (t : Z) : Prop :=
  (forall c, fst (encode_char s st t c) = next_page st t) /\ page_ok (next_page st t) /\
  Sends 130 (fun c => snd (encode_char s st t c)) (decode_char s st) (Some (t, next_page st t)).

(** a character outside of the alphabet: first of all, in the page of the one
    before it, or in another page *)
Lemma unicode_sends s st t v : text_char t -> page_ok st -> page_good (t / 0x80) -> vector s = Some v -> table_ok v CHARCOUNT -> isdigit t = false -> is_unicode t = true -> char_sent s st t.
Proof.
  intros Ht Hst Hp Hv Hvok Ed Eu. destruct (text_char_symbol t Ht) as (Hs & Hd & Hu & _). unfold char_sent, encode_char, decode_char, next_page. rewrite Hv, Ed, Eu. cbn [table].
  assert (0x80 <= t < 2 ^ 16) as Hr.
  { destruct Ht as (Ht & _ & Hne). unfold is_unicode in Eu. b2p. destruct Eu; b2p; lia. }
  destruct (unicode_split t Hr) as (Hpage & Hoff & Hjoin).
  destruct Hp as (l & Hl & Hlok). assert (page_good (t / 0x80)) as Hp by (by exists l). pose proof (table_ok_128 l Hlok) as Hl128.
  destruct (firstUnicode st) eqn:Ef; [|destruct (Z.eqb_spec (t / 0x80) (lastCodePage st)) as [Ep|Ep]];
    cbn [negb lastCodePage firstUnicode fst snd].
  - split; [done|]. split; [by intros _|]. rewrite Hl. cbn [table].
    apply (Sends_mono (26 + (52 + (26 + 0)))); [lia|].
    apply (symbol_step v CHARCOUNT (charIdx t) (52 + (26 + 0))
      (fun c => snd (range_encode_symbol (snd (range_encode_equiprobable c 511 (t / 0x80 - 1))) l 128 (Z.land t 0x7f)))
      (fun x c => if isdigit (rd chars x) then _ else _)); [done | done|]. rewrite Hd, Hu, Ed, Eu.
    apply (equiprobable_step 511 (t / 0x80 - 1) _ (fun c => snd (range_encode_symbol c l 128 (Z.land t 0x7f)))
      (fun p c => let '(symbol, c) := range_decode_symbol c (table (page (p + 1))) 128 in
                  decode_in_page (PageState (p + 1) false) symbol c)); [lia | lia|].
    replace (t / 0x80 - 1 + 1) with (t / 0x80) by lia. rewrite Hl. cbn [table].
    apply (symbol_step l 128 (Z.land t 0x7f) 0 (fun c => c)); [done | done|].
    unfold decode_in_page. destruct (Z.gtb_spec (Z.land t 0x7f) 127); [lia|]. cbn [lastCodePage]. rewrite Hjoin. apply Sends_ret.
  - assert (st = PageState (t / 0x80) false) as -> by (destruct st; cbn in *; by subst).
    split; [done|]. split; [by intros _|]. cbn [lastCodePage]. rewrite Hl. cbn [table].
    apply (Sends_mono (26 + (26 + 0))); [lia|].
    apply (symbol_step v CHARCOUNT (charIdx t) (26 + 0)
      (fun c => snd (range_encode_symbol c l (128 + 512) (Z.land t 0x7f)))
      (fun x c => if isdigit (rd chars x) then _ else _)); [done | done|]. rewrite Hd, Hu, Ed, Eu.
    apply (symbol_step l (128 + 512) (Z.land t 0x7f) 0 (fun c => c)); [done | lia|].
    unfold decode_in_page. destruct (Z.gtb_spec (Z.land t 0x7f) 127); [lia|]. cbn [lastCodePage]. rewrite Hjoin. apply Sends_ret.
  - split; [done|]. split; [by intros _|]. rewrite Hl. destruct (Hst Ef) as (l0 & Hl0 & Hl0ok). rewrite Hl0. cbn [table].
    apply (Sends_mono (26 + (26 + (26 + 0)))); [lia|].
    apply (symbol_step v CHARCOUNT (charIdx t) (26 + (26 + 0))
      (fun c => snd (range_encode_symbol (snd (range_encode_symbol c l0 (128 + 512) (128 + t / 0x80))) l 128 (Z.land t 0x7f)))
      (fun x c => if isdigit (rd chars x) then _ else _)); [done | done|]. rewrite Hd, Hu, Ed, Eu.
    apply (symbol_step l0 (128 + 512) (128 + t / 0x80) _ (fun c => snd (range_encode_symbol c l 128 (Z.land t 0x7f)))); [done | lia|].
    unfold decode_in_page at 1. destruct (Z.gtb_spec (128 + t / 0x80) 127); [|lia]. cbn [lastCodePage firstUnicode].
    replace (128 + t / 0x80 - 128) with (t / 0x80) by lia. rewrite Hl, Ef.
    apply (symbol_step l 128 (Z.land t 0x7f) 0 (fun c => c)); [done | done|]. cbv beta. rewrite Hjoin. apply Sends_ret.
Qed.

Lemma text_alphabet s : Forall text_char s -> in_alphabet s.
Proof. apply List.Forall_impl. by intros t (_ & H & _). Qed.
Lemma char_sends s st t : Forall text_char s -> text_char t -> page_ok st -> (is_unicode t = true -> page_good (t / 0x80)) -> char_sent s st t.
Proof.
  intros Hs0 Ht Hst Hp. destruct (text_char_symbol t Ht) as (Hs & Hd & Hu & Hplain). destruct (HV s (text_alphabet s Hs0)) as (v & Hv & Hvok).
  destruct (isdigit t) eqn:Ed; [|destruct (is_unicode t) eqn:Eu; [by apply (unicode_sends s st t v); auto|]]; unfold char_sent, encode_char, decode_char, next_page; rewrite Hv, Ed, ?Eu; cbn [table].
  - split; [done|]. split; [done|].
    apply (Sends_mono (26 + (52 + 0))); [lia|].
    apply (symbol_step v CHARCOUNT (charIdx t) (52 + 0) (fun c => snd (range_encode_equiprobable c 10 (t - 48)))
      (fun x c => if isdigit (rd chars x) then _ else _)); [done | done|].
    rewrite Hd, ?Ed.
    apply (equiprobable_step 10 (t - 48) _ (fun c => c) (fun x c => (Some (48 + x, st), c)));
      [lia | unfold isdigit in Ed; b2p; lia|].
    replace (48 + (t - 48)) with t by lia. apply Sends_ret.
  - split; [done|]. split; [done|].
    apply (Sends_mono (26 + 0)); [lia|].
    apply (symbol_step v CHARCOUNT (charIdx t) 0 (fun c => c) (fun x c => if isdigit (rd chars x) then _ else _)); [done | done|].
    rewrite Hd, Hu, ?Ed, ?Eu, Hplain by done. apply Sends_ret.
Qed.

Lemma chars_send todo : Forall text_char todo -> pages_ok todo -> forall s st, Forall text_char s -> page_ok st ->
  Sends (130 * Z.of_nat (length todo)) (encode_chars s st todo) (decode_chars (length todo) s st) (0, s ++ todo).
Proof.
  induction 1 as [|t todo Ht Htodo IH]; intros Hps s st Hs0 Hst.
  { rewrite app_nil_r. apply Sends_ret. }
  apply Forall_cons_iff in Hps as [Hp Hps]. destruct (char_sends s st t Hs0 Ht Hst Hp) as (Hfst & Hst' & HS).
  apply (Sends_mono (130 + 130 * Z.of_nat (length todo))); [cbn [length]; lia|].
  specialize (IH Hps (s ++ [t]) _ ltac:(apply Forall_app; split; [done | by apply List.Forall_cons]) Hst'). rewrite <- app_assoc in IH. cbn [app] in IH.
  pose proof (Sends_bind _ _ _ _ _ (fun o c => match o with
      | Some (t, st) => decode_chars (length todo) (s ++ [t]) st c | None => ((-1, s), c) end) _ _ HS IH) as (H0 & HC & HF).
  split; [done|]. split.
  - eapply Codes_ext; [| |exact HC]; cbn [encode_chars decode_chars length].
    + intros e. rewrite <- (Hfst e). by destruct (encode_char s st t e).
    + intros d. destruct (decode_char s st d) as [[[x st']|] d']; done.
  - intros e He Hroom. specialize (HF e He Hroom). cbn [encode_chars]. rewrite <- (Hfst e) in HF.
    by destruct (encode_char s st t e).
Qed.

(** text of the alphabet, through the layer *)
Lemma LCAlphaSpace_sends s : Forall text_char s -> pages_ok s ->
  Sends (130 * Z.of_nat (length s)) (encodeLCAlphaSpace s) (decodeLCAlphaSpace (Z.of_nat (length s))) (0, s).
Proof. intros Hs Hp. unfold decodeLCAlphaSpace. rewrite Nat2Z.id. by apply (chars_send s Hs Hp [] initial_page). Qed.
Lemma unicode_pages s : UnicodeModel -> Forall text_char s -> pages_ok s.
Proof.
  intros HP. apply List.Forall_impl. intros t (Ht & _ & Hne) Hu. apply HP. unfold is_unicode in Hu. b2p. destruct Hu; b2p; [done | divmod].
Qed.
End LCAlphaSpace.

(** ** Properties *)

(** C26: Against any text model and any unicode model that keep their promises,
    every lower-case text is read back: letters, digits, punctuation, and
    characters of any code page, with the switches of page in between. *)
Theorem LCAlphaSpace_roundtrip vector page s : TextModel vector -> UnicodeModel page -> Forall text_char s ->
  Roundtrips (encodeLCAlphaSpace vector page s) (decodeLCAlphaSpace vector page (Z.of_nat (length s))) (0, s).
Proof. intros HV HP Hs. eapply sends_run. by apply LCAlphaSpace_sends, unicode_pages. Qed.

(** the same vector after any context, and the same statistics for any page *)
Definition flat_vector (n : nat) : list Z := tabulate n (fun i => (i + 1) * (0xffffff / Z.of_nat n)).
Definition sample_vector (context : list Z) : option (list Z) := Some (flat_vector 65).
Definition sample_page (p : Z) : option (list Z) := Some (flat_vector 641).

Lemma sample_models : TextModel sample_vector /\ UnicodeModel sample_page.
Proof.
  split.
  - intros context _. exists (flat_vector 65). split; [done|]. apply table_okb_spec. vm_compute. reflexivity.
  - intros p Hp. exists (flat_vector 641). split; [done|]. apply table_okb_spec. vm_compute. reflexivity.
Qed.

(** "a1", then characters of the pages 1, 1, 0x41 and 1 *)
Definition sample_text : list Z := [97; 49; 0xe9; 0xe8; 0x20ac; 32; 0xe9].

Lemma sample_text_ok : Forall text_char sample_text.
Proof.
  unfold sample_text. repeat (apply List.Forall_cons; [split; [lia | split; [vm_compute; discriminate | lia]]|]). constructor.
Qed.

Lemma LCAlphaSpace_roundtrip_witness :
  fst (decodeLCAlphaSpace sample_vector sample_page (Z.of_nat (length sample_text)) (range_decode_prefetch (read_back (snd (range_conclude
    (encodeLCAlphaSpace sample_vector sample_page sample_text (range_new_coder (repeat 0 40) 40))))))) = (0, sample_text).
Proof.
  exact (Roundtrips_read_back _ _ _ (range_new_coder (repeat 0 40) 40)
    (LCAlphaSpace_roundtrip sample_vector sample_page sample_text (proj1 sample_models) (proj2 sample_models) sample_text_ok)
    (range_new_coder_fresh (repeat 0 40) 40 ltac:(lia) ltac:(reflexivity)) ltac:(vm_compute; reflexivity) ltac:(vm_compute; reflexivity)).
Defined.
