(* ===== verification/CaseModel.v ===== *)
(** case.c: the case of the letters of a text. *)
From S2P Require Import Prelude RangeCoder RangeSim RangeCodec RangeRun Charset PackedStats.
Local Open Scope Z_scope.
Local Open Scope succinct_scope.

Definition stripCase (m : list Z) : list Z := map (fun c => if c <? 0x80 then tolower c else c) m.

(** Isolated i's: the loop of mungeCase from index [i] on; it works in place. *)
Fixpoint mungeCase_loop (fuel : nat) (m : list Z) (len i : Z) : list Z :=
  match fuel with
  | O => m
  | S fuel =>
      if i <? len - 1 then
        let m :=
          if rd m i <? 0x80 then
            if (tolower (rd m i) =? 105) && negb (isalpha (rd m (i - 1))) && negb (isalpha (rd m (i + 1)))
            then wr m i (Z.lxor (rd m i) 0x20) else m
          else m in
        mungeCase_loop fuel m len (i + 1)
      else m
  end.
Definition mungeCase (m : list Z) : list Z :=
  mungeCase_loop (length m) m (Z.of_nat (length m)) 1.

(** ** The model of the case of a letter *)
Record case_state := CaseState {
  wordNumber : Z; wordPosn : Z;
  lastWordInitialCase : Z; lastWordInitialCase2 : Z; lastCase : Z
}.
Definition initial_case : case_state := CaseState 0 (-1) 0 0 0.

Definition rd2 (l : list (list Z)) (i j : Z) : Z := if i <? 0 then 0 else rd (nth (Z.to_nat i) l []) j.

(** [while ((!h->caseposn2[lastCase][pos][0])&&pos) pos--;] *)
Fixpoint find_caseposn2 (fuel : nat) (h : stats_handle) (lastCase pos : Z) : Z :=
  match fuel with
  | O => pos
  | S fuel =>
      if (rd2 (caseposn2 h) lastCase pos =? 0) && nz pos then find_caseposn2 fuel h lastCase (pos - 1) else pos
  end.

(** The probability table for the letter at index [i]; [st] has the letter
    counted already. *)
Definition case_frequencies (h : stats_handle) (st : case_state) (i : Z) : list Z :=
  if wordPosn st =? 0 then
    if i =? 0 then [casestartofmessage h]
    else if (wordNumber st >? 1) && (wordPosn st =? 0) then
      if wordNumber st >? 2
      then [rd2 (casestartofword3 h) (lastWordInitialCase2 st) (lastWordInitialCase st)]
      else [rd (casestartofword2 h) (lastWordInitialCase st)]
    else [rd (caseposn1 h) 0]
  else [rd2 (caseposn2 h) (lastCase st) (find_caseposn2 80 h (lastCase st) (wordPosn st))].

(** what a character does to the state before its case is coded *)
Definition enter_letter (st : case_state) : case_state :=
  let wordNumber := if wordPosn st <? 0 then wordNumber st + 1 else wordNumber st in
  let wordPosn := wordPosn st + 1 in
  let wordPosn := if wordPosn =? 0 then wordPosn else if wordPosn >? 79 then 79 else wordPosn in
  CaseState wordNumber wordPosn (lastWordInitialCase st) (lastWordInitialCase2 st) (lastCase st).

(** and after, [ch] being the letter with its case *)
Definition leave_letter (st : case_state) (ch : Z) : case_state :=
  let lastCase := if isupper ch then 1 else 0 in
  if wordPosn st =? 0 then CaseState (wordNumber st) (wordPosn st) lastCase (lastWordInitialCase st) lastCase
  else CaseState (wordNumber st) (wordPosn st) (lastWordInitialCase st) (lastWordInitialCase2 st) lastCase.

Definition word_break (st : case_state) : case_state :=
  CaseState (wordNumber st) (-1) (lastWordInitialCase st) (lastWordInitialCase2 st) 0.

(** The symbol is what isupper gives, which C only asks to be other than zero for a capital:
    it is 1 in the C library of Android, whose tables have that bit for capitals, and
    would be outside of the alphabet of two in a library that gives another bit. *)
Fixpoint encode_cases (h : stats_handle) (i : Z) (st : case_state) (line : list Z) (c : range_coder) : range_coder :=
  match line with
  | [] => c
  | ch :: line =>
      if charInWord ch then
        if isalpha ch then
          let st := enter_letter st in
          let upper := b2z (isupper ch) in
          let c := snd (range_encode_symbol c (case_frequencies h st i) 2 upper) in
          let ch := if upper =? 1 then toupper ch else ch in
          encode_cases h (i + 1) (leave_letter st ch) line c
        else encode_cases h (i + 1) st line c
      else encode_cases h (i + 1) (word_break st) line c
  end.
Definition encodeCaseModel1 (h : stats_handle) (line : list Z) (c : range_coder) : range_coder :=
  encode_cases h 0 initial_case line c.

(** returns the line with the case restored; [None] is [exit(-1)], when the
    case of a letter that does not start a word cannot be decoded *)
Fixpoint decode_cases (h : stats_handle) (i : Z) (st : case_state) (line : list Z) (c : range_coder)
  : option (list Z) * range_coder :=
  match line with
  | [] => (Some [], c)
  | ch :: line =>
      let continue st ch c :=
        let '(line, c) := decode_cases h (i + 1) st line c in (option_map (cons ch) line, c) in
      if charInWord ch then
        if isalpha ch then
          let st := enter_letter st in
          let '(upper, c) := range_decode_symbol c (case_frequencies h st i) 2 in
          let ch := if upper =? 1 then toupper ch else ch in
          if negb (wordPosn st =? 0) && (upper =? -1) then (None, c)
          else continue (leave_letter st ch) ch c
        else continue st ch c
      else continue (word_break st) ch c
  end.
Definition decodeCaseModel1 (h : stats_handle) (line : list Z) (c : range_coder) : option (list Z) * range_coder :=
  decode_cases h 0 initial_case line c.

(** ** The tables of the handle can be used *)
Definition probability (x : Z) : Prop := 0 < x <= 0xfffffe.

(** what load_headers checks, and [caseposn2] whose row 0 is not in the file *)
Record case_tables_ok (h : stats_handle) : Prop := {
  ct_message : probability (casestartofmessage h);
  ct_word2 : forall i, 0 <= i < 2 -> probability (rd (casestartofword2 h) i);
  ct_word3 : forall i j, 0 <= i < 2 -> 0 <= j < 2 -> probability (rd2 (casestartofword3 h) i j);
  ct_posn1 : probability (rd (caseposn1 h) 0);
  ct_posn2 : forall i j, 0 <= i < 2 -> 1 <= j < 80 -> probability (rd2 (caseposn2 h) i j)
}.

(** the two cases remembered are 0 or 1, and positions stay in the table *)
Record case_state_ok (st : case_state) : Prop := {
  cs_posn : -1 <= wordPosn st <= 79;
  cs_initial : 0 <= lastWordInitialCase st < 2;
  cs_initial2 : 0 <= lastWordInitialCase2 st < 2;
  cs_last : 0 <= lastCase st < 2
}.

Lemma probability_table x : probability x -> table_ok [x] 2.
Proof.
  intros H. apply table_okb_spec. unfold table_okb. unfold probability in H.
  change (firstn (Z.to_nat (2 - 1)) [x]) with [x]. cbn [increasing length]. unfold MAXVALUE.
  apply andb_true_iff. split; [done|]. apply andb_true_iff. split; [apply Z.ltb_lt | apply Z.leb_le]; lia.
Qed.

Lemma find_caseposn2_present h k pos n : rd2 (caseposn2 h) k pos <> 0 -> find_caseposn2 n h k pos = pos.
Proof. intros H. destruct n; [done|]. cbn [find_caseposn2]. by destruct (Z.eqb_spec (rd2 (caseposn2 h) k pos) 0). Qed.

Lemma case_frequencies_ok h st i : case_tables_ok h -> case_state_ok st -> 0 <= wordPosn st ->
  table_ok (case_frequencies h st i) 2.
Proof.
  intros [H1 H2 H3 H4 H5] [P1 P2 P3 P4] Hp. unfold case_frequencies.
  destruct (Z.eqb_spec (wordPosn st) 0).
  - destruct (i =? 0); [by apply probability_table|]. destruct (_ && _); [|by apply probability_table].
    destruct (_ >? _); apply probability_table; auto.
  - assert (probability (rd2 (caseposn2 h) (lastCase st) (wordPosn st))) as HP by (apply H5; lia).
    rewrite find_caseposn2_present by (unfold probability in HP; lia). by apply probability_table.
Qed.

Lemma enter_letter_ok st : case_state_ok st -> case_state_ok (enter_letter st) /\ 0 <= wordPosn (enter_letter st).
Proof.
  intros [P1 P2 P3 P4]. unfold enter_letter.
  destruct (Z.eqb_spec (wordPosn st + 1) 0), (Z.gtb_spec (wordPosn st + 1) 79); cbn [wordPosn];
    (split; [split; cbn [wordPosn lastWordInitialCase lastWordInitialCase2 lastCase]|]; lia).
Qed.

Lemma leave_letter_ok st ch : case_state_ok st -> case_state_ok (leave_letter st ch).
Proof.
  intros [P1 P2 P3 P4]. unfold leave_letter.
  destruct (wordPosn st =? 0), (isupper ch); split; cbn [wordPosn lastWordInitialCase lastWordInitialCase2 lastCase]; lia.
Qed.

(** ** The codec *)
Lemma toupper_tolower ch : isupper ch = true -> toupper (tolower ch) = ch.
Proof.
  unfold toupper, tolower. intros E. rewrite E. unfold isupper, islower in *. b2p.
  destruct (Z.leb_spec 97 (ch + 32)), (Z.leb_spec (ch + 32) 122); cbn [andb]; lia.
Qed.

Lemma tolower_lower ch : isupper ch = false -> tolower ch = ch.
Proof. unfold tolower. by intros ->. Qed.

Lemma toupper_upper ch : isupper ch = true -> toupper ch = ch.
Proof.
  unfold toupper, isupper, islower. intros E. b2p. destruct (Z.leb_spec 97 ch); [lia | done].
Qed.

(** the character the decoder is given in place of [ch] *)
Definition fold_case (c : Z) : Z := if c <? 0x80 then tolower c else c.

Lemma fold_case_facts ch : 0 <= ch ->
  charInWord (fold_case ch) = charInWord ch /\ (charInWord ch = true -> isalpha (fold_case ch) = isalpha ch) /\
  (charInWord ch = true -> isupper ch = true -> toupper (fold_case ch) = ch) /\
  (isupper ch = false -> fold_case ch = ch).
Proof.
  intros H. unfold fold_case. destruct (Z.ltb_spec ch 0x80).
  - split; [by apply charInWord_case|]. split; [intros _; apply tolower_isalpha|].
    split; [intros _; apply toupper_tolower | apply tolower_lower].
  - split; [done|]. split; [done|]. split; [|done]. intros Hw. unfold charInWord in Hw. destruct (Z.ltb_spec ch 0x80); [lia | done].
Qed.

(** the decoder goes on after a character *)
Lemma continue_sends h i st line ch k enc r : Sends k enc (decode_cases h i st line) (Some r) ->
  Sends k enc (fun c => let '(line, c) := decode_cases h i st line c in (option_map (cons ch) line, c)) (Some (ch :: r)).
Proof. intros H. exact (Sends_map _ (option_map (cons ch)) _ _ _ H). Qed.

Lemma cases_send h : case_tables_ok h -> forall line i st, Forall (fun ch => 0 <= ch) line -> case_state_ok st ->
  Sends (26 * Z.of_nat (length line)) (encode_cases h i st line) (decode_cases h i st (stripCase line)) (Some line).
Proof.
  intros Hh. induction line as [|ch line IH]; intros i st Hl Hst; [apply Sends_ret|].
  inversion_clear Hl as [|? ? Hch Hl']. destruct (fold_case_facts ch Hch) as (F1 & F2 & F3 & F4).
  cbn [stripCase map encode_cases decode_cases length]. fold (stripCase line). fold (fold_case ch). rewrite F1, Nat2Z.inj_succ.
  assert (forall st, case_state_ok st -> Sends (26 * Z.succ (Z.of_nat (length line))) (encode_cases h (i + 1) st line)
    (fun c => let '(line, c) := decode_cases h (i + 1) st (stripCase line) c in (option_map (cons ch) line, c)) (Some (ch :: line))) as Hgo.
  { intros st' Hst'. apply (Sends_mono (26 * Z.of_nat (length line))); [lia|]. apply continue_sends. by apply IH. }
  destruct (charInWord ch) eqn:Ew.
  2: { assert (isupper ch = false) as Hu.
       { destruct (isupper ch) eqn:E; [|done]. exfalso.
         pose proof (below_cases 128 (fun c => negb (isupper c) || charInWord c) ltac:(vm_compute; reflexivity) ch) as HB.
         unfold isupper in E. b2p. cbv beta in HB. rewrite Ew, orb_false_r in HB. unfold isupper in HB.
         specialize (HB ltac:(lia)). b2p. destruct HB; b2p; lia. }
       rewrite (F4 Hu). apply Hgo. split; cbn; try lia; apply Hst. }
  rewrite F2 by done. destruct (isalpha ch) eqn:Ea.
  2: { assert (isupper ch = false) as Hu by (unfold isalpha in Ea; by apply orb_false_iff in Ea as [? _]).
       rewrite (F4 Hu). by apply Hgo. }
  destruct (enter_letter_ok st Hst) as [Hst' Hp]. set (st' := enter_letter st) in *.
  pose proof (case_frequencies_ok h st' i Hh Hst' Hp) as Htab.
  apply (Sends_mono (26 + 26 * Z.of_nat (length line))); [lia|].
  assert ((if b2z (isupper ch) =? 1 then toupper ch else ch) = ch) as ->.
  { destruct (isupper ch) eqn:E; [by apply toupper_upper | done]. }
  apply (symbol_step (case_frequencies h st' i) 2 (b2z (isupper ch)) (26 * Z.of_nat (length line))
    (fun c => encode_cases h (i + 1) (leave_letter st' ch) line c)
    (fun upper c => let ch' := if upper =? 1 then toupper (fold_case ch) else fold_case ch in
       if negb (wordPosn st' =? 0) && (upper =? -1) then (None, c)
       else let '(line, c) := decode_cases h (i + 1) (leave_letter st' ch') (stripCase line) c in (option_map (cons ch') line, c)));
    [done | destruct (isupper ch); simpl; lia|].
  assert ((if b2z (isupper ch) =? 1 then toupper (fold_case ch) else fold_case ch) = ch) as ->.
  { destruct (isupper ch) eqn:E; [by apply F3 | by apply F4]. }
  assert ((b2z (isupper ch) =? -1) = false) as -> by (by destruct (isupper ch)). rewrite andb_false_r.
  cbv zeta. apply continue_sends. apply IH; [done | by apply leave_letter_ok].
Qed.

Lemma CaseModel1_sends h line : case_tables_ok h -> Forall (fun ch => 0 <= ch) line ->
  Sends (26 * Z.of_nat (length line)) (encodeCaseModel1 h line) (decodeCaseModel1 h (stripCase line)) (Some line).
Proof. intros Hh Hl. apply (cases_send h Hh line 0 initial_case Hl). split; cbn; lia. Qed.

(** ** mungeCase undoes itself *)
Definition isolated_i (m : list Z) (i : Z) : bool :=
  (rd m i <? 0x80) && (tolower (rd m i) =? 105) && negb (isalpha (rd m (i - 1))) && negb (isalpha (rd m (i + 1))).

(** equal up to the case of some i's *)
Definition same_but_i (a b : Z) : Prop := a = b \/ (a = 73 /\ b = 105) \/ (a = 105 /\ b = 73).

Lemma same_but_i_facts a b : same_but_i a b ->
  (a <? 0x80) = (b <? 0x80) /\ tolower a = tolower b /\ isalpha a = isalpha b.
Proof. intros [-> | [[-> ->] | [-> ->]]]; done. Qed.

Lemma munge_char x : tolower x = 105 -> same_but_i (Z.lxor x 0x20) x.
Proof.
  unfold tolower. destruct (isupper x) eqn:E; intros H.
  - assert (x = 73) as -> by lia. right. by right.
  - subst x. right. by left.
Qed.

Lemma isolated_same m m' i : (forall k, same_but_i (rd m' k) (rd m k)) -> isolated_i m' i = isolated_i m i.
Proof.
  intros H. unfold isolated_i.
  destruct (same_but_i_facts _ _ (H i)) as (-> & -> & _).
  destruct (same_but_i_facts _ _ (H (i - 1))) as (_ & _ & ->).
  by destruct (same_but_i_facts _ _ (H (i + 1))) as (_ & _ & ->).
Qed.

Definition munged (m : list Z) (i k : Z) : Z :=
  if (i <=? k) && (k <? Z.of_nat (length m) - 1) && isolated_i m k then Z.lxor (rd m k) 0x20 else rd m k.

Lemma mungeCase_loop_spec fuel m i : 1 <= i -> Z.of_nat (length m) - 1 - i < Z.of_nat fuel ->
  length (mungeCase_loop fuel m (Z.of_nat (length m)) i) = length m /\
  forall k, 0 <= k -> rd (mungeCase_loop fuel m (Z.of_nat (length m)) i) k = munged m i k.
Proof.
  revert m i. induction fuel as [|fuel IH]; intros m i Hi Hf; cbn [mungeCase_loop].
  { split; [done|]. intros k Hk. unfold munged.
    destruct (Z.leb_spec i k), (Z.ltb_spec k (Z.of_nat (length m) - 1)); lia || done. }
  destruct (Z.ltb_spec i (Z.of_nat (length m) - 1)).
  2: { split; [done|]. intros k Hk. unfold munged.
       destruct (Z.leb_spec i k), (Z.ltb_spec k (Z.of_nat (length m) - 1)); lia || done. }
  set (m' := if rd m i <? 0x80 then _ else m).
  assert (m' = if isolated_i m i then wr m i (Z.lxor (rd m i) 0x20) else m) as Em.
  { unfold m', isolated_i. destruct (rd m i <? 0x80); cbn [andb]; [|done]. by destruct (_ && _ && _). }
  assert (length m' = length m) as Hlen by (rewrite Em; destruct (isolated_i m i); [apply length_wr | done]).
  assert (forall k, 0 <= k -> rd m' k = if (i =? k) && isolated_i m k then Z.lxor (rd m k) 0x20 else rd m k) as Hrd.
  { intros k Hk. rewrite Em. destruct (Z.eqb_spec i k) as [->|Hne]; cbn [andb].
    - destruct (isolated_i m k); [rewrite rd_wr_eq by lia; done | done].
    - destruct (isolated_i m i); [by rewrite rd_wr_ne by lia | done]. }
  assert (forall k, same_but_i (rd m' k) (rd m k)) as Hsame.
  { intros k. destruct (Z.le_gt_cases 0 k) as [Hk|Hk].
    - rewrite Hrd by done. destruct (Z.eqb_spec i k); [|by left]. cbn [andb]. destruct (isolated_i m k) eqn:E; [|by left].
      apply munge_char. unfold isolated_i in E. b2p. done.
    - rewrite !rd_neg by done. by left. }
  rewrite <- Hlen. destruct (IH m' (i + 1) ltac:(lia) ltac:(lia)) as [IHl IHr]. split; [done|].
  intros k Hk. rewrite IHr by done. unfold munged. rewrite Hlen, (isolated_same m m' k Hsame), Hrd by done.
  destruct (isolated_i m k), (Z.eqb_spec i k), (Z.leb_spec (i + 1) k), (Z.leb_spec i k), (Z.ltb_spec k (Z.of_nat (length m) - 1));
    cbn [andb]; lia || done.
Qed.

Lemma mungeCase_spec m : length (mungeCase m) = length m /\
  forall k, 0 <= k -> rd (mungeCase m) k = munged m 1 k.
Proof. apply mungeCase_loop_spec; lia. Qed.

Lemma munged_same m k : same_but_i (munged m 1 k) (rd m k).
Proof.
  unfold munged. destruct (_ && _) eqn:E; [|by left]. apply munge_char. unfold isolated_i in E. b2p. done.
Qed.

Lemma mungeCase_same m k : same_but_i (rd (mungeCase m) k) (rd m k).
Proof.
  destruct (mungeCase_spec m) as [_ H]. destruct (Z.le_gt_cases 0 k).
  - rewrite H by done. apply munged_same.
  - rewrite !rd_neg by done. by left.
Qed.

(** The decoder undoes the change of the isolated i's by making it again. *)
Lemma mungeCase_involutive m : mungeCase (mungeCase m) = m.
Proof.
  destruct (mungeCase_spec m) as [L1 R1]. destruct (mungeCase_spec (mungeCase m)) as [L2 R2].
  apply rd_ext; [by rewrite L2|]. intros k Hk. rewrite R2 by lia. unfold munged at 1.
  rewrite L1, (isolated_same m _ k (mungeCase_same m)), R1 by lia. unfold munged.
  destruct (_ && _ && isolated_i m k); [|done].
  by rewrite Z.lxor_assoc, Z.lxor_nilpotent, Z.lxor_0_r.
Qed.

Lemma stripCase_munge m : stripCase (mungeCase m) = stripCase m.
Proof.
  destruct (mungeCase_spec m) as [L1 _]. unfold stripCase.
  apply nth_ext with (d := fold_case 0) (d' := fold_case 0); [by rewrite !length_map|].
  intros n Hn. fold fold_case. rewrite !(map_nth fold_case). pose proof (mungeCase_same m (Z.of_nat n)) as H.
  rewrite !rd_of_nat in H. unfold fold_case.
  by destruct H as [-> | [[-> ->] | [-> ->]]].
Qed.

Lemma length_mungeCase m : length (mungeCase m) = length m.
Proof. apply mungeCase_spec. Qed.

Lemma within_CaseModel1 len h line c : within len c -> within len (encodeCaseModel1 h line c).
Proof.
  unfold encodeCaseModel1. generalize 0 initial_case. revert c. induction line as [|ch line IH]; intros c i st H; cbn [encode_cases]; [done|].
  destruct (charInWord ch); [|by apply IH]. destruct (isalpha ch); [|by apply IH]. apply IH. by apply within_symbol.
Qed.

(** ** Properties *)

(** C25: The case of a text survives: the encoder is given the text after
    mungeCase, the decoder the text without case, and mungeCase applied to what
    it restores gives the text back, for any text and any statistics whose case
    probabilities are those that load_headers accepts. *)
Theorem case_roundtrip h line : case_tables_ok h -> Forall (fun ch => 0 <= ch) line ->
  Roundtrips (encodeCaseModel1 h (mungeCase line))
    (fun c => let '(r, c) := decodeCaseModel1 h (stripCase line) c in (option_map mungeCase r, c)) (Some line).
Proof.
  intros Hh Hl. assert (Forall (fun ch => 0 <= ch) (mungeCase line)) as Hm.
  { apply List.Forall_forall. intros x Hx. apply (In_nth _ _ 0) in Hx as (k & Hk & <-).
    pose proof (mungeCase_same line (Z.of_nat k)) as Hs. rewrite !rd_of_nat in Hs.
    rewrite length_mungeCase in Hk. destruct Hs as [-> | [[-> _] | [-> _]]]; [|lia|lia].
    rewrite List.Forall_forall in Hl. by apply Hl, nth_In. }
  pose proof (CaseModel1_sends h (mungeCase line) Hh Hm) as HS. rewrite stripCase_munge in HS.
  pose proof (Sends_map _ (option_map mungeCase) _ _ _ HS) as HS'. cbn [option_map] in HS'.
  rewrite mungeCase_involutive in HS'. by eapply sends_run.
Qed.

Definition sample_case_stats : stats_handle :=
  StatsHandle None [] 0 0 0 0 0 0x600000 [0x800000; 0x300000] [[0x800000; 0x200000]; [0x900000; 0x100000]]
    (repeat 0x700000 80) [0 :: repeat 0xf00000 79; 0 :: repeat 0x400000 79] [] None.

Lemma sample_case_stats_ok : case_tables_ok sample_case_stats.
Proof.
  assert (forall x i, 1 <= i < 80 -> rd (0 :: repeat x 79) i = x) as Hrep.
  { intros x i Hi. rewrite rd_cons, rd_nth by lia. apply nth_repeat_lt. lia. }
  split; unfold probability; cbn [sample_case_stats casestartofmessage casestartofword2 casestartofword3 caseposn1 caseposn2].
  - lia.
  - intros i Hi. assert (i = 0 \/ i = 1) as [-> | ->] by lia; vm_compute; split; congruence.
  - intros i j Hi Hj. assert (i = 0 \/ i = 1) as [-> | ->] by lia; assert (j = 0 \/ j = 1) as [-> | ->] by lia; vm_compute; split; congruence.
  - vm_compute. split; congruence.
  - intros i j Hi Hj. unfold rd2.
    assert (i = 0 \/ i = 1) as [-> | ->] by lia.
    + change (0 < rd (0 :: repeat 0xf00000 79) j <= 0xfffffe). rewrite Hrep; lia.
    + change (0 < rd (0 :: repeat 0x400000 79) j <= 0xfffffe). rewrite Hrep; lia.
Qed.

(** "So I said: i AM!" *)
Definition sample_line : list Z := [83; 111; 32; 73; 32; 115; 97; 105; 100; 58; 32; 105; 32; 65; 77; 33].

Lemma case_roundtrip_witness :
  fst ((fun c => let '(r, c) := decodeCaseModel1 sample_case_stats (stripCase sample_line) c in (option_map mungeCase r, c))
    (range_decode_prefetch (read_back (snd (range_conclude
       (encodeCaseModel1 sample_case_stats (mungeCase sample_line) (range_new_coder (repeat 0 40) 40))))))) = Some sample_line.
Proof.
  assert (Forall (fun ch => 0 <= ch) sample_line) as Hl by (repeat (constructor; [lia|]); constructor).
  exact (Roundtrips_read_back _ _ _ (range_new_coder (repeat 0 40) 40) (case_roundtrip sample_case_stats sample_line sample_case_stats_ok Hl)
    (range_new_coder_fresh (repeat 0 40) 40 ltac:(lia) ltac:(reflexivity)) ltac:(vm_compute; reflexivity) ltac:(vm_compute; reflexivity)).
Defined.
