(* ===== verification/PackedAscii.v ===== *)
(** packedascii.c: printable characters, equally likely. *)
From S2P Require Import Prelude RangeCoder RangeSim RangeCodec RangeRun Charset.
Local Open Scope Z_scope.
Local Open Scope succinct_scope.

(** [for(i=0;m[i];i++)]: [m] is memory from the string on, whose end stands for the
    terminator *)
Fixpoint encodePackedASCII (m : list Z) (c : range_coder) : Z * range_coder :=
  match m with
  | [] => (0, c)
  | x :: m =>
      if negb (nz x) then (0, c)
      else
      let v := printableCharIdx (u8 x) in
      if v <? 0 then (-1, c)
      else encodePackedASCII m (snd (range_encode_equiprobable c PRINTABLECHARCOUNT v))
  end.

Fixpoint decodePackedASCII (encodedLength : nat) (c : range_coder) : list Z * range_coder :=
  match encodedLength with
  | O => ([], c)
  | S n =>
      let '(symbol, c) := range_decode_equiprobable c PRINTABLECHARCOUNT in
      let character := rd printableChars symbol in
      let '(m, c) := decodePackedASCII n c in
      (character :: m, c)
  end.

Definition printable (m : list Z) : Prop := Forall (fun x => 0 < x < 256 /\ 0 <= printableCharIdx x) m.
#[export] Instance printable_dec m : Decision (printable m).
Proof. unfold printable. apply _. Defined.

(** what is behind a string in memory: nothing that is known, or its terminator *)
Definition terminates (tail : list Z) : Prop := hd 0 tail = 0.
(** only the characters before the terminator are sent *)
Lemma encodePackedASCII_terminated m tail c : terminates tail -> encodePackedASCII (m ++ tail) c = encodePackedASCII m c.
Proof.
  intros Ht. revert c. induction m as [|x m IH]; intros c; cbn [app encodePackedASCII].
  - destruct tail as [|y tail]; [done|]. unfold terminates in Ht. cbn [hd] in Ht. by subst y.
  - destruct (negb (nz x)); [done|]. destruct (_ <? 0); [done | apply IH].
Qed.

(** the code says whether every character is printable, whatever the coder *)
Lemma encodePackedASCII_code m c : Forall (fun x => 0 < x < 256) m ->
  fst (encodePackedASCII m c) = if decide (printable m) then 0 else -1.
Proof.
  intros Hm. revert c. induction Hm as [|x m Hx Hm IH]; intros c; [done|]. cbn [encodePackedASCII]. rewrite u8_small by lia. unfold nz.
  destruct (Z.eqb_spec x 0); [lia|]. cbn [negb].
  destruct (Z.ltb_spec (printableCharIdx x) 0).
  - rewrite decide_False; [done|]. intros HP. inversion HP. lia.
  - rewrite IH. destruct (decide (printable m)) as [Hp|Hp].
    + rewrite decide_True; [done|]. by constructor.
    + rewrite decide_False; [done|]. intros HP. by inversion HP.
Qed.

Lemma packedASCII_sends m : printable m ->
  Sends (52 * Z.of_nat (length m)) (fun c => snd (encodePackedASCII m c)) (decodePackedASCII (length m)) m.
Proof.
  induction 1 as [|x m [Hx Hi] Hm IH]; [apply Sends_ret|]. cbn [encodePackedASCII decodePackedASCII length].
  rewrite u8_small by lia. unfold nz. destruct (Z.eqb_spec x 0); [lia|]. cbn [negb]. destruct (Z.ltb_spec (printableCharIdx x) 0); [lia|].
  pose proof (printableCharIdx_range x).
  apply (Sends_mono (52 + 52 * Z.of_nat (length m))); [lia|].
  apply (equiprobable_step PRINTABLECHARCOUNT (printableCharIdx x) (52 * Z.of_nat (length m))
    (fun c => snd (encodePackedASCII m c))
    (fun s c => let '(m, c) := decodePackedASCII (length m) c in (rd printableChars s :: m, c))); [done | lia|].
  rewrite printableCharIdx_found by done. exact (Sends_map _ (cons x) _ _ _ IH).
Qed.

Lemma within_packedASCII len m c : within len c -> within len (snd (encodePackedASCII m c)).
Proof.
  revert c. induction m as [|x m IH]; intros c H; cbn [encodePackedASCII]; [done|].
  destruct (negb (nz x)); [done|]. destruct (_ <? 0); [done|]. apply IH. by apply within_equiprobable.
Qed.
