(* ===== verification/Smac.v ===== *)
(** smac.c: compression of short messages. *)
From S2P Require Import Prelude RangeCoder RangeBits RangeSim RangeCodec RangeRun Charset Interpolative NonAlpha.
From S2P Require Import Unicode PackedStats LCAlpha CaseModel PackedAscii.
Local Open Scope Z_scope.
Local Open Scope succinct_scope.

(** [0.05*0xffffff] *)
Definition probPackedASCII : Z := 0xffffff * 5 / 100.

Section Smac.
Context `{M : Memory}.

(** ** Decoding *)

(** [for(i=1;m[i-1]&&(i<2048);i++)]: the bytes of a raw message after the first
    one; [last] is [m[i-1]] *)
Fixpoint decode_raw (fuel : nat) (last : Z) (c : range_coder) : list Z * range_coder :=
  match fuel with
  | O => ([], c)
  | S fuel =>
      if nz last then
        let '(r, c) := range_decode_equiprobable c 256 in
        if (r =? -1) || (r =? 0xff) then ([], c)
        else let '(m, c) := decode_raw fuel (u8 r) c in (u8 r :: m, c)
      else ([], c)
  end.

(** the loop that puts the characters in their places; [np] and [ap] are
    [nonAlphaPointer] and [alphaPointer] *)
Fixpoint reintegrate (n : nat) (i np ap : Z) (positions values : list Z) (nonAlphaCount : Z) (alpha : list Z) : list Z :=
  match n with
  | O => []
  | S n =>
      if (np <? nonAlphaCount) && (rd positions np =? i)
      then rd values np :: reintegrate n (i + 1) (np + 1) ap positions values nonAlphaCount alpha
      else rd alpha ap :: reintegrate n (i + 1) np (ap + 1) positions values nonAlphaCount alpha
  end.

(** The three branches of stats3_decompress_bits.  The result is the message
    and its length, with [return 0]; [None]: the process exits. *)
Definition decompress_raw (b7 b6 : Z) (c : range_coder) : option (list Z * Z) * range_coder :=
  let '(b5to0, c) := range_decode_equiprobable c 64 in
  let first := u8 (Z.lor (Z.lor b5to0 (Z.shiftl b6 6)) (Z.shiftl b7 7)) in
  let '(m, c) := decode_raw 2047 first c in
  let i := 1 + Z.of_nat (length m) in
  (Some (first :: m, i - 1), c).

Definition decompress_packed (encodedLength : Z) (c : range_coder) : option (list Z * Z) * range_coder :=
  let '(m, c) := decodePackedASCII (Z.to_nat encodedLength) c in
  (Some (m, encodedLength), c).

(** the characters have been decoded *)
Definition decompress_finish (encodedLength : Z) (positions values : list Z) (nonAlphaCount : Z)
    (cased : option (list Z)) : option (list Z * Z) :=
  match cased with
  | None => None
  | Some cased =>
      let alphaCount := encodedLength - nonAlphaCount in
      let alpha := mungeCase cased in
      let m16 := reintegrate (Z.to_nat (alphaCount + nonAlphaCount)) 0 0 0 positions values nonAlphaCount alpha in
      let '(_, m) := utf16toutf8 m16 in
      Some (m, Z.of_nat (length m))
  end.

Definition decompress_text (h : stats_handle) (encodedLength : Z) (nonAlpha : list Z * list Z * Z) (c : range_coder)
  : option (list Z * Z) * range_coder :=
  let '(positions, values, nonAlphaCount) := nonAlpha in
  let alphaCount := encodedLength - nonAlphaCount in
  let '(lower, c) := decodeLCAlphaSpace (vector_of h) (page_of h) alphaCount c in
  let '(cased, c) := decodeCaseModel1 h (snd lower) c in
  (decompress_finish encodedLength positions values nonAlphaCount cased, c).

Definition decompress_model1 (h : stats_handle) (encodedLength : Z) (c : range_coder) : option (list Z * Z) * range_coder :=
  let '(nonAlpha, c) := decodeNonAlpha (garbage 1024) encodedLength c in
  decompress_text h encodedLength nonAlpha c.

Definition decompress_cooked (h : stats_handle) (notPackedASCII encodedLength : Z) (c : range_coder)
  : option (list Z * Z) * range_coder :=
  if notPackedASCII =? 0 then decompress_packed encodedLength c else decompress_model1 h encodedLength c.

Definition stats3_decompress_bits (h : stats_handle) (c : range_coder) : option (list Z * Z) * range_coder :=
  let '(b7, c) := range_decode_equiprobable c 2 in
  let '(b6, c) := range_decode_equiprobable c 2 in
  if nz b7 && negb (nz b6) then
    let '(notPackedASCII, c) := range_decode_symbol c [probPackedASCII] 2 in
    let '(encodedLength, c) := range_decode_symbol c (messagelengths h) 1024 in
    decompress_cooked h notPackedASCII encodedLength c
  else decompress_raw b7 b6 c.

(** a coder that reads the bytes [inp]; the rest of its buffer is fresh *)
Definition stats3_decoder (inp : list Z) : range_coder :=
  let inlen := Z.of_nat (length inp) in
  let c := range_new_coder (garbage (inlen * 2)) (inlen * 2) in
  let bs := inp ++ skipn (length inp) (bit_stream c) in
  range_decode_prefetch
    (RangeCoder 0 0xffffffff (value c) (underflow c) (errors c) (decodingP c) (norescale c)
       bs (inlen * 8) 0 (out_of_bits c)).

Definition stats3_decompress (h : stats_handle) (inp : list Z) : option (list Z * Z) :=
  fst (stats3_decompress_bits h (stats3_decoder inp)).

(** ** Encoding *)
(** [m] is memory from the message on, and [len] the length that is given with it.  The
    text model and the raw form take so many bytes; the packed form takes those before
    the first null, whatever the length. *)
Definition stats3_compress_radix_append (h : stats_handle) (m : list Z) (len : Z) (c : range_coder) : Z * range_coder :=
  run c <- range_encode_equiprobable c 2 1 ;;
  run c <- range_encode_equiprobable c 2 0 ;;
  run c <- range_encode_symbol c [probPackedASCII] 2 0 ;;
  run c <- range_encode_symbol c (messagelengths h) 1024 len ;;
  encodePackedASCII m c.

Definition stats3_compress_model1_append (h : stats_handle) (m : list Z) (len : Z) (c : range_coder) : Z * range_coder :=
  let '(r, utf16) := utf8toutf16 m len in
  if nz r then (-1, c)
  else
    run c <- range_encode_equiprobable c 2 1 ;;
    run c <- range_encode_equiprobable c 2 0 ;;
    run c <- range_encode_symbol c [probPackedASCII] 2 1 ;;
    run c <- range_encode_symbol c (messagelengths h) 1024 (Z.of_nat (length utf16)) ;;
    let c := encodeNonAlpha utf16 c in
    let alpha := stripNonAlpha utf16 in
    let lcalpha := stripCase alpha in
    let c := encodeLCAlphaSpace (vector_of h) (page_of h) lcalpha c in
    let alpha := mungeCase alpha in
    let c := encodeCaseModel1 h alpha c in
    (0, c).

Fixpoint encode_raw (m : list Z) (c : range_coder) : range_coder :=
  match m with
  | [] => c
  | x :: m => encode_raw m (snd (range_encode_equiprobable c 256 x))
  end.

Definition stats3_compress_uncompressed_append (m : list Z) (len : Z) (c : range_coder) : Z * range_coder :=
  let first := rd m 0 in
  run c <- range_encode_equiprobable c 2 (Z.shiftr (Z.land first 0x80) 7) ;;
  run c <- range_encode_equiprobable c 2 (Z.shiftr (Z.land first 0x40) 6) ;;
  run c <- range_encode_equiprobable c 64 (Z.land first 0x3f) ;;
  let c := encode_raw (firstn (Z.to_nat (len - 1)) (tl m)) c in
  run c <- range_encode_equiprobable c 256 255 ;;
  (0, c).

(** the lengths of the two trials *)
Definition model1_trial (h : stats_handle) (m : list Z) (len : Z) : Z :=
  bits_used (snd (range_conclude (snd (stats3_compress_model1_append h m len (range_new_coder (garbage 1024) 1024))))).
Definition radix_trial (h : stats_handle) (m : list Z) (len : Z) : Z :=
  let '(r, t2) := stats3_compress_radix_append h m len (range_new_coder (garbage 1024) 1024) in
  if nz r then 999999 else bits_used (snd (range_conclude t2)).

Definition stats3_compress_append (h : stats_handle) (m : list Z) (len : Z) (c : range_coder) : Z * range_coder :=
  let b1 := model1_trial h m len in
  let b2 := radix_trial h m len in
  let b3 := 999999 in
  if (b1 <? b2) && (b1 <? b3) then stats3_compress_model1_append h m len c
  else if (b2 <? b3) || nz (Z.land (rd m 0) 0x80) then stats3_compress_radix_append h m len c
  else stats3_compress_uncompressed_append m len c.

Definition stats3_compress_bits (h : stats_handle) (m : list Z) (len : Z) (c : range_coder) : Z * range_coder :=
  let '(r, c) := stats3_compress_append h m len c in
  if nz r then (-1, c)
  else
    run c <- range_conclude c ;;
    (0, c).

(** [None] is [return -1]; the result is what is copied to [out] *)
Definition stats3_compress (h : stats_handle) (m : list Z) (inlen : Z) : option (list Z) :=
  let c := range_new_coder (garbage (inlen * 2)) (inlen * 2) in
  let '(r, c) := stats3_compress_bits h m inlen c in
  if nz r then None
  else
    let c := snd (range_conclude c) in
    let outlen := Z.shiftr (bits_used c) 3 + (if nz (Z.land (bits_used c) 7) then 1 else 0) in
    Some (firstn (Z.to_nat outlen) (bit_stream c)).

(** ** Putting the characters back *)
Lemma nonAlphaChars_alpha i m : utf16_text m ->
  (length (nonAlphaChars i m) + length (stripNonAlpha m) = length m)%nat.
Proof.
  intros Hm. revert i. induction Hm as [|x m Hx Hm IH]; intros i; [done|]. cbn [nonAlphaChars stripNonAlpha List.filter length].
  unfold is_alpha_space. fold is_alpha_space. fold (stripNonAlpha m). specialize (IH (i + 1)).
  destruct (Z.ltb_spec x 0x80).
  - destruct (Z.gtb_spec x 0x80); [lia|]. destruct (charIdx (tolower x) >=? 0); cbn [orb length]; lia.
  - assert ((x >? 0x80) || (charIdx (tolower x) >=? 0) = true) as ->; [|cbn [length]; lia].
    destruct (Z.gtb_spec x 0x80); [done|]. assert (x = 0x80) as -> by lia. done.
Qed.

Lemma reintegrate_spec positions values count alpha m : utf16_text m ->
  forall i np ap, 0 <= np -> 0 <= ap ->
  count = np + Z.of_nat (length (nonAlphaChars i m)) ->
  (forall k, (k < length (nonAlphaChars i m))%nat ->
     rd positions (np + Z.of_nat k) = fst (nth k (nonAlphaChars i m) (0, 0)) /\
     rd values (np + Z.of_nat k) = snd (nth k (nonAlphaChars i m) (0, 0))) ->
  (forall k, (k < length (stripNonAlpha m))%nat -> rd alpha (ap + Z.of_nat k) = nth k (stripNonAlpha m) 0) ->
  reintegrate (length m) i np ap positions values count alpha = m.
Proof.
  intros Hm. induction Hm as [|x m Hx Hm IH]; intros i np ap Hnp Hap Hcount Hpos Halpha; [done|].
  cbn [length reintegrate].
  assert (((x <? 0x80) && negb (charIdx (tolower x) >=? 0)) = negb (is_alpha_space x)) as Ecase.
  { unfold is_alpha_space. destruct (Z.ltb_spec x 0x80), (Z.gtb_spec x 0x80); try done; [exfalso; lia|].
    assert (x = 0x80) as -> by lia. done. }
  destruct (is_alpha_space x) eqn:Ea; cbn [negb] in Ecase.
  - assert (nonAlphaChars i (x :: m) = nonAlphaChars (i + 1) m) as En.
    { cbn [nonAlphaChars]. destruct (x <? 0x80); [|done]. destruct (charIdx (tolower x) >=? 0); [done|]. done. }
    rewrite En in *.
    assert ((np <? count) && (rd positions np =? i) = false) as ->.
    { destruct (Z.ltb_spec np count); [|done]. cbn [andb]. apply Z.eqb_neq.
      destruct (Hpos 0%nat ltac:(lia)) as [Hp _]. rewrite Z.add_0_r in Hp. rewrite Hp.
      assert (In (nth 0 (nonAlphaChars (i + 1) m) (0, 0)) (nonAlphaChars (i + 1) m)) as Hin by (apply nth_In; lia).
      apply nonAlphaChars_range in Hin. lia. }
    assert (stripNonAlpha (x :: m) = x :: stripNonAlpha m) as Es by (unfold stripNonAlpha; cbn; by rewrite Ea).
    rewrite Es in Halpha. f_equal.
    + rewrite <- (Z.add_0_r ap). exact (Halpha 0%nat ltac:(cbn; lia)).
    + apply IH; [lia | lia | done | done |]. intros k Hk. change (nth k (stripNonAlpha m) 0) with (nth (S k) (x :: stripNonAlpha m) 0).
        rewrite <- (Halpha (S k) ltac:(cbn; lia)). f_equal. lia.
  - assert (nonAlphaChars i (x :: m) = (i, u8 x) :: nonAlphaChars (i + 1) m) as En.
    { cbn [nonAlphaChars]. b2p. destruct (Z.ltb_spec x 0x80); [|lia]. destruct (Z.geb_spec (charIdx (tolower x)) 0); [lia | done]. }
    rewrite En in *. cbn [length] in *.
    destruct (Hpos 0%nat ltac:(lia)) as [Hp Hv]. rewrite Z.add_0_r in Hp, Hv. cbn [nth fst snd] in Hp, Hv.
    assert ((np <? count) && (rd positions np =? i) = true) as ->.
    { apply andb_true_iff. split; [apply Z.ltb_lt; lia | by apply Z.eqb_eq]. }
    assert (stripNonAlpha (x :: m) = stripNonAlpha m) as Es by (unfold stripNonAlpha; cbn; by rewrite Ea).
    rewrite Es in Halpha. f_equal.
    + rewrite Hv. apply u8_small. b2p. lia.
    + apply IH; [lia | lia | lia | | done]. intros k Hk. destruct (Hpos (S k) ltac:(lia)) as [Hp' Hv'].
      cbn [nth] in Hp', Hv'. split; [rewrite <- Hp' | rewrite <- Hv']; f_equal; lia.
Qed.

(** the text that the text model is given *)
Lemma lcalpha_text m : utf16_text m -> Forall text_char (stripCase (stripNonAlpha m)).
Proof.
  intros Hm. unfold stripCase. apply Forall_map. unfold stripNonAlpha. apply List.Forall_forall. intros x Hx.
  apply List.filter_In in Hx as [Hin Ha]. unfold utf16_text in Hm. rewrite List.Forall_forall in Hm. specialize (Hm x Hin). cbv beta in *.
  unfold is_alpha_space in Ha. unfold text_char. destruct (Z.ltb_spec x 0x80).
  - destruct (Z.gtb_spec x 0x80); [lia|]. cbn [orb] in Ha. b2p. split; [|split].
    + unfold tolower, isupper. destruct (Z.leb_spec 65 x), (Z.leb_spec x 90); cbn [andb]; lia.
    + lia.
    + unfold tolower, isupper. destruct (Z.leb_spec 65 x), (Z.leb_spec x 90); cbn [andb]; lia.
  - destruct (charIdx_unicode x ltac:(lia)) as [-> _]. lia.
Qed.

(** ** The three forms of a message *)

(** what the statistics must satisfy for messages to be coded *)
Record stats_ok (h : stats_handle) : Prop := {
  so_tree : handle_ok h;
  so_case : case_tables_ok h;
  so_lengths : cumulative (messagelengths h) 1024
}.

Lemma probPackedASCII_ok : table_ok [probPackedASCII] 2.
Proof. by apply table_okb_spec. Qed.

(** the length of a message, then the rest *)
Lemma length_step {B} h n k (enc : range_coder -> range_coder) (dec : Z -> range_coder -> B * range_coder) b :
  stats_ok h -> codable (messagelengths h) 1024 n -> Sends k enc (dec n) b ->
  Sends (26 + k) (fun c => enc (snd (range_encode_symbol c (messagelengths h) 1024 n)))
    (fun c => let '(x, c) := range_decode_symbol c (messagelengths h) 1024 in dec x c) b.
Proof.
  intros Hh Hn HS. refine (Sends_bind 26 k _ enc _ dec n b _ HS). pose proof (so_lengths h Hh) as Hc.
  split; [done|]. split; [exact (symbol_codec _ _ Hc n Hn) | by apply symbol_fits].
Qed.

Lemma Sends_ext {A} enc1 enc2 k dec (a : A) : (forall c, enc1 c = enc2 c) -> Sends k enc1 dec a -> Sends k enc2 dec a.
Proof. intros He (H0 & HC & HF). split; [done|]. split; [by eapply Codes_ext; [exact He | reflexivity |]|]. intros c Hc Hb. rewrite <- He. by apply HF. Qed.

(** the start of a message that is not raw *)
Lemma cooked_sends h packed n k (enc : range_coder -> range_coder) b : stats_ok h -> 0 <= packed < 2 ->
  codable (messagelengths h) 1024 n -> Sends k enc (decompress_cooked h packed n) b ->
  Sends (156 + k)
    (fun c => enc (snd (range_encode_symbol (snd (range_encode_symbol (snd (range_encode_equiprobable
       (snd (range_encode_equiprobable c 2 1)) 2 0)) [probPackedASCII] 2 packed)) (messagelengths h) 1024 n)))
    (stats3_decompress_bits h) b.
Proof.
  intros Hh Hp Hn HS. apply (Sends_mono (52 + (52 + (26 + (26 + k))))); [lia|]. unfold stats3_decompress_bits.
  set (tail1 := fun c => enc (snd (range_encode_symbol c (messagelengths h) 1024 n))).
  set (tail2 := fun c => tail1 (snd (range_encode_symbol c [probPackedASCII] 2 packed))).
  set (tail3 := fun c => tail2 (snd (range_encode_equiprobable c 2 0))).
  apply (equiprobable_step 2 1 (52 + (26 + (26 + k))) tail3
    (fun b7 c => let '(b6, c) := range_decode_equiprobable c 2 in
       if nz b7 && negb (nz b6) then
         let '(notPackedASCII, c) := range_decode_symbol c [probPackedASCII] 2 in
         let '(encodedLength, c) := range_decode_symbol c (messagelengths h) 1024 in
         decompress_cooked h notPackedASCII encodedLength c
       else decompress_raw b7 b6 c)); [done | done|].
  apply (equiprobable_step 2 0 (26 + (26 + k)) tail2
    (fun b6 c => if nz 1 && negb (nz b6) then
         let '(notPackedASCII, c) := range_decode_symbol c [probPackedASCII] 2 in
         let '(encodedLength, c) := range_decode_symbol c (messagelengths h) 1024 in
         decompress_cooked h notPackedASCII encodedLength c
       else decompress_raw 1 b6 c)); [done | done|].
  apply (symbol_step [probPackedASCII] 2 packed (26 + k) tail1
    (fun p c => let '(l, c) := range_decode_symbol c (messagelengths h) 1024 in decompress_cooked h p l c));
    [exact probPackedASCII_ok | done|].
  by apply (length_step h n k enc (decompress_cooked h packed)).
Qed.

Lemma radix_sends h m tail : stats_ok h -> printable m -> terminates tail -> codable (messagelengths h) 1024 (Z.of_nat (length m)) ->
  Sends (156 + 52 * Z.of_nat (length m)) (fun c => snd (stats3_compress_radix_append h (m ++ tail) (Z.of_nat (length m)) c))
    (stats3_decompress_bits h) (Some (m, Z.of_nat (length m))).
Proof.
  intros Hh Hm Ht Hlen. apply (cooked_sends h 0 (Z.of_nat (length m)) _ (fun c => snd (encodePackedASCII (m ++ tail) c))); [done | done | done|].
  unfold decompress_cooked, decompress_packed. cbn [Z.eqb]. rewrite Nat2Z.id.
  apply (Sends_ext (fun c => snd (encodePackedASCII m c))); [intros c; by rewrite encodePackedASCII_terminated|].
  exact (Sends_map _ (fun m' => Some (m', Z.of_nat (length m))) _ _ _ (packedASCII_sends m Hm)).
Qed.

(** the cost of the non-alphabetic characters, in one statement *)
Lemma nonalpha_sends m : utf16_text m -> Z.of_nat (length m) <= 1024 -> MemoryOk M ->
  let found := nonAlphaChars 0 m in
  let count := Z.of_nat (length found) in
  Sends (78 + 156 * Z.of_nat (length m)) (encodeNonAlpha m) (decodeNonAlpha (garbage 1024) (Z.of_nat (length m)))
    (blend (map fst found) (garbage 1024) count (-1) count, map snd found, count).
Proof.
  intros Hm Hlen HM found count. pose proof (garbage_length 1024 ltac:(lia)) as Hg.
  split; [lia|]. split; [apply nonalpha_codes; lia | apply nonalpha_fits; lia].
Qed.

(** the characters put back *)
Lemma decompress_finish_spec m : utf16_text m -> MemoryOk M -> Z.of_nat (length m) <= 1024 ->
  Z.of_nat (length (utf8 m)) <= 1024 ->
  let found := nonAlphaChars 0 m in
  let count := Z.of_nat (length found) in
  decompress_finish (Z.of_nat (length m)) (blend (map fst found) (garbage 1024) count (-1) count) (map snd found) count
    (Some (mungeCase (stripNonAlpha m))) = Some (utf8 m, Z.of_nat (length (utf8 m))).
Proof.
  intros Hm HM Hlen Hutf found count. unfold decompress_finish. rewrite mungeCase_involutive.
  pose proof (length_nonAlphaChars 0 m) as Hl. fold found in Hl. pose proof (garbage_length 1024 ltac:(lia)) as Hg.
  replace (Z.to_nat (Z.of_nat (length m) - count + count)) with (length m) by lia.
  rewrite (reintegrate_spec _ _ _ _ m Hm 0 0 0); try lia.
  - pose proof (utf16toutf8_utf8 m Hm) as HU. destruct (Z.leb_spec (Z.of_nat (length (utf8 m))) 1024); [|lia]. by rewrite HU.
  - unfold count, found. lia.
  - fold found. intros k Hk. rewrite Z.add_0_l. split.
    + rewrite rd_blend by lia. destruct (Z.ltb_spec (-1) (Z.of_nat k)), (Z.ltb_spec (Z.of_nat k) count); cbn [andb]; try lia.
      by rewrite rd_of_nat, nth_fst.
    + rewrite rd_of_nat. exact (map_nth snd found (0, 0) k).
  - intros k Hk. by rewrite Z.add_0_l, rd_of_nat.
Qed.

Lemma length_utf8 m : (length m <= length (utf8 m))%nat.
Proof.
  induction m as [|c m IH]; [done|]. change (utf8 (c :: m)) with (utf8_char c ++ utf8 m). rewrite length_app.
  unfold utf8_char. destruct (c <? 0x80), (c <? 0x800); cbn [length]; lia.
Qed.

(** the pages of statistics that a text needs *)
Definition pages_for (h : stats_handle) (m : list Z) : Prop := Forall (fun t => 0x80 <= t -> page_good (page_of h) (t / 0x80)) m.
Lemma pages_lcalpha h m : utf16_text m -> pages_for h m -> pages_ok (page_of h) (stripCase (stripNonAlpha m)).
Proof.
  intros Hm Hp. unfold pages_ok, stripCase. apply Forall_map. apply List.Forall_forall. intros x Hx. apply List.filter_In in Hx as [Hin _].
  unfold pages_for in Hp. rewrite List.Forall_forall in Hp. specialize (Hp x Hin). unfold utf16_text in Hm. rewrite List.Forall_forall in Hm. specialize (Hm x Hin). cbv beta in *.
  unfold is_unicode, tolower, isupper. destruct (Z.ltb_spec x 0x80).
  - intros Hu. exfalso. destruct (Z.leb_spec 65 x), (Z.leb_spec x 90); cbn [andb] in Hu; b2p; destruct Hu; b2p; lia.
  - auto.
Qed.
Lemma model1_sends h m tail : stats_ok h -> MemoryOk M -> utf16_text m -> pages_for h m ->
  codable (messagelengths h) 1024 (Z.of_nat (length m)) -> Z.of_nat (length (utf8 m)) <= 1024 ->
  Sends (234 + 312 * Z.of_nat (length m)) (fun c => snd (stats3_compress_model1_append h (utf8 m ++ tail) (Z.of_nat (length (utf8 m))) c))
    (stats3_decompress_bits h) (Some (utf8 m, Z.of_nat (length (utf8 m)))).
Proof.
  intros Hh HM Hm Hpages Hcod Hutf. pose proof (length_utf8 m) as Hlu.
  unfold stats3_compress_model1_append. rewrite (utf8toutf16_utf8 m tail Hm). change (nz 0) with false. cbn iota.
  set (alpha := stripNonAlpha m). set (lc := stripCase alpha). set (n := Z.of_nat (length m)) in *.
  pose proof (nonAlphaChars_alpha 0 m Hm) as Hsplit. fold alpha in Hsplit.
  assert (length lc = length alpha) as Hlc by apply length_map.
  pose proof (nonalpha_sends m Hm ltac:(lia) HM) as S1. cbv zeta in S1.
  set (found := nonAlphaChars 0 m) in *. set (count := Z.of_nat (length found)) in *.
  pose proof (@LCAlphaSpace_sends (vector_of h) (page_of h) (vector_of_model h (so_tree h Hh))
                lc (lcalpha_text m Hm) (pages_lcalpha h m Hm Hpages)) as S2.
  assert (Forall (fun ch => 0 <= ch) (mungeCase alpha)) as Hpos.
  { apply List.Forall_forall. intros x Hx. apply (In_nth _ _ 0) in Hx as (k & Hk & <-).
    pose proof (mungeCase_same alpha (Z.of_nat k)) as Hs. rewrite !rd_of_nat in Hs.
    rewrite length_mungeCase in Hk. destruct Hs as [-> | [[-> _] | [-> _]]]; [|lia|lia].
    assert (In (nth k alpha 0) alpha) as Hin by (by apply nth_In). apply List.filter_In in Hin as [Hin _].
    unfold utf16_text in Hm. rewrite List.Forall_forall in Hm. specialize (Hm _ Hin). cbv beta in Hm. lia. }
  pose proof (CaseModel1_sends h (mungeCase alpha) (so_case h Hh) Hpos) as S3. rewrite length_mungeCase, stripCase_munge in S3. fold lc in S3.
  pose proof (Sends_map _ (decompress_finish n (blend (map fst found) (garbage 1024) count (-1) count) (map snd found) count) _ _ _ S3) as S3'.
  pose proof (decompress_finish_spec m Hm HM ltac:(lia) Hutf) as Hfin. cbv zeta in Hfin.
  fold n found count alpha in Hfin. rewrite Hfin in S3'.
  apply (Sends_mono (156 + (78 + 156 * n + (130 * Z.of_nat (length lc) + 26 * Z.of_nat (length alpha))))); [lia|].
  cbn [snd]. apply (cooked_sends h 1 n _ (fun c => encodeCaseModel1 h (mungeCase alpha)
     (encodeLCAlphaSpace (vector_of h) (page_of h) lc (encodeNonAlpha m c)))); [exact Hh | lia | exact Hcod|].
  unfold decompress_cooked, decompress_model1. cbn [Z.eqb].
  apply (Sends_bind _ _ _ (fun c => encodeCaseModel1 h (mungeCase alpha) (encodeLCAlphaSpace (vector_of h) (page_of h) lc c))
    _ (decompress_text h n) _ _ S1).
  unfold decompress_text.
  replace (n - count) with (Z.of_nat (length lc)) by lia.
  exact (Sends_bind _ _ _ (encodeCaseModel1 h (mungeCase alpha)) _ (fun lower c => let '(cased, c) := decodeCaseModel1 h (snd lower) c in
    (decompress_finish n (blend (map fst found) (garbage 1024) count (-1) count) (map snd found) count cased, c)) _ _ S2 S3').
Qed.

(** ** The choice of the form *)
Lemma within_model1 len h m n c : within len c -> within len (snd (stats3_compress_model1_append h m n c)).
Proof.
  intros H. unfold stats3_compress_model1_append. destruct (utf8toutf16 m n) as [r utf16]. destruct (nz r); [done|]. cbn [snd].
  apply within_CaseModel1, within_LCAlphaSpace, within_nonalpha. auto 10 with succinct.
Qed.

Lemma garbage_fresh n : MemoryOk M -> 0 <= n < 2 ^ 28 -> fresh (range_new_coder (garbage n) n).
Proof. intros HM Hn. apply range_new_coder_fresh; [done | apply garbage_length; lia]. Qed.

Lemma fresh_within c : fresh c -> within (bit_stream_length c) c.
Proof. intros []. split; [done|]. split; [lia | done]. Qed.

Lemma model1_trial_bound h m len : MemoryOk M -> model1_trial h m len <= 8192.
Proof.
  intros HM. unfold model1_trial. pose proof (fresh_within _ (garbage_fresh 1024 HM ltac:(lia))) as H.
  pose proof (within_conclude _ _ (within_model1 _ h m len _ H)) as (_ & Hb & _). change (bit_stream_length _) with 8192 in Hb. lia.
Qed.

Lemma compress_append_choice h m len c : MemoryOk M ->
  stats3_compress_append h m len c =
  if model1_trial h m len <? radix_trial h m len then stats3_compress_model1_append h m len c
  else stats3_compress_radix_append h m len c.
Proof.
  intros HM. pose proof (model1_trial_bound h m len HM). unfold stats3_compress_append.
  destruct (Z.ltb_spec (model1_trial h m len) (radix_trial h m len)), (Z.ltb_spec (model1_trial h m len) 999999); cbn [andb]; try lia; try done.
  destruct (Z.ltb_spec (radix_trial h m len) 999999); [done | lia].
Qed.

(** the code of the radix form says whether the message is printable *)
Lemma radix_code h m tail len c : Forall (fun x => 0 < x < 256) m -> terminates tail ->
  fst (stats3_compress_radix_append h (m ++ tail) len c) = if decide (printable m) then 0 else -1.
Proof. intros Hm Ht. unfold stats3_compress_radix_append. rewrite encodePackedASCII_terminated by done. by apply encodePackedASCII_code. Qed.

Lemma radix_trial_printable h m tail len : Forall (fun x => 0 < x < 256) m -> terminates tail -> radix_trial h (m ++ tail) len < 999999 -> printable m.
Proof.
  intros Hm Ht. unfold radix_trial. pose proof (radix_code h m tail len (range_new_coder (garbage 1024) 1024) Hm Ht) as Hr.
  destruct (stats3_compress_radix_append h (m ++ tail) len _) as [r t2]. cbn [fst] in Hr. subst r.
  destruct (decide (printable m)); [done|]. change (nz (-1)) with true. cbn iota. lia.
Qed.

(** ** Whole messages *)
Lemma utf8_bytes m : utf16_text m -> Forall (fun x => 0 <= x < 256) (utf8 m).
Proof.
  induction 1 as [|c m Hc Hm IH]; [constructor|]. change (utf8 (c :: m)) with (utf8_char c ++ utf8 m).
  apply Forall_app. split; [|done]. unfold utf8_char.
  destruct (Z.ltb_spec c 0x80); [|destruct (Z.ltb_spec c 0x800)]; repeat constructor; divmod.
Qed.

Lemma printable_ascii x : 0 < x < 256 -> 0 <= printableCharIdx x -> x < 0x80.
Proof.
  intros Hx Hi. pose proof (byte_cases (fun x => (printableCharIdx x <? 0) || (x <? 0x80)) ltac:(vm_compute; reflexivity) x ltac:(lia)) as H.
  cbv beta in H. apply orb_true_iff in H as [H|H]; b2p; lia.
Qed.

Lemma utf8_ascii m : utf16_text m -> printable (utf8 m) -> utf8 m = m.
Proof.
  induction 1 as [|c m Hc Hm IH]; [done|]. change (utf8 (c :: m)) with (utf8_char c ++ utf8 m). intros HP.
  apply Forall_app in HP as [H1 H2]. rewrite IH by done. unfold utf8_char in *.
  destruct (Z.ltb_spec c 0x80); [done|].
  destruct (Z.ltb_spec c 0x800); inversion H1 as [|? ? [Hb Hi] _]; subst; pose proof (printable_ascii _ Hb Hi); divmod.
Qed.

(** A message the layer takes: UTF-8 text of the basic plane without a null that fits
    its buffers, of a length that has a code, with statistics for the pages of its
    characters.  Those of 0 to 0x7f need no page, and so no file. *)
Definition message (h : stats_handle) (m : list Z) : Prop :=
  exists m16, utf16_text m16 /\ m = utf8 m16 /\ (0 ∉ m) /\ Z.of_nat (length m) <= 1024 /\
    codable (messagelengths h) 1024 (Z.of_nat (length m16)) /\ pages_for h m16.
Lemma positive_bytes m : Forall (fun x => 0 <= x < 256) m -> (0 ∉ m) -> Forall (fun x => 0 < x < 256) m.
Proof.
  intros Hm H0. apply List.Forall_forall. intros x Hx. rewrite List.Forall_forall in Hm. specialize (Hm x Hx).
  assert (x <> 0) by (intros ->; by apply H0, list_elem_of_In). lia.
Qed.

Lemma utf8_seven_bits m : Forall (fun x => 0 <= x < 0x80) m -> utf8 m = m.
Proof.
  induction 1 as [|x l Hx Hl IH]; [done|]. change (utf8 (x :: l)) with (utf8_char x ++ utf8 l). rewrite IH.
  unfold utf8_char. destruct (Z.ltb_spec x 0x80); [done | lia].
Qed.
Definition ascii_messageb (h : stats_handle) (m : list Z) : bool :=
  let n := Z.of_nat (length m) in
  forallb (fun x => (0 <? x) && (x <? 0x80)) m && (n <? 1024) && (sym_low (messagelengths h) n <? sym_high (messagelengths h) 1024 n).
Lemma ascii_message h m : ascii_messageb h m = true -> message h m.
Proof.
  unfold ascii_messageb. cbv zeta. intros H. b2p. assert (Forall (fun x => 0 < x < 0x80) m) as Ha.
  { apply List.Forall_forall. intros x Hx. match goal with Hf : forallb _ m = true |- _ => rewrite forallb_forall in Hf; apply Hf in Hx end. b2p. lia. }
  assert (Forall (fun x => 0 <= x < 0x80) m) as Ha' by (eapply Forall_impl; [|exact Ha]; cbv beta; lia).
  exists m. split; [eapply Forall_impl; [|exact Ha]; cbv beta; lia|]. split; [by rewrite utf8_seven_bits|]. split; [|split; [lia|split; [split; [lia | done]|]]].
  - intros Hin%list_elem_of_In. rewrite List.Forall_forall in Ha. specialize (Ha 0 Hin). cbv beta in Ha. lia.
  - eapply Forall_impl; [|exact Ha]. cbv beta. lia.
Qed.

(** both forms decode to the message *)
Lemma compress_append_codes h m tail : stats_ok h -> MemoryOk M -> message h m -> terminates tail -> let len := Z.of_nat (length m) in
  (forall c, fst (stats3_compress_append h (m ++ tail) len c) = 0) /\
  Codes (fun c => snd (stats3_compress_append h (m ++ tail) len c)) (stats3_decompress_bits h) (Some (m, len)).
Proof.
  intros Hh HM (m16 & Hm & -> & H0 & Hlen & Hcod & Hpages) Ht len.
  destruct (Z.ltb (model1_trial h (utf8 m16 ++ tail) len) (radix_trial h (utf8 m16 ++ tail) len)) eqn:E.
  - destruct (model1_sends h m16 tail Hh HM Hm Hpages Hcod Hlen) as (_ & HC & _). split.
    + intros c. rewrite compress_append_choice, E by done. unfold stats3_compress_model1_append, len. by rewrite (utf8toutf16_utf8 m16 tail Hm).
    + eapply Codes_ext; [|reflexivity|exact HC]. intros c. by rewrite compress_append_choice, E.
  - pose proof (positive_bytes _ (utf8_bytes m16 Hm) H0) as Hbytes. pose proof (model1_trial_bound h (utf8 m16 ++ tail) len HM). b2p.
    assert (printable (utf8 m16)) as HP by (apply (radix_trial_printable h _ tail len); [done | done | lia]).
    assert ((model1_trial h (utf8 m16 ++ tail) len <? radix_trial h (utf8 m16 ++ tail) len) = false) as E' by (by apply Z.ltb_ge).
    assert (codable (messagelengths h) 1024 (Z.of_nat (length (utf8 m16)))) as Hcod' by (by rewrite (utf8_ascii m16 Hm HP)).
    destruct (radix_sends h (utf8 m16) tail Hh HP Ht Hcod') as (_ & HC & _). split.
    + intros c. rewrite compress_append_choice, E', radix_code by done. by rewrite decide_True.
    + eapply Codes_ext; [|reflexivity|exact HC]. intros c. by rewrite compress_append_choice, E'.
Qed.

Lemma rd_firstn l k i : 0 <= i < Z.of_nat k -> rd (firstn k l) i = rd l i.
Proof. intros. rewrite !rd_nth, !nth_lookup, lookup_take, decide_True by lia. done. Qed.

(** the bytes that are copied out carry the bits of the coder *)
Lemma bytes_carry e e' : extends e e' ->
  let outlen := Z.shiftr (bits_used e') 3 + (if nz (Z.land (bits_used e') 7) then 1 else 0) in
  let out := firstn (Z.to_nat outlen) (bit_stream e') in
  forall d tail, bit_stream d = out ++ tail -> bit_stream_length d = Z.of_nat (length out) * 8 -> carries e d.
Proof.
  intros [Hb Hl Hu Ho] outlen out d tail Hd Hdl. destruct Hb as [[B0 B1] B2 B3 B4].
  assert (bits_used e' <= 8 * outlen /\ outlen <= Z.of_nat (length (bit_stream e')) /\ 0 <= outlen) as (O1 & O2 & O3).
  { unfold outlen. rewrite land7, Z.shiftr_div_pow2 by lia. change (2 ^ 3) with 8. unfold nz.
    destruct (Z.eqb_spec (bits_used e' mod 8) 0); cbn [negb]; divmod. }
  assert (Z.of_nat (length out) = outlen) as Hlen by (unfold out; rewrite length_firstn; lia).
  split; [lia|]. intros i Hi. rewrite <- Ho by lia. unfold bitat. rewrite Hd.
  rewrite rd_app_l by divmod. unfold out. rewrite rd_firstn by divmod. done.
Qed.

Lemma compress_decompress h m tail : stats_ok h -> MemoryOk M -> message h m -> terminates tail ->
  let inlen := Z.of_nat (length m) in
  out_of_bits (snd (stats3_compress_bits h (m ++ tail) inlen (range_new_coder (garbage (inlen * 2)) (inlen * 2)))) = false ->
  exists out, stats3_compress h (m ++ tail) inlen = Some out /\ stats3_decompress h out = Some (m, inlen).
Proof.
  intros Hh HM Hmsg Ht inlen Hflag. destruct (compress_append_codes h m tail Hh HM Hmsg Ht) as [Hcode HC]. fold inlen in Hcode, HC.
  assert (inlen <= 1024) as Hlen by (destruct Hmsg as (? & _ & _ & _ & ? & _); done).
  unfold stats3_compress. set (c0 := range_new_coder (garbage (inlen * 2)) (inlen * 2)) in *.
  pose proof (garbage_fresh (inlen * 2) HM ltac:(lia)) as Hfresh. fold c0 in Hfresh.
  unfold stats3_compress_bits in *. specialize (Hcode c0). pose proof (codes_run _ _ _ HC c0) as Hrun. cbv beta in Hrun.
  pose proof (cd_ok _ _ _ HC c0 (fresh_ok _ Hfresh)) as Hok. cbv beta in Hok.
  destruct (stats3_compress_append h (m ++ tail) inlen c0) as [r c1]. cbn [fst snd] in *. subst r. change (nz 0) with false in *. cbn iota in *. cbn [snd] in *.
  assert (out_of_bits c1 = false) as Hf1.
  { destruct (out_of_bits c1) eqn:E; [|done]. by rewrite <- Hflag, <- (flag_conclude _ E). }
  destruct (range_conclude_law c1 (Hok Hf1) Hflag) as [Hcc _].
  pose proof (range_conclude_extends (snd (range_conclude c1)) (cc_buffer _ _ Hcc)) as Hext.
  eexists. split; [reflexivity|]. unfold stats3_decompress, stats3_decoder.
  apply Hrun; [exact Hfresh | exact Hflag | | done | done].
  eapply bytes_carry; [exact Hext | reflexivity | reflexivity].
Qed.

(** ** The raw form *)
Lemma raw_tail_sends l : Forall (fun x => 0 < x < 255) l -> forall last fuel, last <> 0 -> (length l < fuel)%nat ->
  Sends (52 * (1 + Z.of_nat (length l))) (fun c => snd (range_encode_equiprobable (encode_raw l c) 256 255))
    (decode_raw fuel last) l.
Proof.
  induction 1 as [|x l Hx Hl IH]; intros last fuel Hlast Hf; (destruct fuel as [|fuel]; [lia|]);
    cbn [decode_raw encode_raw length]; unfold nz; (destruct (Z.eqb_spec last 0); [done|]); cbn [negb].
  - apply (Sends_mono (52 + 0)); [lia|].
    exact (equiprobable_step 256 255 0 (fun c => c) (fun r c => if (r =? -1) || (r =? 0xff) then ([], c)
       else let '(m, c) := decode_raw fuel (u8 r) c in (u8 r :: m, c)) [] ltac:(done) ltac:(done) (Sends_ret [])).
  - apply (Sends_mono (52 + 52 * (1 + Z.of_nat (length l)))); [lia|].
    apply (equiprobable_step 256 x (52 * (1 + Z.of_nat (length l))) (fun c => snd (range_encode_equiprobable (encode_raw l c) 256 255))
      (fun r c => if (r =? -1) || (r =? 0xff) then ([], c)
       else let '(m, c) := decode_raw fuel (u8 r) c in (u8 r :: m, c))); [done | lia|].
    destruct (Z.eqb_spec x (-1)), (Z.eqb_spec x 0xff); try lia. cbn [orb].
    rewrite u8_small by lia. apply (Sends_map _ (cons x)). apply IH; [lia|]. cbn [length] in Hf. lia.
Qed.

(** the three parts of the first byte *)
Lemma first_byte_parts x : 0 <= x < 256 ->
  0 <= Z.shiftr (Z.land x 0x80) 7 < 2 /\ 0 <= Z.shiftr (Z.land x 0x40) 6 < 2 /\ 0 <= Z.land x 0x3f < 64 /\
  u8 (Z.lor (Z.lor (Z.land x 0x3f) (Z.shiftl (Z.shiftr (Z.land x 0x40) 6) 6)) (Z.shiftl (Z.shiftr (Z.land x 0x80) 7) 7)) = x.
Proof.
  intros Hx. pose proof (byte_cases (fun x =>
    (0 <=? Z.shiftr (Z.land x 0x80) 7) && (Z.shiftr (Z.land x 0x80) 7 <? 2) &&
    (0 <=? Z.shiftr (Z.land x 0x40) 6) && (Z.shiftr (Z.land x 0x40) 6 <? 2) &&
    (0 <=? Z.land x 0x3f) && (Z.land x 0x3f <? 64) &&
    (u8 (Z.lor (Z.lor (Z.land x 0x3f) (Z.shiftl (Z.shiftr (Z.land x 0x40) 6) 6)) (Z.shiftl (Z.shiftr (Z.land x 0x80) 7) 7)) =? x))
    ltac:(vm_compute; reflexivity) x Hx) as H. cbv beta in H. b2p. done.
Qed.

Lemma raw_sends h x l : 0 < x < 0x80 \/ 0xc0 <= x < 256 -> Forall (fun x => 0 < x < 255) l -> (length l < 2047)%nat ->
  Sends (208 + 52 * Z.of_nat (length l)) (fun c => snd (stats3_compress_uncompressed_append (x :: l) (Z.of_nat (length (x :: l))) c))
    (stats3_decompress_bits h) (Some (x :: l, Z.of_nat (length l))).
Proof.
  intros Hx Hl Hlen. destruct (first_byte_parts x ltac:(lia)) as (P7 & P6 & P5 & Px).
  apply (Sends_mono (52 + (52 + (52 + 52 * (1 + Z.of_nat (length l)))))); [lia|].
  unfold stats3_compress_uncompressed_append, stats3_decompress_bits. cbn [tl snd]. rewrite rd_cons_0.
  replace (Z.to_nat (Z.of_nat (length (x :: l)) - 1)) with (length l) by (cbn [length]; lia). rewrite firstn_all.
  set (b7 := Z.shiftr (Z.land x 0x80) 7) in *. set (b6 := Z.shiftr (Z.land x 0x40) 6) in *. set (b5 := Z.land x 0x3f) in *.
  assert (nz b7 && negb (nz b6) = false) as Hraw.
  { pose proof (byte_cases (fun x => (0x80 <=? x) && (x <? 0xc0) || negb (nz (Z.shiftr (Z.land x 0x80) 7) && negb (nz (Z.shiftr (Z.land x 0x40) 6))))
      ltac:(vm_compute; reflexivity) x ltac:(lia)) as HB. cbv beta in HB. fold b7 b6 in HB.
    apply orb_true_iff in HB as [HB|HB]; [b2p; lia | by apply negb_true_iff]. }
  set (tail := fun c => snd (range_encode_equiprobable (encode_raw l c) 256 255)).
  set (tail1 := fun c => tail (snd (range_encode_equiprobable c 64 b5))).
  set (tail2 := fun c => tail1 (snd (range_encode_equiprobable c 2 b6))).
  apply (equiprobable_step 2 b7 (52 + (52 + 52 * (1 + Z.of_nat (length l)))) tail2
    (fun b7 c => let '(b6, c) := range_decode_equiprobable c 2 in
       if nz b7 && negb (nz b6) then
         let '(notPackedASCII, c) := range_decode_symbol c [probPackedASCII] 2 in
         let '(encodedLength, c) := range_decode_symbol c (messagelengths h) 1024 in
         decompress_cooked h notPackedASCII encodedLength c
       else decompress_raw b7 b6 c)); [done | done|].
  apply (equiprobable_step 2 b6 (52 + 52 * (1 + Z.of_nat (length l))) tail1
    (fun b6 c => if nz b7 && negb (nz b6) then
         let '(notPackedASCII, c) := range_decode_symbol c [probPackedASCII] 2 in
         let '(encodedLength, c) := range_decode_symbol c (messagelengths h) 1024 in
         decompress_cooked h notPackedASCII encodedLength c
       else decompress_raw b7 b6 c)); [done | done|].
  rewrite Hraw. unfold decompress_raw.
  apply (equiprobable_step 64 b5 (52 * (1 + Z.of_nat (length l))) tail
    (fun b5to0 c => let first := u8 (Z.lor (Z.lor b5to0 (Z.shiftl b6 6)) (Z.shiftl b7 7)) in
       let '(m, c) := decode_raw 2047 first c in (Some (first :: m, 1 + Z.of_nat (length m) - 1), c))); [done | done|].
  cbv zeta. rewrite Px.
  pose proof (Sends_map _ (fun m => Some (x :: m, 1 + Z.of_nat (length m) - 1)) _ _ _ (raw_tail_sends l Hl x 2047 ltac:(lia) Hlen)) as HS.
  cbv beta in HS. replace (1 + Z.of_nat (length l) - 1) with (Z.of_nat (length l)) in HS by lia. exact HS.
Qed.

(** ** Properties *)

(** C2: A message that is UTF-8 text of the basic plane without a null, not longer than
    the buffers and of a length that the statistics can code, is given back
    unchanged by stats3_decompress from what stats3_compress made of it, whichever form
    was chosen and whatever is in memory behind its terminator.  This holds for the
    messages for which the encoder does not run out of its buffer of two bytes for each
    byte of the message. *)
Theorem smac_roundtrip h m beyond : stats_ok h -> MemoryOk M -> message h m ->
  let inlen := Z.of_nat (length m) in
  out_of_bits (snd (stats3_compress_bits h (m ++ 0 :: beyond) inlen (range_new_coder (garbage (inlen * 2)) (inlen * 2)))) = false ->
  exists out, stats3_compress h (m ++ 0 :: beyond) inlen = Some out /\ stats3_decompress h out = Some (m, inlen).
Proof. intros Hh HM Hm inlen Hf. by apply compress_decompress. Qed.

(** The text model is chosen when its trial is shorter than the trial of
    the packed form, and the packed form otherwise: the raw form never is. *)
Theorem smac_never_raw h m len c : MemoryOk M ->
  stats3_compress_append h m len c =
  if model1_trial h m len <? radix_trial h m len then stats3_compress_model1_append h m len c
  else stats3_compress_radix_append h m len c.
Proof. apply compress_append_choice. Qed.

(** Bytes that are not UTF-8 are refused: stats3_compress returns -1. *)
Theorem smac_rejects_bad_utf8 h m beyond : MemoryOk M -> Forall (fun x => 0 < x < 256) m -> let inlen := Z.of_nat (length m) in
  fst (utf8toutf16 (m ++ 0 :: beyond) inlen) <> 0 -> stats3_compress h (m ++ 0 :: beyond) inlen = None.
Proof.
  intros HM Hm inlen Hbad. assert (~ printable m) as Hnp.
  { intros HP. apply Hbad. assert (Forall (fun x => 0 <= x < 0x80) m) as Ha.
    { unfold printable in HP. eapply Forall_impl; [|exact HP]. intros x [Hx Hi]. pose proof (printable_ascii x Hx Hi). lia. }
    assert (utf16_text m) as Ht by (eapply Forall_impl; [|exact Ha]; cbv beta; intros; lia).
    pose proof (utf8toutf16_utf8 m (0 :: beyond) Ht) as Hu. rewrite (utf8_seven_bits m Ha) in Hu. unfold inlen. by rewrite Hu. }
  assert (forall c, fst (stats3_compress_append h (m ++ 0 :: beyond) inlen c) = -1) as Hcode.
  { intros c. rewrite compress_append_choice by done. destruct (_ <? _).
    - unfold stats3_compress_model1_append. destruct (utf8toutf16 (m ++ 0 :: beyond) inlen) as [r u]. cbn [fst] in Hbad. unfold nz.
      by destruct (Z.eqb_spec r 0).
    - rewrite radix_code by done. by rewrite decide_False. }
  unfold stats3_compress, stats3_compress_bits. specialize (Hcode (range_new_coder (garbage (inlen * 2)) (inlen * 2))).
  destruct (stats3_compress_append h (m ++ 0 :: beyond) inlen _) as [r c]. cbn [fst] in Hcode. subst r. done.
Qed.

(** A message in raw form, which the encoder ends with 0xff, is decoded
    with the right bytes and a length that is one too small. *)
Theorem raw_form_length_is_short h x l : 0 < x < 0x80 \/ 0xc0 <= x < 256 ->
  Forall (fun x => 0 < x < 255) l -> (length l < 2047)%nat ->
  Roundtrips (fun c => snd (stats3_compress_uncompressed_append (x :: l) (Z.of_nat (length (x :: l))) c)) (stats3_decompress_bits h)
    (Some (x :: l, Z.of_nat (length (x :: l)) - 1)).
Proof.
  intros Hx Hl Hlen. replace (Z.of_nat (length (x :: l)) - 1) with (Z.of_nat (length l)) by (cbn [length]; lia).
  by eapply sends_run, raw_sends.
Qed.
End Smac.

(** ** A small statistics handle, on which the properties are evaluated *)
#[local] Existing Instances sample_memory sample_memory_ok.

(** one context with no counts; every case as likely as the other one; lengths
    up to 1023; no page of unicode statistics of its own *)
Definition sample_stats : stats_handle :=
  StatsHandle (Some (repeat 0 (Z.to_nat 8192))) [] 0 1 0 1 1 0x800000 [0x800000; 0x800000] [[0x800000; 0x800000]; [0x800000; 0x800000]]
    (repeat 0x800000 80) [repeat 0x800000 80; repeat 0x800000 80]
    (tabulate 1024 (fun i => (i + 1) * 16000))
    (Some (Node 0 (repeat 0 65) [])).

Lemma sample_stats_ok : stats_ok sample_stats.
Proof.
  split.
  - exists (Node 0 (repeat 0 65) []). split; [reflexivity | vm_compute; reflexivity].
  - assert (forall i, 0 <= i < 80 -> rd (repeat 0x800000 80) i = 0x800000) as Hrep.
    { intros i Hi. rewrite rd_nth by lia. apply nth_repeat_lt. lia. }
    split; unfold probability; cbn [sample_stats casestartofmessage casestartofword2 casestartofword3 caseposn1 caseposn2].
    + lia.
    + intros i Hi. assert (i = 0 \/ i = 1) as [-> | ->] by lia; vm_compute; split; congruence.
    + intros i j Hi Hj. assert (i = 0 \/ i = 1) as [-> | ->] by lia; assert (j = 0 \/ j = 1) as [-> | ->] by lia; vm_compute; split; congruence.
    + rewrite Hrep by lia. lia.
    + intros i j Hi Hj. unfold rd2. assert (i = 0 \/ i = 1) as [-> | ->] by lia; cbn [Z.ltb Z.compare nth Z.to_nat Pos.to_nat Pos.iter_op]; rewrite Hrep; lia.
  - apply cumulativeb_spec. vm_compute. reflexivity.
Qed.

(** "Caf", e acute, " i", a bell, "\n42" *)
Definition sample_message : list Z := [67; 97; 102; 0xc3; 0xa9; 32; 105; 7; 10; 52; 50].

Lemma sample_message_ok : message sample_stats sample_message.
Proof.
  exists [67; 97; 102; 0xe9; 32; 105; 7; 10; 52; 50].
  assert (page_good (page_of sample_stats) 1) as Hpage.
  { eexists. split; [vm_compute; reflexivity|]. apply table_okb_spec. vm_compute. reflexivity. }
  split; [|split; [reflexivity|split; [|split; [vm_compute; congruence|split]]]].
  - unfold utf16_text. repeat (constructor; [lia|]). constructor.
  - by apply (bool_decide_unpack _).
  - split; [vm_compute; split; congruence | vm_compute; reflexivity].
  - repeat (apply List.Forall_cons; [first [intros _; exact Hpage | lia]|]). apply List.Forall_nil.
Qed.

Lemma smac_roundtrip_witness :
  exists out, stats3_compress sample_stats (sample_message ++ [0; 1; 2]) 11 = Some out /\
    stats3_decompress sample_stats out = Some (sample_message, 11).
Proof.
  apply (smac_roundtrip sample_stats sample_message [1; 2] sample_stats_ok sample_memory_ok sample_message_ok).
  vm_compute. reflexivity.
Defined.

(** a null in the message: the packed form announces the length that is given, and sends
    what is before the null *)
Example inner_null : stats3_compress_radix_append sample_stats [97; 0; 98] 3 = stats3_compress_radix_append sample_stats [97] 3.
Proof. reflexivity. Qed.

Definition sample_target : range_coder := range_new_coder (garbage 22) 22.

Lemma smac_never_raw_witness :
  stats3_compress_append sample_stats sample_message 11 sample_target =
  if model1_trial sample_stats sample_message 11 <? radix_trial sample_stats sample_message 11
  then stats3_compress_model1_append sample_stats sample_message 11 sample_target
  else stats3_compress_radix_append sample_stats sample_message 11 sample_target.
Proof. exact (smac_never_raw sample_stats sample_message 11 sample_target sample_memory_ok). Defined.

Lemma smac_rejects_bad_utf8_witness : stats3_compress sample_stats [72; 0x80; 105; 0] 3 = None.
Proof.
  apply (smac_rejects_bad_utf8 sample_stats [72; 0x80; 105] [] sample_memory_ok).
  - repeat (constructor; [lia|]). constructor.
  - vm_compute. discriminate.
Defined.

Lemma raw_form_length_is_short_witness :
  fst (stats3_decompress_bits sample_stats (range_decode_prefetch (read_back
    (snd (range_conclude (snd (stats3_compress_uncompressed_append [104; 105] 2 sample_target))))))) = Some ([104; 105], 1).
Proof.
  assert (Forall (fun x => 0 < x < 255) [105]) as Hl by (constructor; [lia | constructor]).
  exact (Roundtrips_read_back _ _ _ sample_target
    (raw_form_length_is_short sample_stats 104 [105] ltac:(left; lia) Hl ltac:(simpl; lia))
    (garbage_fresh 22 sample_memory_ok ltac:(lia)) ltac:(vm_compute; reflexivity) ltac:(vm_compute; reflexivity)).
Defined.
