(* ===== verification/BlockHash.v ===== *)
(** What SHA-256 and MD5 share: a hash that pads the message, cuts it into
    blocks of 64 bytes and folds a compression function over them, and the
    buffer of an incremental interface. *)
From S2P Require Import Prelude.
Local Open Scope Z_scope.

(** A hash of blocks of 64 bytes: the compression function, the first state, the
    eight bytes of the length at the end of the padding, and the digest of the
    last state. *)
Class BlockHash := {
  compress : list Z -> list Z -> list Z;
  initial_state : list Z;
  length_bytes : Z -> list Z;
  digest_of : list Z -> list Z
}.
Class BlockHashLaws (H : BlockHash) : Prop := {
  compress_take h msg : (64 <= length msg)%nat -> compress h (take 64 msg) = compress h msg;
  length_length_bytes n : length (length_bytes n) = 8%nat
}.

(** stores [data] from index [i] on, one element at a time: memcpy *)
Fixpoint copy_into (dst : list Z) (i : Z) (data : list Z) : list Z :=
  match data with
  | [] => dst
  | x :: data => copy_into (wr dst i x) (i + 1) data
  end.

Definition upto (n : nat) : list Z := map Z.of_nat (seq 0 n).

Lemma upto_succ n : upto (S n) = upto n ++ [Z.of_nat n].
Proof. unfold upto. by rewrite seq_S, map_app. Qed.

Lemma fold_left_mapped {A B C} (f : A -> B -> A) (g : C -> B) l a :
  fold_left f (map g l) a = fold_left (fun a x => f a (g x)) l a.
Proof. revert a. induction l as [|x l IH]; intros a; [done | apply IH]. Qed.

(** ** Arrays that are written in pieces *)
Lemma copy_into_spec data pre mid post : length mid = length data ->
  copy_into (pre ++ mid ++ post) (Z.of_nat (length pre)) data = pre ++ data ++ post.
Proof.
  revert pre mid. induction data as [|x data IH]; intros pre mid Hlen; destruct mid as [|m mid]; try done.
  cbn [copy_into]. rewrite <- (Z.add_0_r (Z.of_nat (length pre))) at 1. rewrite wr_app_r by lia.
  change (wr ((m :: mid) ++ post) 0 x) with ([x] ++ mid ++ post). rewrite (app_assoc pre [x]).
  replace (Z.of_nat (length pre) + 1) with (Z.of_nat (length (pre ++ [x]))) by (rewrite length_app; cbn; lia).
  rewrite IH by (cbn in Hlen; lia). by rewrite <- app_assoc.
Qed.

Lemma copy_into_split dst (i : nat) data : (i + length data <= length dst)%nat ->
  copy_into dst (Z.of_nat i) data = take i dst ++ data ++ drop (i + length data) dst.
Proof.
  intros Hlen.
  assert (dst = take i dst ++ take (length data) (drop i dst) ++ drop (i + length data) dst) as E.
  { by rewrite <- drop_drop, !take_drop. }
  rewrite E at 1. pose proof (copy_into_spec data (take i dst) (take (length data) (drop i dst))
    (drop (i + length data) dst) ltac:(rewrite length_take, length_drop; lia)) as H.
  rewrite length_take, Nat.min_l in H by lia. exact H.
Qed.

Lemma length_copy_into dst i data : length (copy_into dst i data) = length dst.
Proof. revert dst i. induction data as [|x data IH]; intros; cbn [copy_into]; [done|]. by rewrite IH, length_wr. Qed.

Section Hash.
Context `{Laws : BlockHashLaws}.

(** ** The reference *)
Fixpoint compress_blocks (n : nat) (h msg : list Z) : list Z :=
  match n with
  | O => h
  | S n => compress_blocks n (compress h (take 64 msg)) (drop 64 msg)
  end.

(** 0x80, zeros up to 8 bytes before the end of a block, the length in bits *)
Definition padding (len : nat) : list Z :=
  0x80 :: repeat 0 (Z.to_nat ((55 - Z.of_nat len) mod 64)) ++ length_bytes (u64 (8 * Z.of_nat len)).
Definition final_state (msg : list Z) : list Z :=
  let padded := msg ++ padding (length msg) in compress_blocks (length padded / 64) initial_state padded.
Definition digest (msg : list Z) : list Z := digest_of (final_state msg).

Lemma compress_blocks_keeps (P : list Z -> Prop) n : (forall h blk, P h -> P (compress h blk)) -> forall h msg, P h -> P (compress_blocks n h msg).
Proof. intros Hk. induction n as [|n IH]; intros h msg Hh; [done|]. apply IH, Hk, Hh. Qed.
Lemma compress_blocks_add a b h msg :
  compress_blocks (a + b) h msg = compress_blocks b (compress_blocks a h msg) (drop (64 * a) msg).
Proof.
  revert h msg. induction a as [|a IH]; intros h msg; cbn [compress_blocks Nat.add].
  { by rewrite Nat.mul_0_r, drop_0. }
  rewrite IH, drop_drop. do 2 f_equal. lia.
Qed.

Lemma compress_blocks_app n h msg more : (64 * n <= length msg)%nat ->
  compress_blocks n h (msg ++ more) = compress_blocks n h msg.
Proof.
  revert h msg. induction n as [|n IH]; intros h msg Hl; cbn [compress_blocks]; [done|].
  rewrite take_app_le, drop_app_le by lia. apply IH. rewrite length_drop. lia.
Qed.

(** ** What a state and a buffer stand for: the bytes given so far *)
Record absorbed (msg st buf : list Z) : Prop := {
  ab_state : st = compress_blocks (length msg / 64) initial_state msg;
  ab_buf : take (length msg mod 64) buf = drop (64 * (length msg / 64)) msg;
  ab_len : length buf = 64%nat
}.

Lemma absorbed_nil buf : length buf = 64%nat -> absorbed [] initial_state buf.
Proof. by split. Qed.

Lemma blocks_of (msg more : list Z) q r : length (msg ++ more) = (64 * q + r)%nat -> (r < 64)%nat ->
  (length (msg ++ more) / 64 = q /\ length (msg ++ more) mod 64 = r)%nat.
Proof.
  intros -> Hr. split; [symmetry; apply (Nat.div_unique _ 64 q r) | symmetry; apply (Nat.mod_unique _ 64 q)]; lia.
Qed.

(** the bytes fit in the buffer *)
Lemma absorb_short msg st buf inp : absorbed msg st buf -> (length msg mod 64 + length inp < 64)%nat ->
  absorbed (msg ++ inp) st (copy_into buf (Z.of_nat (length msg mod 64)) inp).
Proof.
  intros [Hst Hb Hl] Hs. pose proof (Nat.div_mod (length msg) 64 ltac:(lia)) as Em.
  destruct (blocks_of msg inp (length msg / 64) (length msg mod 64 + length inp)) as [Hq Hm]; [rewrite length_app; lia | done|].
  split; rewrite ?Hq, ?Hm; [by rewrite compress_blocks_app by lia | | by rewrite length_copy_into].
  rewrite copy_into_split, app_assoc, take_app_le, firstn_all2 by (rewrite ?length_app, ?length_take; lia).
  by rewrite Hb, drop_app_le by lia.
Qed.

(** the bytes fill the buffer, which is a block of the message *)
Lemma absorb_fill msg st buf inp : absorbed msg st buf -> (length msg mod 64 + length inp = 64)%nat ->
  let buf' := copy_into buf (Z.of_nat (length msg mod 64)) inp in absorbed (msg ++ inp) (compress st buf') buf'.
Proof.
  intros [Hst Hb Hl] Hs. cbv zeta. pose proof (Nat.div_mod (length msg) 64 ltac:(lia)) as Em.
  destruct (blocks_of msg inp (length msg / 64 + 1) 0) as [Hq Hm]; [rewrite length_app; lia | lia|].
  assert (copy_into buf (Z.of_nat (length msg mod 64)) inp = drop (64 * (length msg / 64)) msg ++ inp) as Hbuf.
  { rewrite copy_into_split, Hb, (drop_ge buf) by lia. by rewrite app_nil_r. }
  split; rewrite ?Hq, ?Hm; [| by rewrite drop_ge by (rewrite length_app; lia) | by rewrite length_copy_into].
  rewrite compress_blocks_add, drop_app_le, <- Hbuf by lia. cbn [compress_blocks].
  rewrite (firstn_all2 (copy_into _ _ _)) by (rewrite length_copy_into; lia). f_equal. by rewrite compress_blocks_app by lia.
Qed.

(** whole blocks, taken from the input *)
Lemma absorb_blocks n msg st buf inp : absorbed msg st buf -> (length msg mod 64 = 0)%nat -> (64 * n <= length inp)%nat ->
  absorbed (msg ++ take (64 * n) inp) (compress_blocks n st inp) buf.
Proof.
  intros [Hst Hb Hl] Hz Hn. pose proof (Nat.div_mod (length msg) 64 ltac:(lia)) as Em.
  destruct (blocks_of msg (take (64 * n) inp) (length msg / 64 + n) 0) as [Hq Hm];
    [rewrite length_app, length_take; lia | lia|].
  split; rewrite ?Hq, ?Hm; [| by rewrite drop_ge by (rewrite length_app, length_take; lia) | done].
  rewrite compress_blocks_add, drop_app_length' by lia. rewrite (compress_blocks_app (length msg / 64)), <- Hst by lia.
  rewrite <- (take_drop (64 * n) inp) at 1. apply compress_blocks_app. rewrite length_take. lia.
Qed.

(** any input: fill the buffer, whole blocks, the rest to the start of the buffer *)
Lemma absorb_long msg st buf inp : absorbed msg st buf -> (64 <= length msg mod 64 + length inp)%nat ->
  let k := (64 - length msg mod 64)%nat in
  let buf' := copy_into buf (Z.of_nat (length msg mod 64)) (take k inp) in
  let rest := drop k inp in
  let n := (length rest / 64)%nat in
  absorbed (msg ++ inp) (compress_blocks n (compress st buf') rest) (copy_into buf' 0 (drop (64 * n) rest)).
Proof.
  intros Ha Hlen. cbv zeta. pose proof (Nat.mod_upper_bound (length msg) 64 ltac:(lia)) as Hr.
  pose proof (Nat.div_mod (length msg) 64 ltac:(lia)) as Em. remember (64 - length msg mod 64)%nat as k eqn:Ek.
  assert (length (take k inp) = k) as Hk by (rewrite length_take; lia).
  assert (length (drop k inp) = length inp - k)%nat as Hdrop by apply length_drop.
  pose proof (Nat.div_mod (length (drop k inp)) 64 ltac:(lia)) as Er.
  pose proof (Nat.mod_upper_bound (length (drop k inp)) 64 ltac:(lia)) as Hr'.
  assert (Hf : absorbed (msg ++ take k inp) _ _) by (apply (absorb_fill _ _ _ _ Ha); lia).
  destruct (blocks_of msg (take k inp) (length msg / 64 + 1) 0) as [Hq Hm]; [rewrite length_app; lia | lia|].
  pose proof (absorb_blocks (length (drop k inp) / 64) _ _ _ (drop k inp) Hf Hm ltac:(lia)) as Hb.
  remember (length (drop k inp) / 64)%nat as n eqn:En.
  destruct (blocks_of (msg ++ take k inp) (take (64 * n) (drop k inp)) (length msg / 64 + 1 + n) 0) as [Hq' Hm'];
    [rewrite !length_app, Hk, length_take; lia | lia|].
  pose proof (absorb_short _ _ _ (drop (64 * n) (drop k inp)) Hb ltac:(rewrite Hm', length_drop; lia)) as Hs.
  rewrite Hm', <- !app_assoc, take_drop, take_drop in Hs. exact Hs.
Qed.

(** the end: the padding with the length *)
Lemma absorbed_final msg st buf : absorbed (msg ++ padding (length msg)) st buf -> st = final_state msg.
Proof. by intros [-> _ _]. Qed.

Lemma padding_short len : (len mod 64 < 56)%nat ->
  padding len = (0x80 :: repeat 0 (55 - len mod 64)) ++ length_bytes (u64 (8 * Z.of_nat len)).
Proof.
  intros Hr. unfold padding. pose proof (Nat.div_mod len 64 ltac:(lia)) as Em. cbn [app]. do 3 f_equal.
  rewrite <- (Z.mod_unique_pos (55 - Z.of_nat len) 64 (- Z.of_nat (len / 64)) (55 - Z.of_nat (len mod 64))); lia.
Qed.
Lemma padding_long len : (56 <= len mod 64)%nat ->
  padding len = (0x80 :: repeat 0 (63 - len mod 64)) ++ repeat 0 56 ++ length_bytes (u64 (8 * Z.of_nat len)).
Proof.
  intros Hr. unfold padding. pose proof (Nat.div_mod len 64 ltac:(lia)) as Em.
  pose proof (Nat.mod_upper_bound len 64 ltac:(lia)) as Hr'. cbn [app].
  rewrite (app_assoc (repeat 0 (63 - len mod 64))), <- repeat_app. do 3 f_equal.
  rewrite <- (Z.mod_unique_pos (55 - Z.of_nat len) 64 (- Z.of_nat (len / 64) - 1) (119 - Z.of_nat (len mod 64))); lia.
Qed.

(** the padding written into the buffer, in the two cases of the codes *)
Lemma absorb_padding_short msg st buf len8 : absorbed msg st buf -> (length msg mod 64 < 56)%nat ->
  len8 = length_bytes (u64 (8 * Z.of_nat (length msg))) ->
  let buf' := copy_into (copy_into buf (Z.of_nat (length msg mod 64)) (0x80 :: repeat 0 (55 - length msg mod 64))) 56 len8 in
  compress st buf' = final_state msg.
Proof.
  intros Ha Hr ->. cbv zeta. apply absorbed_final with (buf := copy_into (copy_into buf (Z.of_nat (length msg mod 64))
    (0x80 :: repeat 0 (55 - length msg mod 64))) 56 (length_bytes (u64 (8 * Z.of_nat (length msg))))).
  rewrite padding_short by done. pose proof (length_length_bytes (u64 (8 * Z.of_nat (length msg)))) as H8.
  set (pad := 0x80 :: repeat 0 (55 - length msg mod 64)).
  assert (length pad = 56 - length msg mod 64)%nat as Hp by (unfold pad; cbn [length]; rewrite repeat_length; lia).
  pose proof (absorb_short _ _ _ pad Ha ltac:(lia)) as Hs. pose proof (Nat.div_mod (length msg) 64 ltac:(lia)) as Em.
  destruct (blocks_of msg pad (length msg / 64) 56) as [Hq Hm]; [rewrite length_app; lia | lia|].
  pose proof (absorb_fill _ _ _ (length_bytes (u64 (8 * Z.of_nat (length msg)))) Hs ltac:(lia)) as Hf. cbv zeta in Hf.
  rewrite Hm, <- app_assoc in Hf. exact Hf.
Qed.

Lemma absorb_padding_long msg st buf len8 : absorbed msg st buf -> (56 <= length msg mod 64)%nat ->
  len8 = length_bytes (u64 (8 * Z.of_nat (length msg))) ->
  let buf1 := copy_into buf (Z.of_nat (length msg mod 64)) (0x80 :: repeat 0 (63 - length msg mod 64)) in
  let buf2 := copy_into (copy_into buf1 0 (repeat 0 56)) 56 len8 in
  compress (compress st buf1) buf2 = final_state msg.
Proof.
  intros Ha Hr ->. cbv zeta. eapply absorbed_final. rewrite padding_long by done.
  pose proof (length_length_bytes (u64 (8 * Z.of_nat (length msg)))) as H8.
  set (pad := 0x80 :: repeat 0 (63 - length msg mod 64)).
  pose proof (Nat.mod_upper_bound (length msg) 64 ltac:(lia)) as Hr'.
  assert (length pad = 64 - length msg mod 64)%nat as Hp by (unfold pad; cbn [length]; rewrite repeat_length; lia).
  pose proof (absorb_fill _ _ _ pad Ha ltac:(lia)) as H1. pose proof (Nat.div_mod (length msg) 64 ltac:(lia)) as Em.
  cbv zeta in H1. destruct (blocks_of msg pad (length msg / 64 + 1) 0) as [Hq Hm]; [rewrite length_app; lia | lia|].
  pose proof (absorb_short _ _ _ (repeat 0 56) H1 ltac:(rewrite repeat_length; lia)) as H2. rewrite Hm in H2.
  destruct (blocks_of (msg ++ pad) (repeat 0 56) (length msg / 64 + 1) 56) as [Hq2 Hm2];
    [rewrite !length_app, repeat_length; lia | lia|].
  pose proof (absorb_fill _ _ _ (length_bytes (u64 (8 * Z.of_nat (length msg)))) H2 ltac:(lia)) as H3. cbv zeta in H3.
  rewrite Hm2, <- !app_assoc in H3. exact H3.
Qed.
End Hash.
