(* ===== verification/Sha256.v ===== *)
(** hash.c: SHA-256, against a reference in the form of FIPS 180-4. *)
From S2P Require Import Prelude BlockHash.
Local Open Scope Z_scope.

(** ** hash.c *)
Definition rotr32 (x b : Z) : Z := Z.lor (Z.shiftr x b) (u32 (Z.shiftl x (32 - b))).

Definition load32_be (src : list Z) : Z :=
  Z.lor (Z.lor (Z.lor (rd src 3) (Z.shiftl (rd src 2) 8)) (Z.shiftl (rd src 1) 16)) (u32 (Z.shiftl (rd src 0) 24)).
Definition store32_be (w : Z) : list Z :=
  [u8 (Z.shiftr w 24); u8 (Z.shiftr w 16); u8 (Z.shiftr w 8); u8 w].
Definition store64_be (w : Z) : list Z :=
  [u8 (Z.shiftr w 56); u8 (Z.shiftr w 48); u8 (Z.shiftr w 40); u8 (Z.shiftr w 32);
   u8 (Z.shiftr w 24); u8 (Z.shiftr w 16); u8 (Z.shiftr w 8); u8 w].

Fixpoint be32dec (n : nat) (src : list Z) : list Z :=
  match n with
  | O => []
  | S n => load32_be src :: be32dec n (skipn 4 src)
  end.
(** [len / 4] words are stored at the start of [dst] *)
Definition be32dec_vect (dst src : list Z) (len : Z) : list Z :=
  copy_into dst 0 (be32dec (Z.to_nat (len / 4)) src).
Definition be32enc_vect (src : list Z) : list Z := flat_map store32_be src.

(** a row per line of the table *)
Definition Krnd : list Z := concat [
    [0x428a2f98; 0x71374491; 0xb5c0fbcf; 0xe9b5dba5; 0x3956c25b; 0x59f111f1];
    [0x923f82a4; 0xab1c5ed5; 0xd807aa98; 0x12835b01; 0x243185be; 0x550c7dc3];
    [0x72be5d74; 0x80deb1fe; 0x9bdc06a7; 0xc19bf174; 0xe49b69c1; 0xefbe4786];
    [0x0fc19dc6; 0x240ca1cc; 0x2de92c6f; 0x4a7484aa; 0x5cb0a9dc; 0x76f988da];
    [0x983e5152; 0xa831c66d; 0xb00327c8; 0xbf597fc7; 0xc6e00bf3; 0xd5a79147];
    [0x06ca6351; 0x14292967; 0x27b70a85; 0x2e1b2138; 0x4d2c6dfc; 0x53380d13];
    [0x650a7354; 0x766a0abb; 0x81c2c92e; 0x92722c85; 0xa2bfe8a1; 0xa81a664b];
    [0xc24b8b70; 0xc76c51a3; 0xd192e819; 0xd6990624; 0xf40e3585; 0x106aa070];
    [0x19a4c116; 0x1e376c08; 0x2748774c; 0x34b0bcb5; 0x391c0cb3; 0x4ed8aa4a];
    [0x5b9cca4f; 0x682e6ff3; 0x748f82ee; 0x78a5636f; 0x84c87814; 0x8cc70208];
    [0x90befffa; 0xa4506ceb; 0xbef9a3f7; 0xc67178f2]].

Definition Ch (x y z : Z) : Z := Z.lxor (Z.land x (Z.lxor y z)) z.
Definition Maj (x y z : Z) : Z := Z.lor (Z.land x (Z.lor y z)) (Z.land y z).
Definition SHR (x n : Z) : Z := Z.shiftr x n.
Definition S0 (x : Z) : Z := Z.lxor (Z.lxor (rotr32 x 2) (rotr32 x 13)) (rotr32 x 22).
Definition S1 (x : Z) : Z := Z.lxor (Z.lxor (rotr32 x 6) (rotr32 x 11)) (rotr32 x 25).
Definition s0 (x : Z) : Z := Z.lxor (Z.lxor (rotr32 x 7) (rotr32 x 18)) (SHR x 3).
Definition s1 (x : Z) : Z := Z.lxor (Z.lxor (rotr32 x 17) (rotr32 x 19)) (SHR x 10).

(** RND, on the elements of [S] at the eight indices *)
Definition RND (S : list Z) (a b c d e f g h : Z) (k : Z) : list Z :=
  let S := wr S h (u32 (rd S h + (S1 (rd S e) + Ch (rd S e) (rd S f) (rd S g) + k))) in
  let S := wr S d (u32 (rd S d + rd S h)) in
  wr S h (u32 (rd S h + (S0 (rd S a) + Maj (rd S a) (rd S b) (rd S c)))).

Definition RNDr (S W : list Z) (i ii : Z) : list Z :=
  RND S ((64 - i) mod 8) ((65 - i) mod 8) ((66 - i) mod 8) ((67 - i) mod 8)
        ((68 - i) mod 8) ((69 - i) mod 8) ((70 - i) mod 8) ((71 - i) mod 8)
        (u32 (rd W (i + ii) + rd Krnd (i + ii))).

Definition MSCH (W : list Z) (ii i : Z) : list Z :=
  wr W (i + ii + 16)
     (u32 (s1 (rd W (i + ii + 14)) + rd W (i + ii + 9) + s0 (rd W (i + ii + 1)) + rd W (i + ii))).

(** one turn of the loop of SHA256_Transform *)
Definition transform_turn (i : Z) (SW : list Z * list Z) : list Z * list Z :=
  let '(regs, W) := SW in
  let regs := fold_left (fun regs k => RNDr regs W k i) (upto 16) regs in
  if i =? 48 then (regs, W)
  else (regs, fold_left (fun W k => MSCH W k i) (upto 16) W).

(** [W] is what the work area holds before *)
Definition SHA256_Transform (state block W : list Z) : list Z * list Z :=
  let W := be32dec_vect W block 64 in
  let '(regs, W) := fold_left (fun SW i => transform_turn i SW) [0; 16; 32; 48] (state, W) in
  (map (fun '(x, y) => u32 (x + y)) (combine state regs), W).

Record sha256_state := Sha256State { state : list Z; count : Z; buf : list Z }.

Definition sha256_initial_state : list Z :=
  [0x6a09e667; 0xbb67ae85; 0x3c6ef372; 0xa54ff53a; 0x510e527f; 0x9b05688c; 0x1f83d9ab; 0x5be0cd19].
Definition PAD : list Z := 0x80 :: repeat 0 63.

(** [buf] is what the buffer holds before *)
Definition crypto_hash_sha256_init (buf : list Z) : sha256_state := Sha256State sha256_initial_state 0 buf.

(** [while (inlen >= 64)]; [W] is the work area *)
Fixpoint update_blocks (fuel : nat) (st W inp : list Z) : list Z * list Z * list Z :=
  match fuel with
  | O => (st, W, inp)
  | S fuel =>
      if Z.of_nat (length inp) >=? 64 then
        let '(st, W) := SHA256_Transform st inp W in
        update_blocks fuel st W (skipn 64 inp)
      else (st, W, inp)
  end.

Definition crypto_hash_sha256_update (W : list Z) (s : sha256_state) (inp : list Z) : sha256_state :=
  let inlen := Z.of_nat (length inp) in
  if inlen <=? 0 then s
  else
    let r := Z.land (Z.shiftr (count s) 3) 0x3f in
    let cnt := u64 (count s + Z.shiftl inlen 3) in
    if inlen <? 64 - r then Sha256State (state s) cnt (copy_into (buf s) r inp)
    else
      let buf := copy_into (buf s) r (firstn (Z.to_nat (64 - r)) inp) in
      let '(st, W) := SHA256_Transform (state s) buf W in
      let '(st, W, inp) := update_blocks (length inp) st W (skipn (Z.to_nat (64 - r)) inp) in
      Sha256State st cnt (copy_into buf 0 inp).

Definition SHA256_Pad (W : list Z) (s : sha256_state) : sha256_state :=
  let r := Z.land (Z.shiftr (count s) 3) 0x3f in
  let '(st, b, W) :=
    if r <? 56 then (state s, copy_into (buf s) r (firstn (Z.to_nat (56 - r)) PAD), W)
    else
      let b := copy_into (buf s) r (firstn (Z.to_nat (64 - r)) PAD) in
      let '(st, W) := SHA256_Transform (state s) b W in
      (st, copy_into b 0 (repeat 0 56), W) in
  let b := copy_into b 56 (store64_be (count s)) in
  let '(st, W) := SHA256_Transform st b W in
  Sha256State st (count s) b.

Definition crypto_hash_sha256_final (W : list Z) (s : sha256_state) : list Z :=
  be32enc_vect (state (SHA256_Pad W s)).

(** [buf] and [W]: what the memory of the two arrays holds before *)
Definition crypto_hash_sha256 (buf W inp : list Z) : list Z :=
  let s := crypto_hash_sha256_init buf in
  let s := crypto_hash_sha256_update W s inp in
  crypto_hash_sha256_final W s.

Definition sha256_abc : list Z := crypto_hash_sha256 (repeat 7 64) (repeat 9 64) [97; 98; 99].
Example sha256_abc_value : firstn 4 sha256_abc = [0xba; 0x78; 0x16; 0xbf].
Proof. vm_compute. reflexivity. Qed.

(** ** The reference: FIPS 180-4 *)
Definition fips_Ch (x y z : Z) : Z := Z.lxor (Z.land x y) (Z.land (Z.lnot x) z).
Definition fips_Maj (x y z : Z) : Z := Z.lxor (Z.lxor (Z.land x y) (Z.land x z)) (Z.land y z).

(** the message schedule, one word after the other *)
Definition next_word (w : list Z) : Z :=
  let t := Z.of_nat (length w) in
  u32 (s1 (rd w (t - 2)) + rd w (t - 7) + s0 (rd w (t - 15)) + rd w (t - 16)).
Fixpoint schedule (n : nat) (w : list Z) : list Z :=
  match n with O => w | S n => schedule n (w ++ [next_word w]) end.

(** one round on the eight working variables *)
Definition round (v : list Z) (k w : Z) : list Z :=
  match v with
  | [a; b; c; d; e; f; g; h] =>
      let t1 := h + S1 e + fips_Ch e f g + k + w in
      let t2 := S0 a + fips_Maj a b c in
      [u32 (t1 + t2); a; b; c; u32 (d + t1); e; f; g]
  | _ => v
  end.

Definition sha256_compress (h block : list Z) : list Z :=
  let w := schedule 48 (be32dec 16 block) in
  let v := fold_left (fun v t => round v (rd Krnd t) (rd w t)) (upto 64) h in
  map (fun '(x, y) => u32 (x + y)) (combine h v).

#[export] Instance SHA256 : BlockHash := {|
  compress := sha256_compress; initial_state := sha256_initial_state;
  length_bytes := store64_be; digest_of := flat_map store32_be |}.
Definition sha256 : list Z -> list Z := @digest SHA256.

(** ** The message schedule *)
Lemma length_schedule n w : length (schedule n w) = (length w + n)%nat.
Proof.
  revert w. induction n as [|n IH]; intros w; cbn [schedule]; [lia|]. rewrite IH, length_app. cbn. lia.
Qed.

Lemma schedule_prefix n w t : 0 <= t < Z.of_nat (length w) -> rd (schedule n w) t = rd w t.
Proof.
  revert w. induction n as [|n IH]; intros w Ht; cbn [schedule]; [done|].
  rewrite IH by (rewrite length_app; lia). by apply rd_app_l.
Qed.

Lemma schedule_add a b w : schedule (a + b) w = schedule b (schedule a w).
Proof. revert w. induction a as [|a IH]; intros w; cbn [schedule Nat.add]; [done | apply IH]. Qed.

Lemma MSCH_next w rest ii i : Z.of_nat (length w) = i + ii + 16 -> 0 <= i + ii -> rest <> [] ->
  MSCH (w ++ rest) ii i = (w ++ [next_word w]) ++ tl rest.
Proof.
  intros Hlen Hi Hr. destruct rest as [|x rest]; [done|]. unfold MSCH, next_word. rewrite Hlen.
  rewrite !rd_app_l by lia.
  replace (i + ii + 16 - 2) with (i + ii + 14) by lia. replace (i + ii + 16 - 7) with (i + ii + 9) by lia.
  replace (i + ii + 16 - 15) with (i + ii + 1) by lia. replace (i + ii + 16 - 16) with (i + ii) by lia.
  rewrite <- Hlen, <- (Z.add_0_r (Z.of_nat (length w))), wr_app_r by lia. by rewrite <- app_assoc.
Qed.

(** sixteen steps of the expansion *)
Lemma MSCH_turn n i w rest : Z.of_nat (length w) = i + 16 -> 0 <= i -> (n <= length rest)%nat ->
  fold_left (fun W k => MSCH W k i) (upto n) (w ++ rest) = schedule n w ++ drop n rest.
Proof.
  intros Hlen Hi. induction n as [|n IH]; intros Hn; [by rewrite drop_0|].
  rewrite upto_succ, fold_left_app, IH by lia. cbn [fold_left].
  pose proof (length_schedule n w) as Hs. rewrite MSCH_next; [|lia|lia|].
  - replace (S n) with (n + 1)%nat by lia. rewrite schedule_add. cbn [schedule].
    destruct (drop n rest) as [|x r] eqn:E.
    { exfalso. assert (length (drop n rest) = 0%nat) as H0 by (by rewrite E). rewrite length_drop in H0. lia. }
    cbn [tl]. by rewrite <- drop_drop, E.
  - intros E. assert (length (drop n rest) = 0%nat) as H0 by (by rewrite E). rewrite length_drop in H0. lia.
Qed.

(** ** The rounds *)
Lemma Ch_fips x y z : Ch x y z = fips_Ch x y z.
Proof.
  apply Z.bits_inj'. intros n Hn. unfold Ch, fips_Ch. rewrite !Z.lxor_spec, !Z.land_spec, Z.lxor_spec, Z.lnot_spec by done.
  by destruct (Z.testbit x n), (Z.testbit y n), (Z.testbit z n).
Qed.
Lemma Maj_fips x y z : Maj x y z = fips_Maj x y z.
Proof.
  apply Z.bits_inj'. intros n Hn. unfold Maj, fips_Maj. rewrite !Z.lxor_spec, !Z.lor_spec, !Z.land_spec, Z.lor_spec.
  by destruct (Z.testbit x n), (Z.testbit y n), (Z.testbit z n).
Qed.

(** the working variables a to h at round [i]: the array, turned *)
Definition view (i : Z) (regs : list Z) : list Z :=
  [rd regs ((64 - i) mod 8); rd regs ((65 - i) mod 8); rd regs ((66 - i) mod 8); rd regs ((67 - i) mod 8);
   rd regs ((68 - i) mod 8); rd regs ((69 - i) mod 8); rd regs ((70 - i) mod 8); rd regs ((71 - i) mod 8)].

Lemma length_RNDr regs W i ii : length (RNDr regs W i ii) = length regs.
Proof. unfold RNDr, RND. cbv zeta. by rewrite !length_wr. Qed.


(** the sums of RND are those of the round *)
Lemma round_sums a b c d e f g h k w :
  round [a; b; c; d; e; f; g; h] k w =
  let h1 := u32 (h + (S1 e + Ch e f g + u32 (w + k))) in
  [u32 (h1 + (S0 a + Maj a b c)); a; b; c; u32 (d + h1); e; f; g].
Proof.
  cbn [round]. cbv zeta. rewrite Ch_fips, Maj_fips.
  assert (u32 (h + (S1 e + fips_Ch e f g + u32 (w + k))) = u32 (h + S1 e + fips_Ch e f g + k + w)) as ->.
  { rewrite !Z.add_assoc, u32_add_r. f_equal. lia. }
  by rewrite u32_add_l, u32_add_r.
Qed.

Ltac eval_indices :=
  repeat match goal with
  | |- context [Z.modulo ?a 8] => let v := eval vm_compute in (Z.modulo a 8) in change (Z.modulo a 8) with v
  end.

(** one macro is one round on the turned array *)
Lemma RNDr_view regs W i ii : length regs = 8%nat -> (i < 16)%nat ->
  view (Z.of_nat i + 1) (RNDr regs W (Z.of_nat i) ii) =
  round (view (Z.of_nat i) regs) (rd Krnd (Z.of_nat i + ii)) (rd W (Z.of_nat i + ii)).
Proof.
  intros Hl Hi. do 8 (destruct regs as [|? regs]; [done|]). destruct regs; [|done].
  unfold view. rewrite round_sums. unfold RNDr, RND. cbv zeta.
  generalize (rd W (Z.of_nat i + ii)) (rd Krnd (Z.of_nat i + ii)). intros w k.
  do 16 (destruct i as [|i]; [cbn [Z.of_nat Pos.of_succ_nat Pos.succ]; eval_indices; reflexivity|]). lia.
Qed.

(** the working variables before a turn and after it *)
Lemma view_0 regs : length regs = 8%nat -> view 0 regs = regs.
Proof. intros Hl. do 8 (destruct regs as [|? regs]; [done|]). by destruct regs. Qed.
Lemma view_16 regs : view 16 regs = view 0 regs.
Proof. reflexivity. Qed.

Lemma rounds_turn regs W ii n : length regs = 8%nat -> (n <= 16)%nat ->
  let regs' := fold_left (fun regs k => RNDr regs W k ii) (upto n) regs in
  length regs' = 8%nat /\
  view (Z.of_nat n) regs' = fold_left (fun v k => round v (rd Krnd (k + ii)) (rd W (k + ii))) (upto n) (view 0 regs).
Proof.
  intros Hl. induction n as [|n IH]; intros Hn; [done|]. destruct (IH ltac:(lia)) as [IHl IHv].
  rewrite upto_succ, !fold_left_app. cbn [fold_left]. split; [by rewrite length_RNDr|].
  rewrite Nat2Z.inj_succ, <- Z.add_1_r, RNDr_view, IHv by (done || lia). done.
Qed.

(** rounds [ii] to [ii + 15], reading the schedule *)
Definition rounds_from (ii : Z) (w v : list Z) : list Z :=
  fold_left (fun v k => round v (rd Krnd (k + ii)) (rd w (k + ii))) (upto 16) v.

Lemma rounds_turn_16 regs W w ii : length regs = 8%nat -> (forall t, 0 <= t < 16 -> rd W (t + ii) = rd w (t + ii)) ->
  let regs' := fold_left (fun regs k => RNDr regs W k ii) (upto 16) regs in
  length regs' = 8%nat /\ regs' = rounds_from ii w regs.
Proof.
  intros Hl Hw. destruct (rounds_turn regs W ii 16 Hl ltac:(lia)) as [H1 H2]. cbv zeta. split; [exact H1|].
  rewrite <- (view_0 _ H1), <- view_16. change 16 with (Z.of_nat 16) at 1. rewrite H2, view_0 by done.
  unfold rounds_from, upto. cbn [seq map fold_left]. rewrite !Hw by lia. done.
Qed.

Lemma upto_64 : upto 64 = map (fun k => k + 0) (upto 16) ++ map (fun k => k + 16) (upto 16) ++
  map (fun k => k + 32) (upto 16) ++ map (fun k => k + 48) (upto 16).
Proof. reflexivity. Qed.

Lemma rounds_all w v : rounds_from 48 w (rounds_from 32 w (rounds_from 16 w (rounds_from 0 w v))) =
  fold_left (fun v t => round v (rd Krnd t) (rd w t)) (upto 64) v.
Proof. rewrite upto_64, !fold_left_app, !fold_left_mapped. unfold rounds_from. done. Qed.

Lemma length_be32dec n src : length (be32dec n src) = n.
Proof. revert src. induction n; intros; cbn; [done|]. by rewrite IHn. Qed.

(** The transformation of hash.c is the compression function. *)
Lemma SHA256_Transform_compress h block W : length h = 8%nat -> length W = 64%nat ->
  fst (SHA256_Transform h block W) = sha256_compress h block /\ length (snd (SHA256_Transform h block W)) = 64%nat.
Proof.
  intros Hh HW. unfold SHA256_Transform, sha256_compress.
  assert (be32dec_vect W block 64 = be32dec 16 block ++ drop 16 W) as E.
  { unfold be32dec_vect. change (Z.to_nat (64 / 4)) with 16%nat.
    change 0 with (Z.of_nat 0) at 1. rewrite copy_into_split by (rewrite ?length_be32dec; lia). rewrite length_be32dec. done. }
  rewrite E. clear E. set (w0 := be32dec 16 block). set (rest := drop 16 W).
  assert (length w0 = 16%nat) as Hw0 by apply length_be32dec.
  assert (length rest = 48%nat) as Hrest by (unfold rest; rewrite length_drop; lia).
  set (w := schedule 48 w0).
  assert (forall k t, (k <= 48)%nat -> 0 <= t < 16 + Z.of_nat k -> rd (schedule k w0 ++ drop k rest) t = rd w t) as Hrd.
  { intros k t Hk Ht. assert (Z.of_nat (length (schedule k w0)) = 16 + Z.of_nat k) as Hlk by (rewrite length_schedule; lia).
    rewrite rd_app_l by lia. unfold w. replace 48%nat with (k + (48 - k))%nat by lia.
    by rewrite schedule_add, (schedule_prefix (48 - k)) by lia. }
  assert (forall i k regs, i = Z.of_nat k -> (k <= 32)%nat -> length regs = 8%nat ->
    transform_turn i (regs, schedule k w0 ++ drop k rest) = (rounds_from i w regs, schedule (k + 16) w0 ++ drop (k + 16) rest) /\
    length (rounds_from i w regs) = 8%nat) as Hturn.
  { intros i k regs -> Hk Hr. unfold transform_turn.
    destruct (rounds_turn_16 regs (schedule k w0 ++ drop k rest) w (Z.of_nat k) Hr) as [Hl2 Hv2].
    { intros t Ht. apply Hrd; lia. }
    rewrite Hv2 in *. split; [|exact Hl2]. destruct (Z.eqb_spec (Z.of_nat k) 48); [lia|].
    rewrite MSCH_turn; [| rewrite length_schedule; lia | lia | rewrite length_drop; lia].
    by rewrite <- schedule_add, drop_drop. }
  cbn [fold_left].
  destruct (Hturn 0 0%nat h eq_refl ltac:(lia) Hh) as [T0 L0]. change (schedule 0 w0 ++ drop 0 rest) with (w0 ++ rest) in T0.
  destruct (Hturn 16 16%nat _ eq_refl ltac:(lia) L0) as [T1 L1].
  destruct (Hturn 32 32%nat _ eq_refl ltac:(lia) L1) as [T2 L2].
  change (0 + 16)%nat with 16%nat in T0. change (16 + 16)%nat with 32%nat in T1. change (32 + 16)%nat with 48%nat in T2.
  rewrite T0, T1, T2. unfold transform_turn.
  destruct (rounds_turn_16 _ (schedule 48 w0 ++ drop 48 rest) w 48 L2) as [L3 V3].
  { intros t Ht. apply Hrd; lia. }
  cbn zeta in V3. rewrite V3. cbn [Z.eqb Pos.eqb fst snd]. split; [by rewrite rounds_all|].
  rewrite length_app, length_schedule, length_drop. lia.
Qed.

(** ** Blocks *)
Lemma length_round v k w : length v = 8%nat -> length (round v k w) = 8%nat.
Proof. intros H. do 8 (destruct v as [|? v]; [done|]). by destruct v. Qed.

Lemma length_compress h block : length h = 8%nat -> length (compress h block) = 8%nat.
Proof.
  intros Hh. cbn [compress SHA256]. unfold sha256_compress. rewrite length_map, length_combine.
  assert (forall (l : list Z) v (f g : Z -> Z), length v = 8%nat -> length (fold_left (fun v t => round v (f t) (g t)) l v) = 8%nat) as Hf.
  { induction l as [|t l IH]; intros v f g Hv; [done|]. cbn [fold_left]. by apply IH, length_round. }
  rewrite (Hf _ h (rd Krnd)), Hh by done. done.
Qed.

Lemma length_compress_blocks n h msg : length h = 8%nat -> length (compress_blocks n h msg) = 8%nat.
Proof. revert h msg. induction n as [|n IH]; intros h msg Hh; cbn [compress_blocks]; [done|]. by apply IH, length_compress. Qed.

Lemma be32dec_app n src more : (4 * n <= length src)%nat -> be32dec n (src ++ more) = be32dec n src.
Proof.
  revert src. induction n as [|n IH]; intros src Hs; cbn [be32dec]; [done|].
  rewrite drop_app_le, IH by (rewrite ?length_drop; lia). f_equal. unfold load32_be. by rewrite !rd_app_l by lia.
Qed.

#[export] Instance SHA256_laws : BlockHashLaws SHA256.
Proof.
  split; [|done]. intros h msg Hl. cbn [compress SHA256]. unfold sha256_compress.
  assert (be32dec 16 (take 64 msg) = be32dec 16 msg) as ->; [|done].
  by rewrite <- (be32dec_app 16 (take 64 msg) (drop 64 msg)), take_drop by (rewrite length_take; lia).
Qed.

(** ** The incremental interface

    What a state stands for: the message that has been given so far. *)
Record hashed (msg : list Z) (s : sha256_state) : Prop := {
  hs_count : count s = u64 (8 * Z.of_nat (length msg));
  hs_absorbed : absorbed msg (state s) (buf s)
}.

Lemma hashed_init buf : length buf = 64%nat -> hashed [] (crypto_hash_sha256_init buf).
Proof. intros Hl. split; [done | exact (absorbed_nil (H:=SHA256) buf Hl)]. Qed.

Lemma count_offset msg s : hashed msg s -> Z.land (Z.shiftr (count s) 3) 0x3f = Z.of_nat (length msg mod 64).
Proof.
  intros [Hc _]. rewrite Hc. change 0x3f with (2 ^ 6 - 1). rewrite land_mod, Z.shiftr_div_pow2 by lia.
  rewrite Nat2Z.inj_mod. unfold u64. change (Z.of_nat 64) with 64.
  set (n := Z.of_nat (length msg)). assert (0 <= n) by lia. divmod.
Qed.

Lemma hashed_state_length msg s : hashed msg s -> length (state s) = 8%nat.
Proof. intros [_ [-> _ _]]. by apply length_compress_blocks. Qed.

(** the transformation, as the compression function of the interface *)
Lemma Transform_compress h block W : length h = 8%nat -> length W = 64%nat ->
  exists W', SHA256_Transform h block W = (compress h block, W') /\ length W' = 64%nat.
Proof.
  intros Hh HW. destruct (SHA256_Transform_compress h block W Hh HW) as [H1 H2].
  destruct (SHA256_Transform h block W) as [st W']. cbn [fst snd] in *. subst st. by exists W'.
Qed.

Lemma div64_step n : (64 <= n -> n / 64 = S ((n - 64) / 64))%nat.
Proof. intros H. replace n with (n - 64 + 1 * 64)%nat at 1 by lia. rewrite Nat.div_add by lia. lia. Qed.

(** the loop over whole blocks *)
Lemma update_blocks_spec fuel : forall st W inp, length st = 8%nat -> length W = 64%nat -> (length inp <= 64 * fuel)%nat ->
  exists W', update_blocks fuel st W inp =
    (compress_blocks (length inp / 64) st inp, W', drop (64 * (length inp / 64)) inp).
Proof.
  induction fuel as [|fuel IH]; intros st W inp Hst HW Hf; cbn [update_blocks].
  { destruct inp; [|cbn in Hf; lia]. by exists W. }
  destruct (Z.geb_spec (Z.of_nat (length inp)) 64); [|by exists W; rewrite Nat.div_small, Nat.mul_0_r, drop_0 by lia].
  destruct (Transform_compress st inp W Hst HW) as (W1 & -> & HW1).
  destruct (IH (compress st inp) W1 (drop 64 inp)) as (W2 & ->); [by apply length_compress | done | rewrite length_drop; lia|].
  exists W2. rewrite length_drop, drop_drop, (div64_step (length inp)) by lia.
  cbn [compress_blocks]. rewrite compress_take by lia. do 2 f_equal. lia.
Qed.

(** one more byte string: the state stands for the longer message *)
Lemma update_hashed msg s W inp : hashed msg s -> length W = 64%nat ->
  hashed (msg ++ inp) (crypto_hash_sha256_update W s inp).
Proof.
  intros Hs HW. pose proof (count_offset msg s Hs) as Hr. pose proof (hashed_state_length msg s Hs) as Hsl.
  pose proof Hs as [Hc Ha]. pose proof (Nat.mod_upper_bound (length msg) 64 ltac:(lia)) as Hr64.
  unfold crypto_hash_sha256_update. destruct (Z.leb_spec (Z.of_nat (length inp)) 0).
  { destruct inp; [by rewrite app_nil_r | cbn in *; lia]. }
  assert (u64 (count s + Z.shiftl (Z.of_nat (length inp)) 3) = u64 (8 * Z.of_nat (length (msg ++ inp)))) as Hcount.
  { rewrite Hc, Z.shiftl_mul_pow2, length_app by lia. unfold u64. rewrite Zplus_mod_idemp_l. f_equal. lia. }
  rewrite Hr, Hcount. destruct (Z.ltb_spec (Z.of_nat (length inp)) (64 - Z.of_nat (length msg mod 64))).
  { split; [done|]. apply (absorb_short _ _ _ _ Ha). lia. }
  replace (Z.to_nat (64 - Z.of_nat (length msg mod 64))) with (64 - length msg mod 64)%nat by lia.
  destruct (Transform_compress (state s) (copy_into (buf s) (Z.of_nat (length msg mod 64)) (take (64 - length msg mod 64) inp)) W Hsl HW)
    as (W1 & -> & HW1).
  destruct (update_blocks_spec (length inp) (compress (state s) (copy_into (buf s) (Z.of_nat (length msg mod 64))
    (take (64 - length msg mod 64) inp))) W1 (drop (64 - length msg mod 64) inp)) as (W2 & ->);
    [by apply length_compress | done | rewrite length_drop; lia|].
  split; [done|]. apply (absorb_long _ _ _ inp Ha). lia.
Qed.

(** ** Padding *)
Lemma take_PAD k : (1 <= k <= 64)%nat -> take k PAD = 0x80 :: repeat 0 (k - 1).
Proof.
  intros Hk. destruct k as [|k]; [lia|]. unfold PAD. cbn [take]. f_equal. replace (S k - 1)%nat with k by lia.
  change (repeat 0 63) with (repeat 0 (63 - 0)). replace (63 - 0)%nat with (k + (63 - k))%nat by lia.
  rewrite repeat_app, take_app_length' by (by rewrite repeat_length). done.
Qed.

Lemma SHA256_Pad_hashed msg s W : hashed msg s -> length W = 64%nat -> state (SHA256_Pad W s) = final_state msg.
Proof.
  intros Hs HW. pose proof (count_offset msg s Hs) as Hr. pose proof (hashed_state_length msg s Hs) as Hsl.
  pose proof Hs as [Hc Ha]. pose proof (Nat.mod_upper_bound (length msg) 64 ltac:(lia)) as Hr64.
  unfold SHA256_Pad. rewrite Hr. destruct (Z.ltb_spec (Z.of_nat (length msg mod 64)) 56).
  - rewrite take_PAD by lia. replace (Z.to_nat (56 - Z.of_nat (length msg mod 64)) - 1)%nat with (55 - length msg mod 64)%nat by lia.
    match goal with |- context [SHA256_Transform (state s) ?b W] =>
      destruct (Transform_compress (state s) b W Hsl HW) as (W1 & -> & _) end.
    cbn [state]. apply (absorb_padding_short msg (state s) (buf s)); [done | lia | by rewrite <- Hc].
  - rewrite take_PAD by lia. replace (Z.to_nat (64 - Z.of_nat (length msg mod 64)) - 1)%nat with (63 - length msg mod 64)%nat by lia.
    match goal with |- context [SHA256_Transform (state s) ?b W] =>
      destruct (Transform_compress (state s) b W Hsl HW) as (W1 & -> & HW1) end.
    match goal with |- context [SHA256_Transform (compress ?h ?b1) ?b W1] =>
      destruct (Transform_compress (compress h b1) b W1 (length_compress h b1 Hsl) HW1) as (W2 & -> & _) end.
    cbn [state]. apply (absorb_padding_long msg (state s) (buf s)); [done | lia | by rewrite <- Hc].
Qed.

Lemma final_hashed msg s W : hashed msg s -> length W = 64%nat -> crypto_hash_sha256_final W s = sha256 msg.
Proof. intros Hs HW. unfold crypto_hash_sha256_final, sha256, digest, be32enc_vect. by rewrite (SHA256_Pad_hashed msg s W Hs HW). Qed.

(** ** Properties *)

(** The transformation of a block in hash.c, with its turned array of eight
    registers and its work area expanded sixteen words at a time, is the
    compression function of FIPS 180-4. *)
Theorem SHA256_Transform_is_compress h block W : length h = 8%nat -> length W = 64%nat ->
  fst (SHA256_Transform h block W) = sha256_compress h block.
Proof. intros Hh HW. by apply SHA256_Transform_compress. Qed.

Lemma SHA256_Transform_is_compress_witness :
  fst (SHA256_Transform sha256_initial_state (repeat 1 64) (repeat 0 64)) = sha256_compress sha256_initial_state (repeat 1 64).
Proof. apply SHA256_Transform_is_compress; reflexivity. Defined.

(** crypto_hash_sha256 computes SHA-256: the digest of the padded message,
    whatever the buffer and the work area hold before, for a message of any
    length and with any split into block and remainder. *)
Theorem crypto_hash_sha256_correct buf W msg : length buf = 64%nat -> length W = 64%nat ->
  crypto_hash_sha256 buf W msg = sha256 msg.
Proof.
  intros Hb HW. unfold crypto_hash_sha256. apply final_hashed; [|done].
  exact (update_hashed [] _ W msg (hashed_init buf Hb) HW).
Qed.

Lemma crypto_hash_sha256_correct_witness : crypto_hash_sha256 (repeat 7 64) (repeat 9 64) [97; 98; 99] = sha256 [97; 98; 99].
Proof. apply crypto_hash_sha256_correct; reflexivity. Defined.

(** C12: The incremental interface refines the reference: however a message is
    cut into calls of crypto_hash_sha256_update, including empty ones and pieces
    that end inside of a block, the final digest is that of the whole message. *)
Theorem sha256_incremental buf W pieces : length buf = 64%nat -> length W = 64%nat ->
  crypto_hash_sha256_final W (fold_left (crypto_hash_sha256_update W) pieces (crypto_hash_sha256_init buf)) = sha256 (concat pieces).
Proof.
  intros Hb HW. apply final_hashed; [|done].
  assert (forall msg s, hashed msg s -> hashed (msg ++ concat pieces) (fold_left (crypto_hash_sha256_update W) pieces s)) as H.
  { induction pieces as [|p pieces IH]; intros msg s Hs; cbn [concat fold_left]; [by rewrite app_nil_r|].
    rewrite app_assoc. by apply IH, update_hashed. }
  exact (H [] _ (hashed_init buf Hb)).
Qed.

Lemma sha256_incremental_witness :
  crypto_hash_sha256_final (repeat 9 64) (fold_left (crypto_hash_sha256_update (repeat 9 64)) [[97]; []; [98; 99]]
    (crypto_hash_sha256_init (repeat 7 64))) = sha256 [97; 98; 99].
Proof. apply (sha256_incremental (repeat 7 64) (repeat 9 64) [[97]; []; [98; 99]]); reflexivity. Defined.
