(* ===== verification/Md5.v ===== *)
(** md5.c: MD5, against a reference in the form of RFC 1321. *)
From S2P Require Import Prelude BlockHash.
Local Open Scope Z_scope.

(** ** md5.c

    The basic functions. *)
Definition F_ (x y z : Z) : Z := Z.lxor z (Z.land x (Z.lxor y z)).
Definition G_ (x y z : Z) : Z := Z.lxor y (Z.land z (Z.lxor x y)).
Definition H_ (x y z : Z) : Z := Z.lxor (Z.lxor x y) z.
Definition H2_ (x y z : Z) : Z := Z.lxor x (Z.lxor y z).
Definition I_ (x y z : Z) : Z := Z.lxor y (Z.lor x (u32 (Z.lnot z))).

Inductive basic := F | G | H | H2 | I.
Definition apply (f : basic) : Z -> Z -> Z -> Z :=
  match f with F => F_ | G => G_ | H => H_ | H2 => H2_ | I => I_ end.

(** The variables a, b, c and d, and the words of the block. *)
Inductive register := Ra | Rb | Rc | Rd.
Inductive word := SET (n : Z) | GET (n : Z).
(** [STEP(f, a, b, c, d, x, t, s)] *)
Inductive instruction := STEP (f : basic) (a b c d : register) (x : word) (t s : Z).
Record registers := Registers { ra : Z; rb : Z; rc : Z; rd_ : Z }.

Definition get (v : registers) (r : register) : Z :=
  match r with Ra => ra v | Rb => rb v | Rc => rc v | Rd => rd_ v end.
Definition put (v : registers) (r : register) (x : Z) : registers :=
  match r with
  | Ra => Registers x (rb v) (rc v) (rd_ v)
  | Rb => Registers (ra v) x (rc v) (rd_ v)
  | Rc => Registers (ra v) (rb v) x (rd_ v)
  | Rd => Registers (ra v) (rb v) (rc v) x
  end.

(** SET reads four bytes and keeps the word in the block; GET reads it back. *)
Definition fetch (ptr block : list Z) (w : word) : Z * list Z :=
  match w with
  | SET n =>
      let x := Z.lor (Z.lor (Z.lor (rd ptr (n * 4)) (u32 (Z.shiftl (rd ptr (n * 4 + 1)) 8)))
        (u32 (Z.shiftl (rd ptr (n * 4 + 2)) 16))) (u32 (Z.shiftl (rd ptr (n * 4 + 3)) 24)) in
      (x, wr block n x)
  | GET n => (rd block n, block)
  end.

Definition step (ptr : list Z) (st : registers * list Z) (i : instruction) : registers * list Z :=
  let '(v, block) := st in
  let '(STEP f a b c d x t s) := i in
  let '(x, block) := fetch ptr block x in
  let v := put v a (u32 (get v a + (u32 (apply f (get v b) (get v c) (get v d)) + x + t))) in
  let v := put v a (Z.lor (u32 (Z.shiftl (get v a) s)) (Z.shiftr (Z.land (get v a) 0xffffffff) (32 - s))) in
  (put v a (u32 (get v a + get v b)), block).

Definition round_1 : list instruction := [
  STEP F Ra Rb Rc Rd (SET 0) 0xd76aa478 7;
  STEP F Rd Ra Rb Rc (SET 1) 0xe8c7b756 12;
  STEP F Rc Rd Ra Rb (SET 2) 0x242070db 17;
  STEP F Rb Rc Rd Ra (SET 3) 0xc1bdceee 22;
  STEP F Ra Rb Rc Rd (SET 4) 0xf57c0faf 7;
  STEP F Rd Ra Rb Rc (SET 5) 0x4787c62a 12;
  STEP F Rc Rd Ra Rb (SET 6) 0xa8304613 17;
  STEP F Rb Rc Rd Ra (SET 7) 0xfd469501 22;
  STEP F Ra Rb Rc Rd (SET 8) 0x698098d8 7;
  STEP F Rd Ra Rb Rc (SET 9) 0x8b44f7af 12;
  STEP F Rc Rd Ra Rb (SET 10) 0xffff5bb1 17;
  STEP F Rb Rc Rd Ra (SET 11) 0x895cd7be 22;
  STEP F Ra Rb Rc Rd (SET 12) 0x6b901122 7;
  STEP F Rd Ra Rb Rc (SET 13) 0xfd987193 12;
  STEP F Rc Rd Ra Rb (SET 14) 0xa679438e 17;
  STEP F Rb Rc Rd Ra (SET 15) 0x49b40821 22].

Definition round_2 : list instruction := [
  STEP G Ra Rb Rc Rd (GET 1) 0xf61e2562 5;
  STEP G Rd Ra Rb Rc (GET 6) 0xc040b340 9;
  STEP G Rc Rd Ra Rb (GET 11) 0x265e5a51 14;
  STEP G Rb Rc Rd Ra (GET 0) 0xe9b6c7aa 20;
  STEP G Ra Rb Rc Rd (GET 5) 0xd62f105d 5;
  STEP G Rd Ra Rb Rc (GET 10) 0x02441453 9;
  STEP G Rc Rd Ra Rb (GET 15) 0xd8a1e681 14;
  STEP G Rb Rc Rd Ra (GET 4) 0xe7d3fbc8 20;
  STEP G Ra Rb Rc Rd (GET 9) 0x21e1cde6 5;
  STEP G Rd Ra Rb Rc (GET 14) 0xc33707d6 9;
  STEP G Rc Rd Ra Rb (GET 3) 0xf4d50d87 14;
  STEP G Rb Rc Rd Ra (GET 8) 0x455a14ed 20;
  STEP G Ra Rb Rc Rd (GET 13) 0xa9e3e905 5;
  STEP G Rd Ra Rb Rc (GET 2) 0xfcefa3f8 9;
  STEP G Rc Rd Ra Rb (GET 7) 0x676f02d9 14;
  STEP G Rb Rc Rd Ra (GET 12) 0x8d2a4c8a 20].

Definition round_3 : list instruction := [
  STEP H Ra Rb Rc Rd (GET 5) 0xfffa3942 4;
  STEP H2 Rd Ra Rb Rc (GET 8) 0x8771f681 11;
  STEP H Rc Rd Ra Rb (GET 11) 0x6d9d6122 16;
  STEP H2 Rb Rc Rd Ra (GET 14) 0xfde5380c 23;
  STEP H Ra Rb Rc Rd (GET 1) 0xa4beea44 4;
  STEP H2 Rd Ra Rb Rc (GET 4) 0x4bdecfa9 11;
  STEP H Rc Rd Ra Rb (GET 7) 0xf6bb4b60 16;
  STEP H2 Rb Rc Rd Ra (GET 10) 0xbebfbc70 23;
  STEP H Ra Rb Rc Rd (GET 13) 0x289b7ec6 4;
  STEP H2 Rd Ra Rb Rc (GET 0) 0xeaa127fa 11;
  STEP H Rc Rd Ra Rb (GET 3) 0xd4ef3085 16;
  STEP H2 Rb Rc Rd Ra (GET 6) 0x04881d05 23;
  STEP H Ra Rb Rc Rd (GET 9) 0xd9d4d039 4;
  STEP H2 Rd Ra Rb Rc (GET 12) 0xe6db99e5 11;
  STEP H Rc Rd Ra Rb (GET 15) 0x1fa27cf8 16;
  STEP H2 Rb Rc Rd Ra (GET 2) 0xc4ac5665 23].

Definition round_4 : list instruction := [
  STEP I Ra Rb Rc Rd (GET 0) 0xf4292244 6;
  STEP I Rd Ra Rb Rc (GET 7) 0x432aff97 10;
  STEP I Rc Rd Ra Rb (GET 14) 0xab9423a7 15;
  STEP I Rb Rc Rd Ra (GET 5) 0xfc93a039 21;
  STEP I Ra Rb Rc Rd (GET 12) 0x655b59c3 6;
  STEP I Rd Ra Rb Rc (GET 3) 0x8f0ccc92 10;
  STEP I Rc Rd Ra Rb (GET 10) 0xffeff47d 15;
  STEP I Rb Rc Rd Ra (GET 1) 0x85845dd1 21;
  STEP I Ra Rb Rc Rd (GET 8) 0x6fa87e4f 6;
  STEP I Rd Ra Rb Rc (GET 15) 0xfe2ce6e0 10;
  STEP I Rc Rd Ra Rb (GET 6) 0xa3014314 15;
  STEP I Rb Rc Rd Ra (GET 13) 0x4e0811a1 21;
  STEP I Ra Rb Rc Rd (GET 4) 0xf7537e82 6;
  STEP I Rd Ra Rb Rc (GET 11) 0xbd3af235 10;
  STEP I Rc Rd Ra Rb (GET 2) 0x2ad7d2bb 15;
  STEP I Rb Rc Rd Ra (GET 9) 0xeb86d391 21].

Record MD5_CTX := Md5Ctx { lo : Z; hi : Z; regs : registers; buffer : list Z; block : list Z }.

(** one turn of the loop of body *)
Definition body_block (v : registers) (block ptr : list Z) : registers * list Z :=
  let '(w, block) := fold_left (step ptr) (round_1 ++ round_2 ++ round_3 ++ round_4) (v, block) in
  (Registers (u32 (ra w + ra v)) (u32 (rb w + rb v)) (u32 (rc w + rc v)) (u32 (rd_ w + rd_ v)), block).

(** [do .. while (size -= 64)] *)
Fixpoint body_loop (fuel : nat) (v : registers) (block ptr : list Z) (size : Z) : registers * list Z * list Z :=
  match fuel with
  | O => (v, block, ptr)
  | S fuel =>
      let '(v, block) := body_block v block ptr in
      let ptr := drop 64 ptr in
      let size := u64 (size - 64) in
      if nz size then body_loop fuel v block ptr size else (v, block, ptr)
  end.
Definition body (ctx : MD5_CTX) (data : list Z) (size : Z) : MD5_CTX * list Z :=
  let '(v, block, ptr) := body_loop (Z.to_nat (size / 64)) (regs ctx) (block ctx) data size in
  (Md5Ctx (lo ctx) (hi ctx) v (buffer ctx) block, ptr).

(** [ctx] holds the memory of the context before *)
Definition MD5_Init (ctx : MD5_CTX) : MD5_CTX :=
  Md5Ctx 0 0 (Registers 0x67452301 0xefcdab89 0x98badcfe 0x10325476) (buffer ctx) (block ctx).

Definition with_buffer (ctx : MD5_CTX) (b : list Z) : MD5_CTX := Md5Ctx (lo ctx) (hi ctx) (regs ctx) b (block ctx).

(** the two counters *)
Definition MD5_count (ctx : MD5_CTX) (size : Z) : MD5_CTX :=
  let saved_lo := lo ctx in
  let l := Z.land (u64 (saved_lo + size)) 0x1fffffff in
  let h := if l <? saved_lo then u32 (hi ctx + 1) else hi ctx in
  Md5Ctx l (u32 (h + Z.shiftr size 29)) (regs ctx) (buffer ctx) (block ctx).

(** what follows when the buffer is empty *)
Definition MD5_Update_rest (ctx : MD5_CTX) (data : list Z) (size : Z) : MD5_CTX :=
  let '(ctx, data, size) :=
    if size >=? 64 then
      let '(ctx, data) := body ctx data (Z.land size (u64 (Z.lnot 0x3f))) in (ctx, data, Z.land size 0x3f)
    else (ctx, data, size) in
  with_buffer ctx (copy_into (buffer ctx) 0 (firstn (Z.to_nat size) data)).

Definition MD5_Update (ctx : MD5_CTX) (data : list Z) : MD5_CTX :=
  let size := Z.of_nat (length data) in
  let used := Z.land (lo ctx) 0x3f in
  let ctx := MD5_count ctx size in
  if nz used then
    let available := 64 - used in
    if size <? available then with_buffer ctx (copy_into (buffer ctx) used data)
    else
      let ctx := with_buffer ctx (copy_into (buffer ctx) used (firstn (Z.to_nat available) data)) in
      let '(ctx, _) := body ctx (buffer ctx) 64 in
      MD5_Update_rest ctx (skipn (Z.to_nat available) data) (size - available)
  else MD5_Update_rest ctx data size.

Definition store32_le (w : Z) : list Z := [u8 w; u8 (Z.shiftr w 8); u8 (Z.shiftr w 16); u8 (Z.shiftr w 24)].

(** the digest; the context is cleared after it *)
Definition MD5_Final (ctx : MD5_CTX) : list Z * MD5_CTX :=
  let used := Z.land (lo ctx) 0x3f in
  let ctx := with_buffer ctx (wr (buffer ctx) used 0x80) in
  let used := used + 1 in
  let available := 64 - used in
  let '(ctx, used, available) :=
    if available <? 8 then
      let ctx := with_buffer ctx (copy_into (buffer ctx) used (repeat 0 (Z.to_nat available))) in
      let '(ctx, _) := body ctx (buffer ctx) 64 in (ctx, 0, 64)
    else (ctx, used, available) in
  let ctx := with_buffer ctx (copy_into (buffer ctx) used (repeat 0 (Z.to_nat (available - 8)))) in
  let l := u32 (Z.shiftl (lo ctx) 3) in
  let ctx := with_buffer ctx (copy_into (buffer ctx) 56 (store32_le l ++ store32_le (hi ctx))) in
  let '(ctx, _) := body ctx (buffer ctx) 64 in
  (store32_le (ra (regs ctx)) ++ store32_le (rb (regs ctx)) ++ store32_le (rc (regs ctx)) ++ store32_le (rd_ (regs ctx)),
   Md5Ctx 0 0 (Registers 0 0 0 0) (repeat 0 64) (repeat 0 16)).

Definition blank_ctx : MD5_CTX := Md5Ctx 1 2 (Registers 3 4 5 6) (repeat 7 64) (repeat 8 16).
Definition MD5 (msg : list Z) : list Z := fst (MD5_Final (MD5_Update (MD5_Init blank_ctx) msg)).
Example MD5_abc : MD5 [97; 98; 99] =
  [0x90; 0x01; 0x50; 0x98; 0x3c; 0xd2; 0x4f; 0xb0; 0xd6; 0x96; 0x3f; 0x7d; 0x28; 0xe1; 0x7f; 0x72].
Proof. vm_compute. reflexivity. Qed.

(** ** The reference: RFC 1321 *)
Definition rfc_F (x y z : Z) : Z := Z.lor (Z.land x y) (Z.land (Z.lnot x) z).
Definition rfc_G (x y z : Z) : Z := Z.lor (Z.land x z) (Z.land y (Z.lnot z)).
Definition rfc_H (x y z : Z) : Z := Z.lxor x (Z.lxor y z).
Definition rfc_I (x y z : Z) : Z := Z.lxor y (Z.lor x (Z.lnot z)).

(** Fixed-point numbers in units of 2^-96: the terms of the Taylor series at 1,
    each the one before it divided by -(k+1)(k+2). *)
Fixpoint taylor (n : nat) (k term : Z) : Z :=
  match n with O => 0 | S n => term + taylor n (k + 2) (- term / ((k + 1) * (k + 2))) end.
Definition sin1 : Z := taylor 20 1 (2 ^ 96).
Definition cos1 : Z := taylor 20 0 (2 ^ 96).
(** sin (k+1) = 2 cos 1 sin k - sin (k-1) *)
Fixpoint sines (n : nat) (prev cur : Z) : list Z :=
  match n with O => [] | S n => cur :: sines n cur (2 * cos1 * cur / 2 ^ 96 - prev) end.
(** element [i]: the whole part of 2^32 times the absolute value of sin (i+1) *)
Definition sine_table : list Z := Eval vm_compute in map (fun x => Z.abs x / 2 ^ 64) (sines 64 0 sin1).
Definition sine_word (i : Z) : Z := rd sine_table i.

Definition shift_amount (i : Z) : Z :=
  rd [7; 12; 17; 22; 5; 9; 14; 20; 4; 11; 16; 23; 6; 10; 15; 21] (4 * (i / 16) + i mod 4).
Definition word_index (i : Z) : Z :=
  rd [i; (5 * i + 1) mod 16; (3 * i + 5) mod 16; (7 * i) mod 16] (i / 16).
Definition rfc_function (i : Z) : Z -> Z -> Z -> Z :=
  if i <? 16 then rfc_F else if i <? 32 then rfc_G else if i <? 48 then rfc_H else rfc_I.
Definition rotl32 (x s : Z) : Z := Z.lor (u32 (Z.shiftl x s)) (Z.shiftr x (32 - s)).

Definition rfc_step (words : list Z) (v : list Z) (i : Z) : list Z :=
  match v with
  | [a; b; c; d] =>
      let sum := u32 (a + rfc_function i b c d + rd words (word_index i) + sine_word i) in
      [d; u32 (b + rotl32 sum (shift_amount i)); b; c]
  | _ => v
  end.

Definition load32_le (src : list Z) (n : Z) : Z :=
  Z.lor (Z.lor (Z.lor (rd src (n * 4)) (u32 (Z.shiftl (rd src (n * 4 + 1)) 8)))
    (u32 (Z.shiftl (rd src (n * 4 + 2)) 16))) (u32 (Z.shiftl (rd src (n * 4 + 3)) 24)).
Definition block_words (src : list Z) : list Z := tabulate 16 (load32_le src).

Definition md5_compress (h blk : list Z) : list Z :=
  map (fun '(x, y) => u32 (x + y)) (combine (fold_left (rfc_step (block_words blk)) (upto 64) h) h).

Definition store64_le (w : Z) : list Z :=
  [u8 w; u8 (Z.shiftr w 8); u8 (Z.shiftr w 16); u8 (Z.shiftr w 24);
   u8 (Z.shiftr w 32); u8 (Z.shiftr w 40); u8 (Z.shiftr w 48); u8 (Z.shiftr w 56)].

#[export] Instance MD5_hash : BlockHash := {|
  compress := md5_compress; initial_state := [0x67452301; 0xefcdab89; 0x98badcfe; 0x10325476];
  length_bytes := store64_le; digest_of := flat_map store32_le |}.
Definition md5 : list Z -> list Z := @digest MD5_hash.

Lemma md5_compress_length h blk : length h = 4%nat -> length (md5_compress h blk) = 4%nat.
Proof.
  intros Hh. unfold md5_compress. rewrite length_map, length_combine. enough (length (fold_left (rfc_step (block_words blk)) (upto 64) h) = 4%nat) by lia.
  generalize (upto 64) as l. intros l. revert h Hh. induction l as [|i l IH]; intros h Hh; [done|]. apply IH. by destruct h as [|a [|b [|c [|d [|]]]]].
Qed.
Lemma md5_bytes msg : length (md5 msg) = 16%nat /\ Forall (fun b => 0 <= b < 256) (md5 msg).
Proof.
  unfold md5, digest. pose proof (compress_blocks_keeps (fun h => length h = 4%nat) (length (msg ++ padding (length msg)) / 64) md5_compress_length initial_state (msg ++ padding (length msg)) eq_refl) as H.
  fold (final_state msg) in H. destruct (final_state msg) as [|a [|b [|c [|d [|]]]]]; try done. split; [done|].
  cbn [digest_of MD5_hash flat_map store32_le app]. repeat (apply List.Forall_cons; [apply u8_range|]). apply List.Forall_nil.
Qed.

Example md5_abc : md5 [97; 98; 99] = MD5 [97; 98; 99].
Proof. vm_compute. reflexivity. Qed.

#[export] Instance MD5_laws : BlockHashLaws MD5_hash.
Proof.
  split; [|done]. intros h msg Hl. cbn [compress MD5_hash]. unfold md5_compress.
  assert (block_words (take 64 msg) = block_words msg) as ->; [|done].
  apply rd_ext; unfold block_words; [by rewrite !length_tabulate|]. intros n Hn. rewrite length_tabulate in Hn.
  rewrite !rd_tabulate by lia. unfold load32_le. rewrite <- (take_drop 64 msg) at 5 6 7 8.
  assert (forall j, 0 <= j < 64 -> rd (take 64 msg ++ drop 64 msg) j = rd (take 64 msg) j) as H.
  { intros j Hj. apply rd_app_l. rewrite length_take. lia. }
  by rewrite !H by lia.
Qed.

(** ** The transformation *)
Definition program : list instruction := round_1 ++ round_2 ++ round_3 ++ round_4.

(** what instruction [i] is *)
Definition role (k : Z) : register := match k mod 4 with 0 => Ra | 1 => Rd | 2 => Rc | _ => Rb end.
Definition code_function (i : Z) : basic :=
  if i <? 16 then F else if i <? 32 then G else if i <? 48 then (if Z.even i then H else H2) else I.
Definition expected (i : Z) : instruction :=
  STEP (code_function i) (role i) (role (i + 3)) (role (i + 2)) (role (i + 1))
    ((if i <? 16 then SET else GET) (word_index i)) (sine_word i) (shift_amount i).

Lemma program_expected : program = map expected (upto 64).
Proof. vm_compute. reflexivity. Qed.

Ltac bitwise :=
  apply Z.bits_inj'; intros n Hn; 
  repeat first [rewrite Z.lxor_spec | rewrite Z.lor_spec | rewrite Z.land_spec | rewrite Z.lnot_spec by done];
  repeat match goal with |- context [Z.testbit ?x n] => destruct (Z.testbit x n) end; done.
Lemma F_rfc x y z : F_ x y z = rfc_F x y z.
Proof. unfold F_, rfc_F. bitwise. Qed.
Lemma G_rfc x y z : G_ x y z = rfc_G x y z.
Proof. unfold G_, rfc_G. bitwise. Qed.
Lemma H_rfc x y z : H_ x y z = rfc_H x y z.
Proof. unfold H_, rfc_H. bitwise. Qed.

Lemma u32_ones x : u32 x = Z.land x (Z.ones 32).
Proof. symmetry. by apply Z.land_ones. Qed.
Lemma I_rfc x y z : u32 (I_ x y z) = u32 (rfc_I x y z).
Proof. rewrite !u32_ones. unfold I_, rfc_I. rewrite u32_ones. bitwise. Qed.

Lemma code_function_rfc i x y z : u32 (apply (code_function i) x y z) = u32 (rfc_function i x y z).
Proof.
  unfold code_function, rfc_function. repeat destruct (_ <? _).
  - cbn [apply]. by rewrite F_rfc.
  - cbn [apply]. by rewrite G_rfc.
  - destruct (Z.even i); [cbn [apply]; by rewrite H_rfc | done].
  - apply I_rfc.
Qed.

(** the registers in the order of the working variables of step [i] *)
Definition view (i : Z) (v : registers) : list Z :=
  [get v (role i); get v (role (i + 3)); get v (role (i + 2)); get v (role (i + 1))].

(** what the block holds before instruction [i] *)
Definition block_ok (ptr block : list Z) (i : Z) : Prop :=
  length block = 16%nat /\ forall n, 0 <= n < Z.min i 16 -> rd block n = load32_le ptr n.

Lemma fetch_spec ptr block i : 0 <= i < 64 -> block_ok ptr block i ->
  exists block', fetch ptr block ((if i <? 16 then SET else GET) (word_index i)) = (rd (block_words ptr) (word_index i), block') /\
    block_ok ptr block' (i + 1).
Proof.
  intros Hi [Hl Hb].
  assert (0 <= word_index i < 16 /\ (i < 16 -> word_index i = i)) as [Hw Hw'].
  { unfold word_index. assert (i / 16 = 0 \/ i / 16 = 1 \/ i / 16 = 2 \/ i / 16 = 3) as [E|[E|[E|E]]] by divmod;
      rewrite E; cbv [rd Z.ltb Z.compare nth Z.to_nat Pos.to_nat Pos.iter_op Nat.add]; divmod. }
  unfold block_words. rewrite rd_tabulate by lia. destruct (Z.ltb_spec i 16); cbn [fetch].
  - rewrite Hw' by lia. exists (wr block i (load32_le ptr i)). split; [done|]. split; [by rewrite length_wr|].
    intros n Hn. rewrite rd_wr by lia. destruct (Z.eqb_spec i n) as [->|]; cbn [andb].
    + by iff_true (n <? Z.of_nat (length block)).
    + apply Hb. lia.
  - exists block. rewrite Hb by lia. split; [done|]. split; [done|]. intros n Hn. apply Hb. lia.
Qed.


Lemma step_spec ptr v block i : 0 <= i < 64 -> block_ok ptr block i ->
  exists v' block', step ptr (v, block) (expected i) = (v', block') /\
    view (i + 1) v' = rfc_step (block_words ptr) (view i v) i /\ block_ok ptr block' (i + 1).
Proof.
  intros Hi Hb. unfold expected, step. destruct (fetch_spec ptr block i Hi Hb) as (block' & -> & Hb').
  eexists _, block'. split; [reflexivity|]. split; [|exact Hb'].
  assert (forall a f x t, u32 (a + (u32 f + x + t)) = u32 (a + f + x + t)) as Hsum.
  { intros a f x t. replace (a + (u32 f + x + t)) with (u32 f + (a + x + t)) by lia. rewrite u32_add_l. f_equal. lia. }
  unfold view, rfc_step. generalize (rd (block_words ptr) (word_index i)) (sine_word i) (shift_amount i). intros x t s.
  assert (forall a b c d, u32 (a + (u32 (apply (code_function i) b c d) + x + t)) = u32 (a + rfc_function i b c d + x + t)) as E.
  { intros a b c d. rewrite code_function_rfc. apply Hsum. }
  assert (forall a, Z.land (u32 a) 0xffffffff = u32 a) as Hland.
  { intros a. change 0xffffffff with (2 ^ 32 - 1). rewrite land_mod by lia. apply Z.mod_mod. lia. }
  assert (forall a b, u32 (a + b) = u32 (b + a)) as Hcomm by (intros; f_equal; lia).
  unfold rotl32, role.
  assert (i mod 4 = 0 \/ i mod 4 = 1 \/ i mod 4 = 2 \/ i mod 4 = 3) as [H|[H|[H|H]]] by divmod;
    [assert ((i + 1) mod 4 = 1 /\ (i + 2) mod 4 = 2 /\ (i + 3) mod 4 = 3 /\ (i + 1 + 1) mod 4 = 2 /\ (i + 1 + 2) mod 4 = 3 /\ (i + 1 + 3) mod 4 = 0) as (E1 & E2 & E3 & E4 & E5 & E6) by (repeat split; divmod)
    |assert ((i + 1) mod 4 = 2 /\ (i + 2) mod 4 = 3 /\ (i + 3) mod 4 = 0 /\ (i + 1 + 1) mod 4 = 3 /\ (i + 1 + 2) mod 4 = 0 /\ (i + 1 + 3) mod 4 = 1) as (E1 & E2 & E3 & E4 & E5 & E6) by (repeat split; divmod)
    |assert ((i + 1) mod 4 = 3 /\ (i + 2) mod 4 = 0 /\ (i + 3) mod 4 = 1 /\ (i + 1 + 1) mod 4 = 0 /\ (i + 1 + 2) mod 4 = 1 /\ (i + 1 + 3) mod 4 = 2) as (E1 & E2 & E3 & E4 & E5 & E6) by (repeat split; divmod)
    |assert ((i + 1) mod 4 = 0 /\ (i + 2) mod 4 = 1 /\ (i + 3) mod 4 = 2 /\ (i + 1 + 1) mod 4 = 1 /\ (i + 1 + 2) mod 4 = 2 /\ (i + 1 + 3) mod 4 = 3) as (E1 & E2 & E3 & E4 & E5 & E6) by (repeat split; divmod)];
    rewrite H, E1, E2, E3, E4, E5, E6; cbn [get put ra rb rc rd_]; rewrite E, Hland; do 2 f_equal; apply Hcomm.
Qed.

Definition words_of (v : registers) : list Z := [ra v; rb v; rc v; rd_ v].

Lemma steps_spec ptr v block n : length block = 16%nat -> (n <= 64)%nat ->
  exists v' block', fold_left (step ptr) (map expected (upto n)) (v, block) = (v', block') /\
    view (Z.of_nat n) v' = fold_left (rfc_step (block_words ptr)) (upto n) (words_of v) /\ block_ok ptr block' (Z.of_nat n).
Proof.
  intros Hl. induction n as [|n IH]; intros Hn.
  { exists v, block. split; [done|]. split; [done|]. split; [done|]. intros k Hk. lia. }
  destruct (IH ltac:(lia)) as (v1 & block1 & E1 & V1 & B1).
  destruct (step_spec ptr v1 block1 (Z.of_nat n) ltac:(lia) B1) as (v2 & block2 & E2 & V2 & B2).
  exists v2, block2. rewrite upto_succ, map_app, !fold_left_app, E1. cbn [map fold_left].
  rewrite Nat2Z.inj_succ, <- Z.add_1_r, <- V1. by split.
Qed.

(** One turn of body is the compression function. *)
Lemma body_block_compress v block ptr : length block = 16%nat ->
  exists v' block', body_block v block ptr = (v', block') /\ words_of v' = compress (words_of v) ptr /\ length block' = 16%nat.
Proof.
  intros Hl. unfold body_block. change (round_1 ++ round_2 ++ round_3 ++ round_4) with program. rewrite program_expected.
  destruct (steps_spec ptr v block 64 Hl ltac:(lia)) as (w & block' & -> & V & [Hl' _]).
  eexists _, block'. split; [reflexivity|]. split; [|done]. cbn [compress MD5_hash]. unfold md5_compress. rewrite <- V.
  destruct w. reflexivity.
Qed.

(** From here on the two are only compared by name. *)
#[local] Opaque md5_compress body_block.

Lemma body_loop_S fuel v block ptr size : body_loop (S fuel) v block ptr size =
  let '(v, block) := body_block v block ptr in
  if nz (u64 (size - 64)) then body_loop fuel v block (drop 64 ptr) (u64 (size - 64)) else (v, block, drop 64 ptr).
Proof. reflexivity. Qed.

Lemma compress_blocks_S n h ptr : (64 <= length ptr)%nat ->
  compress_blocks (S n) h ptr = compress_blocks n (compress h ptr) (drop 64 ptr).
Proof. intros Hl. cbn [compress_blocks]. by rewrite compress_take. Qed.

(** the loop of body over [n] blocks *)
Lemma body_loop_spec n : forall v block ptr, length block = 16%nat -> (64 * S n <= length ptr)%nat -> Z.of_nat (64 * S n) < 2 ^ 64 ->
  exists v' block', body_loop (S n) v block ptr (Z.of_nat (64 * S n)) = (v', block', drop (64 * S n) ptr) /\
    words_of v' = compress_blocks (S n) (words_of v) ptr /\ length block' = 16%nat.
Proof.
  induction n as [|n IH]; intros v block ptr Hb Hl Hs; rewrite body_loop_S, compress_blocks_S by lia;
    destruct (body_block_compress v block ptr Hb) as (v1 & block1 & -> & E1 & Hb1); rewrite <- E1.
  { exists v1, block1. replace (Z.of_nat (64 * 1) - 64) with 0 by lia.
    split; [reflexivity|]. split; [reflexivity | exact Hb1]. }
  replace (Z.of_nat (64 * S (S n)) - 64) with (Z.of_nat (64 * S n)) by lia. rewrite u64_small by lia.
  assert (nz (Z.of_nat (64 * S n)) = true) as -> by (unfold nz; apply negb_true_iff, Z.eqb_neq; lia).
  destruct (IH v1 block1 (drop 64 ptr) Hb1 ltac:(rewrite length_drop; lia) ltac:(lia)) as (v2 & block2 & -> & W2 & Hb2).
  exists v2, block2. split; [|split; [exact W2 | exact Hb2]]. rewrite drop_drop. do 2 f_equal. lia.
Qed.

Lemma body_spec ctx data n : length (block ctx) = 16%nat -> (0 < n)%nat -> (64 * n <= length data)%nat -> Z.of_nat (64 * n) < 2 ^ 64 ->
  exists v' block', body ctx data (Z.of_nat (64 * n)) = (Md5Ctx (lo ctx) (hi ctx) v' (buffer ctx) block', drop (64 * n) data) /\
    words_of v' = compress_blocks n (words_of (regs ctx)) data /\ length block' = 16%nat.
Proof.
  intros Hb Hn Hl Hs. destruct n as [|n]; [lia|]. unfold body.
  replace (Z.to_nat (Z.of_nat (64 * S n) / 64)) with (S n) by divmod.
  destruct (body_loop_spec n (regs ctx) (block ctx) data Hb Hl Hs) as (v' & block' & -> & E & Hb').
  by exists v', block'.
Qed.

(** ** The incremental interface *)
Record md5_hashed (msg : list Z) (ctx : MD5_CTX) : Prop := {
  mh_lo : lo ctx = Z.of_nat (length msg) mod 2 ^ 29;
  mh_hi : hi ctx = u32 (Z.of_nat (length msg) / 2 ^ 29);
  mh_absorbed : absorbed msg (words_of (regs ctx)) (buffer ctx);
  mh_block : length (block ctx) = 16%nat
}.

Definition ctx_ok (ctx : MD5_CTX) : Prop := length (buffer ctx) = 64%nat /\ length (block ctx) = 16%nat.

Lemma md5_hashed_init ctx : ctx_ok ctx -> md5_hashed [] (MD5_Init ctx).
Proof. intros [Hb Hk]. split; [done | done | exact (absorbed_nil (H:=MD5_hash) _ Hb) | done]. Qed.

(** the 61 bits of the count of bytes *)
Lemma MD5_count_spec ctx size n : 0 <= n -> 0 <= size -> lo ctx = n mod 2 ^ 29 -> hi ctx = u32 (n / 2 ^ 29) ->
  MD5_count ctx size = Md5Ctx ((n + size) mod 2 ^ 29) (u32 ((n + size) / 2 ^ 29)) (regs ctx) (buffer ctx) (block ctx).
Proof.
  intros Hn Hs Hlo Hhi. unfold MD5_count. rewrite Hlo, Hhi. change 0x1fffffff with (2 ^ 29 - 1).
  rewrite land_mod, Z.shiftr_div_pow2 by lia.
  assert (u64 (n mod 2 ^ 29 + size) mod 2 ^ 29 = (n + size) mod 2 ^ 29) as ->.
  { unfold u64. rewrite Z.mod_mod_divide by (by exists (2 ^ 35)). apply Zplus_mod_idemp_l. }
  assert ((n + size) / 2 ^ 29 = n / 2 ^ 29 + size / 2 ^ 29 + (if (n + size) mod 2 ^ 29 <? n mod 2 ^ 29 then 1 else 0)) as ->.
  { change (2 ^ 29) with 536870912. destruct (Z.ltb_spec ((n + size) mod 536870912) (n mod 536870912)); divmod. }
  f_equal. destruct (_ <? _); rewrite u32_add_l; [rewrite <- Z.add_assoc, u32_add_l|]; f_equal; lia.
Qed.

Lemma length_store64_le w : length (store64_le w) = 8%nat.
Proof. done. Qed.

(** [lo], shifted, and [hi] are the two halves of the length in bits *)
Lemma store_counters n : 0 <= n ->
  store32_le (u32 (Z.shiftl (n mod 2 ^ 29) 3)) ++ store32_le (u32 (n / 2 ^ 29)) = store64_le (u64 (8 * n)).
Proof.
  intros Hn. assert (u32 (Z.shiftl (n mod 2 ^ 29) 3) = u64 (8 * n) mod 2 ^ 32) as ->.
  { unfold u32, u64. rewrite Z.shiftl_mul_pow2, Z.mod_mod_divide by (lia || by exists (2 ^ 32)). divmod. }
  assert (u32 (n / 2 ^ 29) = u64 (8 * n) / 2 ^ 32) as -> by (unfold u32, u64; divmod).
  assert (0 <= u64 (8 * n)) as Hw by (apply Z.mod_pos_bound; lia). generalize dependent (u64 (8 * n)). intros w Hw.
  unfold store32_le, store64_le, u8. cbn [app]. rewrite !Z.shiftr_div_pow2, !Z.div_div by lia.
  repeat match goal with |- _ :: _ = _ :: _ => f_equal end; divmod.
Qed.

Lemma used_offset msg ctx : md5_hashed msg ctx -> Z.land (lo ctx) 0x3f = Z.of_nat (length msg mod 64).
Proof.
  intros [Hlo _ _ _]. rewrite Hlo. change 0x3f with (2 ^ 6 - 1). rewrite land_mod by lia. rewrite Nat2Z.inj_mod. divmod.
Qed.

(** [size & ~0x3f] *)
Lemma whole_blocks n : 0 <= n < 2 ^ 64 -> Z.land n (u64 (Z.lnot 0x3f)) = 64 * (n / 64).
Proof.
  intros Hn. change (u64 (Z.lnot 0x3f)) with (Z.shiftl (Z.ones 58) 6).
  replace (64 * (n / 64)) with (Z.shiftl (Z.shiftr n 6) 6) by (rewrite Z.shiftr_div_pow2, Z.shiftl_mul_pow2 by lia; change (2 ^ 6) with 64; lia).
  apply Z.bits_inj'. intros k Hk. rewrite Z.land_spec, !Z.shiftl_spec by lia.
  destruct (decide (k < 6)); [rewrite !(Z.testbit_neg_r _ (k - 6)) by lia; apply andb_false_r|].
  rewrite Z.shiftr_spec by lia. replace (k - 6 + 6) with k by lia.
  destruct (decide (k < 64)); [rewrite Z.ones_spec_low by lia; apply andb_true_r|].
  replace n with (n mod 2 ^ 64) by (apply Z.mod_small; lia). by rewrite Z.mod_pow2_bits_high by lia.
Qed.

(** the context but for the counters *)
Definition ctx_absorbed (msg : list Z) (ctx : MD5_CTX) : Prop :=
  absorbed msg (words_of (regs ctx)) (buffer ctx) /\ length (block ctx) = 16%nat.
Definition same_counters (c d : MD5_CTX) : Prop := lo c = lo d /\ hi c = hi d.

Lemma rest_absorbed msg ctx data : ctx_absorbed msg ctx -> (length msg mod 64 = 0)%nat -> Z.of_nat (length data) < 2 ^ 64 ->
  let ctx' := MD5_Update_rest ctx data (Z.of_nat (length data)) in ctx_absorbed (msg ++ data) ctx' /\ same_counters ctx' ctx.
Proof.
  intros [Ha Hk] Hz Hs. cbv zeta. unfold MD5_Update_rest. pose proof (Nat.div_mod (length data) 64 ltac:(lia)) as Ed.
  pose proof (Nat.mod_upper_bound (length data) 64 ltac:(lia)) as Hd. set (n := (length data / 64)%nat) in *.
  pose proof (absorb_blocks n msg _ _ data Ha Hz ltac:(lia)) as Hb.
  destruct (blocks_of msg (take (64 * n) data) (length msg / 64 + n) 0) as [_ Hm].
  { pose proof (Nat.div_mod (length msg) 64 ltac:(lia)). rewrite length_app, length_take. lia. }
  { lia. }
  pose proof (absorb_short _ _ _ (drop (64 * n) data) Hb ltac:(rewrite Hm, length_drop; lia)) as Hsh.
  rewrite Hm, <- app_assoc, take_drop in Hsh.
  assert (Z.of_nat (length data) / 64 = Z.of_nat n) as En by (change 64 with (Z.of_nat 64); by rewrite <- Nat2Z.inj_div).
  destruct (Z.geb_spec (Z.of_nat (length data)) 64).
  - rewrite whole_blocks, En by lia. replace (64 * Z.of_nat n) with (Z.of_nat (64 * n)) by lia.
    destruct (body_spec ctx data n Hk ltac:(lia) ltac:(lia) ltac:(lia)) as (v & block' & -> & W & Hk').
    change 0x3f with (2 ^ 6 - 1). rewrite land_mod, firstn_all2 by (rewrite ?length_drop; lia || divmod).
    split; [|by split]. split; [|exact Hk']. cbn [with_buffer regs buffer]. rewrite W. exact Hsh.
  - assert (n = 0)%nat as E0 by lia. rewrite E0, Nat.mul_0_r, drop_0 in Hsh. rewrite firstn_all2 by lia.
    split; [|by split]. split; [exact Hsh | exact Hk].
Qed.

(** one more byte string *)
Lemma MD5_Update_hashed msg ctx data : md5_hashed msg ctx -> Z.of_nat (length data) < 2 ^ 64 ->
  md5_hashed (msg ++ data) (MD5_Update ctx data).
Proof.
  intros Hc Hs. pose proof (used_offset msg ctx Hc) as Hu. destruct Hc as [Hlo Hhi Ha Hk].
  pose proof (Nat.mod_upper_bound (length msg) 64 ltac:(lia)) as Hr. pose proof (Nat.div_mod (length msg) 64 ltac:(lia)) as Em.
  unfold MD5_Update. rewrite Hu, (MD5_count_spec ctx _ (Z.of_nat (length msg))) by (done || lia).
  rewrite <- Nat2Z.inj_add, <- length_app. remember (length msg mod 64)%nat as r eqn:Er.
  match goal with |- context [MD5_Update_rest ?c data _] => set (ctx1 := c) end.
  assert (forall ctx', ctx_absorbed (msg ++ data) ctx' /\ same_counters ctx' ctx1 -> md5_hashed (msg ++ data) ctx') as Hmk.
  { intros ctx' [[H1 H2] [H3 H4]]. split; [by rewrite H3 | by rewrite H4 | exact H1 | exact H2]. }
  destruct (nz (Z.of_nat r)) eqn:E; unfold nz in E; b2p; apply Hmk; [|apply rest_absorbed; [by split | lia | done]].
  destruct (Z.ltb_spec (Z.of_nat (length data)) (64 - Z.of_nat r)).
  { split; [|by split]. split; [|exact Hk]. subst r. apply (absorb_short _ _ _ data Ha). lia. }
  replace (Z.to_nat (64 - Z.of_nat r)) with (64 - r)%nat by lia.
  assert (length (take (64 - r) data) = 64 - r)%nat as Ht by (rewrite length_take; lia).
  assert (Hf : absorbed (msg ++ take (64 - r) data) _ _) by (apply (absorb_fill _ _ _ _ Ha); lia). rewrite <- Er in Hf.
  assert (length (buffer ctx1) = 64%nat) as Hb64 by apply Ha.
  match goal with |- context [body ?c ?b 64] => destruct (body_spec c b 1 Hk) as (v & block' & Eb & W & Hk') end;
    [lia | cbn [with_buffer buffer]; rewrite length_copy_into; lia | lia |].
  change (Z.of_nat (64 * 1)) with 64 in Eb. rewrite Eb.
  replace (Z.of_nat (length data) - (64 - Z.of_nat r)) with (Z.of_nat (length (drop (64 - r) data))) by (rewrite length_drop; lia).
  match goal with |- context [MD5_Update_rest ?c _ _] => set (ctx2 := c) end.
  destruct (rest_absorbed (msg ++ take (64 - r) data) ctx2 (drop (64 - r) data)) as [H1 H2].
  - split; [|exact Hk']. rewrite compress_blocks_S in W by (cbn [with_buffer buffer]; rewrite length_copy_into; lia).
    cbn [ctx2 regs]. rewrite W. exact Hf.
  - destruct (blocks_of msg (take (64 - r) data) (length msg / 64 + 1) 0) as [_ Hm]; [rewrite length_app; lia | lia | exact Hm].
  - rewrite length_drop. lia.
  - rewrite <- app_assoc, take_drop in H1. split; [exact H1|]. destruct H2 as [H2 H3]. by split.
Qed.

(** ** The digest *)

(** body on the buffer *)
Lemma body_buffer ctx : length (block ctx) = 16%nat -> length (buffer ctx) = 64%nat ->
  exists v' block', fst (body ctx (buffer ctx) 64) = Md5Ctx (lo ctx) (hi ctx) v' (buffer ctx) block' /\
    words_of v' = compress (words_of (regs ctx)) (buffer ctx) /\ length block' = 16%nat.
Proof.
  intros Hk Hb. destruct (body_spec ctx (buffer ctx) 1 Hk ltac:(lia) ltac:(lia) ltac:(lia)) as (v & block' & E & W & Hk').
  change (Z.of_nat (64 * 1)) with 64 in E. exists v, block'. rewrite E. rewrite compress_blocks_S in W by lia. cbn [compress_blocks] in W.
  split; [reflexivity|]. split; [exact W | exact Hk'].
Qed.

Lemma MD5_Final_hashed msg ctx : md5_hashed msg ctx -> fst (MD5_Final ctx) = md5 msg.
Proof.
  intros Hc. pose proof (used_offset msg ctx Hc) as Hu. destruct Hc as [Hlo Hhi Ha Hk].
  pose proof (Nat.mod_upper_bound (length msg) 64 ltac:(lia)) as Hr. assert (length (buffer ctx) = 64%nat) as Hb by apply Ha.
  assert (forall v, words_of v = final_state msg ->
    store32_le (ra v) ++ store32_le (rb v) ++ store32_le (rc v) ++ store32_le (rd_ v) = md5 msg) as Hout.
  { intros v E. unfold md5, digest. rewrite <- E. cbn [digest_of MD5_hash words_of flat_map]. by rewrite app_nil_r. }
  assert (store32_le (u32 (Z.shiftl (lo ctx) 3)) ++ store32_le (hi ctx) = length_bytes (u64 (8 * Z.of_nat (length msg)))) as Hlen.
  { rewrite Hlo, Hhi. apply store_counters. lia. }
  unfold MD5_Final. rewrite Hu. remember (length msg mod 64)%nat as r eqn:Er.
  destruct (Z.ltb_spec (64 - (Z.of_nat r + 1)) 8).
  - match goal with |- context [body ?c (buffer ?c) 64] => destruct (body_buffer c Hk) as (v1 & block1 & E1 & W1 & Hk1) end.
    { cbn [with_buffer buffer]. by rewrite length_copy_into, length_wr. }
    match goal with |- context [body ?c (buffer ?c) 64] => destruct (body c (buffer c) 64) as [ctx1 ?] end.
    cbn [fst] in E1. subst ctx1.
    match goal with |- context [body ?c (buffer ?c) 64] => destruct (body_buffer c Hk1) as (v2 & block2 & E2 & W2 & _) end.
    { cbn [with_buffer buffer]. by rewrite !length_copy_into, length_wr. }
    match goal with |- context [body ?c (buffer ?c) 64] => destruct (body c (buffer c) 64) as [ctx2 ?] end.
    cbn [fst] in *. subst ctx2. cbn [regs]. apply Hout. rewrite W2. cbn [regs buffer with_buffer lo hi] in *. rewrite W1, Hlen.
    replace (Z.to_nat (64 - (Z.of_nat r + 1))) with (63 - r)%nat by lia.
    subst r. exact (absorb_padding_long msg _ _ _ Ha ltac:(lia) (eq_refl _)).
  - match goal with |- context [body ?c (buffer ?c) 64] => destruct (body_buffer c Hk) as (v2 & block2 & E2 & W2 & _) end.
    { cbn [with_buffer buffer]. by rewrite !length_copy_into, length_wr. }
    match goal with |- context [body ?c (buffer ?c) 64] => destruct (body c (buffer c) 64) as [ctx2 ?] end.
    cbn [fst] in *. subst ctx2. cbn [regs]. apply Hout. rewrite W2. cbn [regs buffer with_buffer lo hi] in *. rewrite Hlen.
    replace (Z.to_nat (64 - (Z.of_nat r + 1) - 8)) with (55 - r)%nat by lia.
    subst r. exact (absorb_padding_short msg _ _ _ Ha ltac:(lia) (eq_refl _)).
Qed.

(** ** Properties *)

(** One turn of the loop of body, 64 macros on four variables with the words
    of the block kept on the way, is the compression function of RFC 1321 with
    its constants 2^32 |sin i| and its rotating variables. *)
Theorem body_block_is_compress v block ptr : length block = 16%nat ->
  words_of (fst (body_block v block ptr)) = md5_compress (words_of v) ptr.
Proof. intros Hl. destruct (body_block_compress v block ptr Hl) as (v' & block' & -> & E & _). exact E. Qed.

Lemma body_block_is_compress_witness :
  words_of (fst (body_block (Registers 1 2 3 4) (repeat 5 16) (repeat 6 64))) = md5_compress [1; 2; 3; 4] (repeat 6 64).
Proof. apply body_block_is_compress. reflexivity. Defined.

(** C17: The incremental MD5 interface refines the reference: however a message is
    cut into calls of MD5_Update, whatever the context holds before MD5_Init, the
    digest is the MD5 of the whole message, and the carry from the low to the
    high counter is right for messages of any length. *)
Theorem md5_incremental ctx pieces : ctx_ok ctx -> Forall (fun p => Z.of_nat (length p) < 2 ^ 64) pieces ->
  fst (MD5_Final (fold_left MD5_Update pieces (MD5_Init ctx))) = md5 (concat pieces).
Proof.
  intros Hc Hp. apply MD5_Final_hashed.
  assert (forall msg c, md5_hashed msg c -> md5_hashed (msg ++ concat pieces) (fold_left MD5_Update pieces c)) as H.
  { clear Hc. induction Hp as [|p pieces Hp Hps IH]; intros msg c Hm; cbn [concat fold_left]; [by rewrite app_nil_r|].
    rewrite app_assoc. by apply IH, MD5_Update_hashed. }
  exact (H [] _ (md5_hashed_init ctx Hc)).
Qed.

Lemma md5_incremental_witness :
  fst (MD5_Final (fold_left MD5_Update [[97]; []; [98; 99]] (MD5_Init blank_ctx))) = md5 [97; 98; 99].
Proof.
  apply (md5_incremental blank_ctx [[97]; []; [98; 99]]); [split; reflexivity|]. repeat (constructor; [reflexivity|]). constructor.
Defined.
