(* ===== verification/Recipe.v ===== *)
(** recipe.c: the recipe of a form, its hash, and the text of a filled-in form. *)
From Stdlib Require Import String.
From S2P Require Import Prelude Charset CString BlockHash Md5.
Local Open Scope Z_scope.

(** ** Field types *)
Definition FIELDTYPE_INTEGER : Z := 0.
Definition FIELDTYPE_FLOAT : Z := 1.
Definition FIELDTYPE_FIXEDPOINT : Z := 2.
Definition FIELDTYPE_BOOLEAN : Z := 3.
Definition FIELDTYPE_TIMEOFDAY : Z := 4.
Definition FIELDTYPE_DATE : Z := 5.
Definition FIELDTYPE_LATLONG : Z := 6.
Definition FIELDTYPE_TEXT : Z := 7.
Definition FIELDTYPE_UUID : Z := 8.
Definition FIELDTYPE_TIMEDATE : Z := 9.
Definition FIELDTYPE_ENUM : Z := 10.
Definition FIELDTYPE_MAGPIUUID : Z := 11.
Definition FIELDTYPE_MAGPITIMEDATE : Z := 12.
Definition FIELDTYPE_MULTISELECT : Z := 13.
Definition FIELDTYPE_SUBFORM : Z := 14.
Definition MAX_ENUM_VALUES : Z := 32.
Definition MAX_FIELDS : Z := 1024.

(** the names, in the order of the comparisons *)
Definition fieldtype_names : list (list Z * Z) := [
  (codes "integer", FIELDTYPE_INTEGER);
  (codes "int", FIELDTYPE_INTEGER);
  (codes "float", FIELDTYPE_FLOAT);
  (codes "decimal", FIELDTYPE_FIXEDPOINT);
  (codes "fixedpoint", FIELDTYPE_FIXEDPOINT);
  (codes "boolean", FIELDTYPE_BOOLEAN);
  (codes "bool", FIELDTYPE_BOOLEAN);
  (codes "timeofday", FIELDTYPE_TIMEOFDAY);
  (codes "timestamp", FIELDTYPE_TIMEDATE);
  (codes "datetime", FIELDTYPE_TIMEDATE);
  (codes "magpitimestamp", FIELDTYPE_MAGPITIMEDATE);
  (codes "date", FIELDTYPE_DATE);
  (codes "latlong", FIELDTYPE_LATLONG);
  (codes "geopoint", FIELDTYPE_LATLONG);
  (codes "text", FIELDTYPE_TEXT);
  (codes "string", FIELDTYPE_TEXT);
  (codes "image", FIELDTYPE_TEXT);
  (codes "information", FIELDTYPE_TEXT);
  (codes "uuid", FIELDTYPE_UUID);
  (codes "magpiuuid", FIELDTYPE_MAGPIUUID);
  (codes "enum", FIELDTYPE_ENUM);
  (codes "multi", FIELDTYPE_MULTISELECT);
  (codes "subform", FIELDTYPE_SUBFORM);
  (codes "dropdown", FIELDTYPE_ENUM);
  (codes "radio", FIELDTYPE_ENUM);
  (codes "select1", FIELDTYPE_ENUM);
  (codes "select2", FIELDTYPE_ENUM);
  (codes "selectn", FIELDTYPE_MULTISELECT);
  (codes "checkbox", FIELDTYPE_MULTISELECT)].

Fixpoint lookup_name (table : list (list Z * Z)) (name : list Z) : Z :=
  match table with
  | [] => -1
  | (n, t) :: table => if strcaseeq name n then t else lookup_name table name
  end.
Definition recipe_parse_fieldtype (name : list Z) : Z := lookup_name fieldtype_names name.

Definition recipe_field_type_name (f : Z) : list Z :=
  if f =? FIELDTYPE_INTEGER then codes "integer"
  else if f =? FIELDTYPE_FLOAT then codes "float"
  else if f =? FIELDTYPE_FIXEDPOINT then codes "fixedpoint"
  else if f =? FIELDTYPE_BOOLEAN then codes "boolean"
  else if f =? FIELDTYPE_TIMEOFDAY then codes "timeofday"
  else if f =? FIELDTYPE_TIMEDATE then codes "timestamp"
  else if f =? FIELDTYPE_MAGPITIMEDATE then codes "magpitimestamp"
  else if f =? FIELDTYPE_DATE then codes "date"
  else if f =? FIELDTYPE_LATLONG then codes "latlong"
  else if f =? FIELDTYPE_TEXT then codes "text"
  else if f =? FIELDTYPE_UUID then codes "uuid"
  else if f =? FIELDTYPE_MAGPIUUID then codes "magpiuuid"
  else if f =? FIELDTYPE_ENUM then codes "enum"
  else if f =? FIELDTYPE_MULTISELECT then codes "multi"
  else if f =? FIELDTYPE_SUBFORM then codes "subform"
  else codes "unknown".

(** ** The data of a recipe; the lists that are linked by pointers are lists. *)
Record field := Field {
  f_name : list Z; f_type : Z; f_minimum : Z; f_maximum : Z; f_precision : Z;
  enum_value : list (list Z); enum_count : Z
}.
Record recipe := Recipe { formname : list Z; formhash : list Z; field_list : list field; field_count : Z }.

(** What a function returns: a value, [NULL], or nothing that can be relied on,
    because it has written past the end of an array. *)
Inductive result (A : Type) := Value (a : A) | Null | Overrun.
Arguments Value {A} a.
Arguments Null {A}.
Arguments Overrun {A}.
Definition bind {A B} (r : result A) (k : A -> result B) : result B :=
  match r with Value a => k a | Null => Null | Overrun => Overrun end.
Notation "x <- e ;; k" := (bind e (fun x => k)) (at level 90, e at level 60, k at level 200, right associativity) : succinct_scope.
Local Open Scope succinct_scope.

(** ** The hash of a form *)

(** the index after the last slash *)
Fixpoint basename_start (i start : Z) (path : list Z) : Z :=
  match path with
  | [] => start
  | c :: path => basename_start (i + 1) (if c =? 47 then i + 1 else start) path
  end.

(** [recipe_name], the copy of the characters from [start] to [end] and a NUL; the
    array has 1024 elements.  [path] has no NUL, so that reading one element past
    its end gives the terminator. *)
Definition recipe_basename (path : list Z) : result (list Z) :=
  let start := basename_start 0 0 path in
  let len := Z.of_nat (length path) in
  let last := if (len >? 7) && strcaseeq (codes ".recipe") (skipn (Z.to_nat (len - 7)) path) then len - 7 - 1 else len in
  let copied := firstn (Z.to_nat (last + 1 - start)) (skipn (Z.to_nat start) (path ++ [0])) in
  if Z.of_nat (length copied) >=? 1024 then Overrun else Value (cstr (copied ++ [0])).

Section Recipe.
Context `{M : Memory}.

(** a context on the stack that nothing has been stored in *)
Definition stack_ctx : MD5_CTX :=
  let w := garbage 6 in
  Md5Ctx (rd w 0) (rd w 1) (Registers (rd w 2) (rd w 3) (rd w 4) (rd w 5)) (garbage 64) (garbage 16).

(** the hash and the name *)
Definition recipe_form_hash (recipe_file : list Z) : result (list Z * list Z) :=
  recipe_name <- recipe_basename recipe_file ;;
  let md5 := MD5_Init stack_ctx in
  let md5 := MD5_Update md5 (codes "SMAC Binary Format v2") in
  let md5 := MD5_Update md5 recipe_name in
  let '(hash, _) := MD5_Final md5 in
  Value (firstn 6 hash, recipe_name).

(** ** Reading a recipe *)

(** the values of an enumeration: [en] values so far, [e] the current one *)
Fixpoint read_enum_values (rest e : list Z) (values : list (list Z)) : result (list (list Z)) :=
  match rest with
  | [] =>
      if Z.of_nat (length e) >=? 1024 then Overrun
      else if Z.of_nat (length values) >=? MAX_ENUM_VALUES then Null
      else Value (values ++ [e])
  | c :: rest =>
      if c =? 44 then
        if Z.of_nat (length e) >=? 1024 then Overrun
        else if Z.of_nat (length values) >=? MAX_ENUM_VALUES then Null
        else read_enum_values rest [] (values ++ [e])
      else if Z.of_nat (length e) >=? 1024 then Overrun
      else read_enum_values rest (e ++ [c]) values
  end.

Definition field_format : list directive :=
  [Until 58; Lit 58; Until 58; Lit 58; Int; Lit 58; Int; Lit 58; Int; Lit 58; Until 10].

Definition has_values (fieldtype : Z) : bool := (fieldtype =? FIELDTYPE_ENUM) || (fieldtype =? FIELDTYPE_MULTISELECT).

(** [enumvalues], which is empty unless it was scanned *)
Definition enum_text (more : list scanned) : list Z := match more with VStr s :: _ => s | _ => [] end.

(** one line of the file *)
Definition read_field (line : list Z) : result field :=
  match sscanf field_format (cstr line) with
  | VStr name :: VStr type :: VInt min :: VInt max :: VInt precision :: more =>
      let enumvalues := enum_text more in
      let fieldtype := recipe_parse_fieldtype type in
      if fieldtype =? -1 then Null
      else if has_values fieldtype then
        values <- read_enum_values enumvalues [] [] ;;
        if Z.of_nat (length values) <? 1 then Null
        else Value (Field name fieldtype min max precision values (Z.of_nat (length values)))
      else Value (Field name fieldtype min max precision [] 0)
  | _ => Null
  end.

Definition add_field (r : recipe) (f : field) : recipe :=
  Recipe (formname r) (formhash r) (field_list r ++ [f]) (field_count r + 1).

Definition end_of_line (r : recipe) (line : list Z) : result recipe :=
  if field_count r >? 1000 then Null
  else if (Z.of_nat (length line) >? 0) && negb (rd line 0 =? 35) then
    f <- read_field line ;; Value (add_field r f)
  else Value r.

Fixpoint recipe_lines (rest line : list Z) (r : recipe) : result recipe :=
  if Z.of_nat (length line) >? 16380 then Null
  else match rest with
  | [] => end_of_line r line
  | c :: rest =>
      if (c =? 10) || (c =? 13) then r <- end_of_line r line ;; recipe_lines rest [] r
      else recipe_lines rest (line ++ [c]) r
  end.

Definition recipe_read (name buffer : list Z) : result recipe :=
  let buffer_size := Z.of_nat (length buffer) in
  if (buffer_size <? 1) || (buffer_size >? 1048576) then Null
  else
    hn <- recipe_form_hash name ;;
    recipe_lines buffer [] (Recipe hn.2 hn.1 [] 0).
End Recipe.

(** ** Records *)

(** An element of [fields]: a key with its value, or a sub-record with its own
    fields. *)
Inductive record_field :=
  | KeyValue (key value : list Z)
  | SubRecord (fields : list record_field).

(** The records that are open, the current one first: [parent] is the next one of
    the list.  A record that is open is the last field of its parent; it is put
    there when it is closed. *)
Definition open_records := list (list record_field).

Definition is_question (f : record_field) : bool :=
  match f with KeyValue key _ => streq (codes "question") key | SubRecord _ => false end.
Definition has_question (fields : list record_field) : bool := existsb is_question fields.

Definition record_line (line : list Z) (open : open_records) : option open_records :=
  match open with
  | [] => None
  | current :: parents =>
      if rd line 0 =? 123 (* { *) then
        if Z.of_nat (length current) >=? MAX_FIELDS then None else Some ([] :: open)
      else if rd line 0 =? 125 (* } *) then
        match parents with
        | [] => None
        | parent :: above =>
            if has_question current || has_question parent then Some ((parent ++ [SubRecord current]) :: above)
            else None
        end
      else if (Z.of_nat (length line) >? 0) && negb (rd line 0 =? 35) then
        match sscanf [Until 61; Lit 61; Until 10] (cstr line) with
        | [VStr key; VStr value] =>
            if Z.of_nat (length current) >=? MAX_FIELDS then None
            else Some ((current ++ [KeyValue key value]) :: parents)
        | _ => None
        end
      else Some open
  end.

(** [l] counts the characters of the line; those from the 1000th on are dropped *)
Fixpoint stripped_lines (rest line : list Z) (l : Z) (open : open_records) : option open_records :=
  let processed := if l >=? 1000 then [] else line in
  match rest with
  | [] => record_line processed open
  | c :: rest =>
      if (c =? 10) || (c =? 13) then
        match record_line processed open with Some open => stripped_lines rest [] 0 open | None => None end
      else stripped_lines rest (if l <? 1000 then line ++ [c] else line) (l + 1) open
  end.

Definition parse_stripped_with_subforms (inp : list Z) : option (list record_field) :=
  match stripped_lines inp [] 0 [[]] with
  | Some [record] => Some record
  | _ => None
  end.
