(* ===== verification/RecipeText.v ===== *)
(** The text of a filled-in form: parse_stripped_with_subforms against a printer. *)
From Stdlib Require Import String.
From S2P Require Import Prelude Charset CString Recipe.
Local Open Scope Z_scope.

(** ** Trees of fields *)
Section Induction.
Variable P : record_field -> Prop.
Hypothesis HKV : forall k v, P (KeyValue k v).
Hypothesis HSub : forall fs, Forall P fs -> P (SubRecord fs).

Fixpoint record_field_tree_ind (f : record_field) : P f :=
  match f with
  | KeyValue k v => HKV k v
  | SubRecord fs =>
      HSub fs ((fix all (fs : list record_field) : Forall P fs :=
        match fs with
        | [] => List.Forall_nil P
        | f :: fs => @List.Forall_cons _ P f fs (record_field_tree_ind f) (all fs)
        end) fs)
  end.
End Induction.

(** ** What can be written down *)
Definition plain (s : list Z) : Prop := Forall (fun c => c <> 0 /\ c <> 10 /\ c <> 13) s.

Record pair_ok (k v : list Z) : Prop := {
  po_key : k <> [] /\ (61 ∉ k) /\ plain k;
  po_head : rd k 0 <> 123 /\ rd k 0 <> 125 /\ rd k 0 <> 35;
  po_value : v <> [] /\ plain v;
  po_length : Z.of_nat (length k + length v) < 999
}.

(** [q]: there is a question among the fields before this one *)
Fixpoint field_ok (q : bool) (f : record_field) : Prop :=
  match f with
  | KeyValue k v => pair_ok k v
  | SubRecord fs =>
      (has_question fs || q) = true /\ Z.of_nat (length fs) <= MAX_FIELDS /\
      (fix all (q : bool) (fs : list record_field) : Prop :=
         match fs with
         | [] => True
         | f :: fs => field_ok q f /\ all (q || is_question f) fs
         end) false fs
  end.
Definition fields_ok : bool -> list record_field -> Prop :=
  fix all (q : bool) (fs : list record_field) : Prop :=
    match fs with
    | [] => True
    | f :: fs => field_ok q f /\ all (q || is_question f) fs
    end.
(** a record: at most MAX_FIELDS fields, and a question for every sub-record *)
Definition record_ok (r : list record_field) : Prop := Z.of_nat (length r) <= MAX_FIELDS /\ fields_ok false r.

Fixpoint print_field (f : record_field) : list Z :=
  match f with
  | KeyValue k v => k ++ 61 :: v ++ [10]
  | SubRecord fs => [123; 10] ++ flat_map print_field fs ++ [125; 10]
  end.
Definition print_record (r : list record_field) : list Z := flat_map print_field r.

(** ** Lines *)
Lemma stripped_line s : plain s -> forall rest line l open, l = Z.of_nat (length line) -> l + Z.of_nat (length s) < 1000 ->
  stripped_lines (s ++ 10 :: rest) line l open =
  match record_line (line ++ s) open with Some open => stripped_lines rest [] 0 open | None => None end.
Proof.
  induction 1 as [|c s (Hc0 & Hc1 & Hc2) Hs IH]; intros rest line l open Hl Hlen; cbn [app stripped_lines length] in *.
  - destruct (Z.geb_spec l 1000); [lia|]. by rewrite app_nil_r.
  - destruct (Z.eqb_spec c 10), (Z.eqb_spec c 13); try lia. cbn [orb]. destruct (Z.ltb_spec l 1000); [|lia].
    rewrite IH by (rewrite ?length_app; cbn [length]; lia). by rewrite <- app_assoc.
Qed.

Lemma whole_line s rest open : plain s -> Z.of_nat (length s) < 1000 ->
  stripped_lines (s ++ 10 :: rest) [] 0 open =
  match record_line s open with Some open => stripped_lines rest [] 0 open | None => None end.
Proof. intros Hs Hl. by rewrite stripped_line. Qed.

Lemma plain_elem s c : plain s -> c ∈ s -> c <> 0 /\ c <> 10 /\ c <> 13.
Proof. intros H Hin. unfold plain in H. rewrite List.Forall_forall in H. by apply H, list_elem_of_In. Qed.
Lemma plain_no_nul s : plain s -> no_nul s.
Proof. intros H Hin. by destruct (plain_elem s 0 H Hin). Qed.
Lemma plain_no_newline s : plain s -> 10 ∉ s.
Proof. intros H Hin. by destruct (plain_elem s 10 H Hin) as (_ & ? & _). Qed.
Definition plainb (s : list Z) : bool := forallb (fun c => negb (c =? 0) && negb (c =? 10) && negb (c =? 13)) s.
Lemma plainb_spec s : plainb s = true -> plain s.
Proof. unfold plainb. rewrite forallb_forall. intros H. apply List.Forall_forall. intros c Hc. apply H in Hc. b2p. done. Qed.
Lemma plain_app s t : plain s -> plain t -> plain (s ++ t).
Proof. intros. by apply Forall_app. Qed.

(** the line of a pair *)
Lemma pair_line k v cur parents : pair_ok k v -> Z.of_nat (length cur) < MAX_FIELDS ->
  record_line (k ++ 61 :: v) (cur :: parents) = Some ((cur ++ [KeyValue k v]) :: parents).
Proof.
  intros [(Hk & Hk61 & Hkp) (H1 & H2 & H3) (Hv & Hvp) Hl] Hcur. unfold record_line.
  assert (rd (k ++ 61 :: v) 0 = rd k 0) as ->. { destruct k; [done|]. reflexivity. }
  destruct (Z.eqb_spec (rd k 0) 123), (Z.eqb_spec (rd k 0) 125), (Z.eqb_spec (rd k 0) 35); try done.
  assert ((Z.of_nat (length (k ++ 61 :: v)) >? 0) = true) as -> by (rewrite length_app; cbn [length]; apply Z.gtb_lt; lia).
  cbn [andb negb].
  assert (no_nul (k ++ 61 :: v)) as Hn.
  { apply plain_no_nul, plain_app; [done|]. constructor; [lia | done]. }
  rewrite cstr_id by done. cbn [sscanf]. rewrite span_not_spec by (eauto). destruct k; [done|]. cbn [Z.eqb Pos.eqb].
  pose proof (span_not_spec 10 v [] (plain_no_newline v Hvp) ltac:(by left)) as E. rewrite app_nil_r in E. rewrite E. destruct v; [done|].
  unfold MAX_FIELDS in *. destruct (Z.geb_spec (Z.of_nat (length cur)) 1024); [lia | done].
Qed.

Lemma open_line cur parents : Z.of_nat (length cur) < MAX_FIELDS ->
  record_line [123] (cur :: parents) = Some ([] :: cur :: parents).
Proof.
  intros Hl. unfold record_line. change (rd [123] 0) with 123. cbn [Z.eqb Pos.eqb].
  destruct (Z.geb_spec (Z.of_nat (length cur)) MAX_FIELDS); [lia | done].
Qed.
Lemma close_line cur parent above : (has_question cur || has_question parent) = true ->
  record_line [125] (cur :: parent :: above) = Some ((parent ++ [SubRecord cur]) :: above).
Proof. intros Hq. unfold record_line. change (rd [125] 0) with 125. cbn [Z.eqb Pos.eqb]. by rewrite Hq. Qed.

(** ** Printing and reading back *)
Lemma has_question_app a b : has_question (a ++ b) = has_question a || has_question b.
Proof. apply existsb_app. Qed.

Definition reads (f : record_field) : Prop := forall rest cur parents,
  field_ok (has_question cur) f -> Z.of_nat (length cur) < MAX_FIELDS ->
  stripped_lines (print_field f ++ rest) [] 0 (cur :: parents) = stripped_lines rest [] 0 ((cur ++ [f]) :: parents).

Lemma reads_fields fs : Forall reads fs -> forall rest cur parents,
  fields_ok (has_question cur) fs -> Z.of_nat (length cur + length fs) <= MAX_FIELDS ->
  stripped_lines (flat_map print_field fs ++ rest) [] 0 (cur :: parents) = stripped_lines rest [] 0 ((cur ++ fs) :: parents).
Proof.
  induction 1 as [|f fs Hf Hfs IH]; intros rest cur parents Hok Hl; cbn [flat_map].
  - by rewrite app_nil_r.
  - destruct Hok as [Hok1 Hok2]. cbn [length] in Hl. rewrite <- app_assoc, Hf by (done || lia).
    rewrite IH; [by rewrite <- app_assoc | | rewrite length_app; cbn [length]; lia].
    rewrite has_question_app. cbn [has_question existsb]. by rewrite orb_false_r.
Qed.

Lemma reads_field f : reads f.
Proof.
  induction f as [k v|fs IH] using record_field_tree_ind; intros rest cur parents Hok Hl.
  - cbn [print_field]. rewrite <- app_assoc. cbn [app]. rewrite <- app_assoc. cbn [app].
    replace (k ++ 61 :: v ++ 10 :: rest) with ((k ++ 61 :: v) ++ 10 :: rest) by (by rewrite <- app_assoc).
    pose proof Hok as [(_ & _ & Hk) _ (_ & Hv) Hlen]. rewrite whole_line, pair_line; try done.
    + apply plain_app; [done|]. constructor; [lia | done].
    + rewrite length_app. cbn [length]. lia.
  - destruct Hok as (Hq & Hn & Hall). cbn [print_field]. rewrite <- !app_assoc.
    change ([123; 10] ++ ?x) with ([123] ++ 10 :: x). rewrite whole_line; [|by repeat constructor|done].
    rewrite open_line by done. rewrite reads_fields; [|done|exact Hall|exact Hn]. cbn [app].
    change (125 :: 10 :: rest) with ([125] ++ 10 :: rest). rewrite whole_line; [|by repeat constructor|done].
    by rewrite close_line.
Qed.

Lemma parse_print r : record_ok r -> parse_stripped_with_subforms (print_record r) = Some r.
Proof.
  intros [Hl Hok]. unfold parse_stripped_with_subforms, print_record.
  pose proof (reads_fields r ltac:(apply List.Forall_forall; intros f _; apply reads_field) [] [] [] Hok ltac:(exact Hl)) as E.
  rewrite app_nil_r in E. rewrite E. reflexivity.
Qed.

(** ** What parsing gives *)
Definition unbroken (s : list Z) : Prop := Forall (fun c => c <> 10 /\ c <> 13) s.

Lemma cstr_plain s : unbroken s -> plain (cstr s).
Proof.
  induction 1 as [|x s [H1 H2] Hs IH]; cbn [cstr]; [constructor|]. destruct (Z.eqb_spec x 0); by constructor.
Qed.

Lemma scan_pair line k v : unbroken line -> Z.of_nat (length line) < 1000 ->
  rd line 0 <> 123 -> rd line 0 <> 125 -> rd line 0 <> 35 ->
  sscanf [Until 61; Lit 61; Until 10] (cstr line) = [VStr k; VStr v] -> pair_ok k v.
Proof.
  intros Hu Hl H1 H2 H3 E. pose proof (cstr_plain line Hu) as Hp. destruct (cstr_prefix line) as [t Ht].
  assert (length (cstr line) <= length line)%nat as Hle by (rewrite Ht at 2; rewrite length_app; lia).
  cbn [sscanf] in E. pose proof (span_not_split 61 (cstr line)) as Hs. destruct (span_not 61 (cstr line)) as [a r].
  destruct Hs as (Es & Ha & Hr). destruct a as [|x a]; [done|]. destruct r as [|y r]; [done|].
  destruct Hr as [|[r' [= -> ->]]]; [done|]. cbn [Z.eqb Pos.eqb] in E.
  pose proof (span_not_split 10 r') as Hs. destruct (span_not 10 r') as [b r]. destruct Hs as (-> & Hb & Hr).
  destruct b as [|z b]; [done|]. injection E as <- <-.
  rewrite Es in Hp, Hle. apply Forall_app in Hp as [Hpk Hp]. inversion Hp as [|? ? _ Hpv]; subst.
  assert (r = []) as ->.
  { destruct Hr as [|[r' ->]]; [done|]. apply (Forall_app _ (z :: b)) in Hpv as [_ Hpv]. inversion Hpv as [|? ? [_ [? _]] _]. done. }
  rewrite app_nil_r in *. rewrite !length_app in Hle. cbn [length] in Hle.
  assert (rd line 0 = x) as Hx by (rewrite Ht, Es; reflexivity). rewrite Hx in *.
  split; [done | done | done | cbn [length] in *; lia].
Qed.

Lemma fields_ok_snoc fs f : forall q, fields_ok q fs -> field_ok (q || has_question fs) f -> fields_ok q (fs ++ [f]).
Proof.
  induction fs as [|g fs IH]; intros q Hfs Hf; cbn [app].
  - cbn [has_question existsb] in Hf. rewrite orb_false_r in Hf. by split.
  - destruct Hfs as [H1 H2]. split; [done|]. apply IH; [done|]. by rewrite <- orb_assoc.
Qed.

Definition open_ok (open : open_records) : Prop :=
  match open with
  | [] => False
  | current :: parents =>
      record_ok current /\ Forall (fun p => Z.of_nat (length p) < MAX_FIELDS /\ fields_ok false p) parents
  end.

Lemma record_line_ok line open open' : unbroken line -> Z.of_nat (length line) < 1000 -> open_ok open ->
  record_line line open = Some open' -> open_ok open'.
Proof.
  intros Hu Hl Hok. destruct open as [|cur parents]; [done|]. destruct Hok as [[Hn Hc] Hp]. unfold record_line.
  destruct (Z.eqb_spec (rd line 0) 123).
  { destruct (Z.geb_spec (Z.of_nat (length cur)) MAX_FIELDS); [done|]. intros [= <-]. split; [done|]. by constructor. }
  destruct (Z.eqb_spec (rd line 0) 125).
  { destruct parents as [|parent above]; [done|]. inversion Hp as [|? ? [Hpl Hpo] Habove]; subst.
    destruct (has_question cur || has_question parent) eqn:Eq; [|done]. intros [= <-]. split; [|done].
    split; [rewrite length_app; cbn [length]; lia|]. apply fields_ok_snoc; [done|]. by split. }
  destruct (_ && _) eqn:E; [|by intros [= <-]].
  b2p. destruct (sscanf _ _) as [|[|k] [|[|v] [|]]] eqn:Es; try done.
  destruct (Z.geb_spec (Z.of_nat (length cur)) MAX_FIELDS); [done|]. intros [= <-]. split; [|done].
  split; [rewrite length_app; cbn [length]; lia|]. apply fields_ok_snoc; [done|].
  by apply (scan_pair line).
Qed.

Lemma stripped_lines_ok rest : forall line l open open',
  unbroken line -> Z.of_nat (length line) = Z.min l 1000 -> 0 <= l -> open_ok open ->
  stripped_lines rest line l open = Some open' -> open_ok open'.
Proof.
  induction rest as [|c rest IH]; intros line l open open' Hu Hl H0 Hok; cbn [stripped_lines];
    assert (unbroken (if l >=? 1000 then [] else line) /\ Z.of_nat (length (if l >=? 1000 then [] else line)) < 1000) as [Hu' Hl']
      by (destruct (Z.geb_spec l 1000); split; (done || cbn [length]; lia || constructor)).
  - by apply record_line_ok.
  - destruct ((c =? 10) || (c =? 13)) eqn:Ec.
    + destruct (record_line _ open) as [open1|] eqn:E; [|done]. apply IH; [constructor | done | lia |].
      by eapply record_line_ok.
    + b2p. apply IH; [| | lia | done].
      * destruct (l <? 1000); [|done]. apply Forall_app. split; [done|]. by repeat constructor.
      * destruct (Z.ltb_spec l 1000); rewrite ?length_app; cbn [length]; lia.
Qed.

Lemma parse_ok inp r : parse_stripped_with_subforms inp = Some r -> record_ok r.
Proof.
  unfold parse_stripped_with_subforms. destruct (stripped_lines inp [] 0 [[]]) as [open|] eqn:E; [|done].
  assert (open_ok open) as H by (eapply (stripped_lines_ok inp [] 0 [[]]); [constructor | done | lia | by repeat constructor | exact E]).
  destruct open as [|rec [|]]; try done. intros [= <-]. by destruct H.
Qed.

(** ** Properties *)

(** C15: A record with at most 1024 fields at each level, keys and values on one
    line each and a question for each sub-form is what the parser makes of its
    text: parse_stripped_with_subforms inverts the printer, for any nesting. *)
Theorem record_roundtrip r : record_ok r -> parse_stripped_with_subforms (print_record r) = Some r.
Proof. apply parse_print. Qed.

Definition sample_record : list record_field :=
  [KeyValue (codes "formid") (codes "visit"); KeyValue (codes "question") (codes "q1");
   SubRecord [KeyValue (codes "formid") (codes "child"); SubRecord [KeyValue (codes "question") (codes "age"); KeyValue (codes "age") (codes "7")];
     KeyValue (codes "question") (codes "c=d")]].

Lemma record_roundtrip_witness : parse_stripped_with_subforms (print_record sample_record) = Some sample_record.
Proof.
  apply (record_roundtrip sample_record).
  assert (forall k v, (negb (bool_decide (k = [])) && negb (bool_decide (61 ∈ k)) && bool_decide (plain k) && negb (bool_decide (v = [])) &&
    bool_decide (plain v) && negb (bool_decide (rd k 0 = 123)) && negb (bool_decide (rd k 0 = 125)) && negb (bool_decide (rd k 0 = 35)) &&
    (Z.of_nat (length k + length v) <? 999)) = true -> pair_ok k v) as H.
  { intros k v Hb. b2p. repeat match goal with H : bool_decide _ = _ |- _ => apply bool_decide_eq_true in H || apply bool_decide_eq_false in H end.
    by split. }
  repeat (first [apply H; vm_compute; reflexivity | split; [vm_compute; (reflexivity || discriminate)|] | split | done]).
Defined.

(** C28: Whatever the input, a record that the parser accepts respects the bounds
    of its arrays and is one that can be printed: each record has at most 1024
    fields, keys and values are not empty and shorter than a line, and every
    sub-record has a question in it or before it. *)
Theorem parsed_record_ok inp r : parse_stripped_with_subforms inp = Some r ->
  record_ok r /\ parse_stripped_with_subforms (print_record r) = Some r.
Proof. intros H. pose proof (parse_ok inp r H) as Hok. split; [exact Hok | by apply parse_print]. Qed.

Lemma parsed_record_ok_witness :
  record_ok [KeyValue (codes "a") (codes "1=2")] /\ parse_stripped_with_subforms (print_record [KeyValue (codes "a") (codes "1=2")]) = Some [KeyValue (codes "a") (codes "1=2")].
Proof. apply (parsed_record_ok (codes "#x" ++ [13; 10] ++ codes "a=1=2")). reflexivity. Defined.
