(* ===== verification/RecipeRead.v ===== *)
(** Recipes: names of types, the hash of a form, reading against a printer, the
    bounds of the arrays. *)
From Stdlib Require Import String.
From S2P Require Import Prelude Charset CString BlockHash Md5 Recipe RecipeText.
Local Open Scope Z_scope.
Local Open Scope succinct_scope.

(** ** The names of the types *)
Lemma strcaseeq_spec a b : strcaseeq a b = true <-> map tolower a = map tolower b.
Proof. apply bool_decide_eq_true. Qed.

Lemma lookup_name_case table a b : map tolower a = map tolower b -> lookup_name table a = lookup_name table b.
Proof.
  intros E. induction table as [|[n t] table IH]; [done|]. cbn [lookup_name]. unfold strcaseeq. by rewrite E, IH.
Qed.

Lemma type_name_parsed t name : 0 <= t < 15 -> strcaseeq name (recipe_field_type_name t) = true -> recipe_parse_fieldtype name = t.
Proof.
  intros Ht E. apply strcaseeq_spec in E. unfold recipe_parse_fieldtype. rewrite (lookup_name_case _ _ _ E).
  apply Z.eqb_eq. revert t Ht E.
  assert (forall t, 0 <= t < Z.of_nat 15 -> (lookup_name fieldtype_names (recipe_field_type_name t) =? t) = true) as H.
  { apply below_cases. vm_compute. reflexivity. }
  intros t Ht _. by apply H.
Qed.

Lemma lookup_name_cases table a : lookup_name table a = -1 \/ lookup_name table a ∈ map snd table.
Proof.
  induction table as [|[n t] table IH]; [by left|]. cbn [lookup_name map snd]. destruct (strcaseeq a n).
  - right. left.
  - destruct IH; [by left | right; by right].
Qed.
Lemma parse_fieldtype_range name : recipe_parse_fieldtype name <> -1 -> 0 <= recipe_parse_fieldtype name < 15.
Proof.
  intros Hn. destruct (lookup_name_cases fieldtype_names name) as [|H]; [done|]. unfold recipe_parse_fieldtype in *.
  assert (forallb (fun t => (0 <=? t) && (t <? 15)) (map snd fieldtype_names) = true) as HF by (vm_compute; reflexivity).
  rewrite forallb_forall in HF. apply list_elem_of_In, HF in H. b2p. lia.
Qed.

(** ** The hash *)
Lemma basename_start_app p s : 47 ∉ s -> (p = [] \/ exists d, p = d ++ [47]) ->
  basename_start 0 0 (p ++ s) = Z.of_nat (length p).
Proof.
  intros Hs Hp.
  assert (forall i st, basename_start i st s = st) as Hplain.
  { induction s as [|c s IH]; intros i st; [done|]. cbn [basename_start]. apply not_elem_of_cons in Hs as [Hc Hs].
    destruct (Z.eqb_spec c 47); [congruence | by apply IH]. }
  destruct Hp as [->|[d ->]]; [apply Hplain|]. rewrite <- app_assoc. cbn [app].
  assert (forall i st, basename_start i st (d ++ 47 :: s) = i + Z.of_nat (length d) + 1) as H.
  { induction d as [|c d IH]; intros i st; cbn [app basename_start length]; [rewrite Hplain; cbn; lia|]. rewrite IH. lia. }
  rewrite H, length_app. cbn [length]. lia.
Qed.

(** the part of a path that names the form: [stem], with [ext] or without *)
Definition names_form (path stem : list Z) : Prop :=
  exists dir ext, path = dir ++ stem ++ ext /\ (dir = [] \/ exists d, dir = d ++ [47]) /\ (47 ∉ stem) /\
    ((ext = [] /\ strcaseeq (codes ".recipe") (skipn (length path - 7) path) = false) \/
     (strcaseeq (codes ".recipe") ext = true /\ dir ++ stem <> [])).

Lemma recipe_basename_spec path stem : no_nul path -> names_form path stem -> Z.of_nat (length stem) < 1023 ->
  recipe_basename path = Value stem.
Proof.
  intros Hnul (dir & ext & -> & Hdir & Hstem & Hext) Hl. unfold recipe_basename.
  assert (no_nul stem) as Hns. { intros Hin. apply Hnul. rewrite !elem_of_app. auto. }
  assert (ext = [] \/ length ext = 7%nat /\ 47 ∉ ext) as Hx.
  { destruct Hext as [[-> _]|[He _]]; [by left|]. right. apply strcaseeq_spec in He. split.
    - apply (f_equal length) in He. rewrite !length_map in He. by rewrite <- He.
    - intros Hin. assert (47 ∈ map tolower ext) as Hin' by (apply list_elem_of_fmap; by exists 47).
      rewrite <- He in Hin'. revert Hin'. apply (bool_decide_unpack _). vm_compute. exact Logic.I. }
  rewrite (basename_start_app dir (stem ++ ext)); [|destruct Hx as [->|[_ Hx]]; rewrite ?app_nil_r; [done | by rewrite not_elem_of_app] | done].
  rewrite Nat2Z.id, <- !app_assoc, drop_app_length.
  destruct Hext as [[-> Hext]|[Hext Hne]].
  - rewrite !app_nil_r in *. destruct (Z.gtb_spec (Z.of_nat (length (dir ++ stem))) 7); cbn [andb].
    + replace (Z.to_nat (Z.of_nat (length (dir ++ stem)) - 7)) with (length (dir ++ stem) - 7)%nat by lia. rewrite Hext. cbn [app].
      rewrite firstn_all2 by (rewrite !length_app; cbn [length]; lia). rewrite length_app. cbn [length].
      destruct (Z.geb_spec (Z.of_nat (length stem + 1)) 1024); [lia|]. rewrite <- app_assoc. cbn [app]. by rewrite cstr_app.
    + cbn [app]. rewrite firstn_all2 by (rewrite !length_app; cbn [length]; lia). rewrite length_app. cbn [length].
      destruct (Z.geb_spec (Z.of_nat (length stem + 1)) 1024); [lia|]. rewrite <- app_assoc. cbn [app]. by rewrite cstr_app.
  - destruct Hx as [->|[Hx _]]; [done|].
    assert (0 < length (dir ++ stem))%nat as Hpos by (destruct (dir ++ stem); [done | cbn; lia]).
    assert ((Z.of_nat (length (dir ++ stem ++ ext)) >? 7) = true) as -> by (apply Z.gtb_lt; rewrite app_assoc, length_app; lia).
    replace (Z.to_nat (Z.of_nat (length (dir ++ stem ++ ext)) - 7)) with (length (dir ++ stem))%nat by (rewrite (app_assoc dir), (length_app (dir ++ stem)); lia).
    rewrite (app_assoc dir stem ext), drop_app_length, Hext. cbn [andb].
    replace (Z.to_nat (Z.of_nat (length ((dir ++ stem) ++ ext)) - 7 - 1 + 1 - Z.of_nat (length dir))) with (length stem) by (rewrite !length_app; lia).
    rewrite take_app_length. destruct (Z.geb_spec (Z.of_nat (length stem)) 1024); [lia|]. by rewrite cstr_app.
Qed.

Section Reading.
Context `{M : Memory} `{HM : !MemoryOk M}.

Lemma stack_ctx_ok : ctx_ok stack_ctx.
Proof.
  pose proof (garbage_length 64 ltac:(lia)). pose proof (garbage_length 16 ltac:(lia)). split; cbn [stack_ctx buffer block]; lia.
Qed.

Lemma recipe_form_hash_value path stem : no_nul path -> names_form path stem -> Z.of_nat (length stem) < 1023 ->
  recipe_form_hash path = Value (take 6 (md5 (codes "SMAC Binary Format v2" ++ stem)), stem).
Proof.
  intros Hnul Hname Hl. unfold recipe_form_hash. rewrite (recipe_basename_spec path stem) by done. cbn [bind].
  pose proof (MD5_Update_hashed [] _ (codes "SMAC Binary Format v2") (md5_hashed_init _ stack_ctx_ok) ltac:(done)) as H1.
  pose proof (MD5_Update_hashed _ _ stem H1 ltac:(lia)) as H2. apply MD5_Final_hashed in H2. cbn [app] in H2.
  destruct (MD5_Final _) as [h c]. cbn [fst] in H2. by rewrite H2.
Qed.

(** ** Fields and their printed form *)
Record field_wf (f : field) : Prop := {
  fw_type : 0 <= f_type f < 15;
  fw_name : f_name f <> [] /\ 58 ∉ f_name f;
  fw_ints : - 2 ^ 31 <= f_minimum f < 2 ^ 31 /\ - 2 ^ 31 <= f_maximum f < 2 ^ 31 /\ - 2 ^ 31 <= f_precision f < 2 ^ 31;
  fw_count : enum_count f = Z.of_nat (length (enum_value f));
  fw_values : if has_values (f_type f) then 1 <= enum_count f <= MAX_ENUM_VALUES else enum_value f = [];
  fw_value : Forall (fun v => (44 ∉ v) /\ Z.of_nat (length v) < 1024) (enum_value f)
}.
Record recipe_ok (r : recipe) : Prop := {
  ro_hash : length (formhash r) = 6%nat;
  ro_count : field_count r = Z.of_nat (length (field_list r)) /\ field_count r <= 1001;
  ro_fields : Forall field_wf (field_list r)
}.

Lemma i32_range z : - 2 ^ 31 <= i32 z < 2 ^ 31.
Proof. unfold i32. pose proof (Z.mod_pos_bound (z + 2 ^ 31) (2 ^ 32) ltac:(lia)). lia. Qed.

Lemma read_enum_values_ok rest : forall e values out,
  44 ∉ e -> Z.of_nat (length values) <= MAX_ENUM_VALUES -> Forall (fun v => (44 ∉ v) /\ Z.of_nat (length v) < 1024) values ->
  read_enum_values rest e values = Value out ->
  1 <= Z.of_nat (length out) <= MAX_ENUM_VALUES /\ Forall (fun v => (44 ∉ v) /\ Z.of_nat (length v) < 1024) out.
Proof.
  induction rest as [|c rest IH]; intros e values out He Hl Hv; cbn [read_enum_values].
  - destruct (Z.geb_spec (Z.of_nat (length e)) 1024); [done|]. destruct (Z.geb_spec (Z.of_nat (length values)) MAX_ENUM_VALUES); [done|].
    intros [= <-]. rewrite length_app. cbn [length]. split; [lia|]. apply Forall_app. split; [done|]. by repeat constructor.
  - destruct (Z.eqb_spec c 44); (destruct (Z.geb_spec (Z.of_nat (length e)) 1024); [done|]).
    + destruct (Z.geb_spec (Z.of_nat (length values)) MAX_ENUM_VALUES); [done|]. apply IH.
      * apply not_elem_of_nil.
      * rewrite length_app. cbn [length]. lia.
      * apply Forall_app. split; [done|]. by repeat constructor.
    + apply IH; [|done|done]. rewrite not_elem_of_app. split; [done|]. by rewrite list_elem_of_singleton.
Qed.

Lemma read_field_ok line f : read_field line = Value f -> field_wf f.
Proof.
  unfold read_field, field_format. cbn [sscanf].
  pose proof (span_not_split 58 (cstr line)) as Hs. destruct (span_not 58 (cstr line)) as [name r1]. destruct Hs as (_ & Hn & _).
  destruct name as [|n name]; [done|]. destruct r1 as [|x1 r1]; [done|]. destruct (x1 =? 58); [|done].
  destruct (span_not 58 r1) as [type r2]. destruct type as [|t type]; [done|]. destruct r2 as [|x2 r2]; [done|]. destruct (x2 =? 58); [|done].
  destruct (scan_int r2) as [[min r3]|]; [|done]. destruct r3 as [|x3 r3]; [done|]. destruct (x3 =? 58); [|done].
  destruct (scan_int r3) as [[max r4]|]; [|done]. destruct r4 as [|x4 r4]; [done|]. destruct (x4 =? 58); [|done].
  destruct (scan_int r4) as [[prec r5]|]; [|done].
  match goal with |- context [enum_text ?m] => generalize m end. intros more.
  destruct (Z.eqb_spec (recipe_parse_fieldtype (t :: type)) (-1)) as [|Ht]; [done|]. apply parse_fieldtype_range in Ht.
  pose proof (i32_range min). pose proof (i32_range max). pose proof (i32_range prec).
  destruct (has_values _) eqn:Ev.
  - destruct (read_enum_values _ [] []) as [values| |] eqn:E; cbn [bind]; try done.
    apply read_enum_values_ok in E as [Hv1 Hv2]; [|apply not_elem_of_nil|done|constructor].
    destruct (Z.ltb_spec (Z.of_nat (length values)) 1); [done|]. intros [= <-]. split; try done. cbn [f_type enum_count]. by rewrite Ev.
  - intros [= <-]. split; try done. cbn [f_type enum_value]. by rewrite Ev.
Qed.

(** ** Reading keeps the recipe well-formed *)
Lemma end_of_line_ok r line r' : recipe_ok r -> end_of_line r line = Value r' -> recipe_ok r'.
Proof.
  intros [Hh [Hc Hm] Hf]. unfold end_of_line. destruct (Z.gtb_spec (field_count r) 1000); [done|].
  destruct (_ && _); [|by intros [= <-]]. destruct (read_field line) as [f| |] eqn:E; cbn [bind]; try done. intros [= <-].
  apply read_field_ok in E. split; cbn [add_field formhash field_count field_list]; [done | |apply Forall_app; split; [done | by apply Forall_singleton]].
  rewrite length_app. cbn [length]. lia.
Qed.

Lemma recipe_lines_ok rest : forall line r r', recipe_ok r -> recipe_lines rest line r = Value r' -> recipe_ok r'.
Proof.
  induction rest as [|c rest IH]; intros line r r' Hr; cbn [recipe_lines]; (destruct (_ >? 16380); [done|]).
  - by apply end_of_line_ok.
  - destruct (_ || _); [|by apply IH]. destruct (end_of_line r line) as [r1| |] eqn:E; cbn [bind]; try done.
    apply IH. by eapply end_of_line_ok.
Qed.

Lemma recipe_form_hash_length path h n : recipe_form_hash path = Value (h, n) -> length h = 6%nat.
Proof.
  unfold recipe_form_hash. destruct (recipe_basename path) as [name| |] eqn:E; cbn [bind]; try done.
  assert (forall c, length (fst (MD5_Final c)) = 16%nat) as H.
  { intros c. unfold MD5_Final. destruct (_ <? 8).
    - destruct (body _ _ _) as [c1 ?]. destruct (body _ _ _) as [c2 ?]. reflexivity.
    - destruct (body _ _ _) as [c2 ?]. reflexivity. }
  specialize (H (MD5_Update (MD5_Update (MD5_Init stack_ctx) (codes "SMAC Binary Format v2")) name)).
  destruct (MD5_Final _) as [h' c]. cbn [fst] in H. intros [= <- <-]. rewrite length_take. lia.
Qed.

(** ** Printing a recipe *)
Fixpoint join_values (values : list (list Z)) : list Z :=
  match values with
  | [] => []
  | [v] => v
  | v :: values => v ++ 44 :: join_values values
  end.
Definition print_field_line (f : field) : list Z :=
  f_name f ++ 58 :: recipe_field_type_name (f_type f) ++ 58 :: show_int (f_minimum f) ++ 58 :: show_int (f_maximum f) ++
  58 :: show_int (f_precision f) ++ 58 :: join_values (enum_value f).
Definition print_recipe (r : recipe) : list Z := flat_map (fun f => print_field_line f ++ [10]) (field_list r).

Record field_printable (f : field) : Prop := {
  fp_wf : field_wf f;
  fp_name : plain (f_name f) /\ rd (f_name f) 0 <> 35;
  fp_values : Forall plain (enum_value f);
  fp_length : Z.of_nat (length (print_field_line f)) <= 16380
}.

Lemma read_values_char rest e values c : c <> 44 -> Z.of_nat (length e) < 1024 ->
  read_enum_values (c :: rest) e values = read_enum_values rest (e ++ [c]) values.
Proof.
  intros Hc He. cbn [read_enum_values]. destruct (Z.eqb_spec c 44); [done|]. by destruct (Z.geb_spec (Z.of_nat (length e)) 1024); [lia|].
Qed.

Lemma read_values_word v : forall rest e values, 44 ∉ v -> Z.of_nat (length e + length v) < 1024 ->
  read_enum_values (v ++ rest) e values = read_enum_values rest (e ++ v) values.
Proof.
  induction v as [|c v IH]; intros rest e values Hv Hl; cbn [app]; [by rewrite app_nil_r|].
  apply not_elem_of_cons in Hv as [Hc Hv]. cbn [length] in Hl.
  rewrite read_values_char, IH by (done || rewrite ?length_app; cbn [length]; lia). by rewrite <- app_assoc.
Qed.

Lemma read_values_join vs : forall values, vs <> [] -> Z.of_nat (length values + length vs) <= MAX_ENUM_VALUES ->
  Forall (fun v => (44 ∉ v) /\ Z.of_nat (length v) < 1024) vs ->
  read_enum_values (join_values vs) [] values = Value (values ++ vs).
Proof.
  induction vs as [|v vs IH]; intros values Hne Hl Hvs; [done|]. inversion Hvs as [|? ? [Hv Hvl] Hvs']; subst. cbn [length] in Hl.
  destruct vs as [|w vs].
  - cbn [join_values]. rewrite <- (app_nil_r v), read_values_word, app_nil_r by done. cbn [app read_enum_values].
    destruct (Z.geb_spec (Z.of_nat (length v)) 1024); [lia|]. by destruct (Z.geb_spec (Z.of_nat (length values)) MAX_ENUM_VALUES); [lia|].
  - change (join_values (v :: w :: vs)) with (v ++ 44 :: join_values (w :: vs)). rewrite read_values_word by done. cbn [app read_enum_values Z.eqb Pos.eqb].
    destruct (Z.geb_spec (Z.of_nat (length v)) 1024); [lia|]. destruct (Z.geb_spec (Z.of_nat (length values)) MAX_ENUM_VALUES); [lia|].
    rewrite IH; [by rewrite <- app_assoc | done | rewrite length_app; cbn [length] in *; lia | done].
Qed.

Lemma plain_show v : - 2 ^ 63 <= v < 2 ^ 63 -> plain (show_int v).
Proof.
  intros Hv. assert (forall n, 0 <= n < 10 ^ 20 -> plain (show_nat 20 n [])) as Hn.
  { intros n Hn. destruct (show_nat_scan n [] Hn Logic.I) as (_ & Hd & _). eapply Forall_impl; [|exact Hd].
    cbv beta. unfold isdigit. intros x Hx. b2p. lia. }
  unfold show_int. destruct (Z.ltb_spec v 0); [constructor; [lia|]|]; apply Hn; lia.
Qed.

Lemma plain_type t : 0 <= t < 15 ->
  plain (recipe_field_type_name t) /\ (58 ∉ recipe_field_type_name t) /\ recipe_field_type_name t <> [].
Proof.
  intros Ht. pose proof (below_cases 15 (fun t => forallb (fun c => (58 <? c)) (recipe_field_type_name t) &&
    (0 <? Z.of_nat (length (recipe_field_type_name t)))) ltac:(vm_compute; reflexivity) t Ht) as H. cbv beta in H.
  apply andb_true_iff in H as [H Hl]. rewrite forallb_forall in H. split; [|split].
  - apply List.Forall_forall. intros c Hc. apply H in Hc. b2p. lia.
  - intros Hin. apply list_elem_of_In, H in Hin. done.
  - by destruct (recipe_field_type_name t).
Qed.

Lemma plain_join vs : Forall plain vs -> plain (join_values vs).
Proof.
  induction 1 as [|v vs Hv Hvs IH]; [constructor|]. destruct vs as [|w vs]; [done|].
  change (join_values (v :: w :: vs)) with (v ++ 44 :: join_values (w :: vs)). apply plain_app; [done|]. by constructor.
Qed.

Lemma print_field_plain f : field_printable f -> plain (print_field_line f).
Proof.
  intros [[Ht _ (H1 & H2 & H3) _ _ _] [Hn _] Hv _]. unfold print_field_line.
  repeat (apply plain_app; [first [done | apply plain_type, Ht | apply plain_show; lia]|constructor; [lia|]]). by apply plain_join.
Qed.

(** a line up to its choices *)
Definition field_head (f : field) : list Z :=
  f_name f ++ 58 :: recipe_field_type_name (f_type f) ++ 58 :: show_int (f_minimum f) ++ 58 :: show_int (f_maximum f) ++
  58 :: show_int (f_precision f).
Lemma print_field_head f : print_field_line f = field_head f ++ 58 :: join_values (enum_value f).
Proof. unfold print_field_line, field_head. by repeat (rewrite <- app_assoc; cbn [app]). Qed.
Lemma scan_head f tail : field_wf f -> stops tail -> sscanf field_format (field_head f ++ tail) =
  VStr (f_name f) :: VStr (recipe_field_type_name (f_type f)) :: VInt (f_minimum f) :: VInt (f_maximum f) :: VInt (f_precision f) ::
  sscanf [Lit 58; Until 10] tail.
Proof.
  intros [Ht [Hn Hn58] (H1 & H2 & H3) _ _ _] Htail. destruct (plain_type _ Ht) as (_ & Ht58 & Htn).
  unfold field_head, field_format. repeat (rewrite <- app_assoc; cbn [app]).
  cbn [sscanf]. rewrite span_not_spec by eauto. destruct (f_name f) as [|n name] eqn:En; [done|]. cbn [Z.eqb Pos.eqb].
  rewrite span_not_spec by eauto. destruct (recipe_field_type_name (f_type f)) as [|t type] eqn:Et; [done|]. cbn [Z.eqb Pos.eqb].
  rewrite !scan_int_show by (lia || exact eq_refl || exact Htail). cbn [Z.eqb Pos.eqb]. by rewrite !i32_small by lia.
Qed.

(** what is read from the printed line *)
Lemma read_print_field f : field_printable f -> read_field (print_field_line f) = Value f.
Proof.
  intros Hp. pose proof (print_field_plain f Hp) as Hplain. destruct Hp as [Hwf _ Hvp _].
  unfold read_field. rewrite cstr_id by (by apply plain_no_nul). rewrite print_field_head, scan_head by done. destruct Hwf as [Ht _ _ Hc Hvals Hval].
  cbn [sscanf Z.eqb Pos.eqb]. rewrite (type_name_parsed (f_type f)) by (done || by apply strcaseeq_spec).
  destruct (Z.eqb_spec (f_type f) (-1)); [lia|].
  pose proof (span_not_spec 10 (join_values (enum_value f)) [] (plain_no_newline _ (plain_join _ Hvp)) ltac:(by left)) as E.
  rewrite app_nil_r in E. rewrite E.
  replace (enum_text _) with (join_values (enum_value f)) by (by destruct (join_values (enum_value f))).
  destruct f as [name0 type0 mi ma pr vals cnt]. cbn [f_name f_type f_minimum f_maximum f_precision enum_value enum_count] in *. subst cnt.
  destruct (has_values type0).
  - rewrite read_values_join; [|by (destruct vals; [cbn in Hvals; lia|])|cbn [length]; lia|done]. cbn [bind app].
    by destruct (Z.ltb_spec (Z.of_nat (length vals)) 1); [lia|].
  - by subst vals.
Qed.
(** and from one that ends before the choices *)
Lemma read_head f : field_wf f -> no_nul (field_head f) -> has_values (f_type f) = false -> read_field (field_head f) = Value f.
Proof.
  intros Hwf Hnul Hv. unfold read_field. rewrite cstr_id by done. rewrite <- (app_nil_r (field_head f)), scan_head by done. destruct Hwf as [Ht _ _ Hc Hvals Hval].
  cbn [sscanf]. rewrite (type_name_parsed (f_type f)) by (done || by apply strcaseeq_spec). destruct (Z.eqb_spec (f_type f) (-1)); [lia|].
  destruct f as [name0 type0 mi ma pr vals cnt]. cbn [f_name f_type f_minimum f_maximum f_precision enum_value enum_count] in *. rewrite Hv in *. by subst.
Qed.

Lemma recipe_lines_line s : plain s -> forall rest line r, Z.of_nat (length line + length s) <= 16380 ->
  recipe_lines (s ++ 10 :: rest) line r = (r <- end_of_line r (line ++ s) ;; recipe_lines rest [] r).
Proof.
  induction 1 as [|c s (Hc0 & Hc1 & Hc2) Hs IH]; intros rest line r Hl; cbn [app recipe_lines length] in *;
    (destruct (Z.gtb_spec (Z.of_nat (length line)) 16380); [lia|]).
  - by rewrite app_nil_r.
  - destruct (Z.eqb_spec c 10), (Z.eqb_spec c 13); try lia. cbn [orb]. rewrite IH by (rewrite length_app; cbn [length]; lia).
    by rewrite <- app_assoc.
Qed.

(** the lines that are read as fields *)
Record line_reads (s : list Z) (f : field) : Prop := {
  lr_plain : plain s;
  lr_head : s <> [] /\ rd s 0 <> 35;
  lr_length : Z.of_nat (length s) <= 16380;
  lr_field : read_field s = Value f
}.
Lemma recipe_lines_read ls fs : Forall2 line_reads ls fs -> forall r rest, field_count r + Z.of_nat (length fs) <= 1000 ->
  recipe_lines (flat_map (fun s => s ++ [10]) ls ++ rest) [] r =
  recipe_lines rest [] (Recipe (formname r) (formhash r) (field_list r ++ fs) (field_count r + Z.of_nat (length fs))).
Proof.
  induction 1 as [|s f ls fs [Hs [Hne H35] Hl Hf] _ IH]; intros r rest Hn; cbn [flat_map length app] in *.
  - destruct r. cbn. by rewrite app_nil_r, Z.add_0_r.
  - rewrite <- !app_assoc. cbn [app]. rewrite recipe_lines_line by (done || (cbn [length]; lia)). cbn [app].
    assert (end_of_line r s = Value (add_field r f)) as ->.
    { unfold end_of_line. destruct (Z.gtb_spec (field_count r) 1000); [lia|]. rewrite Hf.
      destruct (Z.gtb_spec (Z.of_nat (length s)) 0); [|destruct s; [done | cbn [length] in *; lia]].
      by destruct (Z.eqb_spec (rd s 0) 35). }
    cbn [bind]. rewrite IH by (cbn [add_field field_count]; lia). cbn [add_field formname formhash field_list field_count].
    do 2 f_equal; [by rewrite <- app_assoc | lia].
Qed.
Lemma recipe_lines_end r : field_count r <= 1000 -> recipe_lines [] [] r = Value r.
Proof. intros H. cbn [recipe_lines length]. unfold end_of_line. cbn. by destruct (Z.gtb_spec (field_count r) 1000); [lia|]. Qed.

(** a line that begins with the name of the field *)
Lemma line_start f x : field_printable f -> f_name f ++ 58 :: x <> [] /\ rd (f_name f ++ 58 :: x) 0 <> 35.
Proof.
  intros [Hwf [_ H35] _ _]. destruct (fw_name f Hwf) as [Hne _]. by destruct (f_name f).
Qed.
Lemma print_line_reads f : field_printable f -> line_reads (print_field_line f) f.
Proof.
  intros Hf. split; [by apply print_field_plain | apply (line_start f _ Hf) | apply Hf | by apply read_print_field].
Qed.
Lemma printed_lines_read fs : Forall field_printable fs -> Forall2 line_reads (map print_field_line fs) fs.
Proof. induction 1; constructor; [by apply print_line_reads | done]. Qed.

Lemma recipe_lines_print fs r : Forall field_printable fs -> field_count r + Z.of_nat (length fs) <= 1000 ->
  recipe_lines (flat_map (fun f => print_field_line f ++ [10]) fs) [] r =
  Value (Recipe (formname r) (formhash r) (field_list r ++ fs) (field_count r + Z.of_nat (length fs))).
Proof.
  intros Hfs Hn. rewrite <- (app_nil_r (flat_map _ fs)), <- (flat_map_of_map (fun s => s ++ [10]) print_field_line).
  rewrite (recipe_lines_read _ fs) by (done || by apply printed_lines_read). by apply recipe_lines_end.
Qed.

(** ** The bounds of the arrays *)
Lemma skip_spaces_length s : (length (skip_spaces s) <= length s)%nat.
Proof. induction s as [|x s IH]; cbn [skip_spaces]; [done|]. destruct (isspace x); cbn [length]; lia. Qed.
Lemma scan_digits_length s : forall v, (length (scan_digits v s).2 <= length s)%nat.
Proof. induction s as [|x s IH]; intros v; cbn [scan_digits]; [done|]. destruct (isdigit x); cbn [length snd]; [|lia]. specialize (IH (10 * v + (x - 48))). lia. Qed.
Lemma scan_nat_length s v r : scan_nat s = Some (v, r) -> (length r <= length s)%nat.
Proof.
  destruct s as [|x s]; [done|]. cbn [scan_nat]. destruct (isdigit x); [|done].
  pose proof (scan_digits_length (x :: s) 0) as H. intros E. assert (scan_digits 0 (x :: s) = (v, r)) as E' by congruence. by rewrite E' in H.
Qed.
Lemma scan_int_length s v r : scan_int s = Some (v, r) -> (length r <= length s)%nat.
Proof.
  pose proof (skip_spaces_length s) as Hs. unfold scan_int. destruct (skip_spaces s) as [|x t]; [done|]. cbn [length] in Hs.
  repeat destruct (_ =? _); (destruct (scan_nat _) as [[w u]|] eqn:E; cbn [option_map]; [|done]); intros [= _ <-];
    apply scan_nat_length in E; cbn [length] in *; lia.
Qed.
Lemma span_not_length c s : (length (span_not c s).1 <= length s /\ length (span_not c s).2 <= length s)%nat.
Proof.
  pose proof (span_not_split c s) as H. destruct (span_not c s) as [a r]. destruct H as [-> _]. cbn [fst snd]. rewrite length_app. lia.
Qed.

Lemma enum_values_bound rest : forall e values, Z.of_nat (length e + length rest) < 1024 -> read_enum_values rest e values <> Overrun.
Proof.
  induction rest as [|c rest IH]; intros e values Hl; cbn [read_enum_values length] in *;
    (destruct (Z.geb_spec (Z.of_nat (length e)) 1024); [lia|]).
  - by destruct (_ >=? _).
  - destruct (c =? 44); [destruct (_ >=? _); [done|]|]; apply IH; rewrite ?length_app; cbn [length]; lia.
Qed.

Lemma read_field_bound line : Z.of_nat (length line) < 1024 -> read_field line <> Overrun.
Proof.
  intros Hl. unfold read_field, field_format. destruct (cstr_prefix line) as [t Ht].
  assert (length (cstr line) <= length line)%nat as Hc by (rewrite Ht at 2; rewrite length_app; lia). cbn [sscanf].
  pose proof (span_not_length 58 (cstr line)) as [_ L1]. destruct (span_not 58 (cstr line)) as [[|n name] r1]; [done|].
  destruct r1 as [|x1 r1]; [done|]. destruct (x1 =? 58); [|done].
  pose proof (span_not_length 58 r1) as [_ L2]. destruct (span_not 58 r1) as [[|ty type] r2]; [done|].
  destruct r2 as [|x2 r2]; [done|]. destruct (x2 =? 58); [|done].
  destruct (scan_int r2) as [[min r3]|] eqn:E3; [|done]. apply scan_int_length in E3. destruct r3 as [|x3 r3]; [done|]. destruct (x3 =? 58); [|done].
  destruct (scan_int r3) as [[max r4]|] eqn:E4; [|done]. apply scan_int_length in E4. destruct r4 as [|x4 r4]; [done|]. destruct (x4 =? 58); [|done].
  destruct (scan_int r4) as [[prec r5]|] eqn:E5; [|done]. apply scan_int_length in E5. cbn [fst snd length] in *.
  assert (forall more, Z.of_nat (length (enum_text more)) < 1024 ->
    (let fieldtype := recipe_parse_fieldtype (ty :: type) in
     if fieldtype =? -1 then Null else if has_values fieldtype then
       (values <- read_enum_values (enum_text more) [] [] ;;
        if Z.of_nat (length values) <? 1 then Null else Value (Field (n :: name) fieldtype (i32 min) (i32 max) (i32 prec) values (Z.of_nat (length values))))
     else Value (Field (n :: name) fieldtype (i32 min) (i32 max) (i32 prec) [] 0)) <> Overrun) as H.
  { intros more Hm. cbv zeta. destruct (_ =? _); [done|]. destruct (has_values _); [|done].
    pose proof (enum_values_bound (enum_text more) [] [] ltac:(cbn [length]; lia)) as Hv.
    destruct (read_enum_values _ _ _); cbn [bind]; [by destruct (_ <? _) | done | done]. }
  apply H. destruct r5 as [|x5 r5]; [done|]. destruct (x5 =? 58); [|done].
  pose proof (span_not_length 10 r5) as [L6 _]. destruct (span_not 10 r5) as [[|z en] r6]; [done|]. cbn [enum_text fst length] in *. lia.
Qed.

(** every line of the text is shorter than the arrays *)
Definition short_lines (s : list Z) : Prop :=
  forall pre line post, s = pre ++ line ++ post -> unbroken line -> Z.of_nat (length line) < 1024.

Lemma end_of_line_bound r line : Z.of_nat (length line) < 1024 -> end_of_line r line <> Overrun.
Proof.
  intros Hl. unfold end_of_line. destruct (_ >? 1000); [done|]. destruct (_ && _); [|done].
  pose proof (read_field_bound line Hl). by destruct (read_field line).
Qed.

Lemma recipe_lines_bound rest : forall line r, unbroken line -> short_lines (line ++ rest) -> recipe_lines rest line r <> Overrun.
Proof.
  induction rest as [|c rest IH]; intros line r Hu Hs; cbn [recipe_lines]; (destruct (_ >? 16380); [done|]);
    pose proof (Hs [] line _ eq_refl Hu) as Hl.
  - by apply end_of_line_bound.
  - destruct ((c =? 10) || (c =? 13)) eqn:E.
    + pose proof (end_of_line_bound r line Hl). destruct (end_of_line r line) as [r1| |]; cbn [bind]; try done. apply IH; [constructor|].
      intros pre l post Es. apply (Hs (line ++ c :: pre) l post). cbn [app] in Es. rewrite Es, <- app_assoc. done.
    + b2p. apply IH; [apply Forall_app; split; [done | by repeat constructor]|]. by rewrite <- app_assoc.
Qed.

Lemma recipe_basename_bound path : Z.of_nat (length path) < 1023 -> recipe_basename path <> Overrun.
Proof.
  intros Hl. unfold recipe_basename. match goal with |- context [Z.of_nat (length ?l) >=? 1024] => assert (length l <= length path + 1)%nat as Hc end.
  { rewrite length_take, length_drop, length_app. cbn [length]. lia. }
  match goal with |- context [?n >=? 1024] => destruct (Z.geb_spec n 1024); [lia | done] end.
Qed.

(** ** Properties *)

(** recipe_form_hash takes the first six bytes of the MD5 of a version string
    and the name of the form, which is the path without its directories and, in
    any case of letters, without the ending .recipe. *)
Theorem recipe_form_hash_spec path stem : no_nul path -> names_form path stem -> Z.of_nat (length stem) < 1023 ->
  recipe_form_hash path = Value (take 6 (md5 (codes "SMAC Binary Format v2" ++ stem)), stem).
Proof. apply recipe_form_hash_value. Qed.

(** C30: A recipe that recipe_read returns is well-formed: the hash has six bytes,
    the count is that of the fields and at most 1001, every type is known, and a
    list of choices has between one and 32 values, none with a comma in it. *)
Theorem recipe_read_ok name buffer r : recipe_read name buffer = Value r -> recipe_ok r.
Proof.
  unfold recipe_read. destruct (_ || _); [done|]. destruct (recipe_form_hash name) as [[h n]| |] eqn:E; cbn [bind]; try done.
  apply recipe_lines_ok. split; [by eapply recipe_form_hash_length | split; [done | cbn; lia] | constructor].
Qed.

(** C29: recipe_read inverts the printer of recipes: up to 1000 fields of any of the
    fifteen types, with their bounds and choices, are read back as they are. *)
Theorem recipe_read_print path stem r : no_nul path -> names_form path stem -> Z.of_nat (length stem) < 1023 ->
  field_list r <> [] -> Z.of_nat (length (field_list r)) <= 1000 -> Forall field_printable (field_list r) ->
  Z.of_nat (length (print_recipe r)) <= 1048576 ->
  recipe_read path (print_recipe r) =
  Value (Recipe stem (take 6 (md5 (codes "SMAC Binary Format v2" ++ stem))) (field_list r) (Z.of_nat (length (field_list r)))).
Proof.
  intros Hnul Hname Hl Hne Hn Hfs Hsize. unfold recipe_read.
  assert (1 <= Z.of_nat (length (print_recipe r))) as H1.
  { unfold print_recipe. destruct (field_list r); [done|]. cbn [flat_map]. rewrite !length_app. cbn [length]. lia. }
  destruct (Z.ltb_spec (Z.of_nat (length (print_recipe r))) 1); [lia|].
  destruct (Z.gtb_spec (Z.of_nat (length (print_recipe r))) 1048576); [lia|]. cbn [orb].
  rewrite (recipe_form_hash_value path stem) by done. cbn [bind fst snd]. unfold print_recipe.
  by rewrite recipe_lines_print.
Qed.

(** recipe_read stays inside of its arrays when the name and the lines are
    shorter than 1023 and 1024 characters. *)
Theorem recipe_read_in_bounds name buffer : Z.of_nat (length name) < 1023 -> short_lines buffer ->
  recipe_read name buffer <> Overrun.
Proof.
  intros Hn Hs. unfold recipe_read. destruct (_ || _); [done|]. unfold recipe_form_hash.
  pose proof (recipe_basename_bound name Hn). destruct (recipe_basename name) as [s| |]; cbn [bind]; try done.
  destruct (MD5_Final _) as [h c]. cbn [bind]. apply recipe_lines_bound; [constructor | exact Hs].
Qed.

(** C33: A single choice of 1024 characters or more is written past the end of
    enum_value, although lines of up to 16380 characters are accepted. *)
Theorem recipe_read_overruns path stem v : no_nul path -> names_form path stem -> Z.of_nat (length stem) < 1023 ->
  plain v -> 44 ∉ v -> 1024 <= Z.of_nat (length v) <= 16000 ->
  recipe_read path (codes "x:enum:0:0:0:" ++ v) = Overrun.
Proof.
  intros Hnul Hname Hl Hv Hv44 Hlen. unfold recipe_read. rewrite length_app. change (length (codes "x:enum:0:0:0:")) with 13%nat.
  destruct (Z.ltb_spec (Z.of_nat (13 + length v)) 1); [lia|]. destruct (Z.gtb_spec (Z.of_nat (13 + length v)) 1048576); [lia|]. cbn [orb].
  rewrite (recipe_form_hash_value path stem) by done. cbn [bind fst snd].
  assert (forall s line r, plain s -> Z.of_nat (length line + length s) <= 16380 -> recipe_lines s line r = end_of_line r (line ++ s)) as Hline.
  { intros s line r Hs. revert line. induction Hs as [|c s (Hc0 & Hc1 & Hc2) Hs IH]; intros line Hls; cbn [recipe_lines length] in *;
      (destruct (Z.gtb_spec (Z.of_nat (length line)) 16380); [lia|]).
    - by rewrite app_nil_r.
    - destruct (Z.eqb_spec c 10), (Z.eqb_spec c 13); try lia. cbn [orb]. rewrite IH by (rewrite length_app; cbn [length]; lia). by rewrite <- app_assoc. }
  assert (plain (codes "x:enum:0:0:0:" ++ v)) as Hp.
  { apply plain_app; [|done]. apply plainb_spec. reflexivity. }
  rewrite Hline; [|done|rewrite length_app; cbn; lia]. rewrite app_nil_l. unfold end_of_line. cbn [field_count Z.gtb Z.compare].
  assert (forall u, 44 ∉ u -> forall e, Z.of_nat (length e) < 1024 <= Z.of_nat (length e + length u) -> read_enum_values u e [] = Overrun) as Hover.
  { induction u as [|c u IH]; intros Hu e He; cbn [length] in *; [lia|]. apply not_elem_of_cons in Hu as [Hc Hu].
    rewrite read_values_char by lia. destruct (decide (Z.of_nat (length e) = 1023)) as [E|].
    - destruct u as [|d u]; cbn [read_enum_values]; rewrite length_app; cbn [length].
      + by destruct (Z.geb_spec (Z.of_nat (length e + 1)) 1024); [|lia].
      + apply not_elem_of_cons in Hu as [Hd Hu]. destruct (Z.eqb_spec d 44); [congruence|].
        by destruct (Z.geb_spec (Z.of_nat (length e + 1)) 1024); [|lia].
    - apply IH; [done|]. rewrite length_app. cbn [length]. lia. }
  assert (read_field (codes "x:enum:0:0:0:" ++ v) = Overrun) as ->.
  { unfold read_field. rewrite cstr_id by (by apply plain_no_nul).
    pose proof (span_not_spec 10 v [] (plain_no_newline v Hv) ltac:(by left)) as E. rewrite app_nil_r in E.
    assert (sscanf field_format (codes "x:enum:0:0:0:" ++ v) = [VStr [120]; VStr (codes "enum"); VInt 0; VInt 0; VInt 0; VStr v]) as ->.
    { change (sscanf field_format (codes "x:enum:0:0:0:" ++ v)) with
        (VStr [120] :: VStr (codes "enum") :: VInt 0 :: VInt 0 :: VInt 0 ::
         (let '(a, s) := span_not 10 v in match a with [] => [] | _ => [VStr a] end)).
      rewrite E. destruct v; [cbn in Hlen; lia | done]. }
    change (recipe_parse_fieldtype (codes "enum")) with FIELDTYPE_ENUM. cbn [Z.eqb FIELDTYPE_ENUM has_values enum_text Pos.eqb orb FIELDTYPE_MULTISELECT].
    rewrite Hover; [done | done | cbn [length]; lia]. }
  rewrite length_app. change (length (codes "x:enum:0:0:0:")) with 13%nat. by destruct (Z.gtb_spec (Z.of_nat (13 + length v)) 0); [|lia].
Qed.
End Reading.

(** The name of a type, in any case of letters, is parsed as that type, for
    each of the fifteen types that recipe_field_type_name prints. *)
Theorem fieldtype_name_roundtrip t name : 0 <= t < 15 -> strcaseeq name (recipe_field_type_name t) = true ->
  recipe_parse_fieldtype name = t.
Proof. apply type_name_parsed. Qed.

Lemma fieldtype_name_roundtrip_witness : recipe_parse_fieldtype (codes "TimeStamp") = FIELDTYPE_TIMEDATE.
Proof. apply (fieldtype_name_roundtrip FIELDTYPE_TIMEDATE); [unfold FIELDTYPE_TIMEDATE; lia | reflexivity]. Defined.

(** ** Examples *)
#[local] Existing Instances sample_memory sample_memory_ok.

Definition sample_path : list Z := codes "forms/Visit.RECIPE".
Lemma sample_path_ok : no_nul sample_path /\ names_form sample_path (codes "Visit") /\ Z.of_nat (length (codes "Visit")) < 1023.
Proof.
  split; [|split; [|done]].
  - apply plain_no_nul, plainb_spec. reflexivity.
  - exists (codes "forms/"), (codes ".RECIPE"). split; [reflexivity|]. split; [right; by exists (codes "forms")|]. split; [|by right].
    intros Hin. assert (forallb (fun c => negb (c =? 47)) (codes "Visit") = true) as H by reflexivity. rewrite forallb_forall in H.
    by apply list_elem_of_In, H in Hin.
Qed.

Lemma recipe_form_hash_spec_witness :
  recipe_form_hash sample_path = Value (take 6 (md5 (codes "SMAC Binary Format v2" ++ codes "Visit")), codes "Visit").
Proof. exact (recipe_form_hash_spec sample_path (codes "Visit") (proj1 sample_path_ok) (proj1 (proj2 sample_path_ok)) (proj2 (proj2 sample_path_ok))). Defined.

(** what a test of a field must show *)
Definition field_printableb (f : field) : bool :=
  (0 <=? f_type f) && (f_type f <? 15) && (0 <? Z.of_nat (length (f_name f))) && forallb (fun c => negb (c =? 58)) (f_name f) &&
  plainb (f_name f) && negb (rd (f_name f) 0 =? 35) &&
  forallb (fun v => (- 2 ^ 31 <=? v) && (v <? 2 ^ 31)) [f_minimum f; f_maximum f; f_precision f] &&
  (enum_count f =? Z.of_nat (length (enum_value f))) &&
  (if has_values (f_type f) then (1 <=? enum_count f) && (enum_count f <=? MAX_ENUM_VALUES) else enum_count f =? 0) &&
  forallb (fun v => forallb (fun c => negb (c =? 44)) v && (Z.of_nat (length v) <? 1024) && plainb v) (enum_value f) &&
  (Z.of_nat (length (print_field_line f)) <=? 16380).

Lemma forallb_absent c s : forallb (fun x => negb (x =? c)) s = true -> c ∉ s.
Proof.
  intros H Hin. rewrite forallb_forall in H. apply list_elem_of_In, H in Hin. by rewrite Z.eqb_refl in Hin.
Qed.

Lemma field_printableb_spec f : field_printableb f = true -> field_printable f.
Proof.
  unfold field_printableb. cbn [forallb]. intros H. repeat (apply andb_true_iff in H as [H ?]). b2p.
  match goal with Hv : forallb _ (enum_value f) = true |- _ => rewrite forallb_forall in Hv; rename Hv into Hvals end.
  split; [split| | |].
  - lia.
  - split; [by destruct (f_name f)|]. by apply forallb_absent.
  - lia.
  - lia.
  - destruct (has_values (f_type f)); b2p; [lia|]. destruct (enum_value f); [done | cbn in *; lia].
  - apply List.Forall_forall. intros v Hv. apply Hvals in Hv. b2p. split; [by apply forallb_absent | done].
  - split; [by apply plainb_spec | done].
  - apply List.Forall_forall. intros v Hv. apply Hvals in Hv. b2p. by apply plainb_spec.
  - lia.
Qed.

Definition sample_fields : list field := [
  Field (codes "age") FIELDTYPE_INTEGER (-5) 120 0 [] 0;
  Field (codes "colour") FIELDTYPE_ENUM 0 0 0 [codes "red"; codes "deep blue"; []] 3;
  Field (codes "notes") FIELDTYPE_TEXT 0 0 80 [] 0].

Lemma recipe_read_ok_witness : recipe_ok (Recipe (codes "Visit") (take 6 (md5 (codes "SMAC Binary Format v2" ++ codes "Visit"))) sample_fields 3).
Proof. apply (recipe_read_ok sample_path (print_recipe (Recipe [] [] sample_fields 0))). vm_compute. reflexivity. Defined.

Lemma recipe_read_print_witness :
  recipe_read sample_path (print_recipe (Recipe [] [] sample_fields 0)) =
  Value (Recipe (codes "Visit") (take 6 (md5 (codes "SMAC Binary Format v2" ++ codes "Visit"))) sample_fields 3).
Proof.
  apply (recipe_read_print sample_path (codes "Visit") (Recipe [] [] sample_fields 0));
    [apply sample_path_ok | apply sample_path_ok | reflexivity | discriminate | vm_compute; discriminate | | vm_compute; discriminate].
  repeat (apply List.Forall_cons; [apply field_printableb_spec; vm_compute; reflexivity|]). apply List.Forall_nil.
Defined.

Lemma short_text s : (length s < 1024)%nat -> short_lines s.
Proof. intros Hl pre line post -> _. rewrite !length_app in Hl. lia. Qed.

Lemma recipe_read_in_bounds_witness : recipe_read (codes "v") (codes "x:enum:0:0:0:a,b") <> Overrun.
Proof. apply recipe_read_in_bounds; [reflexivity | apply short_text; vm_compute; lia]. Defined.

Lemma recipe_read_overruns_witness : recipe_read sample_path (codes "x:enum:0:0:0:" ++ repeat 97 1024) = Overrun.
Proof.
  apply (recipe_read_overruns sample_path (codes "Visit")); [apply sample_path_ok | apply sample_path_ok | reflexivity | | |].
  - apply plainb_spec. vm_compute. reflexivity.
  - apply forallb_absent. vm_compute. reflexivity.
  - vm_compute. split; discriminate.
Defined.

(** 1001 fields, without a newline after the last one *)
Definition many_fields (n : nat) : list Z := concat (repeat (codes "a:int:0:1:0" ++ [10]) n) ++ codes "b:int:0:1:0".

(** The limit of 1000 fields is checked before a line is read and not after:
    a recipe of 1001 fields is accepted when no newline follows the last one, and
    refused when one does. *)
Theorem recipe_read_1001_fields :
  (exists r, recipe_read sample_path (many_fields 1000) = Value r /\ field_count r = 1001) /\
  recipe_read sample_path (many_fields 1000 ++ [10]) = Null.
Proof. split; [eexists; split|]; vm_compute; reflexivity. Qed.
