(* ===== verification/RecipeCompress.v ===== *)
(** recipe_compress.c: the fields of a form as symbols of the range coder. *)
From Stdlib Require Import String.
From S2P Require Import Prelude RangeCoder Charset CString CFloat PackedStats Smac Recipe.
Local Open Scope Z_scope.
Local Open Scope succinct_scope.

Definition recipe_parse_boolean (b : option (list Z)) : Z :=
  match b with
  | None => 0
  | Some b =>
      let c := rd b 0 in
      if (c =? 121) || (c =? 89) || (c =? 116) || (c =? 84) || (c =? 49) then 1 else 0
  end.

Definition parseHexDigit (c : Z) : Z :=
  if (c >=? 48) && (c <=? 57) then c - 48
  else if (c >=? 65) && (c <=? 70) then c - 65 + 10
  else if (c >=? 97) && (c <=? 102) then c - 97 + 10
  else 0.
(** the two characters at index [i] *)
Definition parseHexByte (s : list Z) (i : Z) : Z :=
  Z.lor (Z.shiftl (parseHexDigit (rd s i)) 4) (parseHexDigit (rd s (i + 1))).

(** struct tm *)
Record tm := Tm { tm_year : Z; tm_mon : Z; tm_mday : Z; tm_hour : Z; tm_min : Z; tm_sec : Z; tm_gmtoff : Z }.

(** What the environment of the code decides: the seconds since 1970 of a local
    time, which depend on the time zone of the device, the value of an
    integer that has not been set (or of a conversion that C leaves open), and what is
    in memory behind the terminator of a value. *)
Class Environment := { mktime : tm -> Z; unset : Z; beyond : list Z }.
(** the memory from a value on *)
Definition in_memory `{Environment} (value : list Z) : list Z := value ++ 0 :: beyond.

(** the value of the conversion at index [k] of [l], or the value the variable had *)
Definition nth_int (l : list scanned) (k : nat) (default : Z) : Z :=
  match nth_error l k with Some (VInt v) => v | _ => default end.

(** where the scan of a UUID stands: [value] is memory from the value on, [j] is the
    number of bytes, 17 when there is something after the sixteenth.  After an odd
    number of digits, the loop goes over the terminator. *)
Fixpoint scan_uuid (fuel : nat) (value : list Z) (i j : Z) (uuid : list Z) : Z * list Z :=
  match fuel with
  | O => (j, uuid)
  | S fuel =>
      let c := rd value i in
      if negb (nz c) then (j, uuid)
      else if j =? 16 then (17, uuid)
      else if negb (c =? 45) then scan_uuid fuel value (i + 1 + 1) (j + 1) (wr uuid j (u8 (parseHexByte value i)))
      else scan_uuid fuel value (i + 1) j uuid
  end.

(** [strcasecmp(value, val->value)] along the list: the index of the value, or
    the number of values *)
Fixpoint enum_index (values : list (list Z)) (value : list Z) : Z :=
  match values with
  | [] => 0
  | v :: values => if strcaseeq value v then 0 else 1 + enum_index values value
  end.

(** the labels between the bars; [fuel] bounds their number *)
Fixpoint multi_bits (fuel : nat) (f : field) (value : list Z) (bits : Z) : Z :=
  match fuel with
  | O => bits
  | S fuel =>
      match value with
      | [] => bits
      | _ =>
          let '(text, rest) := span_not 124 value in
          let valuetext := firstn 1000 text in
          let v := enum_index (enum_value f) valuetext in
          let bits := if v <? enum_count f then Z.lor bits (u64 (i32 (Z.shiftl 1 v))) else bits in
          multi_bits fuel f (tl rest) bits
      end
  end.

(** one bit for each label *)
Fixpoint encode_boxes (n : nat) (o bits : Z) (c : range_coder) : range_coder :=
  match n with
  | O => c
  | S n => encode_boxes n (o + 1) bits (snd (range_encode_equiprobable c 2 (Z.land (Z.shiftr bits o) 1)))
  end.
Fixpoint encode_bytes (l : list Z) (c : range_coder) : range_coder :=
  match l with
  | [] => c
  | b :: l => encode_bytes l (snd (range_encode_equiprobable c 256 b))
  end.
(** the six bytes of a time stamp, the first one first *)
Fixpoint encode_timestamp (n : nat) (timestamp : Z) (c : range_coder) : range_coder :=
  match n with
  | O => c
  | S n =>
      let b := Z.land (Z.shiftr timestamp 40) 0xff in
      encode_timestamp n (u64 (Z.shiftl timestamp 8)) (snd (range_encode_equiprobable c 256 b))
  end.

(** the sixteen characters of the first part of a Magpi UUID, however long the value is *)
Definition magpi_bytes (value : list Z) : list Z := map (fun k => u8 (parseHexByte value (2 * k))) [0; 1; 2; 3; 4; 5; 6; 7].

(** two numbers with white space between them, or with a comma *)
Definition scan_latlong (value : list Z) : option (spec_float * spec_float) :=
  let second (lat : spec_float) (r : list Z) :=
    match scan_float r with Some (lon, _) => Some (lat, strtof lon) | None => None end in
  match scan_float value with
  | None => None
  | Some (lat, r) =>
      match second (strtof lat) (skip_spaces r) with
      | Some p => Some p
      | None => match r with x :: r => if x =? 44 then second (strtof lat) r else None | [] => None end
      end
  end.

Section Fields.
Context `{M : Memory} `{E : Environment}.

Definition int_of (x : option Z) : Z := match x with Some v => i32 v | None => unset end.

Definition encode_integer (f : field) (h : stats_handle) (c : range_coder) (value : list Z) : Z * range_coder :=
  let normalised_value := i32 (atoi value - f_minimum f) in
  let minimum := f_minimum f in
  let maximum := f_maximum f in
  if maximum <=? minimum then (-1, c)
  else if (normalised_value <? 0) || (normalised_value >? i32 (maximum - minimum + 1)) then
    run c <- range_encode_equiprobable c (i32 (maximum - minimum + 2)) (i32 (maximum - minimum + 1)) ;;
    stats3_compress_append h value (Z.of_nat (length value)) c
  else range_encode_equiprobable c (i32 (maximum - minimum + 2)) normalised_value.

(** sign, exponent and mantissa *)
Definition float_parts (value : list Z) : Z * Z * Z :=
  let f := convert float_prec float_emax (atof value) in
  let '(sign, f) := if SFltb f (S754_zero false) then (1, SFopp f) else (0, f) in
  let '(m, exponent) := SFfrexp double_prec double_emax (convert double_prec double_emax f) in
  let mantissa := int_of (truncate (SFmul double_prec double_emax m (of_int double_prec double_emax 0xffffff))) in
  let exponent := match f with S754_zero _ => 0 | S754_finite _ _ _ => exponent | _ => unset end in
  let exponent := if exponent <? -127 then -127 else exponent in
  let exponent := if exponent >? 127 then 127 else exponent in
  (sign, exponent, mantissa).
Definition encode_float (c : range_coder) (value : list Z) : Z * range_coder :=
  let '(sign, exponent, mantissa) := float_parts value in
  run c <- range_encode_equiprobable c 2 sign ;;
  run c <- range_encode_equiprobable c 256 (exponent + 128) ;;
  run c <- range_encode_equiprobable c 256 (Z.land (Z.shiftr mantissa 16) 0xff) ;;
  run c <- range_encode_equiprobable c 256 (Z.land (Z.shiftr mantissa 8) 0xff) ;;
  range_encode_equiprobable c 256 (Z.land mantissa 0xff).

Definition encode_boolean (c : range_coder) (value : list Z) : Z * range_coder :=
  range_encode_equiprobable c 2 (recipe_parse_boolean (Some value)).

Definition timeofday_format : list directive := [Int; Lit 58; Int; Lit 46; Int].
Definition encode_timeofday (precision : Z) (c : range_coder) (value : list Z) : Z * range_coder :=
  match sscanf timeofday_format value with
  | VInt h :: VInt m :: more =>
      let s := nth_int more 0 unset in
      if (h <? 0) || (h >? 23) || (m <? 0) || (m >? 59) || (s <? 0) || (s >? 59) then (-1, c)
      else
        let normalised_value := h * 3600 + m * 60 + s in
        let minimum := 0 in
        let maximum := 24 * 60 * 60 in
        let precision := if precision =? 0 then 17 else precision in
        if precision <? 17 then
          let normalised_value := Z.shiftr normalised_value (17 - precision) in
          let minimum := Z.shiftr minimum (17 - precision) in
          let maximum := Z.shiftr maximum (17 - precision) + 1 in
          range_encode_equiprobable c (maximum - minimum + 1) normalised_value
        else range_encode_equiprobable c (maximum - minimum + 1) normalised_value
  | _ => (-1, c)
  end.

Definition timedate_format : list directive :=
  [Int; Lit 45; Int; Lit 45; Int; Lit 84; Int; Lit 58; Int; Lit 58; Int; Lit 46; Int; Int; Lit 58; Int].
Definition encode_timedate (c : range_coder) (value : list Z) : Z * range_coder :=
  match sscanf timedate_format value with
  | VInt year :: VInt mon :: VInt mday :: VInt hour :: VInt min :: VInt sec :: more =>
      let csec := nth_int more 0 unset in
      let tzh := nth_int more 1 0 in
      let tzm := nth_int more 2 0 in
      if (year <? 0) || (year >? 2299) then (-1, c)
      else if (mon <? 1) || (mon >? 12) then (-1, c)
      else if (mday <? 1) || (mday >? 31) then (-1, c)
      else if (hour <? 0) || (hour >? 24) then (-1, c)
      else if (min <? 0) || (min >? 59) then (-1, c)
      else if (sec <? 0) || (sec >? 61) then (-1, c)
      else if csec >? 99 then (-1, c)
      else if (tzh <? -15) || (tzh >? 15) then (-1, c)
      else if (tzm <? 0) || (tzm >? 59) then (-1, c)
      else
        let t := mktime (Tm (year - 1900) (mon - 1) mday hour min sec (tzm * 60 + tzh * 3600)) in
        run c <- range_encode_equiprobable c 0x8000 (i32 (Z.shiftr t 16)) ;;
        range_encode_equiprobable c 0x10000 (Z.land t 0xffff)
  | _ => (-1, c)
  end.

Definition magpitimedate_format : list directive :=
  [Int; Lit 45; Int; Lit 45; Int; Blank; Int; Lit 58; Int; Lit 58; Int].
Definition encode_magpitimedate (c : range_coder) (value : list Z) : Z * range_coder :=
  match sscanf magpitimedate_format value with
  | [VInt year; VInt mon; VInt mday; VInt hour; VInt min; VInt sec] =>
      if (year <? 0) || (year >? 9999) then (-1, c)
      else if (mon <? 1) || (mon >? 12) then (-1, c)
      else if (mday <? 1) || (mday >? 31) then (-1, c)
      else if (hour <? 0) || (hour >? 24) then (-1, c)
      else if (min <? 0) || (min >? 59) then (-1, c)
      else if (sec <? 0) || (sec >? 61) then (-1, c)
      else
        run c <- range_encode_equiprobable c 10000 year ;;
        run c <- range_encode_equiprobable c 12 (mon - 1) ;;
        run c <- range_encode_equiprobable c 31 (mday - 1) ;;
        run c <- range_encode_equiprobable c 25 hour ;;
        run c <- range_encode_equiprobable c 60 min ;;
        range_encode_equiprobable c 62 sec
  | _ => (-1, c)
  end.

(** year, month and day in either order, and the separator *)
Definition scan_date (value : list Z) : option (Z * Z * Z * Z) :=
  match sscanf [Int; Lit 47; Int; Lit 47; Int] value with
  | [VInt y; VInt m; VInt d] => Some (y, m, d, 47)
  | _ =>
      match sscanf [Int; Lit 45; Int; Lit 45; Int] value with
      | [VInt d; VInt m; VInt y] => Some (y, m, d, 45)
      | _ => None
      end
  end.
Definition encode_date (precision : Z) (c : range_coder) (value : list Z) : Z * range_coder :=
  match scan_date value with
  | None => (-1, c)
  | Some (y, m, d, separator) =>
      if (y <? 1) || (y >? 9999) || (m <? 1) || (m >? 31) || (d <? 1) || (d >? 31) then (-1, c)
      else
        let normalised_value := y * (31 * 31) + (m - 1) * 31 + (d - 1) in
        let minimum := 0 in
        let maximum := 10000 * 31 * 31 in
        let precision := if precision =? 0 then 24 else precision in
        let '(normalised_value, minimum, maximum) :=
          if precision <? 24 then
            (Z.shiftr normalised_value (24 - precision), Z.shiftr minimum (24 - precision), Z.shiftr maximum (24 - precision) + 1)
          else (normalised_value, minimum, maximum) in
        run c <- range_encode_equiprobable c 2 (if separator =? 47 then 1 else 0) ;;
        range_encode_equiprobable c (maximum - minimum + 1) normalised_value
  end.

Definition encode_latlong (precision : Z) (c : range_coder) (value : list Z) : Z * range_coder :=
  match scan_latlong value with
  | None => (-1, c)
  | Some (lat, lon) =>
      if SFltb lat (float_of_int (-90)) || SFltb (float_of_int 90) lat ||
         SFltb lon (float_of_int (-180)) || SFltb (float_of_int 180) lon then (-1, c)
      else if precision =? 16 then
        run c <- range_encode_equiprobable c 182 (int_of (lroundf lat) + 90) ;;
        range_encode_equiprobable c 361 (int_of (lroundf lon) + 180)
      else if (precision =? 0) || (precision =? 34) then
        let ilat := int_of (lroundf (float_mul lat (float_of_int 112000))) + 90 * 112000 in
        let ilon := int_of (lroundf (float_mul lon (float_of_int 112000))) + 180 * 112000 in
        run c <- range_encode_equiprobable c (182 * 112000) ilat ;;
        range_encode_equiprobable c (361 * 112000) ilon
      else (-1, c)
  end.

Definition encode_multiselect (f : field) (c : range_coder) (value : list Z) : Z * range_coder :=
  let bits := multi_bits (length value) f value 0 in
  (0, encode_boxes (Z.to_nat (enum_count f)) 0 bits c).

Definition encode_enum (f : field) (c : range_coder) (value : list Z) : Z * range_coder :=
  let normalised_value := enum_index (enum_value f) value in
  if normalised_value >=? enum_count f then (-1, c)
  else range_encode_equiprobable c (enum_count f) normalised_value.

(** The text is trimmed by giving a smaller length with it. *)
Definition encode_text (precision : Z) (h : stats_handle) (c : range_coder) (value : list Z) : Z * range_coder :=
  let len := Z.of_nat (length value) in
  let len := if (precision >? 0) && (len >? precision) then precision else len in
  let '(r, c) := stats3_compress_append h value len c in
  if nz r then (-1, c) else (0, c).

Definition encode_magpiuuid (c : range_coder) (value : list Z) : Z * range_coder :=
  let value := in_memory value in
  let c := encode_bytes (magpi_bytes value) c in
  let timestamp := Z.land (strtoll (skipn 17 value)) 0xffffffffffff in
  (0, encode_timestamp 6 timestamp c).

Definition encode_uuid (precision : Z) (c : range_coder) (value : list Z) : Z * range_coder :=
  let i := if strncaseeq value (codes "uuid:") 5 then 5 else 0 in
  let value := in_memory value in
  let '(j, uuid) := scan_uuid (S (length value)) value i 0 (repeat unset 16) in
  if negb (j =? 16) then (-1, c)
  else
    let precision := if (precision <? 1) || (precision >? 16) then 16 else precision in
    (0, encode_bytes (firstn (Z.to_nat precision) uuid) c).

Definition recipe_encode_field (f : field) (h : stats_handle) (c : range_coder) (value : list Z) : Z * range_coder :=
  let t := f_type f in
  let precision := f_precision f in
  if t =? FIELDTYPE_INTEGER then encode_integer f h c value
  else if t =? FIELDTYPE_FLOAT then encode_float c value
  else if (t =? FIELDTYPE_FIXEDPOINT) || (t =? FIELDTYPE_BOOLEAN) then encode_boolean c value
  else if t =? FIELDTYPE_TIMEOFDAY then encode_timeofday precision c value
  else if t =? FIELDTYPE_TIMEDATE then encode_timedate c value
  else if t =? FIELDTYPE_MAGPITIMEDATE then encode_magpitimedate c value
  else if t =? FIELDTYPE_DATE then encode_date precision c value
  else if t =? FIELDTYPE_LATLONG then encode_latlong precision c value
  else if t =? FIELDTYPE_MULTISELECT then encode_multiselect f c value
  else if t =? FIELDTYPE_ENUM then encode_enum f c value
  else if t =? FIELDTYPE_TEXT then encode_text precision h c value
  else if t =? FIELDTYPE_MAGPIUUID then encode_magpiuuid c value
  else if t =? FIELDTYPE_UUID then encode_uuid precision c value
  else (-1, c).
End Fields.

(** ** Records

    The coder is an object of the heap: every use of it after range_coder_free,
    a second call of range_coder_free included, is undefined. *)
Inductive coder_cell := Live (c : range_coder) | Freed.
(** a function of the coder, applied to the object *)
Definition with_coder (f : range_coder -> Z * range_coder) (cell : coder_cell) : outcome (Z * coder_cell) :=
  match cell with
  | Live c => let '(r, c) := f c in Done (r, Live c)
  | Freed => Undefined
  end.
Definition range_coder_free (cell : coder_cell) : outcome coder_cell :=
  match cell with Live _ => Done Freed | Freed => Undefined end.
Definition encode_bit (b : Z) (cell : coder_cell) : outcome coder_cell :=
  do (_, cell) <- with_coder (fun c => range_encode_equiprobable c 2 b) cell ;; Done cell.

(** the value of the first field with this key *)
Fixpoint find_value (record : list record_field) (name : list Z) : option (list Z) :=
  match record with
  | [] => None
  | KeyValue key value :: record => if strcaseeq key name then Some value else find_value record name
  | SubRecord _ :: record => find_value record name
  end.
(** the enclosure of a sub-form: a pair formid=... *)
Definition names_subform (formid : list Z) (f : record_field) : bool :=
  match f with
  | KeyValue key value => strcaseeq key (codes "formid") && strcaseeq value formid
  | SubRecord _ => false
  end.

Section Records.
Context `{M : Memory} `{E : Environment}.
Variable find_recipe : list Z -> option recipe.
Variable h : stats_handle.

(** One level of compress_record_with_subforms; [sub] is the recursive call. *)
Section Level.
Variable sub : list field -> list record_field -> coder_cell -> outcome (Z * coder_cell).

(** the sub-records of an enclosure; the code of the recursive call is dropped *)
Fixpoint compress_instances (fields : list field) (s : list record_field) (cell : coder_cell) : outcome coder_cell :=
  match s with
  | [] => Done cell
  | KeyValue _ _ :: s => compress_instances fields s cell
  | SubRecord ss :: s =>
      do cell <- encode_bit 1 cell ;;
      do (_, cell) <- sub fields ss cell ;;
      compress_instances fields s cell
  end.
Fixpoint compress_enclosures (formid : list Z) (fields : list field) (record : list record_field) (cell : coder_cell)
    : outcome coder_cell :=
  match record with
  | [] => Done cell
  | SubRecord s :: record =>
      if existsb (names_subform formid) s then
        do cell <- compress_instances fields s cell ;; compress_enclosures formid fields record cell
      else compress_enclosures formid fields record cell
  | KeyValue _ _ :: record => compress_enclosures formid fields record cell
  end.

Fixpoint compress_fields (fields : list field) (record : list record_field) (cell : coder_cell) : outcome (Z * coder_cell) :=
  match fields with
  | [] => Done (0, cell)
  | f :: fields =>
      if strncaseeq (f_name f) (codes "subform/") 8 then
        let formid := skipn 8 (f_name f) in
        match find_recipe formid with
        | None => Done (-1, cell)
        | Some recipe =>
            do cell <- compress_enclosures formid (field_list recipe) record cell ;;
            do cell <- encode_bit 0 cell ;;
            compress_fields fields record cell
        end
      else
        match find_value record (f_name f) with
        | Some value =>
            do cell <- encode_bit 1 cell ;;
            do (r, cell) <- with_coder (fun c => recipe_encode_field f h c value) cell ;;
            if nz r then do cell <- range_coder_free cell ;; Done (-1, cell)
            else compress_fields fields record cell
        | None =>
            do cell <- encode_bit 0 cell ;;
            compress_fields fields record cell
        end
  end.
End Level.

Fixpoint compress_record_with_subforms (fuel : nat) (fields : list field) (record : list record_field) (cell : coder_cell)
    : outcome (Z * coder_cell) :=
  match fuel with
  | O => OutOfFuel
  | S fuel => compress_fields (compress_record_with_subforms fuel) fields record cell
  end.
End Records.

(** how deep the sub-records are nested, which bounds the recursion *)
Fixpoint field_depth (f : record_field) : nat :=
  match f with
  | KeyValue _ _ => 0
  | SubRecord fs => S (fold_right (fun f d => Nat.max (field_depth f) d) 0%nat fs)
  end.
Definition record_depth (r : list record_field) : nat := fold_right (fun f d => Nat.max (field_depth f) d) 0%nat r.

Section Compress.
Context `{M : Memory} `{E : Environment}.
Variable find_recipe : list Z -> option recipe.
Variable h : stats_handle.

(** the coder after the hash of the form *)
Definition begin_form (r : recipe) : range_coder := encode_bytes (formhash r) (range_new_coder (garbage 1024) 1024).

(** [None] is [return -1], [out] tells whether there is a buffer *)
Definition recipe_compress (r : option recipe) (inp : option (list Z)) (out : bool) (out_size : Z) : outcome (option (list Z)) :=
  match r, inp with
  | Some r, Some inp =>
      if negb out then Done None
      else
        let cell := Live (begin_form r) in
        match parse_stripped_with_subforms inp with
        | None => do _ <- range_coder_free cell ;; Done None
        | Some record =>
            do (out_count, cell) <-
              compress_record_with_subforms find_recipe h (S (record_depth record)) (field_list r) record cell ;;
            if out_count <? 0 then do _ <- range_coder_free cell ;; Done None
            else
              do (_, cell) <- with_coder range_conclude cell ;;
              match cell with
              | Freed => Undefined
              | Live c =>
                  let bytes := bits_used c / 8 + (if nz (Z.land (bits_used c) 7) then 1 else 0) in
                  if bytes >? out_size then Done None
                  else Done (Some (firstn (Z.to_nat bytes) (bit_stream c)))
              end
        end
  | _, _ => Done None
  end.
End Compress.
