(* ===== verification/RecipeFields.v ===== *)
(** What recipe_encode_field sends for each type of field: sequences of symbols of
    equiprobable alphabets, and a decoder that reads them back. *)
From Stdlib Require Import String.
From S2P Require Import Prelude RangeCoder RangeBits RangeSim RangeCodec RangeRun Charset CString CFloat Unicode PackedStats Smac Recipe RecipeCompress.
Local Open Scope Z_scope.
Local Open Scope succinct_scope.

(** ** Sequences of symbols: pairs of the size of the alphabet and the symbol *)
Definition in_range (p : Z * Z) : Prop := 0 <= p.2 < p.1 /\ p.1 < 2 ^ 31.
Definition symbols_ok (l : list (Z * Z)) : Prop := Forall in_range l.

Fixpoint put_symbols (l : list (Z * Z)) (c : range_coder) : range_coder :=
  match l with
  | [] => c
  | p :: l => put_symbols l (snd (range_encode_equiprobable c p.1 p.2))
  end.
Fixpoint get_symbols (alphabets : list Z) (c : range_coder) : list Z * range_coder :=
  match alphabets with
  | [] => ([], c)
  | n :: alphabets =>
      let '(s, c) := range_decode_equiprobable c n in
      let '(l, c) := get_symbols alphabets c in (s :: l, c)
  end.

Lemma put_symbols_sends l : symbols_ok l ->
  Sends (52 * Z.of_nat (length l)) (put_symbols l) (get_symbols (map fst l)) (map snd l).
Proof.
  induction 1 as [|[n s] l [Hs Hn] Hl IH]; cbn [length put_symbols get_symbols map fst snd] in *; [apply Sends_ret|].
  apply (Sends_mono (52 + 52 * Z.of_nat (length l))); [lia|].
  apply (equiprobable_step n s _ (put_symbols l) (fun x c => let '(l, c) := get_symbols (map fst l) c in (x :: l, c))); [done | done|].
  by apply (Sends_map _ (cons s)).
Qed.

Lemma put_symbols_app l m c : put_symbols (l ++ m) c = put_symbols m (put_symbols l c).
Proof. revert c. induction l as [|p l IH]; intros c; [done | apply IH]. Qed.

(** running out of bits is not forgotten *)
Lemma flag_equiprobable_small c n s : out_of_bits c = true -> out_of_bits (snd (encode_equiprobable_small c n s)) = true.
Proof.
  intros Hc. unfold encode_equiprobable_small. destruct (n <? 1); [done|].
  destruct (range_equiprobable_range n s) as [pl ph]. by apply flag_encode.
Qed.
Lemma flag_equiprobable c n s : out_of_bits c = true -> out_of_bits (snd (range_encode_equiprobable c n s)) = true.
Proof.
  intros Hc. unfold range_encode_equiprobable. destruct (n >=? 0x400000); [cbn [snd]|]; by repeat apply flag_equiprobable_small.
Qed.
Lemma flag_symbols l : forall c, out_of_bits c = true -> out_of_bits (put_symbols l c) = true.
Proof. induction l as [|p l IH]; intros c H; [done|]. by apply IH, flag_equiprobable. Qed.

(** the code of one symbol *)
Lemma equiprobable_small_code c n s : 0 <= s < n -> n < 0x400000 -> enc_ok c ->
  out_of_bits (snd (encode_equiprobable_small c n s)) = false -> fst (encode_equiprobable_small c n s) = 0.
Proof.
  intros Hs Hn Hok. unfold encode_equiprobable_small. destruct (Z.ltb_spec n 1); [lia|].
  rewrite equiprobable_range_eq by lia. intros Hf.
  by destruct (encode_interval c (equi_bound n s) (equi_bound n (s + 1)) Hok ltac:(apply equi_interval; lia) Hf) as (_ & _ & _ & _ & Hcode & _).
Qed.
Lemma equiprobable_code c n s : in_range (n, s) -> enc_ok c ->
  out_of_bits (snd (range_encode_equiprobable c n s)) = false -> fst (range_encode_equiprobable c n s) = 0.
Proof.
  intros [Hs Hn] Hok. cbn [fst snd] in *. unfold range_encode_equiprobable. destruct (Z.geb_spec n 0x400000); [done|].
  by apply equiprobable_small_code.
Qed.

(** ** Encoders that send given symbols *)

(** [e] sends [l]: the coder after it is that of the symbols, and the code is 0
    unless the coder ran out of bits *)
Definition emits (e : range_coder -> Z * range_coder) (l : list (Z * Z)) : Prop :=
  forall c, snd (e c) = put_symbols l c /\
    (symbols_ok l -> enc_ok c -> out_of_bits (put_symbols l c) = false -> fst (e c) = 0).
(** [e] refuses: it returns -1 and leaves the coder alone *)
Definition refuses (e : range_coder -> Z * range_coder) : Prop := forall c, e c = (-1, c).

Lemma emits_none : emits (fun c => (0, c)) [].
Proof. by split. Qed.
Lemma emits_last n s : emits (fun c => range_encode_equiprobable c n s) [(n, s)].
Proof.
  intros c. split; [done|]. cbn [put_symbols fst snd]. intros Hok He Hf. inversion Hok; subst. by apply equiprobable_code.
Qed.
Lemma emits_cons n s e l : emits e l -> emits (fun c => e (snd (range_encode_equiprobable c n s))) ((n, s) :: l).
Proof.
  intros H c. destruct (H (snd (range_encode_equiprobable c n s))) as [H1 H2]. split; [done|]. cbn [put_symbols fst snd].
  intros Hok He Hf. inversion Hok as [|? ? [Hs Hn] Hl]; subst. cbn [fst snd] in *. apply H2; [done | | done].
  destruct (put_symbols_sends [(n, s)] ltac:(apply Forall_singleton; by split)) as (_ & HC & _).
  apply (cd_ok _ _ _ HC c He). cbn [put_symbols fst snd].
  destruct (out_of_bits (snd (range_encode_equiprobable c n s))) eqn:E; [|done]. by rewrite <- Hf, flag_symbols.
Qed.

Lemma emits_after m e l : emits e l -> emits (fun c => e (put_symbols m c)) (m ++ l).
Proof. intros H. induction m as [|[n s] m IH]; [done|]. exact (emits_cons n s (fun c => e (put_symbols m c)) _ IH). Qed.
Lemma emits_symbols l n s : emits (fun c => range_encode_equiprobable (put_symbols l c) n s) (l ++ [(n, s)]).
Proof. apply (emits_after l (fun c => range_encode_equiprobable c n s)), emits_last. Qed.

Lemma emits_bytes l : emits (fun c => (0, encode_bytes l c)) (map (fun b => (256, b)) l).
Proof.
  induction l as [|b l IH]; [apply emits_none|]. exact (emits_cons 256 b (fun c => (0, encode_bytes l c)) _ IH).
Qed.

(** ** The symbols of each type *)

Definition box_symbols (n : nat) (bits : Z) : list (Z * Z) := map (fun o => (2, Z.land (Z.shiftr bits (Z.of_nat o)) 1)) (seq 0 n).
Definition timestamp_symbols (t : Z) : list (Z * Z) := map (fun k => (256, t / 256 ^ k mod 256)) [5; 4; 3; 2; 1; 0].

Lemma emits_boxes n : forall o bits, emits (fun c => (0, encode_boxes n (Z.of_nat o) bits c))
  (map (fun o => (2, Z.land (Z.shiftr bits (Z.of_nat o)) 1)) (seq o n)).
Proof.
  induction n as [|n IH]; intros o bits; [apply emits_none|]. cbn [seq map]. specialize (IH (S o) bits).
  rewrite Nat2Z.inj_succ, <- Z.add_1_r in IH.
  exact (emits_cons 2 _ (fun c => (0, encode_boxes n (Z.of_nat o + 1) bits c)) _ IH).
Qed.

Lemma timestamp_byte t : 0 <= t < 2 ^ 64 -> Z.land (Z.shiftr t 40) 0xff = t / 2 ^ 40 mod 256.
Proof. intros Ht. change 0xff with (2 ^ 8 - 1). by rewrite land_mod, Z.shiftr_div_pow2 by lia. Qed.

(** the six bytes, the high one first *)
Lemma emits_timestamp t : 0 <= t < 2 ^ 48 -> emits (fun c => (0, encode_timestamp 6 t c)) (timestamp_symbols t).
Proof.
  intros Ht. unfold timestamp_symbols. cbn [map].
  assert (forall k u, 0 <= k <= 5 -> u = u64 (t * 256 ^ (5 - k)) -> Z.land (Z.shiftr u 40) 0xff = t / 256 ^ k mod 256 /\
    u64 (Z.shiftl u 8) = u64 (t * 256 ^ (5 - (k - 1)))) as Hstep.
  { intros k u Hk ->. rewrite timestamp_byte by (unfold u64; apply Z.mod_pos_bound; lia). unfold u64.
    rewrite Z.shiftl_mul_pow2, Zmult_mod_idemp_l by lia. split.
    - assert (k = 0 \/ k = 1 \/ k = 2 \/ k = 3 \/ k = 4 \/ k = 5) as [->|[->|[->|[->|[->| ->]]]]] by lia;
        match goal with |- context [256 ^ (5 - ?k)] => let v := eval vm_compute in (256 ^ (5 - k)) in change (256 ^ (5 - k)) with v end;
        match goal with |- context [256 ^ ?k] => let v := eval vm_compute in (256 ^ k) in change (256 ^ k) with v end; divmod.
    - f_equal. rewrite <- Z.mul_assoc. f_equal. change (2 ^ 8) with (256 ^ 1). rewrite <- Z.pow_add_r by lia. f_equal. lia. }
  cbn [encode_timestamp].
  assert (t = u64 (t * 256 ^ (5 - 5))) as E5 by (cbn; rewrite Z.mul_1_r, u64_small; lia).
  destruct (Hstep 5 _ ltac:(lia) E5) as [-> E4]. destruct (Hstep 4 _ ltac:(lia) E4) as [-> E3].
  destruct (Hstep 3 _ ltac:(lia) E3) as [-> E2]. destruct (Hstep 2 _ ltac:(lia) E2) as [-> E1].
  destruct (Hstep 1 _ ltac:(lia) E1) as [-> E0]. destruct (Hstep 0 _ ltac:(lia) E0) as [-> _].
  exact (emits_bytes (map (fun k => t / 256 ^ k mod 256) [5; 4; 3; 2; 1; 0])).
Qed.

Definition between (lo x hi : Z) : bool := (lo <=? x) && (x <=? hi).
Lemma between_spec lo x hi : between lo x hi = true <-> lo <= x <= hi.
Proof. unfold between. rewrite andb_true_iff, !Z.leb_le. done. Qed.
Lemma between_guard lo x hi : (x <? lo) || (x >? hi) = negb (between lo x hi).
Proof. unfold between. rewrite Z.ltb_antisym, Z.gtb_ltb, (Z.ltb_antisym x hi), negb_andb. done. Qed.

(** an encoder with the symbols it sends, or [None] when it refuses *)
Definition sends_as (e : range_coder -> Z * range_coder) (l : option (list (Z * Z))) : Prop :=
  match l with Some l => emits e l | None => refuses e end.

Section Spec.
#[local] Opaque range_encode_equiprobable.
Context `{M : Memory} `{E : Environment}.

(** a number below [2^bits], kept to [precision] bits when that is smaller *)
Definition coarse (precision bits maximum v : Z) : Z * Z :=
  let precision := if precision =? 0 then bits else precision in
  if precision <? bits then (maximum / 2 ^ (bits - precision) + 2, v / 2 ^ (bits - precision)) else (maximum + 1, v).

Definition time_of_day (value : list Z) : option Z :=
  match sscanf timeofday_format value with
  | VInt h :: VInt m :: more =>
      let s := nth_int more 0 unset in
      if between 0 h 23 && between 0 m 59 && between 0 s 59 then Some (h * 3600 + m * 60 + s) else None
  | _ => None
  end.
Definition timeofday_symbols (precision : Z) (value : list Z) : option (list (Z * Z)) :=
  option_map (fun t => [coarse precision 17 86400 t]) (time_of_day value).

Lemma timeofday_spec precision value : sends_as (fun c => encode_timeofday precision c value) (timeofday_symbols precision value).
Proof.
  unfold encode_timeofday, timeofday_symbols, time_of_day.
  destruct (sscanf timeofday_format value) as [|[h|] [|[m|] more]]; try (intros c; reflexivity).
  set (s := nth_int more 0 unset).
  assert ((h <? 0) || (h >? 23) || (m <? 0) || (m >? 59) || (s <? 0) || (s >? 59) = negb (between 0 h 23 && between 0 m 59 && between 0 s 59)) as ->.
  { rewrite !negb_andb, <- !between_guard, !orb_assoc. done. }
  destruct (between 0 h 23 && _ && _); cbn [negb option_map sends_as]; [|by intros c].
  unfold coarse. set (p := if precision =? 0 then 17 else precision). destruct (Z.ltb_spec p 17).
  - rewrite !Z.shiftr_div_pow2 by lia. rewrite Z.div_0_l by lia.
    replace (24 * 60 * 60 / 2 ^ (17 - p) + 1 - 0 + 1) with (86400 / 2 ^ (17 - p) + 2) by (change (24 * 60 * 60) with 86400; lia).
    apply emits_last.
  - apply emits_last.
Qed.

(** the local time that is sent, when the checks accept the value *)
Definition timedate_of (value : list Z) : option tm :=
  match sscanf timedate_format value with
  | VInt year :: VInt mon :: VInt mday :: VInt hour :: VInt min :: VInt sec :: more =>
      let csec := nth_int more 0 unset in
      let tzh := nth_int more 1 0 in
      let tzm := nth_int more 2 0 in
      if between 0 year 2299 && between 1 mon 12 && between 1 mday 31 && between 0 hour 24 && between 0 min 59 && between 0 sec 61 &&
         (csec <=? 99) && between (-15) tzh 15 && between 0 tzm 59
      then Some (Tm (year - 1900) (mon - 1) mday hour min sec (tzm * 60 + tzh * 3600))
      else None
  | _ => None
  end.
Definition timedate_symbols (value : list Z) : option (list (Z * Z)) :=
  option_map (fun tm => let t := mktime tm in [(0x8000, i32 (Z.shiftr t 16)); (0x10000, t mod 0x10000)]) (timedate_of value).

(** one of the checks *)
Lemma sends_guard (b rest : bool) (e : range_coder -> Z * range_coder) l :
  sends_as e (if rest then l else None) ->
  sends_as (fun c => if negb b then (-1, c) else e c) (if b && rest then l else None).
Proof. destruct b; cbn [negb andb]; [done|]. intros _ c. reflexivity. Qed.

Lemma option_map_if {A B} (f : A -> B) (b : bool) x : option_map f (if b then Some x else None) = if b then Some (f x) else None.
Proof. by destruct b. Qed.
Lemma timedate_spec value : sends_as (fun c => encode_timedate c value) (timedate_symbols value).
Proof.
  unfold encode_timedate, timedate_symbols, timedate_of.
  destruct (sscanf timedate_format value) as [|[year|] [|[mon|] [|[mday|] [|[hour|] [|[min|] [|[sec|] more]]]]]]; try (intros c; reflexivity).
  set (csec := nth_int more 0 unset).
  set (tzh := nth_int more 1 0).
  set (tzm := nth_int more 2 0).
  rewrite option_map_if, !between_guard, Z.gtb_ltb, Z.ltb_antisym, <- !andb_assoc. repeat apply sends_guard.
  destruct (between 0 tzm 59); cbn [negb]; [|intros c; reflexivity].
  set (t := mktime _). change 0xffff with (2 ^ 16 - 1). rewrite land_mod by lia. exact (emits_symbols [(_, _)] _ _).
Qed.

Definition magpitimedate_symbols (value : list Z) : option (list (Z * Z)) :=
  match sscanf magpitimedate_format value with
  | [VInt year; VInt mon; VInt mday; VInt hour; VInt min; VInt sec] =>
      if between 0 year 9999 && between 1 mon 12 && between 1 mday 31 && between 0 hour 24 && between 0 min 59 && between 0 sec 61
      then Some [(10000, year); (12, mon - 1); (31, mday - 1); (25, hour); (60, min); (62, sec)]
      else None
  | _ => None
  end.

Lemma magpitimedate_spec value : sends_as (fun c => encode_magpitimedate c value) (magpitimedate_symbols value).
Proof.
  unfold encode_magpitimedate, magpitimedate_symbols.
  destruct (sscanf magpitimedate_format value) as [|[year|] [|[mon|] [|[mday|] [|[hour|] [|[min|] [|[sec|] [|]]]]]]]; try (intros c; reflexivity).
  rewrite !between_guard, <- !andb_assoc. repeat apply sends_guard.
  destruct (between 0 sec 61); cbn [negb]; [|intros c; reflexivity].
  exact (emits_symbols [(10000, year); (12, mon - 1); (31, mday - 1); (25, hour); (60, min)] 62 sec).
Qed.

(** days since the year 0, all months with 31 days *)
Definition day_number (y m d : Z) : Z := y * 961 + (m - 1) * 31 + (d - 1).
Definition date_symbols (precision : Z) (value : list Z) : option (list (Z * Z)) :=
  match scan_date value with
  | Some (y, m, d, separator) =>
      if between 1 y 9999 && between 1 m 31 && between 1 d 31
      then Some [(2, if separator =? 47 then 1 else 0); coarse precision 24 9610000 (day_number y m d)]
      else None
  | None => None
  end.

Lemma date_spec precision value : sends_as (fun c => encode_date precision c value) (date_symbols precision value).
Proof.
  unfold encode_date, date_symbols. destruct (scan_date value) as [[[[y m] d] sep]|]; [|intros c; reflexivity].
  assert ((y <? 1) || (y >? 9999) || (m <? 1) || (m >? 31) || (d <? 1) || (d >? 31) = negb (between 1 y 9999 && between 1 m 31 && between 1 d 31)) as ->.
  { rewrite !negb_andb, <- !between_guard, !orb_assoc. done. }
  destruct (between 1 y 9999 && _ && _); cbn [negb]; [|intros c; reflexivity].
  unfold coarse. set (p := if precision =? 0 then 24 else precision). destruct (Z.ltb_spec p 24).
  - rewrite !Z.shiftr_div_pow2 by lia. rewrite Z.div_0_l by lia.
    replace (10000 * 31 * 31 / 2 ^ (24 - p) + 1 - 0 + 1) with (9610000 / 2 ^ (24 - p) + 2) by (change (10000 * 31 * 31) with 9610000; lia).
    exact (emits_symbols [(_, _)] _ _).
  - exact (emits_symbols [(_, _)] _ _).
Qed.

(** degrees in range, as numbers of steps from the south pole and the date line *)
Definition position (value : list Z) : option (spec_float * spec_float) :=
  match scan_latlong value with
  | Some (lat, lon) =>
      if SFltb lat (float_of_int (-90)) || SFltb (float_of_int 90) lat || SFltb lon (float_of_int (-180)) || SFltb (float_of_int 180) lon
      then None else Some (lat, lon)
  | None => None
  end.
Definition latlong_symbols (precision : Z) (value : list Z) : option (list (Z * Z)) :=
  match position value with
  | Some (lat, lon) =>
      if precision =? 16 then Some [(182, int_of (lroundf lat) + 90); (361, int_of (lroundf lon) + 180)]
      else if (precision =? 0) || (precision =? 34) then
        Some [(20384000, int_of (lroundf (float_mul lat (float_of_int 112000))) + 10080000);
              (40432000, int_of (lroundf (float_mul lon (float_of_int 112000))) + 20160000)]
      else None
  | None => None
  end.

Lemma latlong_spec precision value : sends_as (fun c => encode_latlong precision c value) (latlong_symbols precision value).
Proof.
  unfold encode_latlong, latlong_symbols, position. destruct (scan_latlong value) as [[lat lon]|]; [|intros c; reflexivity].
  destruct (_ || _ || _ || _); [intros c; reflexivity|].
  destruct (precision =? 16); [exact (emits_symbols [(_, _)] _ _)|].
  change (182 * 112000) with 20384000. change (361 * 112000) with 40432000. change (90 * 112000) with 10080000. change (180 * 112000) with 20160000.
  destruct (_ || _); [|intros c; reflexivity].
  set (ilat := int_of _ + 10080000). set (ilon := int_of _ + 20160000). exact (emits_symbols [(20384000, ilat)] 40432000 ilon).
Qed.

Definition enum_symbols (f : field) (value : list Z) : option (list (Z * Z)) :=
  let v := enum_index (enum_value f) value in
  if v <? enum_count f then Some [(enum_count f, v)] else None.
Lemma enum_spec f value : sends_as (fun c => encode_enum f c value) (enum_symbols f value).
Proof.
  unfold encode_enum, enum_symbols. rewrite Z.geb_leb, Z.leb_antisym. destruct (_ <? _); cbn [negb sends_as]; [apply emits_last | intros c; reflexivity].
Qed.

Definition uuid_symbols (precision : Z) (value : list Z) : option (list (Z * Z)) :=
  let '(j, uuid) := scan_uuid (S (length (in_memory value))) (in_memory value) (if strncaseeq value (codes "uuid:") 5 then 5 else 0) 0 (repeat unset 16) in
  if j =? 16 then Some (map (fun b => (256, b)) (firstn (Z.to_nat (if between 1 precision 16 then precision else 16)) uuid)) else None.
Lemma uuid_spec precision value : sends_as (fun c => encode_uuid precision c value) (uuid_symbols precision value).
Proof.
  unfold encode_uuid, uuid_symbols. destruct (scan_uuid _ _ _ _ _) as [j uuid]. destruct (j =? 16); cbn [negb]; [|intros c; reflexivity].
  rewrite between_guard. destruct (between 1 precision 16); cbn [negb]; apply emits_bytes.
Qed.

Definition magpi_time (value : list Z) : Z := strtoll (skipn 17 value) mod 2 ^ 48.
Definition magpi_symbols (value : list Z) : list (Z * Z) :=
  map (fun b => (256, b)) (magpi_bytes (in_memory value)) ++ timestamp_symbols (magpi_time (in_memory value)).
Lemma magpiuuid_spec value : sends_as (fun c => encode_magpiuuid c value) (Some (magpi_symbols value)).
Proof.
  unfold encode_magpiuuid, magpi_symbols. cbv zeta. generalize (in_memory value). clear value. intros value. change 0xffffffffffff with (2 ^ 48 - 1). rewrite land_mod by lia. fold (magpi_time value).
  pose proof (emits_timestamp (magpi_time value) ltac:(apply Z.mod_pos_bound; lia)) as H.
  apply (emits_after (map (fun b => (256, b)) (magpi_bytes value))) in H. intros c. specialize (H c). cbv beta in H.
  rewrite <- (proj1 (emits_bytes (magpi_bytes value) c)) in H. exact H.
Qed.

Definition float_symbols (value : list Z) : list (Z * Z) :=
  let '(sign, exponent, mantissa) := float_parts value in
  [(2, sign); (256, exponent + 128); (256, mantissa / 65536 mod 256); (256, mantissa / 256 mod 256); (256, mantissa mod 256)].
Lemma float_spec value : sends_as (fun c => encode_float c value) (Some (float_symbols value)).
Proof.
  unfold encode_float, float_symbols. destruct (float_parts value) as [[sign exponent] mantissa].
  change 0xff with (2 ^ 8 - 1). rewrite !land_mod, !Z.shiftr_div_pow2 by lia.
  exact (emits_symbols [(2, sign); (256, exponent + 128); (256, mantissa / 65536 mod 256); (256, mantissa / 256 mod 256)] 256 (mantissa mod 256)).
Qed.

(** ** A field that is neither a number with bounds nor text *)
Definition field_symbols (f : field) (value : list Z) : option (list (Z * Z)) :=
  let t := f_type f in
  let precision := f_precision f in
  if t =? FIELDTYPE_FLOAT then Some (float_symbols value)
  else if (t =? FIELDTYPE_FIXEDPOINT) || (t =? FIELDTYPE_BOOLEAN) then Some [(2, recipe_parse_boolean (Some value))]
  else if t =? FIELDTYPE_TIMEOFDAY then timeofday_symbols precision value
  else if t =? FIELDTYPE_TIMEDATE then timedate_symbols value
  else if t =? FIELDTYPE_MAGPITIMEDATE then magpitimedate_symbols value
  else if t =? FIELDTYPE_DATE then date_symbols precision value
  else if t =? FIELDTYPE_LATLONG then latlong_symbols precision value
  else if t =? FIELDTYPE_MULTISELECT then Some (box_symbols (Z.to_nat (enum_count f)) (multi_bits (length value) f value 0))
  else if t =? FIELDTYPE_ENUM then enum_symbols f value
  else if t =? FIELDTYPE_MAGPIUUID then Some (magpi_symbols value)
  else if t =? FIELDTYPE_UUID then uuid_symbols precision value
  else None.

Definition plain_type (t : Z) : Prop := t <> FIELDTYPE_INTEGER /\ t <> FIELDTYPE_TEXT.

Lemma field_spec f h value : plain_type (f_type f) -> sends_as (fun c => recipe_encode_field f h c value) (field_symbols f value).
Proof.
  intros [Hi Ht]. unfold recipe_encode_field, field_symbols.
  destruct (Z.eqb_spec (f_type f) FIELDTYPE_INTEGER); [done|].
  destruct (f_type f =? FIELDTYPE_FLOAT); [apply float_spec|].
  destruct (_ || _); [apply emits_last|].
  destruct (f_type f =? FIELDTYPE_TIMEOFDAY); [apply timeofday_spec|].
  destruct (f_type f =? FIELDTYPE_TIMEDATE); [apply timedate_spec|].
  destruct (f_type f =? FIELDTYPE_MAGPITIMEDATE); [apply magpitimedate_spec|].
  destruct (f_type f =? FIELDTYPE_DATE); [apply date_spec|].
  destruct (f_type f =? FIELDTYPE_LATLONG); [apply latlong_spec|].
  destruct (f_type f =? FIELDTYPE_MULTISELECT); [exact (emits_boxes (Z.to_nat (enum_count f)) 0 (multi_bits (length value) f value 0))|].
  destruct (f_type f =? FIELDTYPE_ENUM); [apply enum_spec|].
  destruct (Z.eqb_spec (f_type f) FIELDTYPE_TEXT); [done|].
  destruct (f_type f =? FIELDTYPE_MAGPIUUID); [apply magpiuuid_spec|].
  destruct (f_type f =? FIELDTYPE_UUID); [apply uuid_spec|].
  intros c. reflexivity.
Qed.

(** ** The alphabets of a field, which the decoder knows from the recipe *)
Definition coarse_alphabet (precision bits maximum : Z) : Z := fst (coarse precision bits maximum 0).
Definition alphabets (f : field) : list Z :=
  let t := f_type f in
  let precision := f_precision f in
  if t =? FIELDTYPE_FLOAT then [2; 256; 256; 256; 256]
  else if (t =? FIELDTYPE_FIXEDPOINT) || (t =? FIELDTYPE_BOOLEAN) then [2]
  else if t =? FIELDTYPE_TIMEOFDAY then [coarse_alphabet precision 17 86400]
  else if t =? FIELDTYPE_TIMEDATE then [0x8000; 0x10000]
  else if t =? FIELDTYPE_MAGPITIMEDATE then [10000; 12; 31; 25; 60; 62]
  else if t =? FIELDTYPE_DATE then [2; coarse_alphabet precision 24 9610000]
  else if t =? FIELDTYPE_LATLONG then if precision =? 16 then [182; 361] else [20384000; 40432000]
  else if t =? FIELDTYPE_MULTISELECT then repeat 2 (Z.to_nat (enum_count f))
  else if t =? FIELDTYPE_ENUM then [enum_count f]
  else if t =? FIELDTYPE_MAGPIUUID then repeat 256 14
  else if t =? FIELDTYPE_UUID then repeat 256 (Z.to_nat (if between 1 precision 16 then precision else 16))
  else [].

Lemma coarse_fst precision bits maximum v : fst (coarse precision bits maximum v) = coarse_alphabet precision bits maximum.
Proof. unfold coarse_alphabet, coarse. destruct (_ <? _); done. Qed.

Lemma scan_uuid_length fuel value : forall i j uuid, length (snd (scan_uuid fuel value i j uuid)) = length uuid.
Proof.
  induction fuel as [|fuel IH]; intros i j uuid; [done|]. cbn [scan_uuid].
  destruct (negb _); [done|]. destruct (j =? 16); [done|]. destruct (negb _); rewrite IH; [apply length_wr | done].
Qed.

Lemma fst_bytes l : map fst (map (fun b : Z => (256, b)) l) = repeat 256 (length l).
Proof. induction l as [|b l IH]; [done|]. cbn. by rewrite IH. Qed.

(** the alphabets do not depend on the value *)
Lemma field_alphabets f value l : field_symbols f value = Some l -> map fst l = alphabets f.
Proof.
  unfold field_symbols, alphabets. destruct (f_type f =? FIELDTYPE_FLOAT).
  { intros [= <-]. unfold float_symbols. by destruct (float_parts value) as [[sign exponent] mantissa]. }
  destruct (_ || _); [by intros [= <-]|].
  destruct (f_type f =? FIELDTYPE_TIMEOFDAY).
  { unfold timeofday_symbols. destruct (time_of_day value) as [t|]; [|done]. intros [= <-]. cbn [map]. by rewrite coarse_fst. }
  destruct (f_type f =? FIELDTYPE_TIMEDATE).
  { unfold timedate_symbols. destruct (timedate_of value); [|done]. by intros [= <-]. }
  destruct (f_type f =? FIELDTYPE_MAGPITIMEDATE).
  { unfold magpitimedate_symbols. destruct (sscanf magpitimedate_format value) as [|[year|] [|[mon|] [|[mday|] [|[hour|] [|[min|] [|[sec|] [|]]]]]]]; try done.
    destruct (_ && _); [|done]. by intros [= <-]. }
  destruct (f_type f =? FIELDTYPE_DATE).
  { unfold date_symbols. destruct (scan_date value) as [[[[y m] d] sep]|]; [|done]. destruct (_ && _); [|done].
    intros [= <-]. cbn [map fst]. by rewrite coarse_fst. }
  destruct (f_type f =? FIELDTYPE_LATLONG).
  { unfold latlong_symbols. destruct (position value) as [[lat lon]|]; [|done]. destruct (f_precision f =? 16); [by intros [= <-]|].
    destruct (_ || _); [|done]. by intros [= <-]. }
  destruct (f_type f =? FIELDTYPE_MULTISELECT).
  { intros [= <-]. unfold box_symbols. rewrite map_map. cbn [fst]. generalize 0%nat. induction (Z.to_nat (enum_count f)) as [|n IH]; intros k; [done|].
    cbn. by rewrite IH. }
  destruct (f_type f =? FIELDTYPE_ENUM).
  { unfold enum_symbols. destruct (_ <? _); [|done]. by intros [= <-]. }
  destruct (f_type f =? FIELDTYPE_MAGPIUUID).
  { intros [= <-]. reflexivity. }
  destruct (f_type f =? FIELDTYPE_UUID); [|done].
  unfold uuid_symbols. pose proof (scan_uuid_length (S (length (in_memory value))) (in_memory value) (if strncaseeq value (codes "uuid:") 5 then 5 else 0) 0 (repeat unset 16)) as Hlen.
  destruct (scan_uuid _ _ _ _ _) as [j uuid]. cbn [snd] in Hlen. rewrite repeat_length in Hlen. destruct (j =? 16); [|done].
  intros [= <-]. rewrite fst_bytes, length_firstn, Hlen. f_equal. destruct (between 1 (f_precision f) 16) eqn:B; [|lia]. apply between_spec in B. lia.
Qed.

(** ** The symbols are in their alphabets *)
Ltac ranges := repeat match goal with H : (_ && _) = true |- _ => apply andb_true_iff in H as [? H] end;
  repeat match goal with H : between _ _ _ = true |- _ => apply between_spec in H end.

Lemma coarse_in_range precision bits maximum v : 0 <= v < maximum -> maximum < 2 ^ 30 -> in_range (coarse precision bits maximum v).
Proof.
  intros Hv Hm. unfold coarse, in_range. set (p := if precision =? 0 then bits else precision).
  destruct (Z.ltb_spec p bits); cbn [fst snd]; [|lia].
  assert (0 < 2 ^ (bits - p)) as Hp by (apply Z.pow_pos_nonneg; lia). remember (2 ^ (bits - p)) as k eqn:Ek. clear Ek.
  pose proof (Z.div_le_mono v maximum k ltac:(lia) ltac:(lia)). pose proof (Z.div_pos v k ltac:(lia) ltac:(lia)).
  assert (maximum / k <= maximum) by (apply Z.div_le_upper_bound; nia). lia.
Qed.

Lemma bytes_in_range l : Forall (fun b => 0 <= b < 256) l -> symbols_ok (map (fun b => (256, b)) l).
Proof. intros H. apply Forall_map. eapply Forall_impl; [|exact H]. intros b Hb. split; [exact Hb | done]. Qed.

Lemma enum_index_range values value : 0 <= enum_index values value <= Z.of_nat (length values).
Proof. induction values as [|v values IH]; cbn [enum_index length]; [lia|]. destruct (strcaseeq value v); lia. Qed.

(** all sixteen bytes are set when the count is sixteen *)
Lemma scan_uuid_bytes fuel value : forall i j uuid, 0 <= j <= 16 -> length uuid = 16%nat ->
  (forall k, 0 <= k < j -> 0 <= rd uuid k < 256) ->
  let '(j', uuid') := scan_uuid fuel value i j uuid in
  (j' <= 16 -> forall k, 0 <= k < j' -> 0 <= rd uuid' k < 256).
Proof.
  induction fuel as [|fuel IH]; intros i j uuid Hj Hlen Hk; [by intros _|]. cbn [scan_uuid].
  destruct (negb _); [by intros _|]. destruct (Z.eqb_spec j 16); [lia|]. destruct (negb _); [|by apply IH].
  apply IH; [lia | by rewrite length_wr|]. intros k Hk'. rewrite rd_wr, (Z.eqb_sym j k) by lia. destruct (Z.eqb_spec k j); cbn [andb].
  - destruct (Z.ltb_spec j (Z.of_nat (length uuid))); [|lia]. apply Z.mod_pos_bound. lia.
  - apply Hk. lia.
Qed.

Lemma uuid_in_range precision value l : uuid_symbols precision value = Some l -> symbols_ok l.
Proof.
  unfold uuid_symbols. set (i := if _ : bool then _ else _).
  pose proof (scan_uuid_length (S (length (in_memory value))) (in_memory value) i 0 (repeat unset 16)) as Hlen.
  pose proof (scan_uuid_bytes (S (length (in_memory value))) (in_memory value) i 0 (repeat (@unset E) 16) ltac:(lia) eq_refl ltac:(lia)) as HB.
  destruct (scan_uuid _ _ _ _ _) as [j uuid]. cbn [snd] in Hlen. rewrite repeat_length in Hlen.
  destruct (Z.eqb_spec j 16) as [->|]; [|done]. intros [= <-]. apply bytes_in_range, Forall_take.
  apply List.Forall_forall. intros x Hx. apply (In_nth _ _ 0) in Hx as (k & Hk & <-).
  specialize (HB ltac:(lia) (Z.of_nat k) ltac:(lia)). by rewrite rd_of_nat in HB.
Qed.

Lemma boxes_in_range n bits : symbols_ok (box_symbols n bits).
Proof.
  apply Forall_map, List.Forall_forall. intros o _. split; [|done]. cbn [compose fst snd]. change 1 with (2 ^ 1 - 1). rewrite land_mod by lia. divmod.
Qed.

Lemma float_in_range value : symbols_ok (float_symbols value).
Proof.
  unfold float_symbols, float_parts. set (x := convert float_prec float_emax (atof value)).
  assert (exists b y, (if SFltb x (S754_zero false) then (1, SFopp x) else (0, x)) = (Z.b2z b, y)) as (b & y & ->).
  { destruct (SFltb x (S754_zero false)); [by exists true, (SFopp x) | by exists false, x]. }
  destruct (SFfrexp _ _ _) as [m e]. set (e1 := match y with S754_zero _ => 0 | S754_finite _ _ _ => e | _ => unset end).
  set (mantissa := int_of _). clearbody mantissa e1. unfold symbols_ok. rewrite !Forall_cons_iff. unfold in_range. cbn [fst snd].
  repeat split; try done; try (destruct b; cbn; lia); try divmod;
    (destruct (Z.ltb_spec e1 (-127)); [change (-127 >? 127) with false | destruct (Z.gtb_spec e1 127)]; lia).
Qed.

(** what a recipe satisfies that recipe_read accepted, see RecipeRead *)
Definition choices_ok (f : field) : Prop := enum_count f = Z.of_nat (length (enum_value f)) /\ enum_count f < 2 ^ 31.

Lemma guarded_time_in_range precision value l : timeofday_symbols precision value = Some l -> symbols_ok l.
Proof.
  unfold timeofday_symbols, time_of_day. destruct (sscanf timeofday_format value) as [|[h|] [|[m|] more]]; try done.
  destruct (between 0 h 23 && _ && _) eqn:G; [|done]. intros [= <-]. b2p. rewrite !between_spec in *.
  apply Forall_singleton, coarse_in_range; lia.
Qed.
Lemma guarded_date_in_range precision value l : date_symbols precision value = Some l -> symbols_ok l.
Proof.
  unfold date_symbols. destruct (scan_date value) as [[[[y m] d] sep]|]; [|done].
  destruct (between 1 y 9999 && _ && _) eqn:G; [|done]. intros [= <-]. b2p. rewrite !between_spec in *.
  apply List.Forall_cons; [destruct (sep =? 47); done|]. apply Forall_singleton, coarse_in_range; unfold day_number; lia.
Qed.
Lemma guarded_magpitimedate_in_range value l : magpitimedate_symbols value = Some l -> symbols_ok l.
Proof.
  unfold magpitimedate_symbols.
  destruct (sscanf magpitimedate_format value) as [|[year|] [|[mon|] [|[mday|] [|[hour|] [|[min|] [|[sec|] [|]]]]]]]; try done.
  destruct (_ && between 0 sec 61) eqn:G; [|done]. intros [= <-]. b2p. rewrite !between_spec in *.
  unfold symbols_ok. rewrite !Forall_cons_iff. unfold in_range. cbn [fst snd]. repeat split; lia || done.
Qed.
Lemma guarded_timedate_in_range value l : (forall t, timedate_of value = Some t -> 0 <= mktime t < 2 ^ 31) -> timedate_symbols value = Some l -> symbols_ok l.
Proof.
  intros Hclock. unfold timedate_symbols. destruct (timedate_of value) as [tm|]; [|done]. specialize (Hclock tm eq_refl). revert Hclock.
  cbn [option_map]. cbv zeta. generalize (mktime tm). intros t Ht [= <-]. rewrite Z.shiftr_div_pow2, i32_small by divmod. unfold symbols_ok. rewrite !Forall_cons_iff. unfold in_range. cbn [fst snd].
  repeat split; try done; divmod.
Qed.
(** a position is made of two numbers that strtof gave, within their bounds *)
Lemma position_bounds value lat lon : position value = Some (lat, lon) -> lat <> S754_nan -> lon <> S754_nan -> bounded_by 90 lat /\ bounded_by 180 lon.
Proof.
  unfold position. destruct (scan_latlong value) as [[x y]|] eqn:Es; [|done].
  assert (exists lx ly, x = strtof lx /\ y = strtof ly) as (lx & ly & Ex & Ey).
  { unfold scan_latlong in Es. destruct (scan_float value) as [[lx r]|]; [|done].
    destruct (scan_float (skip_spaces r)) as [[ly ?]|]; [injection Es as <- <-; by exists lx, ly|].
    destruct r as [|c r]; [done|]. destruct (c =? 44); [|done]. destruct (scan_float r) as [[ly ?]|]; [injection Es as <- <-; by exists lx, ly | done]. }
  destruct (_ || _) eqn:Eb; [done|]. intros [= <- <-] Hx Hy. b2p.
  split; [by eapply (in_bounds 90 _ lx latitude) | by eapply (in_bounds 180 _ ly longitude)].
Qed.
Lemma int_of_small v lo hi : - 2 ^ 31 <= lo -> hi < 2 ^ 31 -> lo <= v <= hi -> int_of (Some v) = v.
Proof. intros Hlo Hhi Hv. apply i32_small. lia. Qed.
Lemma guarded_latlong_in_range precision value l : (forall lat lon, position value = Some (lat, lon) -> lat <> S754_nan /\ lon <> S754_nan) ->
  latlong_symbols precision value = Some l -> symbols_ok l.
Proof.
  intros Hnan. unfold latlong_symbols. destruct (position value) as [[lat lon]|] eqn:Ep; [|done]. destruct (Hnan lat lon eq_refl) as [Hx Hy].
  destruct (position_bounds value lat lon Ep Hx Hy) as [Bx By]. unfold symbols_ok.
  destruct (precision =? 16); [|destruct (_ || _); [|done]].
  - destruct (lroundf_degrees 90 lat ltac:(done) Bx) as (u & -> & Hu). destruct (lroundf_degrees 180 lon ltac:(done) By) as (v & -> & Hv).
    rewrite (int_of_small u (-90) 90), (int_of_small v (-180) 180) by lia. intros [= <-]. rewrite !Forall_cons_iff. unfold in_range. cbn [fst snd]. repeat split; lia || done.
  - destruct (lroundf_metres 90 lat latitude Bx) as (u & -> & Hu). destruct (lroundf_metres 180 lon longitude By) as (v & -> & Hv).
    rewrite (int_of_small u (- (90 * 112000)) (90 * 112000)), (int_of_small v (- (180 * 112000)) (180 * 112000)) by lia.
    intros [= <-]. rewrite !Forall_cons_iff. unfold in_range. cbn [fst snd]. repeat split; lia || done.
Qed.
Lemma guarded_enum_in_range f value l : choices_ok f -> enum_symbols f value = Some l -> symbols_ok l.
Proof.
  intros [Hc Hb]. unfold enum_symbols. destruct (Z.ltb_spec (enum_index (enum_value f) value) (enum_count f)); [|done].
  intros [= <-]. pose proof (enum_index_range (enum_value f) value). apply Forall_singleton. split; cbn [fst snd]; lia.
Qed.
Lemma magpiuuid_in_range value : symbols_ok (magpi_symbols value).
Proof.
  apply Forall_app. split.
  - apply bytes_in_range. unfold magpi_bytes. apply Forall_map, List.Forall_forall. intros k _. apply Z.mod_pos_bound. lia.
  - unfold timestamp_symbols. apply Forall_map, List.Forall_forall. intros k _. split; [|done]. cbn [compose fst snd]. apply Z.mod_pos_bound. lia.
Qed.

(** The fields and values of which the symbols are in range.  A time is sent in 31 bits,
    so that it has to be between 1970 and 2038; a position must not be "nan", which no
    comparison refuses; and the numbers of an integer field fit an int. *)
Record value_ok (f : field) (value : list Z) : Prop := {
  vo_choices : choices_ok f;
  vo_integer : f_type f = FIELDTYPE_INTEGER -> - 2 ^ 31 <= f_minimum f /\ f_maximum f < 2 ^ 31 /\ f_maximum f - f_minimum f + 2 < 2 ^ 31;
  vo_time : f_type f = FIELDTYPE_TIMEDATE -> forall t, timedate_of value = Some t -> 0 <= mktime t < 2 ^ 31;
  vo_position : f_type f = FIELDTYPE_LATLONG -> forall lat lon, position value = Some (lat, lon) -> lat <> S754_nan /\ lon <> S754_nan
}.
Lemma symbols_in_range f value l : value_ok f value -> field_symbols f value = Some l -> symbols_ok l.
Proof.
  intros [Hc _ Hclock Hnan]. unfold field_symbols.
  destruct (f_type f =? FIELDTYPE_FLOAT); [intros [= <-]; apply float_in_range|].
  destruct (_ || _).
  { intros [= <-]. apply Forall_singleton. split; [|done]. cbn [fst snd]. unfold recipe_parse_boolean. destruct (_ || _ || _ || _ || _); lia. }
  destruct (f_type f =? FIELDTYPE_TIMEOFDAY); [apply guarded_time_in_range|].
  destruct (Z.eqb_spec (f_type f) FIELDTYPE_TIMEDATE); [by apply guarded_timedate_in_range, Hclock|].
  destruct (f_type f =? FIELDTYPE_MAGPITIMEDATE); [apply guarded_magpitimedate_in_range|].
  destruct (f_type f =? FIELDTYPE_DATE); [apply guarded_date_in_range|].
  destruct (Z.eqb_spec (f_type f) FIELDTYPE_LATLONG); [by apply guarded_latlong_in_range, Hnan|].
  destruct (f_type f =? FIELDTYPE_MULTISELECT); [intros [= <-]; apply boxes_in_range|].
  destruct (f_type f =? FIELDTYPE_ENUM); [by apply guarded_enum_in_range|].
  destruct (f_type f =? FIELDTYPE_MAGPIUUID); [intros [= <-]; apply magpiuuid_in_range|].
  destruct (f_type f =? FIELDTYPE_UUID); [apply uuid_in_range | done].
Qed.

(** ** Any field *)

(** What is sent for a value: symbols, a text with the length that is given with it, or
    the symbol that says that the value is not a number of the field with the value as
    text. *)
Inductive sent := Numbers (l : list (Z * Z)) | Words (m : list Z) (len : Z) | Escaped (escape : Z * Z) (m : list Z).

Definition integer_alphabet (f : field) : Z := i32 (f_maximum f - f_minimum f + 2).
Definition integer_offset (f : field) (value : list Z) : Z := i32 (atoi value - f_minimum f).
(** the length that the text is trimmed to *)
Definition text_length (f : field) (value : list Z) : Z :=
  let len := Z.of_nat (length value) in
  if (f_precision f >? 0) && (len >? f_precision f) then f_precision f else len.

(** [None] when the value is refused *)
Definition field_sent (f : field) (value : list Z) : option sent :=
  if f_type f =? FIELDTYPE_INTEGER then
    let n := integer_offset f value in
    let escape := i32 (f_maximum f - f_minimum f + 1) in
    if f_maximum f <=? f_minimum f then None
    else if (n <? 0) || (n >? escape) then Some (Escaped (integer_alphabet f, escape) value)
    else Some (Numbers [(integer_alphabet f, n)])
  else if f_type f =? FIELDTYPE_TEXT then Some (Words value (text_length f value))
  else option_map Numbers (field_symbols f value).

Definition put_sent (h : stats_handle) (s : sent) (c : range_coder) : range_coder :=
  match s with
  | Numbers l => put_symbols l c
  | Words m len => snd (stats3_compress_append h m len c)
  | Escaped e m => snd (stats3_compress_append h m (Z.of_nat (length m)) (put_symbols [e] c))
  end.

Definition sent_symbols (s : sent) : list (Z * Z) := match s with Numbers l => l | Words _ _ => [] | Escaped e _ => [e] end.
Lemma sent_in_range f value s : value_ok f value -> field_sent f value = Some s -> symbols_ok (sent_symbols s).
Proof.
  intros Hv. unfold field_sent. destruct (Z.eqb_spec (f_type f) FIELDTYPE_INTEGER) as [Ei|].
  - destruct (vo_integer f value Hv Ei) as (Hmin & Hmax & Hw). unfold integer_alphabet.
    destruct (Z.leb_spec (f_maximum f) (f_minimum f)); [done|]. rewrite !i32_small by lia. rewrite Z.gtb_ltb.
    destruct (Z.ltb_spec (integer_offset f value) 0), (Z.ltb_spec (f_maximum f - f_minimum f + 1) (integer_offset f value)); intros [= <-];
      apply Forall_singleton; split; cbn [fst snd]; lia.
  - destruct (f_type f =? FIELDTYPE_TEXT); [intros [= <-]; apply List.Forall_nil|].
    destruct (field_symbols f value) as [l|] eqn:Es; [|done]. intros [= <-]. by apply (symbols_in_range f value).
Qed.

(** the decoder; the result is [None] when the text cannot be decoded *)
Definition decode_field (f : field) (h : stats_handle) (c : range_coder) : option sent * range_coder :=
  if f_type f =? FIELDTYPE_INTEGER then
    let '(n, c) := range_decode_equiprobable c (integer_alphabet f) in
    if n =? i32 (f_maximum f - f_minimum f + 1) then
      let '(m, c) := stats3_decompress_bits h c in (option_map (fun m => Escaped (integer_alphabet f, n) (fst m)) m, c)
    else (Some (Numbers [(integer_alphabet f, n)]), c)
  else if f_type f =? FIELDTYPE_TEXT then
    let '(m, c) := stats3_decompress_bits h c in (option_map (fun m => Words (fst m) (snd m)) m, c)
  else let '(l, c) := get_symbols (alphabets f) c in (Some (Numbers (combine (alphabets f) l)), c).

(** When a value is coded faithfully: the numbers of the field fit an int, the
    value is not the one after the maximum, whose symbol is that of the escape, and
    texts can be compressed and are not trimmed.  (When a text is trimmed, the packed form
    still sends all of it: see [trimmed_text].) *)
Definition sent_ok (f : field) (h : stats_handle) (s : sent) : Prop :=
  match s with
  | Numbers l => symbols_ok l /\
      (f_type f = FIELDTYPE_INTEGER -> map snd l <> [i32 (f_maximum f - f_minimum f + 1)])
  | Words m len => message h m /\ len = Z.of_nat (length m)
  | Escaped e m => in_range e /\ message h m
  end.

Lemma field_code_put f h value s c : field_sent f value = Some s -> snd (recipe_encode_field f h c value) = put_sent h s c.
Proof.
  unfold field_sent. destruct (Z.eqb_spec (f_type f) FIELDTYPE_INTEGER) as [Et|Ht].
  - unfold recipe_encode_field. rewrite Et. change (FIELDTYPE_INTEGER =? FIELDTYPE_INTEGER) with true. unfold encode_integer. fold (integer_offset f value). fold (integer_alphabet f).
    destruct (_ <=? _); [done|]. destruct (_ || _); intros [= <-]; done.
  - destruct (Z.eqb_spec (f_type f) FIELDTYPE_TEXT) as [Ex|Hx].
    + intros [= <-]. unfold recipe_encode_field. rewrite Ex.
      cbn -[stats3_compress_append]. unfold encode_text. fold (text_length f value).
      destruct (stats3_compress_append h value (text_length f value) c) as [r c']. by destruct (nz r).
    + destruct (field_symbols f value) as [l|] eqn:Es; [|done]. intros [= <-].
      pose proof (field_spec f h value (conj Ht Hx)) as H. rewrite Es in H. exact (proj1 (H c)).
Qed.

Lemma combine_symbols l : combine (map fst l) (map snd l) = l :> list (Z * Z).
Proof. induction l as [|[n s] l IH]; [done|]. cbn. by rewrite IH. Qed.

(** the text after a symbol *)
Lemma text_codes {B} h m (g : list Z * Z -> B) : stats_ok h -> MemoryOk M -> message h m ->
  Codes (fun c => snd (stats3_compress_append h m (Z.of_nat (length m)) c))
    (fun c => let '(x, c) := stats3_decompress_bits h c in (option_map g x, c)) (Some (g (m, Z.of_nat (length m)))).
Proof.
  intros Hh HM Hm. destruct (compress_append_codes h m [] Hh HM Hm eq_refl) as [_ HC]. rewrite app_nil_r in HC. exact (Codes_map (option_map g) _ _ _ HC).
Qed.

Lemma symbol_codes n s : in_range (n, s) ->
  Codes (fun c => snd (range_encode_equiprobable c n s)) (fun c => range_decode_equiprobable c n) s.
Proof.
  intros [Hs Hn]. exact (equiprobable_codec n Hn s Hs).
Qed.

Lemma sent_codes f h value s : stats_ok h -> MemoryOk M -> field_sent f value = Some s -> sent_ok f h s ->
  Codes (put_sent h s) (decode_field f h) (Some s).
Proof.
  intros Hh HM. unfold field_sent, decode_field. destruct (Z.eqb_spec (f_type f) FIELDTYPE_INTEGER) as [Et|Ht].
  - destruct (_ <=? _); [done|]. destruct (_ || _); intros [= <-].
    + intros [He Hm]. cbn [put_sent put_symbols fst snd]. set (escape := i32 _) in *.
      refine (Codes_bind _ (fun c => snd (stats3_compress_append h value (Z.of_nat (length value)) c)) _
        (fun n c => if n =? escape then let '(m, c) := stats3_decompress_bits h c in (option_map (fun m => Escaped (integer_alphabet f, n) (fst m)) m, c)
           else (Some (Numbers [(integer_alphabet f, n)]), c)) escape _ (symbol_codes _ _ He) _).
      rewrite Z.eqb_refl. exact (text_codes h value (fun m => Escaped (integer_alphabet f, escape) (fst m)) Hh HM Hm).
    + intros [Hn Hne]. specialize (Hne Et). cbn [put_sent put_symbols fst snd]. set (n := integer_offset f value) in *. set (escape := i32 _) in *.
      apply (proj1 (Forall_singleton in_range _)) in Hn.
      refine (Codes_bind _ (fun c => c) _
        (fun n c => if n =? escape then let '(m, c) := stats3_decompress_bits h c in (option_map (fun m => Escaped (integer_alphabet f, n) (fst m)) m, c)
           else (Some (Numbers [(integer_alphabet f, n)]), c)) n _ (symbol_codes _ _ Hn) _).
      destruct (Z.eqb_spec n escape) as [->|]; [by destruct Hne|]. apply Codes_ret.
  - destruct (f_type f =? FIELDTYPE_TEXT).
    + intros [= <-] [Hm El]. rewrite El. exact (text_codes h _ (fun m => Words (fst m) (snd m)) Hh HM Hm).
    + destruct (field_symbols f value) as [l|] eqn:Es; [|done]. intros [= <-] [Hl _]. rewrite <- (field_alphabets f value l Es).
      destruct (put_symbols_sends l Hl) as (_ & HC & _).
      pose proof (Codes_map (fun x => Some (Numbers (combine (map fst l) x))) _ _ _ HC) as HC'. cbv beta in HC'.
      rewrite combine_symbols in HC'. exact HC'.
Qed.

(** the code is 0 unless the coder ran out of bits *)
Lemma field_code_zero f h value s c : stats_ok h -> MemoryOk M -> field_sent f value = Some s -> sent_ok f h s ->
  enc_ok c -> out_of_bits (put_sent h s c) = false -> fst (recipe_encode_field f h c value) = 0.
Proof.
  intros Hh HM. unfold field_sent. destruct (Z.eqb_spec (f_type f) FIELDTYPE_INTEGER) as [Et|Ht].
  - unfold recipe_encode_field. rewrite Et. change (FIELDTYPE_INTEGER =? FIELDTYPE_INTEGER) with true. unfold encode_integer. fold (integer_offset f value). fold (integer_alphabet f).
    destruct (_ <=? _); [done|]. destruct (_ || _); intros [= <-]; intros [Hs Hm] Hok Hf.
    + destruct (compress_append_codes h value [] Hh HM Hm eq_refl) as [H0 _]. rewrite app_nil_r in H0. apply H0.
    + apply (proj1 (Forall_singleton in_range _)) in Hs. by apply equiprobable_code.
  - destruct (Z.eqb_spec (f_type f) FIELDTYPE_TEXT) as [Ex|Hx].
    + intros [= <-] [Hm El] Hok Hf. unfold recipe_encode_field. rewrite Ex. cbn -[stats3_compress_append]. unfold encode_text. fold (text_length f value).
      destruct (compress_append_codes h value [] Hh HM Hm eq_refl) as [H0 _]. specialize (H0 c). rewrite app_nil_r in H0. rewrite El.
      destruct (stats3_compress_append h value (Z.of_nat (length value)) c) as [r c']. cbn [fst] in H0. by subst r.
    + destruct (field_symbols f value) as [l|] eqn:Es; [|done]. intros [= <-] [Hl _] Hok Hf.
      pose proof (field_spec f h value (conj Ht Hx)) as H. rewrite Es in H. exact (proj2 (H c) Hl Hok Hf).
Qed.

Lemma refused f h value c : field_sent f value = None -> recipe_encode_field f h c value = (-1, c).
Proof.
  unfold field_sent. destruct (Z.eqb_spec (f_type f) FIELDTYPE_INTEGER) as [Et|Ht].
  - unfold recipe_encode_field. rewrite Et. change (FIELDTYPE_INTEGER =? FIELDTYPE_INTEGER) with true. unfold encode_integer.
    destruct (_ <=? _); [done|]. by destruct (_ || _).
  - destruct (Z.eqb_spec (f_type f) FIELDTYPE_TEXT) as [Ex|Hx]; [done|].
    destruct (field_symbols f value) as [l|] eqn:Es; [done|]. intros _.
    pose proof (field_spec f h value (conj Ht Hx)) as H. rewrite Es in H. apply H.
Qed.

(** ** Properties *)



(** A decoder that knows the field reads back what was sent for the value, for
    every type of field. *)
Theorem field_roundtrip f h value s : stats_ok h -> MemoryOk M -> field_sent f value = Some s -> sent_ok f h s ->
  Roundtrips (fun c => snd (recipe_encode_field f h c value)) (decode_field f h) (Some s).
Proof.
  intros Hh HM Hs Hok. apply codes_run. eapply Codes_ext; [|reflexivity|by apply (sent_codes f h value s)].
  intros c. symmetry. by apply field_code_put.
Qed.

(** C23: The checks of recipe_encode_field are enough for every type of field: a value is
    refused, or every symbol that the field puts on the coder for it is in its alphabet
    (a text is left to the text coder, which has its own symbols).  This
    is for times from 1970 to 2038, positions that are not "nan" and integer fields
    whose range fits an int: the code accepts others, too, and sends them as symbols
    that are not in the alphabet ([time_out_of_range], [position_nan]). *)
Theorem field_symbols_in_range f h value : value_ok f value ->
  (forall c, recipe_encode_field f h c value = (-1, c)) \/
  exists s, (forall c, snd (recipe_encode_field f h c value) = put_sent h s c) /\ Forall (fun p => 0 <= p.2 < p.1 /\ p.1 < 2 ^ 31) (sent_symbols s).
Proof.
  intros Hv. destruct (field_sent f value) as [s|] eqn:Es; [right | left; intros c; by apply refused].
  exists s. split; [intros c; by apply field_code_put | by apply (sent_in_range f value)].
Qed.

(** The number after the maximum of an integer field is sent as the symbol that
    announces a text, without a text: any value with that number and a text that
    follows are the same for a decoder. *)
Theorem integer_escape_collision f h value c : f_type f = FIELDTYPE_INTEGER -> f_minimum f < f_maximum f ->
  f_maximum f - f_minimum f + 1 < 2 ^ 31 -> - 2 ^ 31 <= f_minimum f -> atoi value = f_maximum f + 1 ->
  let escape := f_maximum f - f_minimum f + 1 in
  recipe_encode_field f h c value = range_encode_equiprobable c (integer_alphabet f) escape /\
  forall other, integer_offset f other > escape ->
    snd (recipe_encode_field f h c other) = snd (stats3_compress_append h other (Z.of_nat (length other)) (snd (recipe_encode_field f h c value))).
Proof.
  intros Ht Hlt Hw Hmin Hv escape. pose proof (i32_small escape ltac:(unfold escape; lia)) as He.
  assert (forall v, recipe_encode_field f h c v = encode_integer f h c v) as HE by (intros v; unfold recipe_encode_field; by rewrite Ht).
  assert (recipe_encode_field f h c value = range_encode_equiprobable c (integer_alphabet f) escape) as H.
  { rewrite HE. unfold encode_integer. rewrite Hv. fold (integer_alphabet f) escape.
    replace (f_maximum f + 1 - f_minimum f) with escape by (unfold escape; lia). rewrite He.
    destruct (Z.leb_spec (f_maximum f) (f_minimum f)); [lia|].
    destruct (Z.ltb_spec escape 0), (Z.gtb_spec escape escape); try (unfold escape in *; lia). done. }
  split; [exact H|]. intros other Ho. rewrite H, HE. unfold encode_integer. fold (integer_offset f other) (integer_alphabet f) escape. rewrite He.
  destruct (Z.leb_spec (f_maximum f) (f_minimum f)); [lia|].
  destruct (Z.gtb_spec (integer_offset f other) escape); [|lia]. by rewrite orb_true_r.
Qed.
End Spec.

(** ** Evaluated *)
#[local] Existing Instances sample_memory sample_memory_ok.

(** days since 1970 of a date of the Gregorian calendar *)
Definition civil_days (y m d : Z) : Z :=
  let y := if m <=? 2 then y - 1 else y in
  365 * y + y / 4 - y / 100 + y / 400 + (153 * ((m + 9) mod 12) + 2) / 5 + d - 1 - 719468.
(** a device in Greenwich *)
Definition sample_environment : Environment := {|
  mktime := fun t => (civil_days (tm_year t + 1900) (tm_mon t + 1) (tm_mday t) * 86400 + tm_hour t * 3600 + tm_min t * 60 + tm_sec t);
  unset := 0;
  beyond := codes "left" |}.
#[local] Existing Instance sample_environment.

Definition date_field : field := Field (codes "born") FIELDTYPE_DATE 0 0 0 [] 0.
Definition age_field : field := Field (codes "age") FIELDTYPE_INTEGER 0 120 0 [] 0.
Definition choice_field : field := Field (codes "sex") FIELDTYPE_ENUM 0 0 0 [codes "m"; codes "f"; codes "x"] 3.

Example civil_2017 : mktime (Tm 117 2 9 12 30 0 0) = 1489062600.
Proof. reflexivity. Qed.
Example sent_date : field_sent date_field (codes "2017/03/09") = Some (Numbers [(2, 1); (9610001, 1938407)]).
Proof. vm_compute. reflexivity. Qed.
Example sent_choice : field_sent choice_field (codes "F") = Some (Numbers [(3, 1)]).
Proof. vm_compute. reflexivity. Qed.
Example sent_age : field_sent age_field (codes "121") = Some (Numbers [(122, 121)]).
Proof. vm_compute. reflexivity. Qed.
Example sent_uuid : field_sent (Field [] FIELDTYPE_UUID 0 0 2 [] 0) (codes "uuid:00112233-4455-6677-8899-aabbccddeeff") = Some (Numbers [(256, 0); (256, 17)]).
Proof. vm_compute. reflexivity. Qed.

Lemma field_roundtrip_witness :
  fst (decode_field date_field sample_stats (range_decode_prefetch (read_back
    (snd (range_conclude (snd (recipe_encode_field date_field sample_stats sample_target (codes "2017/03/09")))))))) =
  Some (Numbers [(2, 1); (9610001, 1938407)]).
Proof.
  assert (sent_ok date_field sample_stats (Numbers [(2, 1); (9610001, 1938407)])) as Hok.
  { split; [|intros H; discriminate H]. repeat (apply List.Forall_cons; [split; [split; [discriminate | reflexivity] | reflexivity]|]). apply List.Forall_nil. }
  exact (Roundtrips_read_back _ _ _ sample_target
    (field_roundtrip date_field sample_stats (codes "2017/03/09") (Numbers [(2, 1); (9610001, 1938407)]) sample_stats_ok sample_memory_ok ltac:(vm_compute; reflexivity) Hok)
    (garbage_fresh 22 sample_memory_ok ltac:(lia)) ltac:(vm_compute; reflexivity) ltac:(vm_compute; reflexivity)).
Defined.

(** a text that is trimmed to ten characters: that length is announced, but the packed
    form sends all twelve, so that a decoder finds the last two in front of the next
    field *)
Definition note_field : field := Field (codes "note") FIELDTYPE_TEXT 0 0 10 [] 0.
Example trimmed_text : let value := codes "123456789012" in
  field_sent note_field value = Some (Words value 10) /\
  recipe_encode_field note_field sample_stats sample_target value = stats3_compress_radix_append sample_stats value 10 sample_target /\
  fst (get_symbols [2; 2] (snd (decode_field note_field sample_stats (range_decode_prefetch (read_back (snd (range_conclude
    (put_symbols [(2, 0); (2, 1)] (snd (recipe_encode_field note_field sample_stats sample_target value)))))))))) <> [0; 1].
Proof. vm_compute. repeat split. discriminate. Qed.

(** a day before 1970 is accepted, and so is one of 2040 *)
Definition time_field : field := Field (codes "when") FIELDTYPE_TIMEDATE 0 0 0 [] 0.
Example time_out_of_range : field_sent time_field (codes "1969-12-31T00:00:00.0") = Some (Numbers [(0x8000, -2); (0x10000, 44672)]) /\
  field_sent time_field (codes "2040-01-01T00:00:00.0") = Some (Numbers [(0x8000, 33706); (0x10000, 32384)]).
Proof. split; vm_compute; reflexivity. Qed.
Definition place_field : field := Field (codes "where") FIELDTYPE_LATLONG 0 0 16 [] 0.
(** the conversion of what is not a number is left open *)
Example position_nan : field_sent place_field (codes "nan nan") = Some (Numbers [(182, unset + 90); (361, unset + 180)]).
Proof. vm_compute. reflexivity. Qed.


Lemma field_symbols_in_range_witness : let place := codes "-33.8688 151.2093" in
  (forall c, recipe_encode_field place_field sample_stats c place = (-1, c)) \/
  exists s, (forall c, snd (recipe_encode_field place_field sample_stats c place) = put_sent sample_stats s c) /\
    Forall (fun p => 0 <= p.2 < p.1 /\ p.1 < 2 ^ 31) (sent_symbols s).
Proof.
  apply (field_symbols_in_range place_field sample_stats (codes "-33.8688 151.2093")).
  split; [split; reflexivity | discriminate | discriminate|]. intros _ lat lon. vm_compute. intros [= <- <-]. split; discriminate.
Defined.

Lemma integer_escape_collision_witness :
  recipe_encode_field age_field sample_stats sample_target (codes "121") = range_encode_equiprobable sample_target 122 121 /\
  snd (recipe_encode_field age_field sample_stats sample_target (codes "200")) =
  snd (stats3_compress_append sample_stats (codes "200") 3 (snd (recipe_encode_field age_field sample_stats sample_target (codes "121")))).
Proof.
  destruct (integer_escape_collision age_field sample_stats (codes "121") sample_target) as [H1 H2];
    [reflexivity | reflexivity | reflexivity | discriminate | reflexivity|].
  split; [exact H1 | apply H2; reflexivity].
Defined.
