(* ===== verification/RecipeRecords.v ===== *)
(** recipe_compress on whole records: what a record is sent as, the decoder, and
    what happens when a value is refused. *)
From Stdlib Require Import String.
From S2P Require Import Prelude RangeCoder RangeBits RangeSim RangeCodec RangeRun Charset CString CFloat NonAlpha PackedStats Smac Recipe RecipeText RecipeCompress RecipeFields.
Local Open Scope Z_scope.
Local Open Scope succinct_scope.

(** What is sent for a field of the form: nothing, a value, or a record for each
    instance of a sub-form. *)
Inductive datum := Missing | Present (s : sent) | Instances (l : list (list datum)).

(** the fuel that the decoder needs *)
Fixpoint datum_size (d : datum) : nat :=
  match d with
  | Instances l => S (list_sum (map (fun r => S (list_sum (map datum_size r))) l))
  | _ => 1
  end.
Definition data_size (data : list datum) : nat := list_sum (map datum_size data).

Definition is_subform (f : field) : bool := strncaseeq (f_name f) (codes "subform/") 8.
Definition form_id (f : field) : list Z := skipn 8 (f_name f).
Definition sub_records (fs : list record_field) : list (list record_field) :=
  flat_map (fun f => match f with SubRecord r => [r] | KeyValue _ _ => [] end) fs.
(** the sub-records of all the enclosures of a form *)
Definition enclosed (formid : list Z) (record : list record_field) : list (list record_field) :=
  flat_map sub_records (List.filter (existsb (names_subform formid)) (sub_records record)).

Lemma sub_records_depth fs r : In r (sub_records fs) -> (record_depth r < record_depth fs)%nat.
Proof.
  unfold record_depth. induction fs as [|[k v|s] fs IH]; cbn [sub_records flat_map app fold_right field_depth]; [done | |].
  - intros H. specialize (IH H). lia.
  - intros [->|H]; [lia|]. specialize (IH H). lia.
Qed.
Lemma enclosed_depth formid record r : In r (enclosed formid record) -> (record_depth r < record_depth record)%nat.
Proof.
  unfold enclosed. intros (s & Hs & Hr)%in_flat_map. apply List.filter_In in Hs as [Hs _].
  apply sub_records_depth in Hs, Hr. lia.
Qed.

Section Records.
Context `{M : Memory} `{E : Environment}.
Variable find_recipe : list Z -> option recipe.
Variable h : stats_handle.
#[local] Opaque range_encode_equiprobable.

(** ** The encoder and the decoder of the data *)
Definition put_bit (b : Z) (c : range_coder) : range_coder := snd (range_encode_equiprobable c 2 b).
Fixpoint put_datum (c : range_coder) (d : datum) : range_coder :=
  match d with
  | Missing => put_bit 0 c
  | Present s => put_sent h s (put_bit 1 c)
  | Instances l => put_bit 0 (fold_left (fun c r => fold_left put_datum r (put_bit 1 c)) l c)
  end.
Definition put_record (data : list datum) (c : range_coder) : range_coder := fold_left put_datum data c.
Definition put_instances (l : list (list datum)) (c : range_coder) : range_coder :=
  fold_left (fun c r => put_record r (put_bit 1 c)) l c.

Definition cons_both {A} (x : option A) (l : option (list A)) : option (list A) :=
  match x, l with Some x, Some l => Some (x :: l) | _, _ => None end.

Section DecodeLevel.
Variable fuel : nat.
Variable sub : list field -> range_coder -> option (list datum) * range_coder.
Fixpoint decode_instances (n : nat) (fields : list field) (c : range_coder) : option (list (list datum)) * range_coder :=
  match n with
  | O => (None, c)
  | S n =>
      let '(more, c) := range_decode_equiprobable c 2 in
      if nz more then
        let '(r, c) := sub fields c in
        let '(l, c) := decode_instances n fields c in (cons_both r l, c)
      else (Some [], c)
  end.
Definition decode_datum (f : field) (c : range_coder) : option datum * range_coder :=
  if is_subform f then
    match find_recipe (form_id f) with
    | None => (None, c)
    | Some r => let '(l, c) := decode_instances fuel (field_list r) c in (option_map Instances l, c)
    end
  else
    let '(present, c) := range_decode_equiprobable c 2 in
    if nz present then let '(s, c) := decode_field f h c in (option_map Present s, c)
    else (Some Missing, c).
Fixpoint decode_fields (fields : list field) (c : range_coder) : option (list datum) * range_coder :=
  match fields with
  | [] => (Some [], c)
  | f :: fields =>
      let '(d, c) := decode_datum f c in
      let '(l, c) := decode_fields fields c in (cons_both d l, c)
  end.
End DecodeLevel.
Fixpoint decode_record (fuel : nat) (fields : list field) (c : range_coder) : option (list datum) * range_coder :=
  match fuel with
  | O => (None, c)
  | S fuel => decode_fields fuel (decode_record fuel) fields c
  end.

(** ** What a record is sent as *)
Inductive means : list field -> list record_field -> list datum -> Prop :=
  | means_end record : means [] record []
  | means_subform f fields record r l data : is_subform f = true -> find_recipe (form_id f) = Some r ->
      means_instances (field_list r) (enclosed (form_id f) record) l -> means fields record data ->
      means (f :: fields) record (Instances l :: data)
  | means_present f fields record value s data : is_subform f = false -> find_value record (f_name f) = Some value ->
      field_sent f value = Some s -> sent_ok f h s -> means fields record data ->
      means (f :: fields) record (Present s :: data)
  | means_missing f fields record data : is_subform f = false -> find_value record (f_name f) = None ->
      means fields record data -> means (f :: fields) record (Missing :: data)
with means_instances : list field -> list (list record_field) -> list (list datum) -> Prop :=
  | means_no_more fields : means_instances fields [] []
  | means_instance fields record records data l : means fields record data -> means_instances fields records l ->
      means_instances fields (record :: records) (data :: l).
Scheme means_mind := Induction for means Sort Prop with means_instances_mind := Induction for means_instances Sort Prop.
Combined Scheme means_both from means_mind, means_instances_mind.

Hypothesis Hh : stats_ok h.
Hypothesis HM : MemoryOk M.

Lemma bit_codes {B} b (enc : range_coder -> range_coder) (dec : Z -> range_coder -> B * range_coder) x : 0 <= b < 2 ->
  Codes enc (dec b) x ->
  Codes (fun c => enc (put_bit b c)) (fun c => let '(y, c) := range_decode_equiprobable c 2 in dec y c) x.
Proof. intros Hb. exact (Codes_bind _ enc _ dec b x (symbol_codes 2 b (conj Hb eq_refl))). Qed.

(** two parts of a list, both of which may fail *)
Lemma cons_codes {A} (enc1 enc2 : range_coder -> range_coder) (dec1 : range_coder -> option A * range_coder) dec2 (x : A) l :
  Codes enc1 dec1 (Some x) -> Codes enc2 dec2 (Some l) ->
  Codes (fun c => enc2 (enc1 c)) (fun c => let '(x, c) := dec1 c in let '(l, c) := dec2 c in (cons_both x l, c)) (Some (x :: l)).
Proof.
  intros H1 H2. exact (Codes_bind enc1 enc2 dec1 (fun x c => let '(l, c) := dec2 c in (cons_both x l, c)) _ _ H1 (Codes_map (cons_both (Some x)) _ _ _ H2)).
Qed.

Lemma means_codes :
  (forall fields record data, means fields record data ->
     forall n, (data_size data < n)%nat -> Codes (put_record data) (decode_record n fields) (Some data)) /\
  (forall fields records l, means_instances fields records l ->
     forall n k, (length l < k)%nat -> (list_sum (map (fun r => S (data_size r)) l) < n)%nat ->
       Codes (fun c => put_bit 0 (put_instances l c)) (decode_instances (decode_record n) k fields) (Some l)).
Proof.
  apply means_both.
  - intros record n Hn. destruct n as [|n]; [lia|]. apply Codes_ret.
  - intros f fields record r l data Hf Hr Hl IHl Hd IHd n Hn. destruct n as [|n]; [lia|].
    assert (S (list_sum (map (fun r => S (data_size r)) l)) + data_size data < S n)%nat as Hsize by exact Hn.
    cbn [decode_record decode_fields]. apply (cons_codes (fun c => put_datum c (Instances l)) (put_record data)).
    + unfold decode_datum. rewrite Hf, Hr. apply (Codes_map (option_map Instances) _ _ (Some l)). apply (IHl n n); [|lia].
      clear - Hsize. assert (length l <= list_sum (map (fun r => S (data_size r)) l))%nat; [|lia].
      clear. induction l as [|r l IH]; cbn [map list_sum fold_right length]; [lia|]. unfold list_sum in *. lia.
    + specialize (IHd (S n) ltac:(lia)). exact IHd.
  - intros f fields record value s data Hf Hv Hs Hok Hd IHd n Hn. destruct n as [|n]; [lia|].
    assert (1 + data_size data < S n)%nat as Hsize by exact Hn.
    cbn [decode_record decode_fields]. apply (cons_codes (fun c => put_datum c (Present s)) (put_record data)).
    + unfold decode_datum. rewrite Hf. apply (bit_codes 1 (put_sent h s) (fun present c =>
        if nz present then let '(s, c) := decode_field f h c in (option_map Present s, c) else (Some Missing, c))); [done|].
      apply (Codes_map (option_map Present) _ _ (Some s)). by apply (sent_codes f h value s).
    + specialize (IHd (S n) ltac:(lia)). exact IHd.
  - intros f fields record data Hf Hv Hd IHd n Hn. destruct n as [|n]; [lia|].
    assert (1 + data_size data < S n)%nat as Hsize by exact Hn.
    cbn [decode_record decode_fields]. apply (cons_codes (fun c => put_datum c Missing) (put_record data)).
    + unfold decode_datum. rewrite Hf. apply (bit_codes 0 (fun c => c) (fun present c =>
        if nz present then let '(s, c) := decode_field f h c in (option_map Present s, c) else (Some Missing, c))); [done|]. apply Codes_ret.
    + specialize (IHd (S n) ltac:(lia)). exact IHd.
  - intros fields n k Hk Hn. destruct k as [|k]; [cbn in Hk; lia|]. cbn [decode_instances].
    apply (bit_codes 0 (fun c => c) (fun more c => if nz more then let '(r, c) := decode_record n fields c in
      let '(l, c) := decode_instances (decode_record n) k fields c in (cons_both r l, c) else (Some [], c))); [done|]. apply Codes_ret.
  - intros fields record records data l Hd IHd Hl IHl n k Hk Hn. destruct k as [|k]; [cbn in Hk; lia|]. cbn [decode_instances].
    assert (S (data_size data) + list_sum (map (fun r => S (data_size r)) l) < n)%nat as Hsize by exact Hn.
    apply (bit_codes 1 (fun c => put_bit 0 (put_instances l (put_record data c))) (fun more c => if nz more then let '(r, c) := decode_record n fields c in
      let '(l, c) := decode_instances (decode_record n) k fields c in (cons_both r l, c) else (Some [], c))); [done|].
    apply (cons_codes (put_record data) (fun c => put_bit 0 (put_instances l c))); [apply IHd; lia|]. apply IHl; [cbn [length] in Hk; lia | lia].
Qed.

(** ** The encoder of recipe_compress.c sends the data *)

(** the enclosures and their sub-records, in order *)
Fixpoint each_instance (sub : list field -> list record_field -> coder_cell -> outcome (Z * coder_cell))
    (fields : list field) (records : list (list record_field)) (cell : coder_cell) : outcome coder_cell :=
  match records with
  | [] => Done cell
  | ss :: records =>
      do cell <- encode_bit 1 cell ;;
      do (_, cell) <- sub fields ss cell ;;
      each_instance sub fields records cell
  end.

Lemma compress_instances_each sub fields s : forall cell, compress_instances sub fields s cell = each_instance sub fields (sub_records s) cell.
Proof.
  induction s as [|[k v|ss] s IH]; intros cell; cbn [compress_instances sub_records flat_map app each_instance]; [done | apply IH|].
  destruct (encode_bit 1 cell) as [cell1| |]; cbn [and_then]; try done.
  destruct (sub fields ss cell1) as [[r cell2]| |]; cbn [and_then]; done.
Qed.
Lemma each_instance_app sub fields l1 l2 : forall cell,
  each_instance sub fields (l1 ++ l2) cell = (do cell <- each_instance sub fields l1 cell ;; each_instance sub fields l2 cell).
Proof.
  induction l1 as [|ss l1 IH]; intros cell; cbn [app each_instance]; [done|].
  destruct (encode_bit 1 cell) as [cell1| |]; cbn [and_then]; try done.
  destruct (sub fields ss cell1) as [[r cell2]| |]; cbn [and_then]; try done.
Qed.
Lemma compress_enclosures_each sub formid fields record : forall cell,
  compress_enclosures sub formid fields record cell = each_instance sub fields (enclosed formid record) cell.
Proof.
  unfold enclosed. induction record as [|[k v|s] record IH]; intros cell; cbn [compress_enclosures sub_records flat_map app List.filter]; [done | apply IH|].
  destruct (existsb _ s); [|apply IH]. cbn [flat_map]. rewrite each_instance_app, compress_instances_each.
  destruct (each_instance sub fields (sub_records s) cell) as [cell1| |]; cbn [and_then]; done.
Qed.

(** the coder stays well-formed and does not forget that it ran out of bits *)
Record keeps (enc : range_coder -> range_coder) : Prop := {
  k_flag : forall c, out_of_bits c = true -> out_of_bits (enc c) = true;
  k_ok : forall c, enc_ok c -> out_of_bits (enc c) = false -> enc_ok (enc c)
}.
Lemma Codes_keeps {A} enc dec (a : A) : Codes enc dec a -> keeps enc.
Proof. intros []. by split. Qed.
Lemma keeps_flag enc c : keeps enc -> out_of_bits (enc c) = false -> out_of_bits c = false.
Proof. intros [K _] Hf. destruct (out_of_bits c) eqn:Ec; [|done]. by rewrite <- Hf, (K c Ec). Qed.
Lemma keeps_bit b : 0 <= b < 2 -> keeps (put_bit b).
Proof. intros Hb. exact (Codes_keeps _ _ _ (symbol_codes 2 b (conj Hb eq_refl))). Qed.
Lemma keeps_record fields record data : means fields record data -> keeps (put_record data).
Proof. intros H. exact (Codes_keeps _ _ _ (proj1 means_codes _ _ _ H (S (data_size data)) ltac:(lia))). Qed.
Lemma keeps_instances fields records l : means_instances fields records l -> keeps (fun c => put_bit 0 (put_instances l c)).
Proof.
  intros H. eapply Codes_keeps, (proj2 means_codes _ _ _ H (S (list_sum (map (fun r => S (data_size r)) l))) (S (length l))); lia.
Qed.

Lemma encode_bit_live b c : encode_bit b (Live c) = Done (Live (put_bit b c)).
Proof. unfold encode_bit, with_coder, put_bit. by destruct (range_encode_equiprobable c 2 b). Qed.

(** what the code does for a field that is sent as [d], then for the other fields *)
Lemma means_compress :
  (forall fields record data, means fields record data ->
     forall fuel c, (record_depth record <= fuel)%nat -> enc_ok c -> out_of_bits (put_record data c) = false ->
       compress_record_with_subforms find_recipe h (S fuel) fields record (Live c) = Done (0, Live (put_record data c))) /\
  (forall fields records l, means_instances fields records l ->
     forall fuel c, (forall r, In r records -> (record_depth r < fuel)%nat) -> enc_ok c -> out_of_bits (put_bit 0 (put_instances l c)) = false ->
       each_instance (compress_record_with_subforms find_recipe h fuel) fields records (Live c) = Done (Live (put_instances l c))).
Proof.
  apply means_both; try done.
  - intros f fields record r l data Hf Hr Hl IHl Hd IHd fuel c Hfuel Hok Hflag. change (put_record (Instances l :: data) c) with (put_record data (put_bit 0 (put_instances l c))) in *.
    pose proof (keeps_flag _ _ (keeps_record _ _ _ Hd) Hflag) as Hflag1.
    cbn [compress_record_with_subforms compress_fields]. fold (is_subform f) (form_id f). rewrite Hf, Hr, compress_enclosures_each, IHl; [|by intros ? ?%enclosed_depth; lia|done|done].
    cbn [and_then]. rewrite encode_bit_live. cbn [and_then]. apply IHd; [done| |done]. by apply (k_ok _ (keeps_instances _ _ _ Hl) c).
  - intros f fields record value s data Hf Hv Hs Hsok Hd IHd fuel c Hfuel Hok Hflag. change (put_record (Present s :: data) c) with (put_record data (put_sent h s (put_bit 1 c))) in *.
    pose proof (keeps_flag _ _ (keeps_record _ _ _ Hd) Hflag) as Hflag1.
    pose proof (Codes_keeps _ _ _ (sent_codes f h value s Hh HM Hs Hsok)) as Ks. pose proof (keeps_flag _ _ Ks Hflag1) as Hflag2.
    pose proof (k_ok _ (keeps_bit 1 ltac:(lia)) c Hok Hflag2) as Hok2.
    cbn [compress_record_with_subforms compress_fields]. fold (is_subform f). rewrite Hf, Hv, encode_bit_live. cbn [and_then with_coder].
    pose proof (field_code_zero f h value s _ Hh HM Hs Hsok Hok2 Hflag1) as Hz. pose proof (field_code_put f h value s (put_bit 1 c) Hs) as Hp.
    destruct (recipe_encode_field f h (put_bit 1 c) value) as [code c']. cbn [fst snd] in Hz, Hp. subst code c'.
    change (nz 0) with false. cbn [and_then]. apply IHd; [done| |done]. by apply (k_ok _ Ks).
  - intros f fields record data Hf Hv Hd IHd fuel c Hfuel Hok Hflag. change (put_record (Missing :: data) c) with (put_record data (put_bit 0 c)) in *.
    pose proof (keeps_flag _ _ (keeps_record _ _ _ Hd) Hflag) as Hflag1.
    cbn [compress_record_with_subforms compress_fields]. fold (is_subform f). rewrite Hf, Hv, encode_bit_live. cbn [and_then].
    apply IHd; [done| |done]. by apply (k_ok _ (keeps_bit 0 ltac:(lia))).
  - intros fields record records data l Hd IHd Hl IHl fuel c Hfuel Hok Hflag.
    change (put_instances (data :: l) c) with (put_instances l (put_record data (put_bit 1 c))) in *.
    pose proof (keeps_flag _ _ (keeps_instances _ _ _ Hl) Hflag) as Hflag1. pose proof (keeps_flag _ _ (keeps_record _ _ _ Hd) Hflag1) as Hflag2.
    pose proof (k_ok _ (keeps_bit 1 ltac:(lia)) c Hok Hflag2) as Hok2.
    pose proof (Hfuel record (or_introl eq_refl)) as Hrec. destruct fuel as [|fuel]; [lia|].
    cbn [each_instance]. rewrite encode_bit_live. cbn [and_then]. rewrite IHd by (done || lia). cbn [and_then].
    apply IHl; [intros r Hr; apply Hfuel; by right | by apply (k_ok _ (keeps_record _ _ _ Hd)) | done].
Qed.

(** ** The bytes of the result *)

(** the form hash, then the record *)
Definition put_form (r : recipe) (data : list datum) : range_coder -> range_coder :=
  fun c => put_record data (encode_bytes (formhash r) c).
Definition decode_form (fuel : nat) (r : recipe) (c : range_coder) : list Z * option (list datum) * range_coder :=
  let '(hash, c) := get_symbols (repeat 256 6) c in
  let '(data, c) := decode_record fuel (field_list r) c in ((hash, data), c).

Lemma encode_bytes_put l c : encode_bytes l c = put_symbols (map (fun b => (256, b)) l) c.
Proof. exact (proj1 (emits_bytes l c)). Qed.

Lemma form_codes r record data n : length (formhash r) = 6%nat -> Forall (fun b => 0 <= b < 256) (formhash r) ->
  means (field_list r) record data -> (data_size data < n)%nat ->
  Codes (put_form r data) (decode_form n r) (formhash r, Some data).
Proof.
  intros Hlen Hb Hm Hn. destruct (put_symbols_sends _ (bytes_in_range _ Hb)) as (_ & HC & _).
  rewrite fst_bytes, Hlen, map_map, map_id in HC.
  eapply Codes_ext; [|reflexivity|].
  2: { apply (Codes_bind _ (put_record data) _ (fun hash c => let '(data, c) := decode_record n (field_list r) c in ((hash, data), c)) _ _ HC).
       exact (Codes_map (pair (formhash r)) _ _ _ (proj1 means_codes _ _ _ Hm n Hn)). }
  intros c. unfold put_form. by rewrite encode_bytes_put.
Qed.

Lemma bytes_used c : bits_used c / 8 + (if nz (Z.land (bits_used c) 7) then 1 else 0) =
  Z.shiftr (bits_used c) 3 + (if nz (Z.land (bits_used c) 7) then 1 else 0).
Proof. by rewrite Z.shiftr_div_pow2 by lia. Qed.

Lemma compress_result r inp record data out_size :
  parse_stripped_with_subforms inp = Some record -> means (field_list r) record data ->
  length (formhash r) = 6%nat -> Forall (fun b => 0 <= b < 256) (formhash r) ->
  let c := snd (range_conclude (put_form r data (range_new_coder (garbage 1024) 1024))) in
  let bytes := bits_used c / 8 + (if nz (Z.land (bits_used c) 7) then 1 else 0) in
  out_of_bits c = false -> bytes <= out_size ->
  recipe_compress find_recipe h (Some r) (Some inp) true out_size = Done (Some (firstn (Z.to_nat bytes) (bit_stream c))) /\
  0 <= bits_used c /\
  forall n, (data_size data < n)%nat ->
    fst (decode_form n r (stats3_decoder (firstn (Z.to_nat bytes) (bit_stream c)))) = (formhash r, Some data).
Proof.
  intros Hp Hm Hlen Hb c bytes Hflag Hsize. set (c0 := range_new_coder (garbage 1024) 1024) in *.
  pose proof (garbage_fresh 1024 HM ltac:(lia)) as Hfresh. fold c0 in Hfresh.
  assert (out_of_bits (put_form r data c0) = false) as Hflag1.
  { destruct (out_of_bits (put_form r data c0)) eqn:Ef; [|done]. apply flag_conclude in Ef. subst c. congruence. }
  pose proof (form_codes r record data _ Hlen Hb Hm (Nat.lt_succ_diag_r _)) as HC.
  destruct (range_conclude_law _ (cd_ok _ _ _ HC c0 (fresh_ok _ Hfresh) Hflag1) Hflag) as [Hcc _].
  split; [|split; [by destruct (cc_buffer _ _ Hcc) as [[H0 _] _ _ _]|]].
  - unfold recipe_compress, begin_form. fold c0. cbn [negb]. rewrite Hp.
    assert (enc_ok (encode_bytes (formhash r) c0)) as Hok.
    { pose proof (keeps_flag _ _ (keeps_record _ _ _ Hm) Hflag1) as Hf. rewrite encode_bytes_put in *.
      destruct (put_symbols_sends _ (bytes_in_range _ Hb)) as (_ & HCb & _). exact (cd_ok _ _ _ HCb c0 (fresh_ok _ Hfresh) Hf). }
    rewrite (proj1 means_compress _ _ _ Hm (record_depth record) _ ltac:(lia) Hok Hflag1). cbn [and_then with_coder Z.ltb Z.compare].
    fold (put_form r data c0). fold c. unfold c in *.
    destruct (range_conclude (put_form r data c0)) as [code c1]. cbn [snd and_then] in *. fold bytes.
    destruct (Z.gtb_spec bytes out_size); [lia | done].
  - intros n Hn. pose proof (form_codes r record data n Hlen Hb Hm Hn) as HCn.
    unfold bytes. rewrite bytes_used. pose proof (bytes_carry c c (extends_refl c (cc_buffer _ _ Hcc))) as Hcarry. cbv zeta in Hcarry.
    set (out := firstn _ (bit_stream c)) in *.
    unfold stats3_decoder. apply (codes_run _ _ _ HCn c0); [exact Hfresh | exact Hflag | | reflexivity | reflexivity].
    eapply Hcarry; reflexivity.
Qed.

(** ** The recursion ends *)
Lemma encode_bit_finishes b cell : encode_bit b cell <> OutOfFuel.
Proof. destruct cell as [c|]; [by rewrite encode_bit_live | done]. Qed.
Lemma with_coder_finishes f cell : with_coder f cell <> OutOfFuel.
Proof. destruct cell as [c|]; [|done]. cbn [with_coder]. by destruct (f c). Qed.
Lemma and_then_finishes {A B} (o : outcome A) (k : A -> outcome B) : o <> OutOfFuel -> (forall a, k a <> OutOfFuel) -> and_then o k <> OutOfFuel.
Proof. destruct o; cbn [and_then]; auto; discriminate. Qed.

Lemma each_instance_finishes sub fields records : (forall r cell, In r records -> sub fields r cell <> OutOfFuel) ->
  forall cell, each_instance sub fields records cell <> OutOfFuel.
Proof.
  induction records as [|r records IH]; intros Hsub cell; cbn [each_instance]; [discriminate|].
  apply and_then_finishes; [apply encode_bit_finishes|]. intros cell1. apply and_then_finishes; [apply Hsub; by left|].
  intros [code cell2]. apply IH. intros r' cell' Hr. apply Hsub. by right.
Qed.
Lemma compress_fields_finishes sub fields record :
  (forall fields r cell, (record_depth r < record_depth record)%nat -> sub fields r cell <> OutOfFuel) ->
  forall cell, compress_fields find_recipe h sub fields record cell <> OutOfFuel.
Proof.
  intros Hsub. induction fields as [|f fields IH]; intros cell; cbn [compress_fields]; [discriminate|].
  destruct (strncaseeq _ _ _).
  - destruct (find_recipe _) as [r|]; [|discriminate]. rewrite compress_enclosures_each. apply and_then_finishes.
    + apply each_instance_finishes. intros s cell1 Hs. by apply Hsub, (enclosed_depth (skipn 8 (f_name f))).
    + intros cell1. apply and_then_finishes; [apply encode_bit_finishes | done].
  - destruct (find_value _ _); (apply and_then_finishes; [apply encode_bit_finishes|]); [|done].
    intros cell1. apply and_then_finishes; [apply with_coder_finishes|]. intros [code cell2].
    destruct (nz code); [|apply IH]. apply and_then_finishes; [by destruct cell2 | discriminate].
Qed.
Lemma compress_finishes fuel : forall fields record cell, (record_depth record < fuel)%nat ->
  compress_record_with_subforms find_recipe h fuel fields record cell <> OutOfFuel.
Proof.
  induction fuel as [|fuel IH]; intros fields record cell Hd; [lia|]. cbn [compress_record_with_subforms].
  apply compress_fields_finishes. intros fields' r cell' Hr. apply IH. lia.
Qed.

(** ** A value that is refused *)

(** A value of the record, or of a sub-record that the encoder reaches, is refused.
    [known] says that the encoder gets past the fields before. *)
Definition known (fields : list field) : Prop := Forall (fun f => is_subform f = true -> find_recipe (form_id f) <> None) fields.
Inductive refused_in : list field -> list record_field -> Prop :=
  | refused_here before f after record value : known before -> is_subform f = false ->
      find_value record (f_name f) = Some value -> field_sent f value = None -> refused_in (before ++ f :: after) record
  | refused_below before f after record r ss : known before -> is_subform f = true -> find_recipe (form_id f) = Some r ->
      In ss (enclosed (form_id f) record) -> refused_in (field_list r) ss -> refused_in (before ++ f :: after) record.

(** the coder is gone, or has been used after that *)
Definition lost {A} (f : coder_cell -> A) (o : outcome A) : Prop := o = Undefined \/ o = Done (f Freed).

Lemma encode_bit_lost {A} b (k : coder_cell -> outcome A) o : lost id o ->
  and_then o (fun cell => and_then (encode_bit b cell) k) = Undefined.
Proof. by intros [-> | ->]. Qed.

Lemma each_instance_freed sub fields records : lost id (each_instance sub fields records Freed).
Proof. destruct records; [by right | by left]. Qed.

Lemma each_instance_lost sub fields ss records : In ss records ->
  (forall r cell, In r records -> sub fields r cell <> OutOfFuel) ->
  (forall c, lost (pair (-1)) (sub fields ss (Live c))) ->
  forall c, lost id (each_instance sub fields records (Live c)).
Proof.
  intros Hin Hfin Hsub. induction records as [|r records IH]; intros c; [done|]. cbn [each_instance]. rewrite encode_bit_live. cbn [and_then].
  destruct Hin as [->|Hin].
  - destruct (Hsub (put_bit 1 c)) as [-> | ->]; cbn [and_then]; [by left | apply each_instance_freed].
  - pose proof (Hfin r (Live (put_bit 1 c)) ltac:(by left)) as Hr. destruct (sub fields r (Live (put_bit 1 c))) as [[code [c'|]]| |]; cbn [and_then].
    + apply (IH Hin). intros r' cell' Hr'. apply Hfin. by right.
    + apply each_instance_freed.
    + by left.
    + done.
Qed.

(** the fields before are passed, or the coder is lost there already *)
Lemma compress_fields_lost sub before fields record : known before ->
  (forall fields r cell, (record_depth r < record_depth record)%nat -> sub fields r cell <> OutOfFuel) ->
  (forall c, lost (pair (-1)) (compress_fields find_recipe h sub fields record (Live c))) ->
  forall c, lost (pair (-1)) (compress_fields find_recipe h sub (before ++ fields) record (Live c)).
Proof.
  intros Hk Hfin Hrest. induction Hk as [|f before Hf Hk IH]; intros c; [apply Hrest|]. cbn [app compress_fields]. fold (is_subform f) (form_id f).
  destruct (is_subform f).
  - specialize (Hf eq_refl). destruct (find_recipe (form_id f)) as [r|]; [|done]. rewrite compress_enclosures_each.
    pose proof (each_instance_finishes sub (field_list r) (enclosed (form_id f) record)
      ltac:(intros s cell Hs; by apply Hfin, (enclosed_depth (form_id f))) (Live c)) as He.
    destruct (each_instance _ _ _ _) as [[c'|]| |]; cbn [and_then]; [|by left|by left|done].
    rewrite encode_bit_live. cbn [and_then]. apply IH.
  - destruct (find_value record (f_name f)) as [value|]; rewrite encode_bit_live; cbn [and_then]; [|apply IH]. cbn [with_coder].
    destruct (recipe_encode_field f h (put_bit 1 c) value) as [code c']. cbn [and_then]. destruct (nz code); [by right | apply IH].
Qed.

Lemma refused_lost fields record : refused_in fields record -> forall fuel c, (record_depth record < fuel)%nat ->
  lost (pair (-1)) (compress_record_with_subforms find_recipe h fuel fields record (Live c)).
Proof.
  induction 1 as [before f after record value Hk Hf Hv Hs | before f after record r ss Hk Hf Hr Hss Href IH];
    intros fuel c Hfuel; (destruct fuel as [|fuel]; [lia|]); cbn [compress_record_with_subforms];
    (apply compress_fields_lost; [done | intros ? ? ? ?; apply compress_finishes; lia |]); clear c; intros c; cbn [compress_fields]; fold (is_subform f) (form_id f); rewrite Hf.
  - rewrite Hv, encode_bit_live. cbn [and_then with_coder]. rewrite (refused f h value _ Hs). by right.
  - rewrite Hr, compress_enclosures_each. left. apply encode_bit_lost.
    apply (each_instance_lost _ _ ss); [done | |].
    + intros s cell Hs%enclosed_depth. apply compress_finishes. lia.
    + intros c'. apply IH. apply enclosed_depth in Hss. lia.
Qed.

(** ** Properties *)

(** C3: When every value of a record is sent faithfully (data says what is sent),
    recipe_compress succeeds, and a decoder that knows the recipes reads the hash of
    the form and, for each field of the form, whether it is there and what was sent
    for it, from the bytes of the result: through all the sub-forms, in the order of
    the instances.  Values that are accepted but not sent faithfully are outside it:
    the integer just above the maximum, which gets the escape symbol and no number,
    and a text that was trimmed or is no message of the text coder.  It holds when
    the kilobyte of the coder did not run out of room, and the result fits the
    output buffer. *)
Theorem recipe_compress_roundtrip r inp record data out_size :
  parse_stripped_with_subforms inp = Some record -> means (field_list r) record data ->
  length (formhash r) = 6%nat -> Forall (fun b => 0 <= b < 256) (formhash r) ->
  let c := snd (range_conclude (put_form r data (range_new_coder (garbage 1024) 1024))) in
  let bytes := bits_used c / 8 + (if nz (Z.land (bits_used c) 7) then 1 else 0) in
  out_of_bits c = false -> bytes <= out_size ->
  exists out, recipe_compress find_recipe h (Some r) (Some inp) true out_size = Done (Some out) /\
    Z.of_nat (length out) <= out_size /\
    forall n, (data_size data < n)%nat -> fst (decode_form n r (stats3_decoder out)) = (formhash r, Some data).
Proof.
  intros Hp Hm Hlen Hb c bytes Hflag Hsize. destruct (compress_result r inp record data out_size Hp Hm Hlen Hb Hflag Hsize) as (H1 & H0 & H2).
  eexists. split; [exact H1|]. split; [|exact H2]. rewrite length_firstn. fold c bytes in H0 |- *. unfold bytes, nz in *.
  destruct (Z.land _ 7 =? 0); cbn [negb] in *; divmod.
Qed.

(** C16: recipe_compress ends, for every recipe and every input: the recursion
    through the sub-forms follows the nesting of the records, so that even recipes
    that are sub-forms of themselves do no harm. *)
Theorem recipe_compress_terminates r inp out out_size : recipe_compress find_recipe h r inp out out_size <> OutOfFuel.
Proof.
  unfold recipe_compress. destruct r as [r|], inp as [inp|]; try discriminate. destruct (negb out); [discriminate|].
  destruct (parse_stripped_with_subforms inp) as [record|]; [|discriminate]. apply and_then_finishes; [apply compress_finishes; lia|].
  intros [code cell]. destruct (code <? 0); [apply and_then_finishes; [by destruct cell | discriminate]|].
  apply and_then_finishes; [apply with_coder_finishes|]. intros [code' [c|]]; [|discriminate]. by destruct (_ >? _).
Qed.

(** C18: A value that is refused, in the record or in one of its sub-records, makes
    recipe_compress use the coder after it was freed: compress_record_with_subforms
    frees the coder of its caller and returns -1, on which recipe_compress frees it
    once more, or which is ignored in a sub-form. *)
Theorem recipe_compress_double_free r inp record out_size :
  parse_stripped_with_subforms inp = Some record -> refused_in (field_list r) record ->
  recipe_compress find_recipe h (Some r) (Some inp) true out_size = Undefined.
Proof.
  intros Hp Href. unfold recipe_compress. cbn [negb]. rewrite Hp.
  destruct (refused_lost _ _ Href (S (record_depth record)) (begin_form r) ltac:(lia)) as [-> | ->]; reflexivity.
Qed.
End Records.

(** ** Evaluated *)
#[local] Existing Instances sample_memory sample_memory_ok sample_environment.

(** a form with a sub-form that contains itself *)
Definition name_field : field := Field (codes "name") FIELDTYPE_TEXT 0 0 0 [] 0.
Definition kids_field : field := Field (codes "subform/kid") FIELDTYPE_TEXT 0 0 0 [] 0.
Definition person : recipe := Recipe (codes "person") [1; 2; 3; 4; 5; 6] [name_field; age_field; date_field; kids_field] 4.
Definition kid : recipe := Recipe (codes "kid") [6; 5; 4; 3; 2; 1] [age_field; choice_field; kids_field] 3.
Definition sample_find (name : list Z) : option recipe := if streq name (codes "kid") then Some kid else None.

Definition kid_record (age sex : list Z) : list record_field := [KeyValue (codes "age") age; KeyValue (codes "sex") sex].
Definition sample_record : list record_field :=
  [KeyValue (codes "name") (codes "Ann"); KeyValue (codes "born") (codes "2017/03/09");
   SubRecord [KeyValue (codes "question") (codes "kids"); KeyValue (codes "formid") (codes "kid");
     SubRecord (kid_record (codes "7") (codes "f")); SubRecord (kid_record (codes "9") (codes "M"))]].
Definition sample_data : list datum :=
  [Present (Words (codes "Ann") 3); Missing; Present (Numbers [(2, 1); (9610001, 1938407)]);
   Instances [[Present (Numbers [(122, 7)]); Present (Numbers [(3, 1)]); Instances []];
              [Present (Numbers [(122, 9)]); Present (Numbers [(3, 0)]); Instances []]]].

Lemma sample_ann : message sample_stats (codes "Ann").
Proof. apply ascii_message. vm_compute. reflexivity. Qed.

Lemma one_number_ok f n s : f_type f <> FIELDTYPE_INTEGER \/ s <> i32 (f_maximum f - f_minimum f + 1) -> 0 <= s < n -> n < 2 ^ 31 ->
  sent_ok f sample_stats (Numbers [(n, s)]).
Proof. intros Hf Hs Hn. split; [by apply Forall_singleton|]. cbn [map snd]. intros Ht [= ->]. by destruct Hf. Qed.

Lemma sample_kid age sex k s : field_sent age_field age = Some (Numbers [(122, k)]) -> field_sent choice_field sex = Some (Numbers [(3, s)]) ->
  0 <= k < 121 -> 0 <= s < 3 ->
  means sample_find sample_stats (field_list kid) (kid_record age sex) [Present (Numbers [(122, k)]); Present (Numbers [(3, s)]); Instances []].
Proof.
  intros Ha Hs Hk Hr.
  eapply means_present; [reflexivity | reflexivity | exact Ha | apply one_number_ok; [right; change (i32 (f_maximum age_field - f_minimum age_field + 1)) with 121|..]; lia|].
  eapply means_present; [reflexivity | reflexivity | exact Hs | apply one_number_ok; [left; discriminate|..]; lia|].
  eapply means_subform; [reflexivity | reflexivity | apply means_no_more | apply means_end].
Qed.

Lemma sample_means : means sample_find sample_stats (field_list person) sample_record sample_data.
Proof.
  eapply means_present; [reflexivity | reflexivity | reflexivity | split; [exact sample_ann | reflexivity]|].
  apply means_missing; [reflexivity | reflexivity|].
  eapply means_present; [reflexivity | reflexivity | vm_compute; reflexivity | |].
  { split; [|intros H; discriminate H]. repeat (apply List.Forall_cons; [split; [split; [discriminate | reflexivity] | reflexivity]|]). apply List.Forall_nil. }
  eapply means_subform; [reflexivity | reflexivity | | apply means_end].
  apply means_instance; [|apply means_instance; [|apply means_no_more]]; (apply sample_kid; [vm_compute; reflexivity | vm_compute; reflexivity | lia | lia]).
Qed.

Lemma recipe_compress_roundtrip_witness :
  exists out, recipe_compress sample_find sample_stats (Some person) (Some (print_record sample_record)) true 40 = Done (Some out) /\
    Z.of_nat (length out) <= 40 /\
    forall n, (data_size sample_data < n)%nat ->
      fst (decode_form sample_find sample_stats n person (stats3_decoder out)) = ([1; 2; 3; 4; 5; 6], Some sample_data).
Proof.
  apply (recipe_compress_roundtrip sample_find sample_stats sample_stats_ok sample_memory_ok person (print_record sample_record) sample_record sample_data 40);
    [vm_compute; reflexivity | exact sample_means | reflexivity | | vm_compute; reflexivity | vm_compute; discriminate].
  repeat (apply List.Forall_cons; [lia|]). apply List.Forall_nil.
Defined.

(** a choice that is not in the list, in a sub-record *)
Definition bad_kid : recipe := Recipe (codes "kid") [6; 5; 4; 3; 2; 1] [choice_field] 1.
Definition bad_find (name : list Z) : option recipe := if streq name (codes "kid") then Some bad_kid else None.
Definition bad_record : list record_field :=
  [SubRecord [KeyValue (codes "question") (codes "kids"); KeyValue (codes "formid") (codes "kid");
     SubRecord (kid_record (codes "7") (codes "unknown"))]].

Lemma recipe_compress_double_free_witness :
  recipe_compress sample_find sample_stats (Some person) (Some (codes "born=yesterday")) true 100 = Undefined /\
  recipe_compress bad_find sample_stats (Some person) (Some (print_record bad_record)) true 100 = Undefined.
Proof.
  split.
  - apply (recipe_compress_double_free sample_find sample_stats person (codes "born=yesterday") [KeyValue (codes "born") (codes "yesterday")] 100); [reflexivity|].
    apply (refused_here sample_find [name_field; age_field] date_field [kids_field] _ (codes "yesterday")); [|reflexivity | reflexivity | reflexivity].
    repeat (apply List.Forall_cons; [discriminate|]). apply List.Forall_nil.
  - apply (recipe_compress_double_free bad_find sample_stats person (print_record bad_record) bad_record 100); [vm_compute; reflexivity|].
    apply (refused_below bad_find [name_field; age_field; date_field] kids_field [] _ bad_kid (kid_record (codes "7") (codes "unknown")));
      [|reflexivity | reflexivity | by left|].
    + repeat (apply List.Forall_cons; [discriminate|]). apply List.Forall_nil.
    + apply (refused_here bad_find [] choice_field [] _ (codes "unknown")); [apply List.Forall_nil | reflexivity | reflexivity | vm_compute; reflexivity].
Defined.
