(* ===== verification/Dexml.v ===== *)
(** dexml.c: the text of a filled-in form from its XML, and its XML from the text
    and a template. *)
From Stdlib Require Import String.
From S2P Require Import Prelude Charset CString BlockHash.
Local Open Scope Z_scope.

(** [snprintf(&buff[ofs], n, ...)], where the formatted text is [text]: at most [n]
    bytes with the NUL; the result is the length of the whole text *)
Definition snprintf (buff : list Z) (ofs n : Z) (text : list Z) : list Z * Z :=
  let out := if Z.of_nat (length text) <? n then text else firstn (Z.to_nat (n - 1)) text in
  (if n =? 0 then buff else copy_into buff ofs (out ++ [0]), Z.of_nat (length text)).

(** [!strncasecmp(word, s, strlen(word))] *)
Definition starts (word s : list Z) : bool := strncaseeq word s (length word).
(** [tag[0] == '/'], and the string from [&tag[1]] on *)
Definition closes (word s : list Z) : bool := match s with c :: s => (c =? 47) && starts word s | [] => false end.

(** ** From XML to the text *)
Module Strip.
Record strip := State {
  in_subform : Z;
  tag : list Z; taglen : Z;
  value : list Z; val_len : Z;
  in_instance : Z;
  interesting_tag : bool;
  in_tag : bool;            (* state == 1 *)
  exit_tag : list Z;        (* the string in the buffer *)
  stripped : list Z; stripped_ofs : Z
}.
Definition set_tag (t : list Z) (n : Z) (s : strip) : strip :=
  State (in_subform s) t n (value s) (val_len s) (in_instance s) (interesting_tag s) (in_tag s) (exit_tag s) (stripped s) (stripped_ofs s).
Definition set_value (v : list Z) (n : Z) (s : strip) : strip :=
  State (in_subform s) (tag s) (taglen s) v n (in_instance s) (interesting_tag s) (in_tag s) (exit_tag s) (stripped s) (stripped_ofs s).
Definition set_interesting (b : bool) (s : strip) : strip :=
  State (in_subform s) (tag s) (taglen s) (value s) (val_len s) (in_instance s) b (in_tag s) (exit_tag s) (stripped s) (stripped_ofs s).
Definition set_in_tag (b : bool) (s : strip) : strip :=
  State (in_subform s) (tag s) (taglen s) (value s) (val_len s) (in_instance s) (interesting_tag s) b (exit_tag s) (stripped s) (stripped_ofs s).
Definition add_subform (n : Z) (s : strip) : strip :=
  State (in_subform s + n) (tag s) (taglen s) (value s) (val_len s) (in_instance s) (interesting_tag s) (in_tag s) (exit_tag s) (stripped s) (stripped_ofs s).
Definition add_instance (n : Z) (s : strip) : strip :=
  State (in_subform s) (tag s) (taglen s) (value s) (val_len s) (in_instance s + n) (interesting_tag s) (in_tag s) (exit_tag s) (stripped s) (stripped_ofs s).
Definition set_exit (e : list Z) (s : strip) : strip :=
  State (in_subform s) (tag s) (taglen s) (value s) (val_len s) (in_instance s) (interesting_tag s) (in_tag s) e (stripped s) (stripped_ofs s).
Definition set_stripped (b : list Z) (n : Z) (s : strip) : strip :=
  State (in_subform s) (tag s) (taglen s) (value s) (val_len s) (in_instance s) (interesting_tag s) (in_tag s) (exit_tag s) b n.

Section XmlToStripped.
Variable form_name : option (list Z).   (* NULL for forms that say their name *)
Variable stripped_size : Z.

(** [b = snprintf(&stripped[stripped_ofs], stripped_size - stripped_ofs, ...)]: the
    difference is converted to [size_t] *)
Definition emit (text : list Z) (s : strip) : strip :=
  let '(buff, b) := snprintf (stripped s) (stripped_ofs s) (u64 (stripped_size - stripped_ofs s)) text in
  set_stripped buff (if b >? 0 then stripped_ofs s + b else stripped_ofs s) s.

Definition on (b : bool) (f : strip -> strip) (s : strip) : strip := if b then f s else s.

(** case '<' *)
Definition tag_starts (s : strip) : strip :=
  let s := set_in_tag true s in
  let s :=
    if interesting_tag s && (val_len s >? 0) then
      let s := set_value (wr (value s) (val_len s) 0) (val_len s) s in
      let t := cstr (tag s) in
      let s :=
        if (rd (value s) 0 =? 126 (* ~ *)) && (val_len s =? 1) then s
        else if starts (codes "dd:subform") t then s
        else emit (t ++ [61] ++ cstr (value s) ++ [10]) s in
      set_value (value s) 0 s
    else s in
  set_interesting false s.

(** the name and the version of an ODK form are attributes *)
Definition odk_format : list directive :=
  [Word; Blank] ++ map Lit (codes "id=") ++ [Lit 34; Until 34; Lit 34; Blank] ++ map Lit (codes "version=") ++ [Lit 34; Until 34; Lit 34].
Definition odk_form (t : list Z) (s : strip) : strip :=
  match sscanf odk_format t with
  | [VStr name; VStr name_part; VStr version_part] =>
      add_instance 1 (emit (codes "formid=" ++ name_part ++ [46] ++ version_part ++ [10]) (set_exit name s))
  | VStr name :: _ => set_exit name s
  | _ => s
  end.
Definition leaves_instance (t : list Z) (s : strip) : bool :=
  negb (in_instance s =? 0) && negb (bool_decide (exit_tag s = [])) &&
  match t with c :: t => (c =? 47) && strcaseeq t (exit_tag s) | [] => false end.

(** a form without a name: Magpi or ODK *)
Definition unnamed_tag (t : list Z) (s : strip) : strip :=
  let s := on (starts (codes "form") t) (add_instance 1) s in
  let s := on (closes (codes "form") t) (add_instance (-1)) s in
  let s := on (starts (codes "dd:subform") t) (fun s => emit [123; 10] (add_subform 1 s)) s in
  let s := on (closes (codes "dd:subform") t) (fun s => emit [125; 10] (add_subform (-1) s)) s in
  let s := on (starts (codes "data") t && negb (in_subform s =? 0)) (emit [123; 10]) s in
  let s := on (closes (codes "data") t && negb (in_subform s =? 0)) (emit [125; 10]) s in
  let s := on (in_instance s =? 0) (odk_form t) s in
  on (leaves_instance t s) (add_instance (-1)) s.
Definition named_tag (name t : list Z) (s : strip) : strip :=
  let s := on (starts name t) (add_instance 1) s in
  on (closes name t) (add_instance (-1)) s.

(** case '>' *)
Definition tag_ends (s : strip) : strip :=
  let s :=
    if nz (taglen s) then
      let s := set_tag (wr (tag s) (taglen s) 0) (taglen s) s in
      let s := set_interesting (negb (rd (tag s) 0 =? 47) && negb (in_instance s =? 0) && negb (rd (tag s) (taglen s - 1) =? 47)) s in
      let t := cstr (tag s) in
      let s := match form_name with None => unnamed_tag t s | Some name => named_tag name t s end in
      set_tag (tag s) 0 s
    else s in
  set_in_tag false s.

Definition other (c : Z) (s : strip) : strip :=
  let s := if in_tag s && (taglen s <? 1000) then set_tag (wr (tag s) (taglen s) c) (taglen s + 1) s else s in
  if interesting_tag s && (negb (val_len s =? 0) || negb (c =? 32)) && (val_len s <? 1000)
  then set_value (wr (value s) (val_len s) c) (val_len s + 1) s else s.

Definition strip_char (s : strip) (c : Z) : strip :=
  if (c =? 10) || (c =? 13) then s
  else if c =? 60 (* < *) then tag_starts s
  else if c =? 62 (* > *) then tag_ends s
  else other c s.

Context `{Memory}.
(** [xml]: its xml_len bytes, the last of which is read but not looked at *)
Definition xml2stripped (xml buff : list Z) : Z * list Z :=
  let s := State 0 (garbage 1024) 0 (garbage 1024) 0 0 false false [] buff 0 in
  let s := fold_left strip_char (removelast xml) s in
  (stripped_ofs s, stripped s).
End XmlToStripped.
End Strip.

(** ** From the text and a template to XML *)
Module Fill.

(** what a step gives: [-1] is returned, or an array would be left *)
Inductive checked (A : Type) := Ok (a : A) | Refused | Beyond.
Arguments Ok {A} _.
Arguments Refused {A}.
Arguments Beyond {A}.

(** a field of the text; [name] is NULL once it was written *)
Record field := Field { name : option (list Z); value : list Z; in_record : bool; number : Z }.

(** the first loop, over the text *)
Record reading := Reading {
  in_value : bool;               (* state == 1 *)
  state_in_subform_record : bool;
  state_in_subform_instance : bool;
  record_count : list Z; record_number : Z;
  fields : list field;           (* the first field_count of the arrays, which have room for 1024 *)
  field_text : list Z;           (* the first field_len characters of field *)
  value_text : list Z
}.
Definition read_char (s : reading) (c : Z) : checked reading :=
  let '(Reading in_value rec inst count n fs f v) := s in
  if (c =? 61 (* = *)) && negb in_value then Ok (Reading true rec inst count n fs f v)
  else if c =? 123 (* { *) then
    if negb inst then Ok (Reading in_value rec true count n fs f v)
    else if n <? 1024 then Ok (Reading in_value true inst (wr count n (rd count n + 1)) n fs f v)
    else Beyond
  else if c =? 125 (* } *) then
    if rec then Ok (Reading in_value false inst count n fs f v)
    else Ok (Reading in_value rec false count (n + 1) fs f v)
  else if c <? 32 then
    if in_value then
      (* the last of the messages shows record_count[record_number] *)
      if (Z.of_nat (length fs) <? 1024) && (n <? 1024) then Ok (Reading false rec inst count n (fs ++ [Field (Some f) v rec n]) [] [])
      else Beyond
    else Ok (Reading false rec inst count n fs [] [])
  else if (Z.of_nat (length f) >? 1000) || (Z.of_nat (length v) >? 1000) then Refused
  else if in_value then Ok (Reading in_value rec inst count n fs f (v ++ [c]))
  else Ok (Reading in_value rec inst count n fs (f ++ [c]) v).
Fixpoint read_fields (text : list Z) (s : reading) : checked reading :=
  match text with
  | [] => Ok s
  | c :: text => match read_char s c with Ok s => read_fields text s | Refused => Refused | Beyond => Beyond end
  end.

(** the second loop, over the template *)
Record writing := Writing {
  w_fields : list field;
  xml : list Z;                  (* what was written: xml_ofs is its length *)
  state_field : bool;
  state_tag : bool;
  w_field : list Z;
  tag : list Z;
  w_instance : bool;             (* state_in_subform_instance *)
  beginning_index_of_subform_record : Z;
  remaining_records : bool;
  number_of_records_written : Z
}.

(** the first field of the name that is left: its value, what the subform has to do
    with it, and the fields without it *)
Fixpoint take_field (f : list Z) (fs : list field) : option (field * list field) :=
  match fs with
  | [] => None
  | x :: fs =>
      match name x with
      | Some n =>
          if strcaseeq f n then Some (x, Field None (value x) (in_record x) (number x) :: fs)
          else match take_field f fs with Some (y, fs) => Some (y, x :: fs) | None => None end
      | None => match take_field f fs with Some (y, fs) => Some (y, x :: fs) | None => None end
      end
  end.

(** [xml[xml_ofs++] = c]: there is no test before it *)
Definition put (xml_size c : Z) (xml : list Z) : checked (list Z) :=
  if Z.of_nat (length xml) <? xml_size then Ok (xml ++ [c]) else Beyond.
(** and for what is not a bracket, the test behind it: -1 when the array is full *)
Definition put_char (xml_size c : Z) (xml : list Z) : checked (list Z) :=
  match put xml_size c xml with
  | Ok xml => if Z.of_nat (length xml) =? xml_size then Refused else Ok xml
  | o => o
  end.
Fixpoint put_value (xml_size : Z) (v xml : list Z) : checked (list Z) :=
  match v with
  | [] => Ok xml
  | c :: v => match put_char xml_size c xml with Ok xml => put_value xml_size v xml | o => o end
  end.

Section Template.
Variable xml_size : Z.
Variable record_count : list Z.

(** the end of a tag at [i], its bracket being written: the state, and the index from
    which the loop goes on *)
Definition tag_closed (i : Z) (w : writing) : writing * Z :=
  let '(Writing fs x sf st f t inst beginning remaining written) := w in
  let t := cstr t in
  if starts (codes "dd:subform") t then (Writing fs x sf false f [] true beginning remaining written, i)
  else if closes (codes "dd:subform") t then (Writing fs x sf false f [] false 0 remaining 0, i)
  else if starts (codes "data") t && inst then (Writing fs x sf false f [] inst (i - 7) false written, i)
  else if closes (codes "data") t && inst then
    if remaining then (Writing fs x sf false f [] inst beginning false (written + 1), beginning)
    else (Writing fs x sf false f [] inst beginning remaining written, i)
  else (Writing fs x sf false f [] inst beginning remaining written, i).

Definition variable_ends (w : writing) : checked writing :=
  let '(Writing fs x sf st f t inst beginning remaining written) := w in
  match take_field (cstr f) fs with
  | Some (y, fs) =>
      match put_value xml_size (value y) x with
      | Ok x =>
          let remaining := remaining || (in_record y && (rd record_count (number y) - written >? 1)) in
          Ok (Writing fs x false st [] t inst beginning remaining written)
      | Refused => Refused
      | Beyond => Beyond
      end
  | None => Ok (Writing fs x false st [] t inst beginning remaining written)
  end.

(** a character that is not '<' or '>' *)
Definition template_char (c : Z) (w : writing) : checked writing :=
  let '(Writing fs x sf st f t inst beginning remaining written) := w in
  if c =? 36 (* $ *) then
    if sf then variable_ends w else Ok (Writing fs x true st f t inst beginning remaining written)
  else if sf then
    Ok (Writing fs x sf st (if Z.of_nat (length f) <? 1023 then f ++ [c] else f) t inst beginning remaining written)
  else
    let t := if st && (Z.of_nat (length t) <? 1023) then t ++ [c] else t in
    match put_char xml_size c x with
    | Ok x => Ok (Writing fs x sf st f t inst beginning remaining written)
    | Refused => Refused
    | Beyond => Beyond
    end.
Definition with_xml (x : list Z) (w : writing) : writing :=
  Writing (w_fields w) x (state_field w) (state_tag w) (w_field w) (tag w) (w_instance w)
    (beginning_index_of_subform_record w) (remaining_records w) (number_of_records_written w).
Definition in_tag (w : writing) : writing :=
  Writing (w_fields w) (xml w) (state_field w) true (w_field w) (tag w) (w_instance w)
    (beginning_index_of_subform_record w) (remaining_records w) (number_of_records_written w).
(** one turn of the loop, for the character [c] at [i] *)
Definition template_step (c i : Z) (w : writing) : checked (writing * Z) :=
  if (c =? 60 (* < *)) || (c =? 62 (* > *)) then
    match put xml_size c (xml w) with
    | Ok x => Ok (if c =? 60 then (in_tag (with_xml x w), i) else tag_closed i (with_xml x w))
    | Refused => Refused
    | Beyond => Beyond
    end
  else
    match template_char c w with
    | Ok w => Ok (w, i)
    | Refused => Refused
    | Beyond => Beyond
    end.

(** [Overrun]: it would leave one of its arrays, or [xml] *)
Inductive outcome := Running | Failed | Overrun | Written (xml : list Z).
Fixpoint template_loop (fuel : nat) (template : list Z) (i : Z) (w : writing) : outcome :=
  match fuel with
  | O => Running
  | S fuel =>
      if negb (i <? Z.of_nat (length template)) then Written (xml w)
      else if i <? 0 then Overrun
      else match template_step (rd template i) i w with
           | Ok (w, i) => template_loop fuel template (i + 1) w
           | Refused => Failed
           | Beyond => Overrun
           end
  end.
End Template.

(** the result is the number of bytes of [xml], or -1.  Each time that the loop goes
    back, a field has been written since it went back before. *)
Definition stripped2xml (stripped template : list Z) (xml_size : Z) : outcome :=
  match read_fields stripped (Reading false false false (repeat 0 1024) 0 [] [] []) with
  | Refused => Failed
  | Beyond => Overrun
  | Ok s =>
      let w := Writing (fields s) [] false false [] [] false 0 false 0 in
      template_loop xml_size (record_count s) (S (length (fields s)) * (S (length template) + length (fields s))) template 0 w
  end.
End Fill.
