(* ===== verification/DexmlStrip.v ===== *)
(** dexml.c: xml2stripped reads tags and texts, and makes the text of a form from
    its XML. *)
From Stdlib Require Import String.
From S2P Require Import Prelude Charset CString BlockHash Recipe RecipeText Dexml.
Import Dexml.Strip.
Local Open Scope Z_scope.
Local Open Scope succinct_scope.

(** ** The output so far *)
Record outline := Outline { o_out : list Z; o_sub : Z; o_inst : Z; o_exit : list Z }.

Section Output.
Variable size : Z.
Hypothesis size_range : 0 <= size < 2 ^ 31.

Definition fits (o : outline) : Prop := Z.of_nat (length (o_out o)) < size.
Record outlines (s : strip) (o : outline) : Prop := {
  ol_sub : in_subform s = o_sub o;
  ol_inst : in_instance s = o_inst o;
  ol_exit : exit_tag s = o_exit o;
  ol_ofs : stripped_ofs s = Z.of_nat (length (o_out o));
  ol_size : Z.of_nat (length (stripped s)) = size;
  ol_out : take (length (o_out o)) (stripped s) = o_out o;
  ol_end : o_out o <> [] -> rd (stripped s) (Z.of_nat (length (o_out o))) = 0
}.
(** what the output does not change *)
Record frame (s s' : strip) : Prop := {
  fr_tag : tag s' = tag s; fr_taglen : taglen s' = taglen s;
  fr_value : value s' = value s; fr_val_len : val_len s' = val_len s;
  fr_interesting : interesting_tag s' = interesting_tag s; fr_in_tag : in_tag s' = in_tag s
}.
Lemma frame_refl s : frame s s.
Proof. by split. Qed.
Lemma frame_trans a b c : frame a b -> frame b c -> frame a c.
Proof. intros [] []. split; congruence. Qed.

(** an operation, and what it does to the output *)
Definition sim (f : strip -> strip) (g : outline -> outline) : Prop :=
  forall s o, outlines s o -> fits (g o) -> outlines (f s) (g o) /\ frame s (f s).
Definition grows (g : outline -> outline) : Prop := forall o, (length (o_out o) <= length (o_out (g o)))%nat.

Lemma grows_all gs : Forall grows gs -> grows (fun o => fold_left (fun o g => g o) gs o).
Proof. induction 1 as [|g gs Hg HG IH]; intros o; cbn [fold_left]; [lia|]. specialize (IH (g o)). specialize (Hg o). cbv beta in *. lia. Qed.
Lemma sim_all fs gs : Forall2 sim fs gs -> Forall grows gs ->
  sim (fun s => fold_left (fun s f => f s) fs s) (fun o => fold_left (fun o g => g o) gs o).
Proof.
  intros HF. induction HF as [|f g fs gs Hf HF IH]; intros HG s o Hs Hfit; [by split; [|apply frame_refl]|].
  apply Forall_cons_iff in HG as [Hg HG]. cbn [fold_left] in *. pose proof (grows_all gs HG (g o)) as Hgrow. cbv beta in Hgrow.
  destruct (Hf s o Hs) as [H1 F1]; [unfold fits in *; lia|].
  destruct (IH HG (f s) (g o) H1 Hfit) as [H2 F2]. split; [done | by eapply frame_trans].
Qed.

Definition add_out (text : list Z) (o : outline) : outline := Outline (o_out o ++ text) (o_sub o) (o_inst o) (o_exit o).
Definition add_sub (n : Z) (o : outline) : outline := Outline (o_out o) (o_sub o + n) (o_inst o) (o_exit o).
Definition add_inst (n : Z) (o : outline) : outline := Outline (o_out o) (o_sub o) (o_inst o + n) (o_exit o).
Definition put_exit (e : list Z) (o : outline) : outline := Outline (o_out o) (o_sub o) (o_inst o) e.
Definition when (b : bool) (g : outline -> outline) (o : outline) : outline := if b then g o else o.

Lemma sim_emit text : text <> [] -> sim (emit size text) (add_out text).
Proof.
  intros Ht s o [Hsub Hinst Hexit Hofs Hsize Hout Hend] Hfit. unfold fits in Hfit. cbn [add_out o_out] in Hfit. rewrite length_app in Hfit.
  unfold emit, snprintf. rewrite u64_small by lia. destruct (Z.ltb_spec (Z.of_nat (length text)) (size - stripped_ofs s)); [|lia].
  destruct (Z.eqb_spec (size - stripped_ofs s) 0); [lia|]. destruct text as [|c text]; [done|]. clear Ht.
  destruct (Z.gtb_spec (Z.of_nat (length (c :: text))) 0); [|cbn [length] in *; lia].
  split; [|by split]. rewrite Hofs. rewrite copy_into_split by (rewrite length_app; cbn [length] in *; lia).
  split; cbn [add_out set_stripped in_subform in_instance exit_tag stripped stripped_ofs o_out o_sub o_inst o_exit]; try done.
  - rewrite length_app. lia.
  - rewrite !length_app, length_take, length_drop. cbn [length] in *. lia.
  - rewrite Hout, <- app_assoc, (app_assoc (o_out o)). by rewrite firstn_app, firstn_all, Nat.sub_diag, firstn_O, app_nil_r.
  - intros _. rewrite Hout, <- app_assoc, (app_assoc (o_out o)), <- (Z.add_0_r (Z.of_nat _)). by rewrite rd_app_r.
Qed.
End Output.

(** ** A tag of a form without a name *)
Definition odk_effect (t : list Z) (o : outline) : outline :=
  match sscanf odk_format t with
  | [VStr name; VStr name_part; VStr version_part] =>
      add_inst 1 (add_out (codes "formid=" ++ name_part ++ [46] ++ version_part ++ [10]) (put_exit name o))
  | VStr name :: _ => put_exit name o
  | _ => o
  end.
Definition ends_instance (t : list Z) (o : outline) : bool :=
  negb (o_inst o =? 0) && negb (bool_decide (o_exit o = [])) && match t with c :: t => (c =? 47) && strcaseeq t (o_exit o) | [] => false end.
Definition tag_effects (t : list Z) : list (outline -> outline) := [
  when (starts (codes "form") t) (add_inst 1);
  when (closes (codes "form") t) (add_inst (-1));
  when (starts (codes "dd:subform") t) (fun o => add_out [123; 10] (add_sub 1 o));
  when (closes (codes "dd:subform") t) (fun o => add_out [125; 10] (add_sub (-1) o));
  (fun o => when (starts (codes "data") t && negb (o_sub o =? 0)) (add_out [123; 10]) o);
  (fun o => when (closes (codes "data") t && negb (o_sub o =? 0)) (add_out [125; 10]) o);
  (fun o => when (o_inst o =? 0) (odk_effect t) o);
  (fun o => when (ends_instance t o) (add_inst (-1)) o)].
Definition tag_effect (t : list Z) (o : outline) : outline := fold_left (fun o g => g o) (tag_effects t) o.

Lemma grows_out text : grows (add_out text).
Proof. intros o. cbn. rewrite length_app. lia. Qed.
Lemma grows_same g : (forall o, o_out (g o) = o_out o) -> grows g.
Proof. intros H o. by rewrite H. Qed.
Lemma grows_then g1 g2 : grows g1 -> grows g2 -> grows (fun o => g2 (g1 o)).
Proof. intros H1 H2 o. specialize (H1 o). specialize (H2 (g1 o)). lia. Qed.
Lemma grows_when b g : grows g -> grows (fun o => when (b o) g o).
Proof. intros H o. unfold when. destruct (b o); [apply H | done]. Qed.

Lemma odk_grows t : grows (odk_effect t).
Proof.
  unfold odk_effect. assert (forall e, grows (put_exit e)) as Hexit by (intros e; by apply grows_same).
  destruct (sscanf odk_format t) as [|[?|name] [|[?|name_part] [|[?|version_part] [|]]]]; auto; try (intros o; lia).
  apply (grows_then (fun o => add_out _ (put_exit name o))); [|by apply grows_same]. apply (grows_then (put_exit name)); [done | apply grows_out].
Qed.
Lemma effects_grow t : Forall grows (tag_effects t).
Proof.
  unfold tag_effects. repeat apply List.Forall_cons; try apply List.Forall_nil; apply grows_when; try (by apply grows_same); try apply grows_out.
  apply odk_grows.
Qed.
Lemma effect_grows t : grows (tag_effect t).
Proof. apply (grows_all _ (effects_grow t)). Qed.

Section Tags.
Variable size : Z.
Hypothesis size_range : 0 <= size < 2 ^ 31.
#[local] Abbreviation sim := (sim size).

Lemma sim_on b f g : sim f g -> sim (on b f) (when b g).
Proof. intros H s o Hs Hf. destruct b; [by apply H | by split; [|apply frame_refl]]. Qed.
Lemma sim_on_state (b : strip -> bool) (b' : outline -> bool) f g : (forall s o, outlines size s o -> b s = b' o) -> sim f g ->
  sim (fun s => on (b s) f s) (fun o => when (b' o) g o).
Proof. intros Hb H s o Hs Hf. rewrite (Hb s o Hs) in *. by apply sim_on. Qed.
Lemma sim_inst n : sim (add_instance n) (add_inst n).
Proof. intros s o [] Hf. split; [|by split]. split; (assumption || (cbn; congruence)). Qed.
Lemma sim_sub n : sim (add_subform n) (add_sub n).
Proof. intros s o [] Hf. split; [|by split]. split; (assumption || (cbn; congruence)). Qed.
Lemma sim_exit e : sim (set_exit e) (put_exit e).
Proof. intros s o [] Hf. split; [|by split]. split; (assumption || (cbn; congruence)). Qed.
Lemma sim_then f1 g1 f2 g2 : sim f1 g1 -> sim f2 g2 -> grows g2 -> sim (fun s => f2 (f1 s)) (fun o => g2 (g1 o)).
Proof.
  intros H1 H2 HG s o Hs Hf. destruct (H1 s o Hs) as [S1 F1]; [unfold fits in *; specialize (HG (g1 o)); lia|].
  destruct (H2 _ _ S1 Hf) as [S2 F2]. split; [done | by eapply frame_trans].
Qed.
Lemma sim_odk t : sim (odk_form size t) (odk_effect t).
Proof.
  unfold odk_form, odk_effect.
  assert (sim (fun s => s) (fun o => o)) as Hid by (intros s o Hs _; by split; [|apply frame_refl]).
  pose proof sim_exit as Hexit.
  destruct (sscanf odk_format t) as [|[?|name] [|[?|name_part] [|[?|version_part] [|]]]]; auto.
  apply (sim_then (fun s => emit size _ (set_exit name s)) (fun o => add_out _ (put_exit name o))); [|apply sim_inst | by apply grows_same].
  apply (sim_then (set_exit name) (put_exit name)); [apply sim_exit | by apply sim_emit | apply grows_out].
Qed.

Lemma sim_unnamed t : sim (unnamed_tag size t) (tag_effect t).
Proof.
  apply (sim_all size [on (starts (codes "form") t) (add_instance 1); on (closes (codes "form") t) (add_instance (-1));
    on (starts (codes "dd:subform") t) (fun s => emit size [123; 10] (add_subform 1 s));
    on (closes (codes "dd:subform") t) (fun s => emit size [125; 10] (add_subform (-1) s));
    (fun s => on (starts (codes "data") t && negb (in_subform s =? 0)) (emit size [123; 10]) s);
    (fun s => on (closes (codes "data") t && negb (in_subform s =? 0)) (emit size [125; 10]) s);
    (fun s => on (in_instance s =? 0) (odk_form size t) s); (fun s => on (leaves_instance t s) (add_instance (-1)) s)]).
  - unfold tag_effects. repeat apply List.Forall2_cons; try apply List.Forall2_nil.
    1-2: apply sim_on, sim_inst.
    1-2: by apply sim_on, (sim_then (add_subform _) (add_sub _)); [apply sim_sub | apply sim_emit | apply grows_out].
    1-2: by apply sim_on_state; [intros s o Hs; by rewrite (ol_sub _ _ _ Hs) | apply sim_emit].
    + apply sim_on_state; [intros s o Hs; by rewrite (ol_inst _ _ _ Hs) | apply sim_odk].
    + apply sim_on_state; [|apply sim_inst]. intros s o Hs. unfold leaves_instance, ends_instance. by rewrite (ol_inst _ _ _ Hs), (ol_exit _ _ _ Hs).
  - apply effects_grow.
Qed.
End Tags.

(** ** Tags and texts *)
Inductive token := Tag (t : list Z) | Text (v : list Z).
Definition render (tok : token) : list Z := match tok with Tag t => 60 :: t ++ [62] | Text v => v end.
Definition name_char (c : Z) : Prop := c <> 0 /\ c <> 10 /\ c <> 13 /\ c <> 60 /\ c <> 62.
Definition token_ok (tok : token) : Prop :=
  match tok with
  | Tag t => t <> [] /\ Z.of_nat (length t) <= 1000 /\ Forall name_char t
  | Text v => Forall (fun c => c <> 0 /\ c <> 60) v
  end.

(** the output, the element that is read, and its value *)
Record doc := Doc { d_outline : outline; d_open : option (list Z); d_value : list Z }.
(** a value has no line ends and no leading spaces *)
Definition text_char (v : list Z) (c : Z) : list Z :=
  if (c =? 10) || (c =? 13) || (c =? 62) then v
  else if bool_decide (v = []) && (c =? 32) then v
  else if Z.of_nat (length v) <? 1000 then v ++ [c] else v.
(** a value that is not empty goes out; Magpi writes ~ for an empty one *)
Definition flush (d : doc) : outline :=
  match d_open d with
  | Some k =>
      if bool_decide (d_value d = []) || bool_decide (d_value d = [126]) || starts (codes "dd:subform") k then d_outline d
      else add_out (k ++ 61 :: d_value d ++ [10]) (d_outline d)
  | None => d_outline d
  end.
Definition opens (t : list Z) (o : outline) : bool :=
  negb (rd t 0 =? 47) && negb (o_inst o =? 0) && negb (rd t (Z.of_nat (length t) - 1) =? 47).
Definition token_step (d : doc) (tok : token) : doc :=
  match tok with
  | Tag t => Doc (tag_effect t (flush d)) (if opens t (flush d) then Some t else None) []
  | Text v => Doc (d_outline d) (d_open d) (match d_open d with Some _ => fold_left text_char v (d_value d) | None => [] end)
  end.
Definition read_tokens (toks : list token) : doc := fold_left token_step toks (Doc (Outline [] 0 0 []) None []).

Section Tokens.
Variable size : Z.
Hypothesis size_range : 0 <= size < 2 ^ 31.
#[local] Abbreviation outlines := (outlines size).
#[local] Abbreviation feed := (fold_left (strip_char None size)).

Record shows (s : strip) (d : doc) : Prop := {
  sh_out : outlines s (d_outline d);
  sh_tag : in_tag s = false /\ taglen s = 0 /\ length (tag s) = 1024%nat;
  sh_open : match d_open d with Some k => interesting_tag s = true /\ cstr (tag s) = k | None => interesting_tag s = false /\ d_value d = [] end;
  sh_value : (exists rest, value s = d_value d ++ rest) /\ length (value s) = 1024%nat /\ val_len s = Z.of_nat (length (d_value d));
  sh_chars : no_nul (d_value d) /\ Z.of_nat (length (d_value d)) <= 1000
}.
Lemma outlines_set s o : outlines s o -> forall s', in_subform s' = in_subform s -> in_instance s' = in_instance s -> exit_tag s' = exit_tag s ->
  stripped s' = stripped s -> stripped_ofs s' = stripped_ofs s -> outlines s' o.
Proof. intros [] s' Hsub Hinst Hexit Hst Hofs. split; rewrite ?Hsub, ?Hinst, ?Hexit, ?Hst, ?Hofs; assumption. Qed.

Lemma wr_next l x rest (c : Z) : wr (l ++ x :: rest) (Z.of_nat (length l)) c = l ++ c :: rest.
Proof. rewrite <- (Z.add_0_r (Z.of_nat (length l))), wr_app_r by lia. done. Qed.

(** a character of a text *)
Lemma other_char s d c : shows s d -> c <> 0 -> c <> 10 -> c <> 13 -> c <> 60 -> c <> 62 -> shows (other c s) (token_step d (Text [c])).
Proof.
  intros [Hout (Hit & Htl & Htag) Hopen ([rest Hval] & Hvl & Hlen) (Hnul & H1000)] H0 H10 H13 H60 H62.
  unfold other. rewrite Hit. cbn [andb token_step fold_left]. unfold text_char.
  destruct (Z.eqb_spec c 10), (Z.eqb_spec c 13), (Z.eqb_spec c 62); try done. cbn [orb].
  destruct d as [o [k|] v]; cbn [d_outline d_open d_value] in *.
  - destruct Hopen as [Hi Hk]. rewrite Hi, Hlen. cbn [andb].
    destruct v as [|x v]; [change (bool_decide ([] = [])) with true; destruct (Z.eqb_spec c 32) as [->|]|].
    + split; cbn [d_outline d_open d_value]; eauto.
    + cbn [length andb orb negb]. change (_ <? 1000) with true. cbn [andb orb negb]. change (Z.of_nat 0 =? 0) with true. cbn [negb orb andb]. destruct rest as [|y rest]; [rewrite Hval in Hvl; done|].
      split; cbn [d_outline d_open d_value set_value in_tag taglen tag interesting_tag value val_len app length]; try done.
      * by apply (outlines_set s).
      * split; [exists rest; by rewrite Hval|]. rewrite length_wr. done.
      * split; [|lia]. intros Hin%list_elem_of_singleton. by apply H0.
    + rewrite bool_decide_false by done. cbn [andb]. destruct (Z.eqb_spec (Z.of_nat (length (x :: v))) 0); [done|]. cbn [negb orb andb].
      destruct (Z.ltb_spec (Z.of_nat (length (x :: v))) 1000); [|split; cbn [d_outline d_open d_value]; eauto].
      destruct rest as [|y rest]; [rewrite Hval, app_nil_r in Hvl; lia|].
      split; cbn [d_outline d_open d_value set_value in_tag taglen tag interesting_tag value val_len]; try done.
      * by apply (outlines_set s).
      * rewrite Hval, wr_next, length_app. split; [exists rest; by rewrite <- app_assoc|]. rewrite Hval in Hvl. rewrite !length_app in *. cbn [length] in *. lia.
      * rewrite length_app. cbn [length] in *. split; [|lia]. intros [Hin|Hin%list_elem_of_singleton]%elem_of_app; [by apply Hnul | by apply H0].
  - destruct Hopen as [Hi ->]. rewrite Hi. split; cbn [d_outline d_open d_value]; eauto.
Qed.

Lemma text_spec v : forall s d, shows s d -> token_ok (Text v) -> shows (feed v s) (token_step d (Text v)).
Proof.
  assert (forall s d, shows s d -> shows s (token_step d (Text []))) as Hnil.
  { intros s [o [k|] v'] H; [done|]. destruct H as [? ? Ho ? ?]. cbn [d_open d_value] in *. destruct Ho as [? ->]. by split. }
  induction v as [|c v IH]; intros s d Hs Hok; [by apply Hnil|]. apply Forall_cons_iff in Hok as [[H0 H60] Hok].
  cbn [fold_left]. assert (token_step d (Text (c :: v)) = token_step (token_step d (Text [c])) (Text v)) as -> by (by destruct d as [o [k|] v']).
  apply IH; [|exact Hok]. unfold strip_char. destruct (Z.eqb_spec c 10) as [->|]; [|destruct (Z.eqb_spec c 13) as [->|]; [|destruct (Z.eqb_spec c 60); [done|destruct (Z.eqb_spec c 62) as [->|]]]].
  1-2: by apply (Hnil s d).
  - assert (token_step d (Text [62]) = token_step d (Text [])) as -> by done. apply Hnil. destruct Hs as [Hout (Hit & Htl & Htag) Hopen Hval Hch].
    unfold tag_ends. rewrite Htl. cbn [nz Z.eqb negb]. split; try done. by apply (outlines_set s).
  - by apply other_char.
Qed.

(** a tag that is being read, after [n] *)
Record naming (s : strip) (o : outline) (n : list Z) : Prop := {
  na_out : outlines s o;
  na_in_tag : in_tag s = true /\ interesting_tag s = false;
  na_tag : (exists rest, tag s = n ++ rest) /\ length (tag s) = 1024%nat /\ taglen s = Z.of_nat (length n);
  na_value : length (value s) = 1024%nat /\ val_len s = 0
}.

Lemma tag_starts_spec s d : shows s d -> fits size (flush d) -> naming (tag_starts size s) (flush d) [].
Proof.
  intros [Hout (Hit & Htl & Htag) Hopen ([rest Hval] & Hvl & Hlen) (Hnul & H1000)] Hfit. unfold tag_starts.
  cbn [set_in_tag interesting_tag val_len]. unfold flush in *. destruct d as [o [k|] v]; cbn [d_outline d_open d_value] in *.
  - destruct Hopen as [Hi Hk]. rewrite Hi, Hlen. cbn [andb]. destruct (decide (v = [])) as [->|Hne].
    + cbn [length] in *. change (Z.of_nat 0 >? 0) with false. cbv iota. rewrite bool_decide_true in * by done. cbn [orb] in *.
      split; cbn; [by apply (outlines_set s) | done | split; [by exists (tag s) | done] | split; [done | lia]].
    + rewrite (bool_decide_false (v = [])) in * by done. cbn [orb] in *. destruct (Z.gtb_spec (Z.of_nat (length v)) 0); [|destruct v; [done | cbn [length] in *; lia]].
      destruct rest as [|y rest]; [rewrite Hval, app_nil_r in Hvl; lia|]. cbn [set_value set_in_tag value val_len tag]. rewrite Hk.
      rewrite Hval, wr_next. rewrite cstr_app by done.
      assert ((rd (v ++ 0 :: rest) 0 =? 126) && (Z.of_nat (length v) =? 1) = bool_decide (v = [126])) as ->.
      { destruct v as [|x v]; [done|]. cbn [app]. rewrite rd_cons_0. case_bool_decide as E; [by injection E as -> ->|].
        apply andb_false_iff. destruct (Z.eqb_spec x 126) as [->|]; [right | by left]. apply Z.eqb_neq. destruct v; [done | cbn [length]; lia]. }
      destruct (bool_decide (v = [126])); cbn [orb] in *; [|destruct (starts _ k)].
      1-2: split; cbn; [by apply (outlines_set s) | done | split; [by exists (tag s) | done] | split; [|done]].
      1-2: rewrite Hval in Hvl; rewrite length_app in *; exact Hvl.
      set (s1 := set_value (v ++ 0 :: rest) (Z.of_nat (length v)) (set_in_tag true s)). destruct (sim_emit size size_range (k ++ 61 :: v ++ [10]) ltac:(by destruct k) s1 o) as [Ho [F1 F2 F3 F4 F5 F6]];
        [by apply (outlines_set s) | exact Hfit|]. change (k ++ [61] ++ v ++ [10]) with (k ++ 61 :: v ++ [10]).
      set (s2 := emit _ _ _) in *. split; cbn [set_interesting set_value in_tag interesting_tag tag taglen value val_len].
      * by apply (outlines_set s2).
      * rewrite F6. done.
      * rewrite F1, F2. split; [by exists (tag s) | done].
      * rewrite F3. split; [|done]. subst s1. cbn [set_value value]. rewrite Hval in Hvl. rewrite length_app in *. exact Hvl.
  - destruct Hopen as [Hi ->]. rewrite Hi. cbn [andb]. split; cbn; [by apply (outlines_set s) | done | split; [by exists (tag s) | done] | split; [done|exact Hlen]].
Qed.

Lemma name_spec t : forall s o n, naming s o n -> Z.of_nat (length (n ++ t)) <= 1000 -> Forall name_char t -> naming (feed t s) o (n ++ t).
Proof.
  induction t as [|c t IH]; intros s o n Hs Hlen Hok; [by rewrite app_nil_r|]. apply Forall_cons_iff in Hok as [(H0 & H10 & H13 & H60 & H62) Hok].
  cbn [fold_left]. replace (n ++ c :: t) with ((n ++ [c]) ++ t) in * by (by rewrite <- app_assoc). apply IH; [|done|done].
  destruct Hs as [Hout [Hit Hi] ([rest Htag] & Htl & Hn) [Hvl Hv]]. unfold strip_char.
  destruct (Z.eqb_spec c 10), (Z.eqb_spec c 13), (Z.eqb_spec c 60), (Z.eqb_spec c 62); try done. cbn [orb]. unfold other. rewrite Hit, Hn.
  rewrite length_app in Hlen. rewrite length_app in Hlen. cbn [length] in Hlen. destruct (Z.ltb_spec (Z.of_nat (length n)) 1000); [|lia].
  cbn [andb set_tag interesting_tag]. rewrite Hi. cbn [andb]. destruct rest as [|x rest]; [rewrite Htag, app_nil_r in Htl; lia|].
  split; cbn [set_tag in_tag interesting_tag tag taglen value val_len]; [by apply (outlines_set s) | done | | done].
  rewrite Htag, wr_next. rewrite Htag in Htl. rewrite !length_app in *. cbn [length] in *. split; [exists rest; by rewrite <- app_assoc|]. lia.
Qed.

Lemma name_chars_nul t : Forall name_char t -> no_nul t.
Proof. intros H Hin. rewrite List.Forall_forall in H. apply list_elem_of_In in Hin. by destruct (H 0 Hin). Qed.

Lemma tag_ends_spec s d t : naming s (flush d) t -> token_ok (Tag t) -> fits size (tag_effect t (flush d)) ->
  shows (tag_ends None size s) (token_step d (Tag t)).
Proof.
  intros [Hout [Hit Hi] ([rest Htag] & Htl & Hn) [Hvl Hv]] (Hne & Hlen & Hok) Hfit. unfold tag_ends. rewrite Hn.
  destruct (nz (Z.of_nat (length t))) eqn:E; [|by destruct t]. clear E. cbn [set_tag set_interesting tag taglen].
  destruct rest as [|x rest]; [rewrite Htag, app_nil_r in Htl; lia|]. rewrite Htag, wr_next, cstr_app by (by apply name_chars_nul).
  destruct t as [|c t]; [done|]. set (s1 := set_interesting _ (set_tag _ _ s)).
  destruct (sim_unnamed size size_range (c :: t) s1 (flush d)) as [Ho [F1 F2 F3 F4 F5 F6]]; [by apply (outlines_set s) | done|].
  set (s2 := unnamed_tag _ _ _) in *.
  assert (interesting_tag s1 = opens (c :: t) (flush d)) as Hop.
  { subst s1. cbn [set_interesting set_tag interesting_tag]. unfold opens. rewrite <- (ol_inst _ _ _ Hout), rd_app_l by (cbn [length]; lia).
    rewrite (rd_app_l _ _ (_ - 1)) by (cbn [length]; lia). reflexivity. }
  split; cbn [token_step d_outline d_open d_value set_in_tag set_tag in_tag taglen tag interesting_tag value val_len].
  - by apply (outlines_set s2).
  - rewrite F1. split; [done|]. split; [done|]. subst s1. cbn [set_interesting set_tag tag]. rewrite Htag in Htl. rewrite length_app in *. exact Htl.
  - rewrite F5, F1, Hop. destruct (opens _ _); [|done]. split; [done|]. subst s1. cbn [set_interesting set_tag tag]. apply cstr_app. by apply name_chars_nul.
  - rewrite F3, F4. subst s1. cbn [set_interesting set_tag value val_len length]. split; [by exists (value s)|]. split; [done | exact Hv].
  - split; [by intros ?%not_elem_of_nil|]. cbn. lia.
Qed.

(** ** Sequences of tokens *)
Lemma flush_grows d : (length (o_out (d_outline d)) <= length (o_out (flush d)))%nat.
Proof. unfold flush. destruct (d_open d); [|done]. destruct (_ || _); [done|]. apply grows_out. Qed.
Lemma token_grows d tok : (length (o_out (d_outline d)) <= length (o_out (d_outline (token_step d tok))))%nat.
Proof.
  destruct tok as [t|v]; cbn [token_step d_outline]; [|done]. pose proof (flush_grows d). pose proof (effect_grows t (flush d)). lia.
Qed.
Lemma tokens_grow toks : forall d, (length (o_out (d_outline d)) <= length (o_out (d_outline (fold_left token_step toks d))))%nat.
Proof.
  induction toks as [|tok toks IH]; intros d; cbn [fold_left]; [done|]. pose proof (token_grows d tok). specialize (IH (token_step d tok)). lia.
Qed.

Lemma token_spec s d tok : shows s d -> token_ok tok -> fits size (d_outline (token_step d tok)) -> shows (feed (render tok) s) (token_step d tok).
Proof.
  destruct tok as [t|v]; [|intros Hs Hok _; by apply text_spec]. intros Hs Hok Hfit. cbn [render token_step d_outline] in *.
  pose proof (effect_grows t (flush d)) as Hg. cbn [fold_left]. rewrite fold_left_app. cbn [fold_left].
  change (strip_char None size s 60) with (tag_starts size s). change (strip_char None size ?s 62) with (tag_ends None size s).
  apply tag_ends_spec; [|done|done]. destruct Hok as (Hne & Hlen & Hok).
  apply (name_spec t _ _ []); [|done|done]. apply tag_starts_spec; [done|]. unfold fits in *. lia.
Qed.
Lemma tokens_spec toks : forall s d, shows s d -> Forall token_ok toks -> fits size (d_outline (fold_left token_step toks d)) ->
  shows (feed (flat_map render toks) s) (fold_left token_step toks d).
Proof.
  induction toks as [|tok toks IH]; intros s d Hs Hok Hfit; [done|]. apply Forall_cons_iff in Hok as [Ht Hok]. cbn [flat_map fold_left] in *.
  rewrite fold_left_app. pose proof (tokens_grow toks (token_step d tok)). apply IH; [|done|done]. apply token_spec; [done|done|]. unfold fits in *. lia.
Qed.

Context `{MemoryOk}.
Lemma xml_tokens toks c buff : Forall token_ok toks -> Z.of_nat (length buff) = size ->
  let out := o_out (d_outline (read_tokens toks)) in Z.of_nat (length out) < size ->
  exists buff', xml2stripped None size (flat_map render toks ++ [c]) buff = (Z.of_nat (length out), buff') /\
    take (length out) buff' = out /\ (out <> [] -> rd buff' (Z.of_nat (length out)) = 0).
Proof.
  intros Hok Hbuff out Hfit. unfold xml2stripped. rewrite removelast_last. set (s0 := State _ _ _ _ _ _ _ _ _ _ _).
  pose proof (garbage_length 1024 ltac:(lia)) as Hg. assert (length (garbage 1024) = 1024%nat) as Hg' by lia.
  assert (shows s0 (Doc (Outline [] 0 0 []) None [])) as H0.
  { split; [by split | done | done | split; [by exists (garbage 1024) | done] | split; [by intros ?%not_elem_of_nil | cbn; lia]]. }
  pose proof (tokens_spec toks s0 _ H0 Hok Hfit) as [[_ _ _ Hofs _ Hout Hend] _ _ _ _].
  eexists. split; [by rewrite Hofs|]. by split.
Qed.
End Tokens.

(** ** What a tag does inside of a form *)
Definition blank (v : list Z) : Prop := Forall (fun c => c = 32 \/ c = 10 \/ c = 13) v.
Lemma blank_value v : blank v -> fold_left text_char v [] = [].
Proof. induction 1 as [|c v [->|[->| ->]] Hv IH]; exact IH || reflexivity. Qed.

Lemma starts_slash w t : match w with c :: _ => tolower c <> 47 | [] => False end -> starts w (47 :: t) = false.
Proof. destruct w as [|c w]; [done|]. intros Hc. unfold starts, strncaseeq, strcaseeq. cbn [length firstn map]. apply bool_decide_false. intros [= E _]. by apply Hc. Qed.
#[local] Ltac slash := rewrite (starts_slash (codes "form")), (starts_slash (codes "dd:subform")), (starts_slash (codes "data")) by done.
Lemma closes_open w t : rd t 0 <> 47 -> closes w t = false.
Proof. destruct t as [|c t]; [done|]. rewrite rd_cons_0. intros Hc. unfold closes. by destruct (Z.eqb_spec c 47). Qed.
Lemma closes_slash w t : closes w (47 :: t) = starts w t.
Proof. done. Qed.
Lemma no_end t o : rd t 0 <> 47 -> ends_instance t o = false.
Proof. unfold ends_instance. destruct t as [|c t]; [by rewrite andb_false_r|]. rewrite rd_cons_0. intros Hc. destruct (Z.eqb_spec c 47); [done|]. by rewrite andb_false_r. Qed.

Section Effects.
Variable o : outline.
Hypothesis inside : 1 <= o_inst o.

Lemma effect_open t : rd t 0 <> 47 -> starts (codes "dd:subform") t = false -> (o_sub o = 0 \/ starts (codes "data") t = false) ->
  tag_effect t o = when (starts (codes "form") t) (add_inst 1) o.
Proof.
  intros H47 Hdd Hdata. unfold tag_effect, tag_effects. cbn [fold_left]. rewrite Hdd, !closes_open by done. cbn [when andb].
  set (o1 := when (starts (codes "form") t) (add_inst 1) o). assert (o_sub o1 = o_sub o /\ 1 <= o_inst o1) as [Es Hi] by (subst o1; destruct (starts (codes "form") t); cbn [when add_inst o_sub o_inst]; lia).
  assert (starts (codes "data") t && negb (o_sub o1 =? 0) = false) as -> by (rewrite Es; destruct Hdata as [-> | ->]; [by rewrite andb_false_r | done]).
  cbn [when]. destruct (Z.eqb_spec (o_inst o1) 0); [lia|]. cbn [when]. by rewrite no_end.
Qed.
Lemma effect_close t : starts (codes "dd:subform") t = false -> (o_sub o = 0 \/ starts (codes "data") t = false) ->
  (starts (codes "form") t = true -> 2 <= o_inst o) -> strcaseeq t (o_exit o) = false ->
  tag_effect (47 :: t) o = when (starts (codes "form") t) (add_inst (-1)) o.
Proof.
  intros Hdd Hdata Hform He. unfold tag_effect, tag_effects. cbn [fold_left]. rewrite !closes_slash, Hdd.
  slash. cbn [when andb].
  set (o1 := when (starts (codes "form") t) (add_inst (-1)) o).
  assert (o_sub o1 = o_sub o /\ 1 <= o_inst o1 /\ o_exit o1 = o_exit o) as (Es & Hi & Ee) by (subst o1; destruct (starts (codes "form") t); cbn [when add_inst o_sub o_inst o_exit]; intuition lia).
  assert (starts (codes "data") t && negb (o_sub o1 =? 0) = false) as -> by (rewrite Es; destruct Hdata as [-> | ->]; [by rewrite andb_false_r | done]).
  cbn [when]. destruct (Z.eqb_spec (o_inst o1) 0); [lia|]. cbn [when]. unfold ends_instance. by rewrite Ee, He, andb_false_r.
Qed.
Lemma effect_subform a : tag_effect (codes "dd:subform" ++ a) o = add_out [123; 10] (add_sub 1 o).
Proof.
  unfold tag_effect, tag_effects. cbn [fold_left]. rewrite !closes_open by done.
  change (starts (codes "form") (codes "dd:subform" ++ a)) with false. change (starts (codes "data") (codes "dd:subform" ++ a)) with false.
  change (starts (codes "dd:subform") (codes "dd:subform" ++ a)) with true. cbn [when andb add_out add_sub o_inst].
  destruct (Z.eqb_spec (o_inst o) 0); [lia|]. cbn [when]. by rewrite no_end.
Qed.
Lemma effect_subform_end : strcaseeq (codes "dd:subform") (o_exit o) = false -> tag_effect (codes "/dd:subform") o = add_out [125; 10] (add_sub (-1) o).
Proof.
  intros He. unfold tag_effect, tag_effects. cbn [fold_left].
  change (codes "/dd:subform") with (47 :: codes "dd:subform"). rewrite !closes_slash. slash.
  change (starts (codes "form") (codes "dd:subform")) with false. change (starts (codes "data") (codes "dd:subform")) with false.
  change (starts (codes "dd:subform") (codes "dd:subform")) with true. cbn [when andb add_out add_sub o_inst].
  destruct (Z.eqb_spec (o_inst o) 0); [lia|]. cbn [when]. unfold ends_instance. cbn [add_out add_sub o_exit]. by rewrite He, andb_false_r.
Qed.
Hypothesis in_sub : 0 < o_sub o.
Lemma effect_data a : tag_effect (codes "data" ++ a) o = add_out [123; 10] o.
Proof.
  unfold tag_effect, tag_effects. cbn [fold_left]. rewrite !closes_open by done.
  change (starts (codes "form") (codes "data" ++ a)) with false. change (starts (codes "data") (codes "data" ++ a)) with true.
  assert (starts (codes "dd:subform") (codes "data" ++ a) = false) as ->.
  { unfold starts, strncaseeq, strcaseeq. apply bool_decide_false. intros [= E]. }
  cbn [when andb]. destruct (Z.eqb_spec (o_sub o) 0); [lia|]. cbn [when negb add_out o_inst]. destruct (Z.eqb_spec (o_inst o) 0); [lia|]. cbn [when]. by rewrite no_end.
Qed.
Lemma effect_data_end : strcaseeq (codes "data") (o_exit o) = false -> tag_effect (codes "/data") o = add_out [125; 10] o.
Proof.
  intros He. unfold tag_effect, tag_effects. cbn [fold_left].
  change (codes "/data") with (47 :: codes "data"). rewrite !closes_slash. slash.
  change (starts (codes "form") (codes "data")) with false. change (starts (codes "data") (codes "data")) with true.
  change (starts (codes "dd:subform") (codes "data")) with false. cbn [when andb].
  destruct (Z.eqb_spec (o_sub o) 0); [lia|]. cbn [when negb add_out o_inst]. destruct (Z.eqb_spec (o_inst o) 0); [lia|]. cbn [when].
  unfold ends_instance. cbn [add_out o_exit]. by rewrite He, andb_false_r.
Qed.
End Effects.

(** ** XML that shows a record *)

(** [e]: the name of the element of an ODK form, which ends it *)
Record name_ok (e : list Z) (inside : bool) (k : list Z) : Prop := {
  nm_chars : k <> [] /\ Z.of_nat (length k) < 1000 /\ Forall name_char k;
  nm_slash : rd k 0 <> 47;
  nm_words : starts (codes "dd:subform") k = false /\ (inside = true -> starts (codes "data") k = false);
  nm_exit : strcaseeq k e = false
}.
Record value_ok (v : list Z) : Prop := {
  vl_chars : Forall (fun c => c <> 0 /\ c <> 10 /\ c <> 13 /\ c <> 60 /\ c <> 62) v;
  vl_some : v <> [] /\ rd v 0 <> 32 /\ v <> [126];
  vl_length : Z.of_nat (length v) <= 1000
}.
(** a tag that is there for the layout, such as meta, or for an empty value *)
Definition layout_ok (e : list Z) (inside : bool) (t : list Z) : Prop :=
  starts (codes "form") t = false /\ name_ok e inside t \/
  exists k, t = 47 :: k /\ starts (codes "form") k = false /\ name_ok e inside k.

(** [inside]: of a sub-form *)
Inductive displays (e : list Z) : bool -> list token -> list record_field -> Prop :=
  | show_end inside : displays e inside [] []
  | show_layout inside t v toks r : layout_ok e inside t -> blank v \/ v = [126] -> displays e inside toks r ->
      displays e inside (Tag t :: Text v :: toks) r
  | show_field inside k pad v text toks r : name_ok e inside k -> rd k (Z.of_nat (length k) - 1) <> 47 -> blank pad -> value_ok v -> token_ok (Text text) ->
      displays e inside toks r -> displays e inside (Tag k :: Text (pad ++ v) :: Tag (47 :: k) :: Text text :: toks) (KeyValue k v :: r)
  | show_subform inside a v inner sub text toks r : token_ok (Tag (codes "dd:subform" ++ a)) -> blank v -> displays e true inner sub -> token_ok (Text text) ->
      displays e inside toks r ->
      displays e inside (Tag (codes "dd:subform" ++ a) :: Text v :: inner ++ Tag (codes "/dd:subform") :: Text text :: toks) (SubRecord sub :: r)
  | show_data a v inner sub text toks r : token_ok (Tag (codes "data" ++ a)) -> blank v -> displays e true inner sub -> token_ok (Text text) ->
      displays e true toks r ->
      displays e true (Tag (codes "data" ++ a) :: Text v :: inner ++ Tag (codes "/data") :: Text text :: toks) (SubRecord sub :: r).

(** nothing waits to go out *)
Definition settled (d : doc) (o : outline) : Prop := flush d = o /\ d_outline d = o.
Lemma settled_tag d o t : settled d o -> let o' := tag_effect t o in
  token_step d (Tag t) = Doc o' (if opens t o then Some t else None) [].
Proof. intros [Hf Hd]. cbn [token_step]. by rewrite Hf. Qed.
Lemma settled_text d o t v : d_outline d = o -> (d_open d = Some t \/ d_open d = None) -> d_value d = [] -> blank v \/ v = [126] \/ d_open d = None ->
  settled (token_step d (Text v)) o.
Proof.
  intros Hd Ho Hval Hv. destruct d as [o' op val]. cbn [d_outline d_open d_value] in *. subst. split; [|done]. unfold flush. cbn [token_step d_open d_outline d_value].
  destruct Ho as [-> | ->]; [|done]. destruct Hv as [Hv|[-> |]]; [by rewrite (blank_value v Hv) | done | done].
Qed.
Lemma step_pair d o t v o' : settled d o -> tag_effect t o = o' -> blank v \/ v = [126] \/ opens t o = false ->
  settled (fold_left token_step [Tag t; Text v] d) o'.
Proof.
  intros Hs <- Hv. cbn [fold_left]. rewrite (settled_tag d o t Hs). apply (settled_text _ _ t); [done | | done |]; cbn [d_open].
  - destruct (opens t o); auto.
  - destruct Hv as [Hv|[Hv|Hv]]; auto. rewrite Hv. auto.
Qed.
Lemma opens_close t o : opens (47 :: t) o = false.
Proof. done. Qed.

Lemma blank_pad pad v : blank pad -> fold_left text_char (pad ++ v) [] = fold_left text_char v [].
Proof. intros Hp. by rewrite fold_left_app, blank_value. Qed.
Lemma plain_value v : forall acc, Forall (fun c => c <> 0 /\ c <> 10 /\ c <> 13 /\ c <> 60 /\ c <> 62) v -> acc <> [] -> Z.of_nat (length (acc ++ v)) <= 1000 ->
  fold_left text_char v acc = acc ++ v.
Proof.
  induction v as [|c v IH]; intros acc Hv Hne Hlen; cbn [fold_left]; [by rewrite app_nil_r|]. apply Forall_cons_iff in Hv as [(_ & H10 & H13 & _ & H62) Hv].
  replace (acc ++ c :: v) with ((acc ++ [c]) ++ v) in * by (by rewrite <- app_assoc).
  unfold text_char at 2. destruct (Z.eqb_spec c 10), (Z.eqb_spec c 13), (Z.eqb_spec c 62); try done. cbn [orb]. rewrite bool_decide_false by done. cbn [andb].
  rewrite !length_app in Hlen. cbn [length] in Hlen. destruct (Z.ltb_spec (Z.of_nat (length acc)) 1000); [|lia]. apply IH; [done | by destruct acc|].
  rewrite !length_app. cbn [length]. lia.
Qed.
Lemma read_value v : value_ok v -> fold_left text_char v [] = v.
Proof.
  intros [Hc (Hne & Hsp & _) Hlen]. destruct v as [|c v]; [done|]. apply Forall_cons_iff in Hc as [(_ & H10 & H13 & _ & H62) Hc]. rewrite rd_cons_0 in Hsp.
  cbn [fold_left]. unfold text_char at 2. destruct (Z.eqb_spec c 10), (Z.eqb_spec c 13), (Z.eqb_spec c 62), (Z.eqb_spec c 32); try done. cbn [orb]. rewrite andb_false_r.
  change (Z.of_nat (length []) <? 1000) with true. cbn [app]. by apply (plain_value v [c]).
Qed.

Section Display.
Variable e : list Z.
Hypothesis exit_ok : strcaseeq (codes "dd:subform") e = false /\ strcaseeq (codes "data") e = false.

Definition level (inside : bool) (n : Z) : Prop := if inside then 0 < n else n = 0.
Lemma level_data inside n (b : bool) : level inside n -> (inside = true -> b = false) -> n = 0 \/ b = false.
Proof. destruct inside; cbn [level]; auto. Qed.

Lemma layout_effect inside t out n i : layout_ok e inside t -> level inside n -> 1 <= i ->
  tag_effect t (Outline out n i e) = Outline out n i e.
Proof.
  intros [[Hf [Hc H47 [Hdd Hdata] He]]|(k & -> & Hf & [Hc H47 [Hdd Hdata] He])] Hl Hi.
  - rewrite effect_open; [by rewrite Hf | done | done | done | by eapply level_data].
  - rewrite effect_close; [by rewrite Hf | done | done | by eapply level_data | by rewrite Hf | done].
Qed.

Lemma field_effect inside k pad v text d out n i : settled d (Outline out n i e) -> name_ok e inside k -> rd k (Z.of_nat (length k) - 1) <> 47 -> blank pad -> value_ok v ->
  level inside n -> 1 <= i ->
  settled (fold_left token_step [Tag k; Text (pad ++ v); Tag (47 :: k); Text text] d) (Outline (out ++ print_field (KeyValue k v)) n i e).
Proof.
  intros Hs [Hc H47 [Hdd Hdata] He] Hlast Hpad Hv Hl Hi.
  change (fold_left token_step [Tag k; Text (pad ++ v); Tag (47 :: k); Text text] d)
    with (token_step (token_step (token_step (token_step d (Tag k)) (Text (pad ++ v))) (Tag (47 :: k))) (Text text)).
  rewrite (settled_tag d _ k Hs). rewrite effect_open by (done || by eapply level_data).
  assert (opens k (Outline out n i e) = true) as ->.
  { unfold opens. cbn [o_inst]. destruct (Z.eqb_spec (rd k 0) 47), (Z.eqb_spec i 0), (Z.eqb_spec (rd k (Z.of_nat (length k) - 1)) 47); try done; lia. }
  set (o1 := when _ _ _). assert (o1 = Outline out n (if starts (codes "form") k then i + 1 else i) e) as -> by (subst o1; by destruct (starts (codes "form") k)).
  set (i' := if starts (codes "form") k then i + 1 else i).
  change (token_step (Doc ?o (Some k) []) (Text (pad ++ v))) with (Doc o (Some k) (fold_left text_char (pad ++ v) [])). rewrite blank_pad, read_value by done.
  destruct Hv as [Hvc (Hne & Hsp & Htilde) Hvl]. set (o2 := Outline (out ++ print_field (KeyValue k v)) n i' e).
  assert (flush (Doc (Outline out n i' e) (Some k) v) = o2) as Hflush.
  { unfold flush. cbn [d_open d_value d_outline]. rewrite !bool_decide_false by done. by rewrite Hdd. }
  change (token_step (Doc ?o (Some k) v) (Tag (47 :: k))) with
    (Doc (tag_effect (47 :: k) (flush (Doc o (Some k) v))) None []). rewrite Hflush.
  rewrite effect_close; cbn [o2 o_inst o_sub o_exit]; [| subst i'; destruct (starts (codes "form") k); lia | done | by eapply level_data | subst i'; intros ->; lia | done].
  assert (when (starts (codes "form") k) (add_inst (-1)) o2 = Outline (out ++ print_field (KeyValue k v)) n i e) as ->; [|done].
  subst o2 i'. destruct (starts (codes "form") k); [|done]. unfold add_inst; cbn [when o_out o_sub o_inst o_exit]. f_equal. lia.
Qed.

Lemma displays_spec inside toks r : displays e inside toks r -> forall d out n i, settled d (Outline out n i e) -> level inside n -> 1 <= i ->
  settled (fold_left token_step toks d) (Outline (out ++ print_record r) n i e).
Proof.
  induction 1 as [inside|inside t v toks r Ht Hv H IH|inside k pad v text toks r Hk Hlast Hpad Hv Htext H IH|inside a v inner sub text toks r Ha Hv Hsub IHsub Htext H IH
    |a v inner sub text toks r Ha Hv Hsub IHsub Htext H IH]; intros d out n i Hs Hl Hi.
  - by rewrite app_nil_r.
  - change (fold_left token_step (Tag t :: Text v :: toks) d) with (fold_left token_step toks (fold_left token_step [Tag t; Text v] d)).
    apply IH; [|done|done]. apply (step_pair _ _ _ _ _ Hs); [by apply (layout_effect inside) | tauto].
  - cbn [print_record flat_map]. rewrite app_assoc.
    change (Tag k :: Text (pad ++ v) :: Tag (47 :: k) :: Text text :: toks) with ([Tag k; Text (pad ++ v); Tag (47 :: k); Text text] ++ toks). rewrite fold_left_app.
    apply IH; [|done|done]. by apply (field_effect inside).
  - cbn [print_record flat_map print_field]. rewrite !app_assoc, <- (app_assoc (out ++ _)).
    change (Tag ?t :: Text v :: inner ++ Tag ?u :: Text text :: toks) with ([Tag t; Text v] ++ inner ++ [Tag u; Text text] ++ toks).
    rewrite !fold_left_app. apply IH; [|done|done].
    apply (step_pair _ (Outline ((out ++ [123; 10]) ++ print_record sub) (n + 1) i e)).
    + apply IHsub; [|cbn [level]; destruct inside; cbn [level] in Hl; lia | done]. apply (step_pair _ _ _ _ _ Hs); [by rewrite effect_subform | by left].
    + rewrite effect_subform_end by (done || apply exit_ok). unfold add_out, add_sub, print_record. cbn [o_out o_sub o_inst o_exit]. f_equal; [by rewrite <- !app_assoc | lia].
    + by right; right.
  - cbn [print_record flat_map print_field]. rewrite !app_assoc, <- (app_assoc (out ++ _)).
    change (Tag ?t :: Text v :: inner ++ Tag ?u :: Text text :: toks) with ([Tag t; Text v] ++ inner ++ [Tag u; Text text] ++ toks).
    rewrite !fold_left_app. apply IH; [|done|done].
    apply (step_pair _ (Outline ((out ++ [123; 10]) ++ print_record sub) n i e)).
    + apply IHsub; [|done | done]. apply (step_pair _ _ _ _ _ Hs); [by rewrite effect_data | by left].
    + rewrite effect_data_end by (done || apply exit_ok). unfold add_out, print_record. cbn [o_out o_sub o_inst o_exit]. f_equal. by rewrite <- !app_assoc.
    + by right; right.
Qed.
End Display.

(** ** How a form begins and ends *)

(** a tag before the form, such as <?xml version...?>: the first word of the last
    one is kept, as it could be the name of an ODK form *)
Definition exit_after (t e : list Z) : list Z := match sscanf odk_format t with VStr name :: _ => name | _ => e end.
Record prolog_ok (t : list Z) : Prop := {
  pr_token : token_ok (Tag t);
  pr_slash : rd t 0 <> 47;
  pr_words : starts (codes "form") t = false /\ starts (codes "dd:subform") t = false;
  pr_odk : (length (sscanf odk_format t) < 3)%nat
}.
Definition odk_tag (name id version : list Z) : list Z :=
  name ++ codes " id=" ++ 34 :: id ++ 34 :: codes " version=" ++ 34 :: version ++ [34].
Record odk_ok (name id version : list Z) : Prop := {
  od_name : name <> [] /\ Forall (fun c => isspace c = false) name;
  od_token : token_ok (Tag (odk_tag name id version));
  od_words : rd name 0 <> 47 /\ starts (codes "form") (odk_tag name id version) = false /\ starts (codes "dd:subform") (odk_tag name id version) = false /\
    starts (codes "form") name = false /\ starts (codes "dd:subform") name = false;
  od_id : id <> [] /\ (34 ∉ id);
  od_version : version <> [] /\ (34 ∉ version)
}.

(** [e0], [e]: the name that is kept before and after; [r]: the fields that the
    beginning stands for; [close]: the tag at the end *)
Inductive opening : list Z -> list token -> list Z -> list record_field -> list Z -> Prop :=
  | open_prolog e0 t v toks e r close : prolog_ok t -> token_ok (Text v) -> opening (exit_after t e0) toks e r close ->
      opening e0 (Tag t :: Text v :: toks) e r close
  | open_magpi e0 v : token_ok (Text v) -> opening e0 [Tag (codes "form"); Text v] e0 [] (codes "/form")
  | open_odk e0 name id version v : odk_ok name id version -> token_ok (Text v) ->
      opening e0 [Tag (odk_tag name id version); Text v] name [KeyValue (codes "formid") (id ++ 46 :: version)] (47 :: name).

Lemma span_word_app w rest : Forall (fun c => isspace c = false) w -> (rest = [] \/ exists r, rest = 32 :: r) -> span_word (w ++ rest) = (w, rest).
Proof.
  induction 1 as [|c w Hc Hw IH]; intros Hr; cbn [span_word app]; [by destruct Hr as [->|[r ->]]|]. rewrite Hc. by rewrite IH.
Qed.
Lemma skip_word c s : isspace c = false -> skip_spaces (c :: s) = c :: s.
Proof. intros Hc. cbn [skip_spaces]. by rewrite Hc. Qed.
Lemma scan_literal w : forall fmt s, sscanf (map Lit w ++ fmt) (w ++ s) = sscanf fmt s.
Proof. induction w as [|c w IH]; intros fmt s; [done|]. cbn [map app sscanf]. rewrite Z.eqb_refl. apply IH. Qed.

Lemma scan_until c v rest fmt : v <> [] -> c ∉ v -> sscanf (Until c :: fmt) (v ++ c :: rest) = VStr v :: sscanf fmt (c :: rest).
Proof. intros Hne Hc. cbn [sscanf]. rewrite span_not_spec by eauto. by destruct v. Qed.
Lemma scan_lit c rest fmt : sscanf (Lit c :: fmt) (c :: rest) = sscanf fmt rest.
Proof. cbn [sscanf]. by rewrite Z.eqb_refl. Qed.
Lemma scan_odk name id version : odk_ok name id version -> sscanf odk_format (odk_tag name id version) = [VStr name; VStr id; VStr version].
Proof.
  intros [[Hne Hsp] _ _ [Hi Hiq] [Hv Hvq]]. unfold odk_format, odk_tag. cbn [app sscanf].
  assert (skip_spaces (name ++ codes " id=" ++ 34 :: id ++ 34 :: codes " version=" ++ 34 :: version ++ [34]) = name ++ codes " id=" ++ 34 :: id ++ 34 :: codes " version=" ++ 34 :: version ++ [34]) as ->.
  { destruct name as [|c name]; [done|]. apply Forall_cons_iff in Hsp as [Hc _]. cbn [app]. by apply skip_word. }
  rewrite span_word_app; [|done | right; by eexists]. destruct name as [|c name]; [done|]. f_equal.
  change (skip_spaces (codes " id=" ++ ?s)) with (codes "id=" ++ s). rewrite scan_literal. cbn [app]. rewrite scan_lit, scan_until, scan_lit by done. f_equal.
  change (skip_spaces (codes " version=" ++ ?s)) with (codes "version=" ++ s).
  change (sscanf (Blank :: ?fmt) (codes " version=" ++ ?s)) with (sscanf fmt (codes "version=" ++ s)).
  change (Lit 118 :: Lit 101 :: Lit 114 :: Lit 115 :: Lit 105 :: Lit 111 :: Lit 110 :: Lit 61 :: ?fmt) with (map Lit (codes "version=") ++ fmt).
  rewrite scan_literal, scan_lit, scan_until, scan_lit by done. done.
Qed.

Lemma outside_effect t o : rd t 0 <> 47 -> starts (codes "form") t = false -> starts (codes "dd:subform") t = false -> o_sub o = 0 -> o_inst o = 0 ->
  tag_effect t o = when (ends_instance t (odk_effect t o)) (add_inst (-1)) (odk_effect t o).
Proof.
  intros H47 Hf Hdd Hs Hi. unfold tag_effect, tag_effects. cbn [fold_left]. rewrite Hf, Hdd, !closes_open by done. cbn [when andb].
  rewrite Hs. rewrite andb_false_r. cbn [when]. by rewrite Hi.
Qed.

(** the beginning: the fields that it stands for are out *)
Lemma opening_spec e0 toks e r close : opening e0 toks e r close -> forall d, settled d (Outline [] 0 0 e0) ->
  settled (fold_left token_step toks d) (Outline (print_record r) 0 1 e).
Proof.
  induction 1 as [e0 t v toks e r close Ht Hv H IH|e0 v Hv|e0 name id version v Hodk Hv]; intros d Hs.
  - change (fold_left token_step (Tag t :: Text v :: toks) d) with (fold_left token_step toks (fold_left token_step [Tag t; Text v] d)). apply IH.
    destruct Ht as [_ H47 [Hf Hdd] Hodk]. apply (step_pair _ _ _ _ _ Hs); [|right; right; unfold opens; cbn [o_inst]; by rewrite andb_false_r].
    rewrite outside_effect by done. rewrite no_end by done. cbn [when]. unfold odk_effect, exit_after.
    destruct (sscanf odk_format t) as [|[?|name] [|[?|?] [|[?|?] [|]]]]; done || (cbn [length] in Hodk; lia).
  - apply (step_pair _ _ _ _ _ Hs); [|by right; right]. unfold tag_effect, tag_effects. cbn [fold_left]. by rewrite no_end.
  - destruct (od_words _ _ _ Hodk) as (H47 & Hf & Hdd & _). destruct (od_name _ _ _ Hodk) as [Hne _].
    assert (rd (odk_tag name id version) 0 <> 47) as H47' by (destruct name; [done | exact H47]).
    apply (step_pair _ _ _ _ _ Hs); [|right; right; unfold opens; cbn [o_inst]; by rewrite andb_false_r].
    rewrite outside_effect by done. rewrite no_end by done. cbn [when]. unfold odk_effect. rewrite scan_odk by done. unfold add_inst, add_out, print_record.
    cbn [put_exit o_out o_sub o_inst o_exit app flat_map print_field]. f_equal. by rewrite app_nil_r, <- app_assoc.
Qed.
Lemma opening_close e0 toks e r close : opening e0 toks e r close -> forall out, o_out (tag_effect close (Outline out 0 1 e)) = out.
Proof.
  induction 1 as [| |e0 name id version v Hodk Hv]; intros out; [auto | |].
  - unfold tag_effect, tag_effects. cbn [fold_left]. change (starts (codes "form") (codes "/form")) with false. change (closes (codes "form") (codes "/form")) with true.
    change (starts ?w (codes "/form")) with false. change (closes ?w (codes "/form")) with false. cbn [when andb].
    change (odk_effect (codes "/form") ?o) with (put_exit (codes "/form") o). unfold when. by repeat case_match.
  - destruct (od_words _ _ _ Hodk) as (_ & _ & _ & Hf & Hdd). unfold tag_effect, tag_effects. cbn [fold_left]. rewrite !closes_slash, Hf, Hdd. slash.
    cbn [when andb o_sub o_inst]. change (0 =? 0) with true. cbn [negb]. rewrite andb_false_r. cbn [when]. unfold when. by case_match.
Qed.

(** ** The tokens are ones that can be read *)
Definition name_charb (c : Z) : bool := negb ((c =? 0) || (c =? 10) || (c =? 13) || (c =? 60) || (c =? 62)).
Lemma name_charb_spec w : forallb name_charb w = true -> Forall name_char w.
Proof. induction w as [|c w IH]; intros H; constructor; cbn [forallb] in H; unfold name_charb in H; b2p; [by repeat split | auto]. Qed.
Lemma tag_ok t : t <> [] -> Z.of_nat (length t) <= 1000 -> forallb name_charb t = true -> token_ok (Tag t).
Proof. intros Hne Hl Hc. split; [done|]. split; [done | by apply name_charb_spec]. Qed.
Lemma close_ok t : Z.of_nat (length t) < 1000 -> Forall name_char t -> token_ok (Tag (47 :: t)).
Proof. intros Hl Hc. split; [done|]. split; [cbn [length]; lia | by constructor]. Qed.
Lemma blank_ok v : blank v -> token_ok (Text v).
Proof. apply Forall_impl. cbv beta. intros c Hc. lia. Qed.
Lemma text_app_ok v w : token_ok (Text v) -> token_ok (Text w) -> token_ok (Text (v ++ w)).
Proof. intros Hv Hw. by apply Forall_app. Qed.

Lemma opening_tokens e0 toks e r close : opening e0 toks e r close -> Forall token_ok toks /\ token_ok (Tag close).
Proof.
  induction 1 as [e0 t v toks e r close Ht Hv H [IH Hc]|e0 v Hv|e0 name id version v Hodk Hv].
  - split; [|done]. by repeat (apply List.Forall_cons; [apply Ht || done|]).
  - split; [|by apply tag_ok]. repeat (apply List.Forall_cons; [by apply tag_ok || done|]). apply List.Forall_nil.
  - destruct (od_token _ _ _ Hodk) as (Hne & Hl & Hc). unfold odk_tag in Hl, Hc. rewrite !length_app in Hl. change (length (codes " id=")) with 4%nat in Hl. apply Forall_app in Hc as [Hc _].
    split; [|apply close_ok; [lia | done]]. repeat (apply List.Forall_cons; [apply Hodk || done|]). apply List.Forall_nil.
Qed.
Lemma layout_tokens e inside t : layout_ok e inside t -> token_ok (Tag t).
Proof. intros [[_ [(Hne & Hl & Hc) _ _ _]]|(k & -> & _ & [(Hne & Hl & Hc) _ _ _])]; [by split; [|split; [lia|]] | by apply close_ok]. Qed.
Lemma displays_tokens e inside toks r : displays e inside toks r -> Forall token_ok toks.
Proof.
  induction 1 as [inside|inside t v toks r Ht Hv H IH|inside k pad v text toks r Hk Hlast Hpad Hv Htext H IH|inside a v inner sub text toks r Ha Hv Hsub IHsub Htext H IH
    |a v inner sub text toks r Ha Hv Hsub IHsub Htext H IH].
  - apply List.Forall_nil.
  - repeat (apply List.Forall_cons); [by eapply layout_tokens | | done]. destruct Hv as [Hv | ->]; [by apply blank_ok | by repeat constructor].
  - destruct Hk as [(Hne & Hl & Hc) _ _ _]. repeat (apply List.Forall_cons); [split; [done|]; split; [lia | done] | | by apply close_ok | done | done].
    apply text_app_ok; [by apply blank_ok|]. destruct Hv as [Hv _ _]. revert Hv. apply Forall_impl. cbv beta. intros c. lia.
  - apply List.Forall_cons; [done|]. apply List.Forall_cons; [by apply blank_ok|]. apply Forall_app. split; [done|]. repeat (apply List.Forall_cons); [by apply tag_ok | done | done].
  - apply List.Forall_cons; [done|]. apply List.Forall_cons; [by apply blank_ok|]. apply Forall_app. split; [done|]. repeat (apply List.Forall_cons); [by apply tag_ok | done | done].
Qed.

(** ** Property *)
Section Property.
Context `{MemoryOk}.

Lemma form_stripped pre e r0 close toks r buff : opening [] pre e r0 close -> displays e false toks r ->
  strcaseeq (codes "dd:subform") e = false -> strcaseeq (codes "data") e = false ->
  let text := print_record (r0 ++ r) in Z.of_nat (length text) < Z.of_nat (length buff) < 2 ^ 31 ->
  exists buff', xml2stripped None (Z.of_nat (length buff)) (flat_map render (pre ++ toks ++ [Tag close]) ++ [10]) buff = (Z.of_nat (length text), buff') /\
    take (length text) buff' = text /\ (text <> [] -> rd buff' (Z.of_nat (length text)) = 0).
Proof.
  intros Hopen Hshow Hdd Hdata text Hfit. destruct (opening_tokens _ _ _ _ _ Hopen) as [Hpre Hclose]. pose proof (displays_tokens _ _ _ _ Hshow) as Htoks.
  assert (o_out (d_outline (read_tokens (pre ++ toks ++ [Tag close]))) = text) as Hout.
  { unfold read_tokens. rewrite !fold_left_app.
    pose proof (opening_spec _ _ _ _ _ Hopen (Doc (Outline [] 0 0 []) None []) ltac:(by split)) as H1.
    pose proof (displays_spec e (conj Hdd Hdata) false toks r Hshow _ _ _ _ H1 eq_refl ltac:(done)) as [Hf _]. cbn [fold_left token_step d_outline].
    rewrite Hf, (opening_close _ _ _ _ _ Hopen). subst text. unfold print_record. by rewrite flat_map_app. }
  destruct (xml_tokens (Z.of_nat (length buff)) ltac:(lia) (pre ++ toks ++ [Tag close]) 10 buff) as (buff' & Hrun & Htake & Hend).
  - rewrite !Forall_app. split; [done|]. split; [done|]. by apply List.Forall_cons.
  - done.
  - rewrite Hout. lia.
  - rewrite Hout in *. by exists buff'.
Qed.

(** C20: xml2stripped makes the text of a record from any XML that shows it, in
    Magpi's form or in that of ODK: with the fields of the beginning, sub-forms in
    sub-forms and their instances, whatever tags, empty values and white space
    there are for the layout; and parse_stripped_with_subforms makes the record of
    that text. *)
Theorem xml2stripped_form pre e r0 close toks r buff : opening [] pre e r0 close -> displays e false toks r ->
  strcaseeq (codes "dd:subform") e = false -> strcaseeq (codes "data") e = false ->
  let text := print_record (r0 ++ r) in Z.of_nat (length text) < Z.of_nat (length buff) < 2 ^ 31 ->
  exists buff', xml2stripped None (Z.of_nat (length buff)) (flat_map render (pre ++ toks ++ [Tag close]) ++ [10]) buff = (Z.of_nat (length text), buff') /\
    take (length text) buff' = text /\ (text <> [] -> rd buff' (Z.of_nat (length text)) = 0) /\
    (record_ok (r0 ++ r) -> parse_stripped_with_subforms (take (length text) buff') = Some (r0 ++ r)).
Proof.
  intros Hopen Hshow Hdd Hdata text Hfit. destruct (form_stripped pre e r0 close toks r buff Hopen Hshow Hdd Hdata Hfit) as (buff' & Hrun & Htake & Hend).
  exists buff'. split; [done|]. split; [done|]. split; [done|]. intros Hr. subst text. rewrite Htake. by apply parse_print.
Qed.
End Property.

(** ** Evaluated *)
Definition name_okb (e : list Z) (inside : bool) (k : list Z) : bool :=
  negb (bool_decide (k = [])) && (Z.of_nat (length k) <? 1000) && forallb name_charb k && negb (rd k 0 =? 47) &&
  negb (starts (codes "dd:subform") k) && (negb inside || negb (starts (codes "data") k)) && negb (strcaseeq k e).
Lemma name_okb_spec e inside k : name_okb e inside k = true -> name_ok e inside k.
Proof.
  unfold name_okb. intros H. b2p. match goal with H : bool_decide _ = _ |- _ => apply bool_decide_eq_false in H end.
  split; [|done | | done]; [by split; [|split; [|apply name_charb_spec]]|]. split; [done|]. intros ->.
  match goal with H : _ \/ _ |- _ => destruct H as [H|H] end; b2p; done.
Qed.
Definition value_okb (v : list Z) : bool :=
  forallb name_charb v && negb (bool_decide (v = [])) && negb (rd v 0 =? 32) && negb (bool_decide (v = [126])) && (Z.of_nat (length v) <=? 1000).
Lemma value_okb_spec v : value_okb v = true -> value_ok v.
Proof.
  unfold value_okb. intros H. b2p. repeat match goal with H : bool_decide _ = _ |- _ => apply bool_decide_eq_false in H end.
  split; [by apply name_charb_spec | done | done].
Qed.
Definition xml_field (k v : list Z) : list token := [Tag k; Text ([10; 32] ++ v); Tag (47 :: k); Text [10]].
Lemma show_xml_field e inside k v toks r : name_okb e inside k && negb (rd k (Z.of_nat (length k) - 1) =? 47) && value_okb v = true -> displays e inside toks r ->
  displays e inside (xml_field k v ++ toks) (KeyValue k v :: r).
Proof.
  intros H Ht. b2p. apply (show_field e inside k [10; 32] v [10] toks r); [by apply name_okb_spec | done | | by apply value_okb_spec | by repeat constructor | done].
  repeat constructor; lia.
Qed.

Definition sample_prolog : list token := [Tag (codes "?xml version=1?"); Text [10]; Tag (codes "form"); Text [10]].
Definition sample_form : list token :=
  Tag (codes "meta") :: Text [10; 32] ::
  xml_field (codes "formid") (codes "visit 1") ++
  Tag (codes "/meta") :: Text [10] :: Tag (codes "data") :: Text [] ::
  Tag (codes "q1") :: Text [126] :: Tag (codes "/q1") :: Text [10] ::
  Tag (codes "dd:subform" ++ codes " xmlns:dd=x") :: Text [10] ::
  (xml_field (codes "question") (codes "q2") ++
   Tag (codes "data" ++ []) :: Text [10] :: (xml_field (codes "age") (codes "7") ++ []) ++ Tag (codes "/data") :: Text [10] :: []) ++
  Tag (codes "/dd:subform") :: Text [10] ::
  Tag (codes "/data") :: Text [10] :: [].
Definition sample_shown : list record_field :=
  [KeyValue (codes "formid") (codes "visit 1"); SubRecord [KeyValue (codes "question") (codes "q2"); SubRecord [KeyValue (codes "age") (codes "7")]]].

Lemma sample_opening : opening [] sample_prolog (codes "?xml") [] (codes "/form").
Proof.
  apply (open_prolog [] (codes "?xml version=1?") [10]).
  - split; [by apply tag_ok | done | by split | vm_compute; lia].
  - by repeat constructor.
  - change (exit_after _ _) with (codes "?xml"). apply open_magpi. by repeat constructor.
Qed.
Lemma sample_displays : displays (codes "?xml") false sample_form sample_shown.
Proof.
  assert (forall inside t v toks r, name_okb (codes "?xml") inside t && negb (starts (codes "form") t) = true -> blank v \/ v = [126] ->
    displays (codes "?xml") inside toks r -> displays (codes "?xml") inside (Tag t :: Text v :: toks) r) as Hopen.
  { intros inside t v toks r H Hv Ht. b2p. apply show_layout; [|done|done]. left. split; [done | by apply name_okb_spec]. }
  assert (forall inside t v toks r, name_okb (codes "?xml") inside t && negb (starts (codes "form") t) = true -> blank v ->
    displays (codes "?xml") inside toks r -> displays (codes "?xml") inside (Tag (47 :: t) :: Text v :: toks) r) as Hclose.
  { intros inside t v toks r H Hv Ht. b2p. apply show_layout; [|by left|done]. right. exists t. split; [done|]. split; [done | by apply name_okb_spec]. }
  assert (blank [10] /\ blank [10; 32] /\ blank []) as (Hb & Hb' & Hb0) by (repeat split; repeat constructor; auto).
  unfold sample_form. apply Hopen; [done | by left|]. apply show_xml_field; [done|].
  apply (Hclose _ (codes "meta")); [done | done|]. apply Hopen; [done | by left|]. apply Hopen; [done | by right|]. apply (Hclose _ (codes "q1")); [done | done|].
  apply show_subform; [by apply tag_ok | done | | by repeat constructor |].
  - apply show_xml_field; [done|]. apply show_data; [by apply tag_ok | done | | by repeat constructor | apply show_end]. apply show_xml_field; [done | apply show_end].
  - apply (Hclose _ (codes "data")); [done | done | apply show_end].
Qed.

#[local] Existing Instances sample_memory sample_memory_ok.
Lemma xml2stripped_form_witness :
  exists buff', xml2stripped None 200 (flat_map render (sample_prolog ++ sample_form ++ [Tag (codes "/form")]) ++ [10]) (repeat 0 200) =
    (Z.of_nat (length (print_record sample_shown)), buff') /\ take (length (print_record sample_shown)) buff' = print_record sample_shown /\
    (print_record sample_shown <> [] -> rd buff' (Z.of_nat (length (print_record sample_shown))) = 0) /\
    (record_ok sample_shown -> parse_stripped_with_subforms (take (length (print_record sample_shown)) buff') = Some sample_shown).
Proof.
  apply (xml2stripped_form sample_prolog (codes "?xml") [] (codes "/form") sample_form sample_shown (repeat 0 200)).
  - exact sample_opening.
  - exact sample_displays.
  - reflexivity.
  - reflexivity.
  - split; vm_compute; reflexivity.
Defined.
