(* ===== verification/DexmlFill.v ===== *)
(** dexml.c: stripped2xml ends, fills a template in, and is undone by xml2stripped. *)
From Stdlib Require Import String.
From S2P Require Import Prelude Charset CString BlockHash Recipe RecipeText Dexml DexmlStrip.
Import Dexml.Fill.
Local Open Scope Z_scope.
Local Open Scope succinct_scope.

(** ** The loop over the template ends *)
Definition named (fs : list field) : nat := length (filter (fun x => is_Some (name x)) fs).
Lemma named_bound fs : (named fs <= length fs)%nat.
Proof. apply length_filter. Qed.
Lemma take_field_named f fs y fs' : take_field f fs = Some (y, fs') -> named fs = S (named fs').
Proof.
  revert y fs'. induction fs as [|x fs IH]; intros y fs'; cbn [take_field]; [done|]. unfold named in *.
  destruct (name x) as [n|] eqn:En; [destruct (strcaseeq f n)|].
  - intros [= <- <-]. rewrite !filter_cons, decide_True by (by rewrite En; eauto). cbn [name]. rewrite decide_False by (intros [? [=]]). done.
  - destruct (take_field f fs) as [[y' fs1]|]; [|done]. intros [= <- <-]. rewrite !filter_cons, !decide_True by (by rewrite En; eauto).
    cbn [length]. by rewrite (IH y' fs1).
  - destruct (take_field f fs) as [[y' fs1]|]; [|done]. intros [= <- <-]. rewrite !filter_cons, !decide_False by (rewrite En; intros [? [=]]). by rewrite (IH y' fs1).
Qed.

(** the fields that can still be written, and the record that is still to be repeated *)
Definition potential (w : writing) : Z := Z.of_nat (named (w_fields w)) + Z.b2z (remaining_records w).

Section Termination.
Variables (size : Z) (count : list Z) (template : list Z) (n : Z).
Let len := Z.of_nat (length template).

(** each time that the loop goes back it may get one character further to the left *)
Record bounded (i : Z) (w : writing) : Prop := {
  bd_potential : potential w <= n;
  bd_tag : Z.of_nat (length (tag w)) + Z.b2z (state_tag w) + (potential w - n) <= i;
  bd_in_tag : tag w <> [] -> state_tag w = true;
  bd_beginning : potential w - n - 2 <= beginning_index_of_subform_record w
}.
Definition measure (i : Z) (w : writing) : Z := potential w * (len + n + 1) + Z.max 0 (len - i).

Lemma potential_nonneg w : 0 <= potential w.
Proof. unfold potential. destruct (remaining_records w); cbn [Z.b2z]; lia. Qed.
Lemma starts_length word t : starts word t = true -> (length word <= length t)%nat.
Proof.
  unfold starts, strncaseeq, strcaseeq. intros H%bool_decide_eq_true. apply (f_equal length) in H. rewrite !length_map, !length_firstn in H. lia.
Qed.

Lemma length_cstr s : (length (cstr s) <= length s)%nat.
Proof. destruct (cstr_prefix s) as [t E]. rewrite E at 2. rewrite length_app. lia. Qed.

Lemma measure_step i w i' w' : potential w' <= potential w -> i < i' -> i < len -> 0 <= n -> measure i' w' < measure i w.
Proof. intros Hp Hi Hl Hn. unfold measure. assert (0 <= len) by (subst len; lia). nia. Qed.

Lemma tag_closed_bounded i w : 0 <= n -> i < len -> bounded i w -> let '(w', i') := tag_closed i w in bounded (i' + 1) w' /\ measure (i' + 1) w' < measure i w.
Proof.
  intros Hn Hi. assert (0 <= len) by (subst len; lia). destruct w as [fs x sf st f t inst beginning remaining written]. unfold tag_closed.
  intros [Hp Ht Hst Hb]. unfold measure, potential in *. cbn [w_fields remaining_records tag state_tag beginning_index_of_subform_record] in *.
  pose proof (b2z_range st). pose proof (b2z_range remaining).
  assert (forall inst' beginning' written', Z.of_nat (named fs) + Z.b2z remaining - n - 2 <= beginning' ->
    bounded (i + 1) (Writing fs x sf false f [] inst' beginning' remaining written') /\
    (Z.of_nat (named fs) + Z.b2z remaining) * (len + n + 1) + Z.max 0 (len - (i + 1)) < (Z.of_nat (named fs) + Z.b2z remaining) * (len + n + 1) + Z.max 0 (len - i)) as Hstay.
  { intros inst' beginning' written' Hb'. split; [|lia]. split; unfold potential; cbn [w_fields remaining_records tag state_tag beginning_index_of_subform_record length Z.b2z]; try done; lia. }
  destruct (starts (codes "dd:subform") (cstr t)); [by apply Hstay|]. destruct (closes (codes "dd:subform") (cstr t)); [apply Hstay; lia|].
  destruct (starts (codes "data") (cstr t) && inst) eqn:Ed.
  - b2p. pose proof (starts_length (codes "data") (cstr t) ltac:(done)) as Hlen. change (length (codes "data")) with 4%nat in Hlen. pose proof (length_cstr t).
    assert (st = true) as -> by (apply Hst; destruct t; [cbn [cstr length] in Hlen; lia | done]). cbn [Z.b2z] in *.
    split; [|cbn [w_fields remaining_records]; destruct remaining; cbn [Z.b2z] in *; nia].
    split; unfold potential; cbn [w_fields remaining_records tag state_tag beginning_index_of_subform_record length Z.b2z]; try done; destruct remaining; cbn [Z.b2z] in *; lia.
  - destruct (closes (codes "data") (cstr t) && inst); [|by apply Hstay]. destruct remaining; [|by apply Hstay]. cbn [Z.b2z] in *.
    split; [|cbn [w_fields remaining_records Z.b2z]; nia].
    split; unfold potential; cbn [w_fields remaining_records tag state_tag beginning_index_of_subform_record length Z.b2z]; try done; lia.
Qed.

Lemma template_char_bounded c i w w' : 0 <= n -> i < len -> bounded i w -> template_char size count c w = Ok w' -> bounded (i + 1) w' /\ measure (i + 1) w' < measure i w.
Proof.
  intros Hn Hi Hw Hc. enough (bounded (i + 1) w' /\ potential w' <= potential w) as [Hb Hp] by (split; [done | by apply measure_step; [|lia..]]).
  destruct w as [fs x sf st f t inst beginning remaining written]. destruct Hw as [Hp Ht Hst Hb]. unfold potential in *.
  cbn [w_fields remaining_records tag state_tag beginning_index_of_subform_record] in *. unfold template_char in Hc. destruct (c =? 36); [destruct sf|destruct sf].
  - unfold variable_ends in Hc. destruct (take_field (cstr f) fs) as [[y fs']|] eqn:Ey.
    + destruct (put_value size (value y) x) as [x'| |]; [|done..]. injection Hc as <-. apply take_field_named in Ey. rewrite Ey in *.
      set (r := remaining || _). assert (Z.b2z r <= Z.b2z remaining + 1) by (destruct r, remaining; cbn [Z.b2z]; lia).
      split; [|unfold potential; cbn [w_fields remaining_records]; lia].
      split; unfold potential; cbn [w_fields remaining_records tag state_tag beginning_index_of_subform_record]; try done; lia.
    + injection Hc as <-. split; [|done]. split; unfold potential; cbn [w_fields remaining_records tag state_tag beginning_index_of_subform_record]; try done; lia.
  - injection Hc as <-. split; [|done]. split; unfold potential; cbn [w_fields remaining_records tag state_tag beginning_index_of_subform_record]; try done; lia.
  - injection Hc as <-. split; [|done]. split; unfold potential; cbn [w_fields remaining_records tag state_tag beginning_index_of_subform_record]; try done; lia.
  - destruct (put_char size c x) as [x'| |]; [|done..]. injection Hc as <-. split; [|done].
    split; unfold potential; cbn [w_fields remaining_records tag state_tag beginning_index_of_subform_record]; try done; [|destruct st; [done | exact Hst]].
    destruct st; cbn [andb Z.b2z] in *; [|lia]. destruct (_ <? _); [rewrite length_app; cbn [length]; lia | lia].
Qed.

Lemma template_step_bounded c i w w' i' : 0 <= n -> i < len -> bounded i w -> template_step size count c i w = Ok (w', i') ->
  bounded (i' + 1) w' /\ measure (i' + 1) w' < measure i w.
Proof.
  intros Hn Hi Hw. unfold template_step. destruct ((c =? 60) || (c =? 62)).
  - destruct (put size c (xml w)) as [x| |]; [|done..]. destruct (c =? 60).
    + intros [= <- <-]. destruct Hw as [Hp Ht Hst Hb]. destruct w as [fs x' sf st f t inst beginning remaining written]. unfold in_tag, with_xml, measure, potential in *.
      cbn [w_fields remaining_records tag state_tag beginning_index_of_subform_record xml state_field w_field w_instance number_of_records_written] in *.
      split; [|lia]. split; unfold potential; cbn [w_fields remaining_records tag state_tag beginning_index_of_subform_record Z.b2z]; try done; destruct st; cbn [Z.b2z] in *; lia.
    + intros E. pose proof (tag_closed_bounded i (with_xml x w) Hn Hi) as H. destruct (tag_closed i (with_xml x w)) as [w1 i1]. injection E as -> ->. apply H. by destruct Hw, w.
  - destruct (template_char size count c w) as [w1| |] eqn:E; [|done..]. intros [= <- <-]. by eapply template_char_bounded.
Qed.
Lemma loop_ends fuel : forall i w, 0 <= n -> bounded i w -> measure i w < Z.of_nat fuel -> template_loop size count fuel template i w <> Running.
Proof.
  induction fuel as [|fuel IH]; intros i w Hn Hw Hm.
  - exfalso. unfold measure in Hm. pose proof (potential_nonneg w). assert (0 <= len) by (subst len; lia). nia.
  - cbn [template_loop]. fold len. destruct (Z.ltb_spec i len) as [Hlt|]; cbn [negb]; [|done]. destruct (i <? 0); [done|].
    destruct (template_step _ _ _ i w) as [[w' i']| |] eqn:E; [|done..].
    destruct (template_step_bounded _ i w w' i' Hn Hlt Hw E) as [Hb Hm']. apply IH; [done | done | lia].
Qed.
End Termination.

(** ** What is written fits *)
Section Fits.
Variables (size : Z) (count : list Z) (template : list Z).
Definition fits (x : list Z) : Prop := Z.of_nat (length x) <= Z.max 0 size.
Lemma put_fits c x x' : put size c x = Ok x' -> fits x'.
Proof. unfold put, fits. destruct (Z.ltb_spec (Z.of_nat (length x)) size); [|done]. intros [= <-]. rewrite length_app. cbn [length]. lia. Qed.
Lemma put_char_fits c x x' : put_char size c x = Ok x' -> fits x'.
Proof.
  unfold put_char. destruct (put size c x) as [x1| |] eqn:E; [|done..]. destruct (_ =? _); [done|]. intros [= <-]. by eapply put_fits.
Qed.
Lemma put_value_fits v : forall x x', fits x -> put_value size v x = Ok x' -> fits x'.
Proof.
  induction v as [|c v IH]; intros x x' Hx; cbn [put_value]; [by intros [= <-]|].
  destruct (put_char size c x) as [x1| |] eqn:E; [|done..]. apply IH. by eapply put_char_fits.
Qed.
Lemma template_step_fits c i w w' i' : fits (xml w) -> template_step size count c i w = Ok (w', i') -> fits (xml w').
Proof.
  intros Hw. unfold template_step. destruct ((c =? 60) || (c =? 62)).
  - destruct (put size c (xml w)) as [x| |] eqn:E; [|done..]. apply put_fits in E. destruct (c =? 60); [by intros [= <- <-]|]. intros Hclosed.
    destruct w as [fs x' sf st f t inst beginning remaining written]. unfold tag_closed, with_xml in Hclosed.
    cbn [w_fields remaining_records tag state_tag beginning_index_of_subform_record xml state_field w_field w_instance number_of_records_written] in *.
    repeat (match type of Hclosed with context[if ?b then _ else _] => destruct b end); by injection Hclosed as <- <-.
  - destruct w as [fs x sf st f t inst beginning remaining written]. unfold template_char, variable_ends.
    destruct (c =? 36); [destruct sf; [|by intros [= <- <-]]|destruct sf; [by intros [= <- <-]|]].
    + destruct (take_field (cstr f) fs) as [[y fs']|]; [|by intros [= <- <-]]. destruct (put_value size (value y) x) as [x'| |] eqn:E; [|done..].
      intros [= <- <-]. by eapply put_value_fits.
    + destruct (put_char size c x) as [x'| |] eqn:E; [|done..]. intros [= <- <-]. by eapply put_char_fits.
Qed.
Lemma loop_fits fuel : forall i w x, fits (xml w) -> template_loop size count fuel template i w = Written x -> fits x.
Proof.
  induction fuel as [|fuel IH]; intros i w x Hw; cbn [template_loop]; [done|]. destruct (negb _); [by intros [= <-]|]. destruct (i <? 0); [done|].
  destruct (template_step _ _ _ i w) as [[w' i']| |] eqn:E; [|done..]. apply IH. by eapply template_step_fits.
Qed.
End Fits.

(** ** The text does not overrun the arrays *)

(** the line ends and the brackets that close of a text: as many fields and sub-forms
    as it can have at most *)
Definition field_ends (text : list Z) : nat := length (filter (fun c => c < 32) text).
Definition braces (text : list Z) : nat := length (filter (fun c => c = 125) text).
Lemma read_fields_fit text : forall s, 0 <= record_number s ->
  Z.of_nat (length (fields s)) + Z.of_nat (field_ends text) <= 1024 -> record_number s + Z.of_nat (braces text) < 1024 -> read_fields text s <> Beyond.
Proof.
  unfold field_ends, braces. induction text as [|c text IH]; intros [iv rec inst count n fs f v] Hn Hf Hb; cbn [record_number fields] in *; [done|]. rewrite !filter_cons in *. cbn [read_fields read_char].
  destruct ((c =? 61) && negb iv) eqn:E61; [|destruct (Z.eqb_spec c 123)]; [b2p; subst c | subst c | destruct (Z.eqb_spec c 125); [subst c|]].
  - apply IH; cbn [record_number fields]; [lia | exact Hf | exact Hb].
  - rewrite decide_False in Hf by lia. rewrite decide_False in Hb by lia. destruct (negb inst); [|destruct (Z.ltb_spec n 1024); [|lia]]; apply IH; cbn [record_number fields]; lia.
  - rewrite decide_True in Hb by done. cbn [length] in Hb. rewrite decide_False in Hf by lia.
    destruct rec; apply IH; cbn [record_number fields]; lia.
  - rewrite (decide_False (P := c = 125)) in Hb by done. destruct (Z.ltb_spec c 32).
    + rewrite decide_True in Hf by done. cbn [length] in Hf.
      destruct iv; [|by apply IH; cbn [record_number fields]; lia]. destruct (Z.ltb_spec (Z.of_nat (length fs)) 1024), (Z.ltb_spec n 1024); try lia. cbn [andb].
      apply IH; cbn [record_number fields]; rewrite ?length_app; cbn [length]; lia.
    + rewrite decide_False in Hf by lia. destruct (_ || _); [done|]. destruct iv; apply IH; cbn [record_number fields]; lia.
Qed.

(** and without a bracket in the template, [xml] is not left *)
Section NoTags.
Variables (size : Z) (count : list Z) (template : list Z).
Hypothesis no_tags : (60 ∉ template) /\ (62 ∉ template).
Let room (x : list Z) : Prop := Z.of_nat (length x) < size.
Lemma put_char_room c x : room x -> match put_char size c x with Ok x => room x | Refused => True | Beyond => False end.
Proof.
  unfold put_char, put, room. intros Hx. destruct (Z.ltb_spec (Z.of_nat (length x)) size); [|lia]. rewrite length_app. cbn [length].
  destruct (Z.eqb_spec (Z.of_nat (length x + 1)) size); [done|]. rewrite length_app. cbn [length]. lia.
Qed.
Lemma put_value_room v : forall x, room x -> match put_value size v x with Ok x => room x | Refused => True | Beyond => False end.
Proof.
  induction v as [|c v IH]; intros x Hx; cbn [put_value]; [done|]. pose proof (put_char_room c x Hx).
  destruct (put_char size c x) as [x'| |]; [by apply IH | done..].
Qed.
Lemma template_char_room c w : room (xml w) -> match template_char size count c w with Ok w => room (xml w) | Refused => True | Beyond => False end.
Proof.
  destruct w as [fs x sf st f t inst beginning remaining written]. cbn [xml]. intros Hx. unfold template_char, variable_ends.
  destruct (c =? 36); [destruct sf; [|done]|destruct sf; [done|]].
  - destruct (take_field (cstr f) fs) as [[y fs']|]; [|done]. pose proof (put_value_room (value y) x Hx). by destruct (put_value size (value y) x).
  - pose proof (put_char_room c x Hx). by destruct (put_char size c x).
Qed.
Lemma loop_no_tags fuel : forall i w, 0 <= i -> room (xml w) -> template_loop size count fuel template i w <> Overrun.
Proof.
  induction fuel as [|fuel IH]; intros i w Hi Hw; cbn [template_loop]; [done|]. destruct (Z.ltb_spec i (Z.of_nat (length template))); cbn [negb]; [|done].
  destruct (Z.ltb_spec i 0); [lia|]. unfold template_step.
  assert (rd template i ∈ template) as Hin by (rewrite rd_nth by lia; apply list_elem_of_In, nth_In; lia). destruct no_tags as [H60 H62].
  destruct (Z.eqb_spec (rd template i) 60) as [E|_]; [by rewrite E in Hin|]. destruct (Z.eqb_spec (rd template i) 62) as [E|_]; [by rewrite E in Hin|]. cbn [orb].
  pose proof (template_char_room (rd template i) w Hw). destruct (template_char size count (rd template i) w) as [w'| |]; [|done..]. apply IH; [lia | done].
Qed.
End NoTags.

(** the loop over the template does not run out of turns *)
Lemma fill_ends s template xml_size :
  template_loop xml_size (record_count s) (S (length (fields s)) * (S (length template) + length (fields s))) template 0
    (Writing (fields s) [] false false [] [] false 0 false 0) <> Running.
Proof.
  pose proof (named_bound (fields s)). apply (loop_ends _ _ template (Z.of_nat (length (fields s)))); [lia | |].
  - split; unfold potential; cbn [w_fields remaining_records tag state_tag beginning_index_of_subform_record length Z.b2z]; try done; lia.
  - unfold measure, potential. cbn [w_fields remaining_records Z.b2z]. nia.
Qed.

(** C21: stripped2xml ends, whatever the text and the template are: each time that it
    goes back in the template to repeat a record, it has written a field that it had
    not written before.  It may end by leaving one of its arrays ([Overrun]), but only
    when the text has more than 1024 ends of lines or 1024 closing brackets, or when
    there is no room at all or the template has a '<' or a '>', which are written
    without a test.  What it returns fits in [xml]. *)
Theorem stripped2xml_ends stripped template xml_size :
  match stripped2xml stripped template xml_size with
  | Running => False
  | Failed => True
  | Overrun => 1024 < Z.of_nat (field_ends stripped) \/ 1024 <= Z.of_nat (braces stripped) \/ xml_size <= 0 \/ 60 ∈ template \/ 62 ∈ template
  | Written x => Z.of_nat (length x) <= Z.max 0 xml_size
  end.
Proof.
  unfold stripped2xml. pose proof (read_fields_fit stripped (Reading false false false (repeat 0 1024) 0 [] [] [])) as Hread. cbn [record_number fields length] in Hread.
  destruct (read_fields _ _) as [s| |]; [|done|].
  - pose proof (fill_ends s template xml_size) as Hends. destruct (template_loop _ _ _ _ _ _) as [| | |x] eqn:E; [done | done | | ].
    + destruct (Z.le_gt_cases xml_size 0); [by auto|]. destruct (decide (60 ∈ template)); [by auto|]. destruct (decide (62 ∈ template)); [by auto 6|].
      exfalso. by eapply (loop_no_tags xml_size (record_count s) template); [ | | |exact E].
    + eapply loop_fits; [|exact E]. unfold fits. cbn [xml length]. lia.
  - destruct (Z.lt_ge_cases 1024 (Z.of_nat (field_ends stripped))); [by auto|]. destruct (Z.le_gt_cases 1024 (Z.of_nat (braces stripped))); [by auto|].
    exfalso. apply Hread; [done | lia | lia | done].
Qed.

(** ** Templates *)
Inductive piece := Plain (v : list Z) | Element (t : list Z) | Variable_ (k : list Z).
Definition write_piece (p : piece) : list Z :=
  match p with Plain v => v | Element t => 60 :: t ++ [62] | Variable_ k => 36 :: k ++ [36] end.
Definition plain_char (c : Z) : Prop := c <> 0 /\ c <> 36 /\ c <> 60 /\ c <> 62.
(** no tag of a sub-form *)
Definition piece_ok (p : piece) : Prop :=
  match p with
  | Plain v => Forall plain_char v
  | Element t => Forall plain_char t /\ Z.of_nat (length t) <= 1023 /\ starts (codes "dd:subform") t = false /\ closes (codes "dd:subform") t = false
  | Variable_ k => Forall plain_char k /\ Z.of_nat (length k) <= 1023
  end.
(** a variable is replaced by the first field of its name that was not written *)
Fixpoint fill (ps : list piece) (fs : list field) : list Z :=
  match ps with
  | [] => []
  | Variable_ k :: ps => match take_field k fs with Some (y, fs) => value y ++ fill ps fs | None => fill ps fs end
  | p :: ps => write_piece p ++ fill ps fs
  end.

Section Filling.
Variables (size : Z) (count : list Z) (template : list Z).
Definition runs (k : nat) (i : Z) (w : writing) (i' : Z) (w' : writing) : Prop :=
  forall fuel, template_loop size count (k + fuel) template i w = template_loop size count fuel template i' w'.
Lemma runs_trans a b i w i' w' i'' w'' : runs a i w i' w' -> runs b i' w' i'' w'' -> runs (a + b) i w i'' w''.
Proof. intros H1 H2 fuel. by rewrite <- Nat.add_assoc, H1, H2. Qed.
Lemma runs_nil i w : runs 0 i w i w.
Proof. by intros fuel. Qed.

Lemma loop_char pre c rest w : template = pre ++ c :: rest -> c <> 60 -> c <> 62 ->
  forall w', template_char size count c w = Ok w' -> runs 1 (Z.of_nat (length pre)) w (Z.of_nat (length (pre ++ [c]))) w'.
Proof.
  intros Ht H60 H62 w' Hc fuel. cbn [Nat.add template_loop].
  destruct (Z.ltb_spec (Z.of_nat (length pre)) (Z.of_nat (length template))); [|rewrite Ht, length_app in *; cbn [length] in *; lia]. cbn [negb].
  assert (rd template (Z.of_nat (length pre)) = c) as -> by (rewrite Ht, <- (Z.add_0_r (Z.of_nat _)), rd_app_r by lia; apply rd_cons_0).
  destruct (Z.ltb_spec (Z.of_nat (length pre)) 0); [lia|]. unfold template_step.
  destruct (Z.eqb_spec c 60), (Z.eqb_spec c 62); try done. cbn [orb]. rewrite Hc. f_equal. rewrite length_app. cbn [length]. lia.
Qed.
Lemma put_room c x : Z.of_nat (length x) < size -> put size c x = Ok (x ++ [c]).
Proof. unfold put. by destruct (Z.ltb_spec (Z.of_nat (length x)) size); [|lia]. Qed.
Lemma put_char_more c x : Z.of_nat (length (x ++ [c])) < size -> put_char size c x = Ok (x ++ [c]).
Proof.
  intros H. unfold put_char. rewrite put_room by (rewrite length_app in H; lia). by destruct (Z.eqb_spec (Z.of_nat (length (x ++ [c]))) size); [lia|].
Qed.
Lemma loop_bracket pre c rest w : template = pre ++ c :: rest -> (c =? 60) || (c =? 62) = true -> Z.of_nat (length (xml w)) < size -> forall fuel,
  template_loop size count (S fuel) template (Z.of_nat (length pre)) w =
  let '(w', i') := if c =? 60 then (in_tag (with_xml (xml w ++ [c]) w), Z.of_nat (length pre)) else tag_closed (Z.of_nat (length pre)) (with_xml (xml w ++ [c]) w) in
  template_loop size count fuel template (i' + 1) w'.
Proof.
  intros Ht Hc Hx fuel. cbn [template_loop].
  destruct (Z.ltb_spec (Z.of_nat (length pre)) (Z.of_nat (length template))); [|rewrite Ht, length_app in *; cbn [length] in *; lia]. cbn [negb].
  assert (rd template (Z.of_nat (length pre)) = c) as -> by (rewrite Ht, <- (Z.add_0_r (Z.of_nat _)), rd_app_r by lia; apply rd_cons_0).
  destruct (Z.ltb_spec (Z.of_nat (length pre)) 0); [lia|]. unfold template_step. rewrite Hc, put_room by done. done.
Qed.
(** what the tag grows by *)
Lemma plain_runs v : forall pre rest fs x st f t inst b rm wr, template = pre ++ v ++ rest -> Forall plain_char v -> Z.of_nat (length (x ++ v)) < size ->
  (st = true -> Z.of_nat (length (t ++ v)) <= 1023) ->
  runs (length v) (Z.of_nat (length pre)) (Writing fs x false st f t inst b rm wr)
    (Z.of_nat (length (pre ++ v))) (Writing fs (x ++ v) false st f (if st then t ++ v else t) inst b rm wr).
Proof.
  induction v as [|c v IH]; intros pre rest fs x st f t inst b rm wr Ht Hv Hx Hst.
  - rewrite !app_nil_r. destruct st; apply runs_nil.
  - apply Forall_cons_iff in Hv as [(H0 & H36 & H60 & H62) Hv]. rewrite !length_app in Hx. cbn [length] in Hx.
    apply (runs_trans 1 (length v) _ _ (Z.of_nat (length (pre ++ [c]))) (Writing fs (x ++ [c]) false st f (if st then t ++ [c] else t) inst b rm wr)).
    + apply (loop_char pre c (v ++ rest)); [done | done | done|]. cbn [template_char]. destruct (Z.eqb_spec c 36); [done|].
      rewrite put_char_more by (rewrite length_app; cbn [length]; lia). do 2 f_equal.
      destruct st; [|done]. specialize (Hst eq_refl). rewrite length_app in Hst. cbn [length] in Hst. destruct (Z.ltb_spec (Z.of_nat (length t)) 1023); [done | lia].
    + replace (pre ++ c :: v) with ((pre ++ [c]) ++ v) by (by rewrite <- app_assoc). replace (x ++ c :: v) with ((x ++ [c]) ++ v) by (by rewrite <- app_assoc).
      pose proof (IH (pre ++ [c]) rest fs (x ++ [c]) st f (if st then t ++ [c] else t) inst b rm wr) as H.
      assert ((if st then t ++ c :: v else t) = (if st then (if st then t ++ [c] else t) ++ v else (if st then t ++ [c] else t))) as ->
        by (destruct st; [by rewrite <- app_assoc | done]).
      apply H; [by rewrite Ht, <- app_assoc | done | rewrite !length_app; cbn [length]; lia|].
      intros ->. specialize (Hst eq_refl). by rewrite <- app_assoc.
Qed.
Lemma name_runs k : forall pre rest fs x st f t inst b rm wr, template = pre ++ k ++ rest -> Forall plain_char k -> Z.of_nat (length (f ++ k)) <= 1023 ->
  runs (length k) (Z.of_nat (length pre)) (Writing fs x true st f t inst b rm wr)
    (Z.of_nat (length (pre ++ k))) (Writing fs x true st (f ++ k) t inst b rm wr).
Proof.
  induction k as [|c k IH]; intros pre rest fs x st f t inst b rm wr Ht Hk Hf; [rewrite !app_nil_r; apply runs_nil|].
  apply Forall_cons_iff in Hk as [(H0 & H36 & H60 & H62) Hk]. replace (f ++ c :: k) with ((f ++ [c]) ++ k) in * by (by rewrite <- app_assoc).
  apply (runs_trans 1 (length k) _ _ (Z.of_nat (length (pre ++ [c]))) (Writing fs x true st (f ++ [c]) t inst b rm wr)).
  - apply (loop_char pre c (k ++ rest)); [done | done | done|]. cbn [template_char]. destruct (Z.eqb_spec c 36); [done|]. do 2 f_equal.
    rewrite !length_app in Hf. cbn [length] in Hf. destruct (Z.ltb_spec (Z.of_nat (length f)) 1023); [done | lia].
  - replace (pre ++ c :: k) with ((pre ++ [c]) ++ k) by (by rewrite <- app_assoc). eapply IH; [by rewrite Ht, <- app_assoc | done | done].
Qed.

Lemma put_value_spec v : forall x, Z.of_nat (length (x ++ v)) < size -> put_value size v x = Ok (x ++ v).
Proof.
  induction v as [|c v IH]; intros x Hx; cbn [put_value]; [by rewrite app_nil_r|]. replace (x ++ c :: v) with ((x ++ [c]) ++ v) in * by (by rewrite <- app_assoc).
  rewrite length_app in Hx. rewrite put_char_more by lia. apply IH. rewrite length_app. lia.
Qed.

Lemma plain_cstr v : Forall plain_char v -> cstr v = v.
Proof. intros H. apply cstr_id. intros Hin. rewrite List.Forall_forall in H. apply list_elem_of_In in Hin. by destruct (H 0 Hin). Qed.

(** a writing outside of tags, names of fields and sub-forms *)
Definition resting (fs : list field) (x : list Z) (w : writing) : Prop :=
  exists b rm wr, w = Writing fs x false false [] [] false b rm wr.

(** a tag: where the loop goes on from it *)
Lemma tag_runs t pre rest fs x inst b rm wr : template = pre ++ write_piece (Element t) ++ rest -> Forall plain_char t -> Z.of_nat (length t) <= 1023 ->
  Z.of_nat (length (x ++ write_piece (Element t))) < size ->
  let '(w', i') := tag_closed (Z.of_nat (length (pre ++ 60 :: t))) (Writing fs (x ++ write_piece (Element t)) false true [] t inst b rm wr) in
  runs (length (write_piece (Element t))) (Z.of_nat (length pre)) (Writing fs x false false [] [] inst b rm wr) (i' + 1) w'.
Proof.
  cbn [write_piece]. intros Ht Hc Hl Hx. cbn [app] in Ht. rewrite <- (app_assoc t) in Ht. cbn [app] in Ht.
  rewrite !length_app in Hx. cbn [length] in Hx. rewrite length_app in Hx. cbn [length] in Hx. assert (Z.of_nat (length ((x ++ [60]) ++ t)) < size) as Hx' by (rewrite !length_app; cbn [length]; lia).
  destruct (tag_closed _ _) as [w' i'] eqn:Eclosed. change (length (60 :: t ++ [62])) with (Nat.add 1 (length (t ++ [62]))). rewrite length_app.
  apply (runs_trans 1 (length t + 1) _ _ (Z.of_nat (length (pre ++ [60]))) (Writing fs (x ++ [60]) false true [] [] inst b rm wr)).
  { intros fuel. cbn [Nat.add]. rewrite (loop_bracket pre 60 (t ++ 62 :: rest)) by (done || (cbn [xml]; lia)).
    change (60 =? 60) with true. cbv iota. unfold in_tag, with_xml. cbn [w_fields remaining_records tag state_tag beginning_index_of_subform_record xml state_field w_field w_instance number_of_records_written].
    f_equal. rewrite length_app. cbn [length]. lia. }
  apply (runs_trans (length t) 1 _ _ (Z.of_nat (length ((pre ++ [60]) ++ t))) (Writing fs ((x ++ [60]) ++ t) false true [] t inst b rm wr)).
  { eapply (plain_runs t (pre ++ [60]) _ fs (x ++ [60]) true [] []); [by rewrite Ht, <- app_assoc | done | done | intros _; exact Hl]. }
  intros fuel. cbn [Nat.add]. rewrite (loop_bracket ((pre ++ [60]) ++ t) 62 rest) by (try done; by rewrite Ht, <- !app_assoc).
  change (62 =? 60) with false. cbv iota. unfold with_xml. cbn [w_fields remaining_records tag state_tag beginning_index_of_subform_record xml state_field w_field w_instance number_of_records_written].
  rewrite <- !app_assoc. cbn [app]. by rewrite Eclosed.
Qed.

(** one piece: the text, a tag, a variable *)
Definition outside_data (inst : bool) (t : list Z) : Prop := inst = true -> starts (codes "data") t = false /\ closes (codes "data") t = false.
Lemma element_runs t pre rest fs x inst b rm wr : template = pre ++ write_piece (Element t) ++ rest -> piece_ok (Element t) -> outside_data inst t ->
  Z.of_nat (length (x ++ write_piece (Element t))) < size ->
  runs (length (write_piece (Element t))) (Z.of_nat (length pre)) (Writing fs x false false [] [] inst b rm wr)
    (Z.of_nat (length (pre ++ write_piece (Element t)))) (Writing fs (x ++ write_piece (Element t)) false false [] [] inst b rm wr).
Proof.
  intros Ht (Hc & Hl & Hs & He) Hd Hx. pose proof (tag_runs t pre rest fs x inst b rm wr Ht Hc Hl Hx) as H. unfold tag_closed in H. rewrite plain_cstr, Hs, He in H by done.
  assert (starts (codes "data") t && inst = false /\ closes (codes "data") t && inst = false) as [E1 E2] by (destruct inst; [destruct (Hd eq_refl) as [-> ->]; done | by rewrite !andb_false_r]).
  rewrite E1, E2 in H. cbn [write_piece] in *. replace (Z.of_nat (length (pre ++ 60 :: t ++ [62]))) with (Z.of_nat (length (pre ++ 60 :: t)) + 1) by (rewrite !length_app; cbn [length]; rewrite length_app; cbn [length]; lia).
  exact H.
Qed.
(** a variable whose name has a field, or none *)
Lemma variable_reads k pre rest fs x inst b rm wr : template = pre ++ write_piece (Variable_ k) ++ rest -> piece_ok (Variable_ k) ->
  let '(fs1, x1, rm1) := match take_field k fs with
    | Some (y, fs1) => (fs1, x ++ value y, rm || (in_record y && (rd count (number y) - wr >? 1)))
    | None => (fs, x, rm)
    end in Z.of_nat (length x1) < size ->
  runs (length (write_piece (Variable_ k))) (Z.of_nat (length pre)) (Writing fs x false false [] [] inst b rm wr)
    (Z.of_nat (length (pre ++ write_piece (Variable_ k)))) (Writing fs1 x1 false false [] [] inst b rm1 wr).
Proof.
  cbn [write_piece]. intros Ht (Hc & Hl). cbn [app] in Ht. rewrite <- (app_assoc k) in Ht. cbn [app] in Ht.
  destruct (match take_field k fs with Some _ => _ | None => _ end) as [[fs1 x1] rm1] eqn:E. intros Hx.
  assert (template_char size count 36 (Writing fs x true false k [] inst b rm wr) = Ok (Writing fs1 x1 false false [] [] inst b rm1 wr)) as Hvar.
  { cbn [template_char]. change (36 =? 36) with true. cbv iota. unfold variable_ends. rewrite plain_cstr by done.
    destruct (take_field k fs) as [[y fs']|]; injection E as <- <- <-; [|done]. by rewrite put_value_spec. }
  change (length (36 :: k ++ [36])) with (Nat.add 1 (length (k ++ [36]))). rewrite length_app.
  apply (runs_trans 1 (length k + 1) _ _ (Z.of_nat (length (pre ++ [36]))) (Writing fs x true false [] [] inst b rm wr)).
  { by eapply (loop_char pre 36). }
  apply (runs_trans (length k) 1 _ _ (Z.of_nat (length ((pre ++ [36]) ++ k))) (Writing fs x true false ([] ++ k) [] inst b rm wr)).
  { eapply name_runs; [by rewrite Ht, <- !app_assoc | done | exact Hl]. }
  replace (pre ++ 36 :: k ++ [36]) with (((pre ++ [36]) ++ k) ++ [36]) by (by rewrite <- !app_assoc).
  eapply (loop_char ((pre ++ [36]) ++ k) 36); [by rewrite Ht, <- !app_assoc | done | done | exact Hvar].
Qed.
Lemma variable_runs k pre rest fs x b rm wr tail : template = pre ++ write_piece (Variable_ k) ++ rest -> piece_ok (Variable_ k) ->
  Z.of_nat (length (x ++ match take_field k fs with Some (y, fs) => value y ++ fill tail fs | None => fill tail fs end)) < size ->
  exists fs1 x1 w1, resting fs1 x1 w1 /\ x ++ match take_field k fs with Some (y, fs) => value y ++ fill tail fs | None => fill tail fs end = x1 ++ fill tail fs1 /\
    runs (length (write_piece (Variable_ k))) (Z.of_nat (length pre)) (Writing fs x false false [] [] false b rm wr) (Z.of_nat (length (pre ++ write_piece (Variable_ k)))) w1.
Proof.
  intros Ht Hk Hx. pose proof (variable_reads k pre rest fs x false b rm wr Ht Hk) as H. destruct (take_field k fs) as [[y fs1]|].
  - exists fs1, (x ++ value y). eexists. split; [by do 3 eexists|]. split; [by rewrite app_assoc|]. apply H. rewrite app_assoc, length_app in Hx. lia.
  - exists fs, x. eexists. split; [by do 3 eexists|]. split; [done|]. apply H. rewrite length_app in Hx. lia.
Qed.

Lemma fill_runs ps : forall pre rest fs x w, template = pre ++ flat_map write_piece ps ++ rest -> Forall piece_ok ps ->
  resting fs x w -> Z.of_nat (length (x ++ fill ps fs)) < size ->
  exists fs' w', resting fs' (x ++ fill ps fs) w' /\
    runs (length (flat_map write_piece ps)) (Z.of_nat (length pre)) w (Z.of_nat (length (pre ++ flat_map write_piece ps))) w'.
Proof.
  induction ps as [|p ps IH]; intros pre rest fs x w Ht Hok Hw Hx; [exists fs, w; cbn [fill flat_map]; rewrite !app_nil_r; split; [done | apply runs_nil]|].
  apply Forall_cons_iff in Hok as [Hp Hok]. destruct Hw as (b & rm & wr & ->). cbn [flat_map] in *. rewrite <- app_assoc in Ht.
  (* one piece, then the others *)
  assert (exists fs1 x1 w1, resting fs1 x1 w1 /\ x ++ fill (p :: ps) fs = x1 ++ fill ps fs1 /\
    runs (length (write_piece p)) (Z.of_nat (length pre)) (Writing fs x false false [] [] false b rm wr) (Z.of_nat (length (pre ++ write_piece p))) w1) as (fs1 & x1 & w1 & Hw1 & Ex & Hr).
  { destruct p as [v|t|k]; cbn [fill] in *.
    - change (write_piece (Plain v)) with v in *. exists fs, (x ++ v). eexists. split; [by exists b, rm, wr|]. split; [by rewrite app_assoc|]. eapply (plain_runs v); [exact Ht | done | | done]. rewrite app_assoc, length_app in Hx. lia.
    - rewrite app_assoc in Hx |- *. eexists fs, _, _. split; [by exists b, rm, wr|]. split; [reflexivity|]. eapply element_runs; [exact Ht | done | done|]. rewrite length_app in Hx. lia.
    - by eapply variable_runs. }
  rewrite Ex in *. destruct (IH (pre ++ write_piece p) rest fs1 x1 w1) as (fs' & w' & Hw' & Hr'); [by rewrite Ht, <- app_assoc | done | done | done|].
  exists fs', w'. split; [done|]. rewrite length_app, app_assoc. by eapply runs_trans.
Qed.
End Filling.

Lemma filled stripped ps s xml_size : read_fields stripped (Reading false false false (repeat 0 1024) 0 [] [] []) = Ok s ->
  Forall piece_ok ps -> Z.of_nat (length (fill ps (fields s))) < xml_size ->
  stripped2xml stripped (flat_map write_piece ps) xml_size = Written (fill ps (fields s)).
Proof.
  intros Hs Hok Hfit. unfold stripped2xml. rewrite Hs. set (template := flat_map write_piece ps).
  destruct (fill_runs xml_size (record_count s) template ps [] [] (fields s) [] (Writing (fields s) [] false false [] [] false 0 false 0)) as (fs' & w' & (b & rm & wr & Hw') & Hr);
    [by rewrite app_nil_r | done | by exists 0, false, 0 | done|].
  fold template in Hr. set (n := length (fields s)).
  replace (S n * (S (length template) + n))%nat with (length template + (S (n + n * (S (length template) + n))))%nat by lia.
  rewrite Hr, Hw'. cbn [template_loop]. change (length ([] ++ template)) with (length template). by rewrite Z.ltb_irrefl.
Qed.

(** ** Properties *)

(** A template without sub-forms is filled in: its texts and tags are copied and
    each variable is replaced by the first field of its name, in any case, that was
    not used before it; a variable without a field leaves nothing. *)
Theorem stripped2xml_fill stripped ps s xml_size : read_fields stripped (Reading false false false (repeat 0 1024) 0 [] [] []) = Ok s ->
  Forall piece_ok ps -> Z.of_nat (length (fill ps (fields s))) < xml_size ->
  stripped2xml stripped (flat_map write_piece ps) xml_size = Written (fill ps (fields s)).
Proof. apply filled. Qed.

(** ** Evaluated *)
#[local] Existing Instances sample_memory sample_memory_ok.
Definition line (s : string) : list Z := codes s ++ [10].

(** a record of a sub-form is repeated for each of its instances *)
Example fill_subform :
  stripped2xml (line "q1=5" ++ line "{" ++ line "question=q2" ++ line "{" ++ line "age=7" ++ line "}" ++ line "{" ++ line "age=9" ++ line "}" ++ line "}")
    (codes "<q1>$Q1$</q1><dd:subform x><question>$question$</question>" ++ [10] ++ codes "<data><age>$age$</age></data></dd:subform>") 400 =
  Written (codes "<q1>5</q1><dd:subform x><question>q2</question>" ++ [10] ++ codes "<data><age>7</age></data>" ++ [10] ++ codes "<data><age>9</age></data></dd:subform>").
Proof. vm_compute. reflexivity. Qed.
(** two dollars leave nothing *)
Example fill_dollars : stripped2xml (line "a=1") (codes "5$$ $a$") 40 = Written (codes "5 1").
Proof. vm_compute. reflexivity. Qed.
(** the brackets of tags are not counted: the third is written behind an array of two *)
Example fill_overrun : stripped2xml [] (codes "<<<") 2 = Overrun /\ stripped2xml [] (codes "<<") 2 = Written (codes "<<").
Proof. by split. Qed.

Definition sample_template : list piece := [Element (codes "a"); Variable_ (codes "Name"); Plain (codes " & "); Variable_ (codes "other"); Element (codes "/a")].
Lemma stripped2xml_fill_witness : stripped2xml (line "name=Joe") (flat_map write_piece sample_template) 20 = Written (codes "<a>Joe & </a>").
Proof.
  apply (stripped2xml_fill (line "name=Joe") sample_template (Reading false false false (repeat 0 1024) 0 [Field (Some (codes "name")) (codes "Joe") false 0] [] [])).
  - vm_compute. reflexivity.
  - repeat (apply List.Forall_cons; [repeat split; repeat constructor; discriminate|]). apply List.Forall_nil.
  - vm_compute. reflexivity.
Defined.

