(* ===== verification/DexmlForms.v ===== *)
(** dexml.c: stripped2xml over a form with sub-forms, whose instances it repeats, and
    the round trip with xml2stripped. *)
From Stdlib Require Import String.
From S2P Require Import Prelude Charset CString BlockHash Recipe RecipeText Dexml DexmlStrip DexmlFill.
Import Dexml.Fill.
Local Open Scope Z_scope.
Local Open Scope succinct_scope.

(** ** Records with sub-forms *)
Definition pairs := list (list Z * list Z).
(** a sub-form: what it has once, and its instances *)
Inductive item := Pair (k v : list Z) | SubForm (head : pairs) (instances : list pairs).
Definition kvs (l : pairs) : list record_field := map (fun kv => KeyValue kv.1 kv.2) l.
Definition instance_record (l : pairs) : record_field := SubRecord (kvs l).
Definition item_field (it : item) : record_field :=
  match it with Pair k v => KeyValue k v | SubForm h l => SubRecord (kvs h ++ map instance_record l) end.
Definition record_of (its : list item) : list record_field := map item_field its.

(** what can be read from a text: keys and values without the characters of the format *)
Definition text_chars (s : list Z) : Prop := Forall (fun c => 32 <= c /\ c <> 123 /\ c <> 125) s.
Record pair_plain (kv : list Z * list Z) : Prop := {
  pp_key : text_chars kv.1 /\ (61 ∉ kv.1) /\ Z.of_nat (length kv.1) <= 1000;
  pp_value : text_chars kv.2 /\ Z.of_nat (length kv.2) <= 1000
}.
Definition item_plain (it : item) : Prop :=
  match it with Pair k v => pair_plain (k, v) | SubForm h l => Forall pair_plain h /\ Forall (Forall pair_plain) l end.

(** ** The loop over the text *)
Definition pair_fields (n : Z) (b : bool) (l : pairs) : list field := map (fun kv => Field (Some kv.1) kv.2 b n) l.
Definition item_fields (n : Z) (it : item) : list field :=
  match it with Pair k v => [Field (Some k) v false n] | SubForm h l => pair_fields n false h ++ flat_map (pair_fields n true) l end.
Definition after (n : Z) (it : item) : Z := match it with Pair _ _ => n | SubForm _ _ => n + 1 end.
Fixpoint items_fields (n : Z) (its : list item) : list field :=
  match its with [] => [] | it :: its => item_fields n it ++ items_fields (after n it) its end.
(** how many instances the sub-forms have *)
Fixpoint counts (its : list item) : list Z :=
  match its with [] => [] | Pair _ _ :: its => counts its | SubForm _ l :: its => Z.of_nat (length l) :: counts its end.

Lemma read_key k : forall rest rec inst count n fs f, text_chars k -> 61 ∉ k -> Z.of_nat (length (f ++ k)) <= 1000 ->
  read_fields (k ++ rest) (Reading false rec inst count n fs f []) = read_fields rest (Reading false rec inst count n fs (f ++ k) []).
Proof.
  induction k as [|c k IH]; intros rest rec inst count n fs f Hk H61 Hlen; [by rewrite app_nil_r|]. apply Forall_cons_iff in Hk as [(H32 & H123 & H125) Hk].
  apply not_elem_of_cons in H61 as [Hc H61]. replace (f ++ c :: k) with ((f ++ [c]) ++ k) in * by (by rewrite <- app_assoc). rewrite !length_app in Hlen. cbn [length] in Hlen.
  cbn [app read_fields read_char]. destruct (Z.eqb_spec c 61), (Z.eqb_spec c 123), (Z.eqb_spec c 125), (Z.ltb_spec c 32); try lia. cbn [andb].
  destruct (Z.gtb_spec (Z.of_nat (length f)) 1000); [lia|]. cbn [orb length]. change (Z.of_nat 0 >? 1000) with false. cbv iota.
  apply IH; [done | done|]. rewrite !length_app. cbn [length]. lia.
Qed.
Lemma read_value_text v : forall rest rec inst count n fs k w, text_chars v -> Z.of_nat (length k) <= 1000 -> Z.of_nat (length (w ++ v)) <= 1000 ->
  read_fields (v ++ rest) (Reading true rec inst count n fs k w) = read_fields rest (Reading true rec inst count n fs k (w ++ v)).
Proof.
  induction v as [|c v IH]; intros rest rec inst count n fs k w Hv Hk Hlen; [by rewrite app_nil_r|]. apply Forall_cons_iff in Hv as [(H32 & H123 & H125) Hv].
  replace (w ++ c :: v) with ((w ++ [c]) ++ v) in * by (by rewrite <- app_assoc). rewrite !length_app in Hlen. cbn [length] in Hlen.
  cbn [app read_fields read_char negb]. rewrite andb_false_r. destruct (Z.eqb_spec c 123), (Z.eqb_spec c 125), (Z.ltb_spec c 32); try lia.
  destruct (Z.gtb_spec (Z.of_nat (length k)) 1000), (Z.gtb_spec (Z.of_nat (length w)) 1000); try lia. cbn [orb].
  apply IH; [done | done|]. rewrite !length_app. cbn [length]. lia.
Qed.
Lemma read_pairs l : forall rest rec inst count n fs, Forall pair_plain l -> Z.of_nat (length (fs ++ pair_fields n rec l)) <= 1024 -> (l <> [] -> n < 1024) ->
  read_fields (print_record (kvs l) ++ rest) (Reading false rec inst count n fs [] []) = read_fields rest (Reading false rec inst count n (fs ++ pair_fields n rec l) [] []).
Proof.
  induction l as [|[k v] l IH]; intros rest rec inst count n fs Hl Hfit Hn; [by rewrite app_nil_r|]. specialize (Hn ltac:(done)).
  cbn [pair_fields map fst snd] in Hfit. rewrite length_app in Hfit. cbn [length] in Hfit.
  apply Forall_cons_iff in Hl as [[(Hk & H61 & Hkl) (Hv & Hvl)] Hl]. cbn [fst snd] in *. cbn [kvs map print_record flat_map print_field fst snd pair_fields].
  rewrite <- !app_assoc. cbn [app]. rewrite <- app_assoc. rewrite (read_key k _ rec inst count n fs []) by done. cbn [app read_fields read_char]. change ((61 =? 61) && negb false) with true. cbv iota.
  rewrite (read_value_text v _ rec inst count n fs k []) by done. cbn [app read_fields read_char]. change ((10 =? 61) && negb true) with false. change (10 =? 123) with false. change (10 =? 125) with false. change (10 <? 32) with true. cbv iota.
  destruct (Z.ltb_spec (Z.of_nat (length fs)) 1024), (Z.ltb_spec n 1024); try lia. cbn [andb].
  fold (kvs l). change (flat_map print_field (kvs l)) with (print_record (kvs l)). rewrite IH by (done || rewrite <- ?app_assoc; cbn [app]; by rewrite length_app).
  by rewrite <- app_assoc.
Qed.
(** [m] more instances are counted for the sub-form [n] *)
Record counted (count count' : list Z) (n m : Z) : Prop := {
  ct_length : length count' = length count;
  ct_here : rd count' n = rd count n + m;
  ct_other : forall j, 0 <= j -> j <> n -> rd count' j = rd count j
}.
Lemma counted_none count n : counted count count n 0.
Proof. by split; [|lia|]. Qed.
Lemma counted_one count n : 0 <= n < Z.of_nat (length count) -> counted count (wr count n (rd count n + 1)) n 1.
Proof. intros Hn. split; [apply length_wr | by apply rd_wr_eq | intros j Hj Hne; apply rd_wr_ne; lia]. Qed.
Lemma counted_trans count count' count'' n a b : counted count count' n a -> counted count' count'' n b -> counted count count'' n (a + b).
Proof. intros [H1 H2 H3] [H4 H5 H6]. split; [congruence | lia|]. intros j Hj Hne. by rewrite H6, H3. Qed.

Lemma brace_open rest (inst : bool) count n fs : (inst = true -> n < 1024) -> read_fields (123 :: 10 :: rest) (Reading false false inst count n fs [] []) =
  read_fields rest (if inst then Reading false true true (wr count n (rd count n + 1)) n fs [] [] else Reading false false true count n fs [] []).
Proof.
  intros Hn. destruct inst; [|done]. cbn [read_fields read_char]. change ((123 =? 61) && negb false) with false. change (123 =? 123) with true. cbn [negb].
  specialize (Hn eq_refl). by destruct (Z.ltb_spec n 1024); [|lia].
Qed.
Lemma brace_close rest (rec : bool) count n fs : read_fields (125 :: 10 :: rest) (Reading false rec true count n fs [] []) =
  read_fields rest (if rec then Reading false false true count n fs [] [] else Reading false false false count (n + 1) fs [] []).
Proof. by destruct rec. Qed.
Lemma read_instances l : forall rest count n fs, 0 <= n < 1024 -> length count = 1024%nat -> Forall (Forall pair_plain) l ->
  Z.of_nat (length (fs ++ flat_map (pair_fields n true) l)) <= 1024 ->
  exists count', counted count count' n (Z.of_nat (length l)) /\
  read_fields (print_record (map instance_record l) ++ rest) (Reading false false true count n fs [] []) =
  read_fields rest (Reading false false true count' n (fs ++ flat_map (pair_fields n true) l) [] []).
Proof.
  induction l as [|i l IH]; intros rest count n fs Hn Hc Hl Hfit; [exists count; split; [apply counted_none | by rewrite app_nil_r]|].
  apply Forall_cons_iff in Hl as [Hi Hl]. pose proof (counted_one count n ltac:(rewrite Hc; exact Hn)) as H1. cbn [flat_map] in Hfit. rewrite app_assoc in Hfit.
  destruct (IH rest (wr count n (rd count n + 1)) n (fs ++ pair_fields n true i)) as (count' & H2 & E); [done | by rewrite (ct_length _ _ _ _ H1) | done | done|].
  exists count'. split; [replace (Z.of_nat (length (i :: l))) with (1 + Z.of_nat (length l)) by (cbn [length]; lia); by eapply counted_trans|].
  change (print_record (map instance_record (i :: l)) ++ rest) with (123 :: 10 :: ((print_record (kvs i) ++ [125; 10]) ++ print_record (map instance_record l)) ++ rest).
  pose proof Hfit as Hfit1. rewrite length_app in Hfit1. rewrite brace_open by (intros _; lia). rewrite <- !app_assoc, read_pairs by (first [done | lia | intros _; lia]). cbn [app]. rewrite brace_close, E. cbn [flat_map]. by rewrite <- app_assoc.
Qed.
(** a sub-form with a field: then there are not more sub-forms than fields *)
Definition item_some (it : item) : Prop := match it with Pair _ _ => True | SubForm h l => h ++ concat l <> [] end.
Lemma sub_fields n h l : length (item_fields n (SubForm h l)) = length (h ++ concat l).
Proof.
  cbn [item_fields]. unfold pair_fields. rewrite !length_app, length_map. f_equal. induction l as [|i l IH]; [done|].
  cbn [flat_map concat]. by rewrite !length_app, length_map, IH.
Qed.
Lemma read_items its : forall count n fs, Forall item_plain its -> Forall item_some its -> 0 <= n <= Z.of_nat (length fs) -> length count = 1024%nat ->
  Z.of_nat (length (fs ++ items_fields n its)) <= 1024 ->
  (forall j, n <= j -> rd count j = 0) -> exists count' n',
  read_fields (print_record (record_of its)) (Reading false false false count n fs [] []) = Ok (Reading false false false count' n' (fs ++ items_fields n its) [] []) /\
  (forall j, 0 <= j < n -> rd count' j = rd count j) /\ forall j, 0 <= j < Z.of_nat (length (counts its)) -> rd count' (n + j) = rd (counts its) j.
Proof.
  induction its as [|[k v|h l] its IH]; intros count n fs Hp Hs Hn Hlen Hfit Hz.
  - exists count, n. cbn. rewrite app_nil_r. split; [done|]. split; [done|]. intros j Hj. cbn in Hj. lia.
  - apply Forall_cons_iff in Hp as [Hp His]. apply Forall_cons_iff in Hs as [_ Hs]. cbn [items_fields item_fields after] in Hfit. rewrite app_assoc in Hfit.
    destruct (IH count n (fs ++ [Field (Some k) v false n]) His Hs) as (count' & n' & E & H); [rewrite length_app; lia | done | done | done|]. exists count', n'. split; [|exact H].
    rewrite length_app in Hfit.
    assert (print_record (record_of (Pair k v :: its)) = print_record (kvs [(k, v)]) ++ print_record (record_of its)) as -> by (cbn [print_record flat_map kvs map fst snd]; by rewrite app_nil_r).
    rewrite length_app in Hfit. cbn [length] in Hfit. rewrite read_pairs by first [by apply List.Forall_cons | unfold pair_fields; rewrite length_app, length_map; cbn [length]; lia | intros _; lia]. cbn [pair_fields map fst snd]. rewrite E. cbn [items_fields item_fields after]. by rewrite <- app_assoc.
  - apply Forall_cons_iff in Hp as [[Hh Hl] His]. apply Forall_cons_iff in Hs as [Hsome Hs]. pose proof (sub_fields n h l) as Hsub.
    assert (length (h ++ concat l) <> 0%nat) as Hpos by (intros ?%length_zero_iff_nil; done). cbn [items_fields after] in Hfit. rewrite app_assoc in Hfit.
    assert (length (fs ++ item_fields n (SubForm h l)) = (length fs + length (h ++ concat l))%nat) as Hlen1 by (by rewrite length_app, Hsub).
    cbn [item_fields] in Hfit, Hlen1. rewrite (app_assoc fs) in Hfit, Hlen1. rewrite length_app in Hfit.
    destruct (read_instances l (125 :: 10 :: print_record (record_of its)) count n (fs ++ pair_fields n false h)) as (count1 & [C1 C2 C3] & E1); [lia | done | done | lia|].
    destruct (IH count1 (n + 1) ((fs ++ pair_fields n false h) ++ flat_map (pair_fields n true) l) His Hs) as (count' & n' & E & H1 & H2); [lia | by rewrite C1 | rewrite length_app; lia | intros j Hj; rewrite C3, Hz by lia; done|].
    exists count', n'. split; [|split].
    + change (print_record (record_of (SubForm h l :: its))) with ((123 :: 10 :: flat_map print_field (kvs h ++ map instance_record l) ++ [125; 10]) ++ print_record (record_of its)).
      rewrite flat_map_app. cbn [app]. rewrite brace_open by done. rewrite <- !app_assoc. change (flat_map print_field ?x) with (print_record x).
      rewrite length_app in Hlen1, Hfit. rewrite read_pairs by first [done | lia | intros _; lia]. cbn [app]. rewrite E1, brace_close, E. cbn [items_fields item_fields after]. by rewrite <- !app_assoc.
    + intros j Hj. rewrite H1, C3 by lia. done.
    + intros j Hj. cbn [counts length] in *. destruct (Z.eq_dec j 0) as [->|Hj0].
      * rewrite Z.add_0_r, (H1 n), C2, (Hz n) by lia. by rewrite rd_cons_0.
      * rewrite rd_cons by lia. replace (n + j) with (n + 1 + (j - 1)) by lia. apply H2. lia.
Qed.

(** ** Templates of forms *)

(** the tokens that a template becomes when it is filled in with the pairs *)
Inductive fills (e : list Z) (inside : bool) : list piece -> list token -> pairs -> Prop :=
  | fills_end : fills e inside [] [] []
  | fills_layout t v ps toks r : layout_ok e inside t -> blank v \/ v = [126] -> piece_ok (Element t) -> fills e inside ps toks r ->
      fills e inside (Element t :: Plain v :: ps) (Tag t :: Text v :: toks) r
  | fills_field k pad v text ps toks r : name_ok e inside k -> rd k (Z.of_nat (length k) - 1) <> 47 -> 36 ∉ k -> blank pad -> value_ok v -> Forall plain_char text ->
      fills e inside ps toks r ->
      fills e inside (Element k :: Plain pad :: Variable_ k :: Element (47 :: k) :: Plain text :: ps)
        (Tag k :: Text (pad ++ v) :: Tag (47 :: k) :: Text text :: toks) ((k, v) :: r).
(** an element with its instances; the loop goes back to the newline before it *)
Definition data_tag : list Z := codes "data".
Fixpoint instance_tokens (text : list Z) (l : list (list token)) : list token :=
  match l with
  | [] => []
  | [toks] => Tag data_tag :: Text text :: toks ++ [Tag (47 :: data_tag)]
  | toks :: l => Tag data_tag :: Text text :: toks ++ Tag (47 :: data_tag) :: Text [10] :: instance_tokens text l
  end.
Definition sub_tag (a : list Z) : list Z := codes "dd:subform" ++ a.
Definition sub_pieces (a v : list Z) (head : list piece) (text : list Z) (data : list piece) (behind v' : list Z) : list piece :=
  Element (sub_tag a) :: Plain v :: head ++ Element data_tag :: Plain text :: data ++ [Element (47 :: data_tag); Plain behind; Element (47 :: sub_tag []); Plain v'].
Definition sub_tokens (a v : list Z) (head : list token) (text : list Z) (l : list (list token)) (behind v' : list Z) : list token :=
  Tag (sub_tag a) :: Text v :: head ++ instance_tokens text l ++ [Text behind; Tag (47 :: sub_tag []); Text v'].
Record sub_fills (e : list Z) (head : list piece) (head_toks : list token) (h : pairs) (data : list piece) (l : list (list token * pairs)) : Prop := {
  sf_head : fills e true head head_toks h;
  sf_newline : exists w, flat_map write_piece head = w ++ [10];
  sf_some : l <> [];
  sf_data : Forall (fun i => fills e true data i.1 i.2 /\ i.2 <> []) l
}.
Record sub_texts (a v text behind v' : list Z) : Prop := {
  st_tag : Forall plain_char a /\ Z.of_nat (length a) <= 900 /\ token_ok (Tag (sub_tag a));
  st_blank : blank v /\ blank text;
  st_text : Forall plain_char behind /\ Forall plain_char v'
}.
Inductive form_fills (e : list Z) : list piece -> list token -> list item -> Prop :=
  | filled_end : form_fills e [] [] []
  | filled_fields ps toks r ps' toks' its : fills e false ps toks r -> form_fills e ps' toks' its ->
      form_fills e (ps ++ ps') (toks ++ toks') (map (fun kv => Pair kv.1 kv.2) r ++ its)
  | filled_sub a v head htoks h text data l behind v' ps' toks' its : sub_texts a v text behind v' -> sub_fills e head htoks h data l -> form_fills e ps' toks' its ->
      form_fills e (sub_pieces a v head text data behind v' ++ ps') (sub_tokens a v htoks text (map fst l) behind v' ++ toks') (SubForm h (map snd l) :: its).

(** what is shown by it *)
Lemma plain_token v : Forall plain_char v -> token_ok (Text v).
Proof. apply Forall_impl. by intros c (? & ? & ? & ?). Qed.
Lemma displays_app e inside toks r toks' r' : displays e inside toks r -> displays e inside toks' r' -> displays e inside (toks ++ toks') (r ++ r').
Proof.
  induction 1; intros H'; cbn [app]; [done | by apply show_layout; auto | by apply show_field; auto | |].
  - rewrite <- app_assoc. cbn [app]. apply show_subform; auto.
  - rewrite <- app_assoc. cbn [app]. apply show_data; auto.
Qed.
Lemma fills_displays e inside ps toks r : fills e inside ps toks r -> displays e inside toks (kvs r).
Proof.
  induction 1 as [|t v ps toks r Ht Hv Hp H IH|k pad v text ps toks r Hk Hlast H36 Hpad Hv Htext H IH]; [apply show_end | by apply show_layout|].
  apply show_field; try done. by apply plain_token.
Qed.
Lemma data_token : token_ok (Tag data_tag).
Proof. split; [done|]. split; [vm_compute; discriminate|]. repeat (apply List.Forall_cons; [done|]). apply List.Forall_nil. Qed.
Lemma instances_display e text data behind l toks r : blank text -> l <> [] -> Forall (fun i : list token * pairs => fills e true data i.1 i.2 /\ i.2 <> []) l -> Forall plain_char behind ->
  displays e true toks r -> displays e true (instance_tokens text (map fst l) ++ Text behind :: toks) (map instance_record (map snd l) ++ r).
Proof.
  intros Htext Hne Hl Hb Hr. induction l as [|[t p] l IH]; [done|]. apply Forall_cons_iff in Hl as [[Hi _] Hl]. cbn [fst snd] in Hi. pose proof (fills_displays _ _ _ _ _ Hi) as Hd.
  destruct l as [|i l].
  - cbn [map fst snd instance_tokens app]. rewrite <- app_assoc. cbn [app]. apply (show_data e [] text t (kvs p) behind toks r); [apply data_token | done | done | by apply plain_token | done].
  - specialize (IH ltac:(done) Hl). cbn [map fst snd] in *. cbn [instance_tokens app]. rewrite <- app_assoc. cbn [app].
    apply (show_data e [] text t (kvs p) [10]); [apply data_token | done | done | by repeat constructor | exact IH].
Qed.
Lemma form_displays e ps toks its : form_fills e ps toks its -> displays e false toks (record_of its).
Proof.
  induction 1 as [|ps toks r ps' toks' its H _ IH|a v head htoks h text data l behind v' ps' toks' its [(_ & _ & Ha) [Hv Ht] [Hb Hv']] [Hh _ Hne Hl] _ IH]; [apply show_end | |].
  - assert (record_of (map (fun kv => Pair kv.1 kv.2) r ++ its) = kvs r ++ record_of its) as -> by (unfold record_of; by rewrite map_app, map_map).
    apply displays_app; [by eapply fills_displays | done].
  - unfold sub_tokens. cbn [app]. rewrite <- !app_assoc. cbn [app].
    assert (htoks ++ instance_tokens text (map fst l) ++ Text behind :: Tag (47 :: sub_tag []) :: Text v' :: toks' =
      (htoks ++ instance_tokens text (map fst l) ++ [Text behind]) ++ Tag (codes "/dd:subform") :: Text v' :: toks') as -> by (by rewrite <- !app_assoc).
    apply show_subform; [exact Ha | done | | by apply plain_token | done].
    rewrite <- (app_nil_r (map instance_record _)). apply displays_app; [by eapply fills_displays|]. eapply instances_display; [done | done | exact Hl | done | apply show_end].
Qed.

(** ** Templates in parts *)
Lemma fills_app e inside ps toks r ps' toks' r' : fills e inside ps toks r -> fills e inside ps' toks' r' -> fills e inside (ps ++ ps') (toks ++ toks') (r ++ r').
Proof. induction 1; intros H'; cbn [app]; [done | by apply fills_layout; auto | by apply fills_field; auto]. Qed.
(** a field of a form with its value *)
Definition form_pieces (text k : list Z) : list piece := [Element k; Plain []; Variable_ k; Element (47 :: k); Plain text].
Definition form_tokens (text k v : list Z) : list token := [Tag k; Text v; Tag (47 :: k); Text text].
Record name_fits (e : list Z) (inside : bool) (k : list Z) : Prop := { nf_name : name_ok e inside k; nf_end : rd k (Z.of_nat (length k) - 1) <> 47; nf_dollar : 36 ∉ k }.
Lemma field_then e inside text k v ps toks r : name_fits e inside k -> value_ok v -> Forall plain_char text -> fills e inside ps toks r ->
  fills e inside (form_pieces text k ++ ps) (form_tokens text k v ++ toks) ((k, v) :: r).
Proof. intros [H1 H2 H3] Hv Ht H. apply (fills_field e inside k [] v text); try done. apply List.Forall_nil. Qed.
Lemma named_fields e inside (kvs : pairs) names : map fst kvs = names -> Forall (name_fits e inside) names -> Forall (fun kv => value_ok kv.2) kvs ->
  fills e inside (flat_map (form_pieces [10]) names) (flat_map (fun kv => form_tokens [10] kv.1 kv.2) kvs) kvs.
Proof.
  intros <- Hn Hv. rewrite flat_map_of_map. induction kvs as [|[k v] kvs IH]; cbn [flat_map map fst snd]; [apply fills_end|].
  apply Forall_cons_iff in Hn as [Hk Hn]. apply Forall_cons_iff in Hv as [Hkv Hv]. apply field_then; [done | done | by repeat constructor | by apply IH].
Qed.
Definition layout (t : string) (v : list Z) : list piece := [Element (codes t); Plain v].
Definition layout_token (t : string) (v : list Z) : list token := [Tag (codes t); Text v].
Definition fitsb (e : list Z) (inside : bool) (k : list Z) : bool := name_okb e inside k && negb (rd k (Z.of_nat (length k) - 1) =? 47) && negb (bool_decide (36 ∈ k)).
Lemma fitsb_spec e inside k : fitsb e inside k = true -> name_fits e inside k.
Proof. unfold fitsb. intros H. b2p. match goal with H : bool_decide _ = _ |- _ => apply bool_decide_eq_false in H end. split; [by apply name_okb_spec | done | done]. Qed.
Lemma fits_all e inside l : forallb (fitsb e inside) l = true -> Forall (name_fits e inside) l.
Proof. intros H. rewrite forallb_forall in H. apply List.Forall_forall. intros k Hk. by apply fitsb_spec, H. Qed.
Definition plain_charb (c : Z) : bool := negb ((c =? 0) || (c =? 36) || (c =? 60) || (c =? 62)).
Lemma plain_charb_spec l : forallb plain_charb l = true -> Forall plain_char l.
Proof. intros H. rewrite forallb_forall in H. apply List.Forall_forall. intros c Hc. apply H in Hc. unfold plain_charb in Hc. b2p. by split. Qed.
Definition layoutb (e : list Z) (inside : bool) (t : list Z) : bool :=
  (negb (starts (codes "form") t) && name_okb e inside t ||
   match t with c :: k => (c =? 47) && negb (starts (codes "form") k) && name_okb e inside k | [] => false end) &&
  forallb plain_charb t && (Z.of_nat (length t) <=? 1023) && negb (starts (codes "dd:subform") t) && negb (closes (codes "dd:subform") t).
Lemma layout_then e inside t v ps toks r : layoutb e inside (codes t) = true -> blank v -> fills e inside ps toks r ->
  fills e inside (layout t v ++ ps) (layout_token t v ++ toks) r.
Proof.
  intros H Hv Hps. unfold layoutb in H. b2p. apply (fills_layout e inside (codes t)); [| by left | | done].
  - match goal with Ho : _ \/ _ |- _ => destruct Ho as [Ho|Ho] end.
    + b2p. left. split; [done | by apply name_okb_spec].
    + destruct (codes t) as [|c k] eqn:E; [done|]. b2p. subst c. right. exists k. split; [done|]. split; [done | by apply name_okb_spec].
  - split; [by apply plain_charb_spec | done].
Qed.
Lemma layout_last e inside t v : layoutb e inside (codes t) = true -> blank v -> fills e inside (layout t v) (layout_token t v) [].
Proof. intros Ht Hv. rewrite <- (app_nil_r (layout t v)), <- (app_nil_r (layout_token t v)). apply layout_then; [done | done | apply fills_end]. Qed.
Lemma layout_behind e inside t v ps toks r : fills e inside ps toks r -> layoutb e inside (codes t) = true -> blank v -> fills e inside (ps ++ layout t v) (toks ++ layout_token t v) r.
Proof. intros H Ht Hv. rewrite <- (app_nil_r r). apply fills_app; [done | by apply layout_last]. Qed.
Definition blankb (v : list Z) : bool := forallb (fun c => (c =? 32) || (c =? 10) || (c =? 13)) v.
Lemma blankb_spec v : blankb v = true -> blank v.
Proof. unfold blankb. intros H. rewrite forallb_forall in H. apply List.Forall_forall. intros c Hc. specialize (H c Hc). b2p. lia. Qed.

(** ** The loop over the template *)
Definition lower (s : list Z) : list Z := map tolower s.
(** a field that is not found under any name of [l] *)
Definition unnamed (l : list (list Z)) (x : field) : Prop := match name x with Some n => lower n ∉ l | None => True end.
Lemma take_next l k v b n used rest : lower k ∈ l -> Forall (unnamed l) used ->
  take_field k (used ++ Field (Some k) v b n :: rest) = Some (Field (Some k) v b n, used ++ Field None v b n :: rest).
Proof.
  intros Hk. induction 1 as [|x used Hx Hu IH]; cbn [app take_field name].
  - unfold strcaseeq. by rewrite bool_decide_true.
  - rewrite IH. unfold unnamed in Hx. destruct (name x) as [m|]; [|done]. unfold strcaseeq. rewrite bool_decide_false; [done|].
    intros E. apply Hx. unfold lower in *. by rewrite <- E.
Qed.
Lemma blank_plain v : blank v -> Forall plain_char v.
Proof. apply Forall_impl. unfold plain_char. intros c Hc. lia. Qed.
Lemma name_plain k : Forall name_char k -> 36 ∉ k -> Forall plain_char k.
Proof.
  intros H H36. rewrite List.Forall_forall in *. intros c Hin. destruct (H c Hin) as (H0 & _ & _ & H60 & H62).
  repeat split; try done. intros ->. by apply H36, list_elem_of_In.
Qed.
Lemma outside_name e inside k : name_ok e inside k -> outside_data inside k /\ outside_data inside (47 :: k).
Proof.
  intros [_ H47 [_ Hd] _]. split; intros ->; specialize (Hd eq_refl); split.
  - done.
  - by apply closes_open.
  - by apply starts_slash.
  - by rewrite closes_slash.
Qed.
Lemma outside_layout e inside t : layout_ok e inside t -> outside_data inside t.
Proof. intros [[_ H]|(k & -> & _ & H)]; by apply outside_name in H as [H1 H2]. Qed.
Lemma field_pieces e inside k pad : name_ok e inside k -> 36 ∉ k -> blank pad -> piece_ok (Element k) /\ piece_ok (Variable_ k) /\ piece_ok (Element (47 :: k)).
Proof.
  intros [(Hne & Hl & Hc) H47 [Hdd _] _] H36 _. pose proof (name_plain k Hc H36) as Hp. split; [|split].
  - split; [done|]. split; [lia|]. split; [done|]. by apply closes_open.
  - split; [done | lia].
  - split; [by apply List.Forall_cons|]. split; [cbn [length]; lia|]. split; [by apply starts_slash | by rewrite closes_slash].
Qed.

Section Forms.
Variables (size : Z) (count : list Z) (template : list Z).
(** the names of the fields that are filled in, and those of the fields that are not *)
Variable all : list (list Z).
Definition reach (i : Z) (w : writing) (i' : Z) (w' : writing) : Prop := exists k, runs size count template k i w i' w'.
Lemma reach_nil i w : reach i w i w.
Proof. exists 0%nat. apply runs_nil. Qed.
Lemma reach_trans i w i' w' i'' w'' : reach i w i' w' -> reach i' w' i'' w'' -> reach i w i'' w''.
Proof. intros [a Ha] [b Hb]. exists (a + b)%nat. by eapply runs_trans. Qed.
(** outside of tags and names *)
Definition rest_at (fs : list field) (x : list Z) (inst : bool) (b : Z) (rm : bool) (wr : Z) : writing := Writing fs x false false [] [] inst b rm wr.
Lemma plain_step v pre rest fs x inst b rm wr : template = pre ++ v ++ rest -> Forall plain_char v -> Z.of_nat (length (x ++ v)) < size ->
  reach (Z.of_nat (length pre)) (rest_at fs x inst b rm wr) (Z.of_nat (length (pre ++ v))) (rest_at fs (x ++ v) inst b rm wr).
Proof. intros. exists (length v). by eapply (plain_runs size count template v pre rest fs x false [] []). Qed.
Lemma element_step t pre rest fs x inst b rm wr : template = pre ++ write_piece (Element t) ++ rest -> piece_ok (Element t) -> outside_data inst t ->
  Z.of_nat (length (x ++ write_piece (Element t))) < size ->
  reach (Z.of_nat (length pre)) (rest_at fs x inst b rm wr) (Z.of_nat (length (pre ++ write_piece (Element t)))) (rest_at fs (x ++ write_piece (Element t)) inst b rm wr).
Proof. intros. eexists. by eapply element_runs. Qed.
Definition more (b : bool) (r : pairs) (n wr : Z) : bool := b && match r with [] => false | _ => true end && (rd count n - wr >? 1).
Lemma variable_step k v pre rest used later b n x inst beg rm wr : template = pre ++ write_piece (Variable_ k) ++ rest -> piece_ok (Variable_ k) ->
  Forall (unnamed all) used -> lower k ∈ all -> Z.of_nat (length (x ++ v)) < size ->
  exists used', Forall (unnamed all) used' /\
  reach (Z.of_nat (length pre)) (rest_at (used ++ Field (Some k) v b n :: later) x inst beg rm wr)
    (Z.of_nat (length (pre ++ write_piece (Variable_ k)))) (rest_at (used' ++ later) (x ++ v) inst beg (rm || more b [(k, v)] n wr) wr).
Proof.
  intros Ht Hk Hu Hin Hx. pose proof (variable_reads size count template k pre rest (used ++ Field (Some k) v b n :: later) x inst beg rm wr Ht Hk) as H.
  rewrite (take_next all k v b n used later Hin Hu) in H. cbn [value in_record number] in H. exists (used ++ [Field None v b n]). split; [apply Forall_app; by repeat constructor|].
  eexists. unfold rest_at, more. rewrite andb_true_r, <- app_assoc. by apply H.
Qed.

(** a part of the template without sub-forms *)
Lemma fields_run e inside ps toks r : fills e inside ps toks r -> forall pre rest used later b n x beg rm wr, template = pre ++ flat_map write_piece ps ++ rest ->
  Forall (unnamed all) used -> Forall (fun kv => lower kv.1 ∈ all) r -> Z.of_nat (length (x ++ flat_map render toks)) < size ->
  exists used', Forall (unnamed all) used' /\
  reach (Z.of_nat (length pre)) (rest_at (used ++ pair_fields n b r ++ later) x inside beg rm wr)
    (Z.of_nat (length (pre ++ flat_map write_piece ps))) (rest_at (used' ++ later) (x ++ flat_map render toks) inside beg (rm || more b r n wr) wr).
Proof.
  induction 1 as [|t v ps toks r Ht Hv Hp H IH|k pad v text ps toks r Hk Hlast H36 Hpad Hv Htext H IH]; intros pre rest used later b n x beg rm wr Htem Hu Hin Hx.
  - exists used. split; [done|]. cbn [flat_map pair_fields map]. unfold more. rewrite andb_false_r, orb_false_r, !app_nil_r. apply reach_nil.
  - cbn [flat_map] in *. rewrite !length_app in Hx. assert (Forall plain_char v) as Hvp by (destruct Hv as [Hv | ->]; [by apply blank_plain | by repeat constructor]).
    change (render (Tag t)) with (write_piece (Element t)) in *. change (render (Text v)) with v in *. change (write_piece (Plain v)) with v in *.
    destruct (IH ((pre ++ write_piece (Element t)) ++ v) rest used later b n ((x ++ write_piece (Element t)) ++ v) beg rm wr) as (used' & Hu' & E); [by rewrite Htem, <- !app_assoc | done | done | rewrite !length_app; lia|].
    exists used'. split; [done|]. rewrite <- !app_assoc in E. rewrite <- !app_assoc in Htem.
    eapply reach_trans; [eapply (element_step t pre); [exact Htem | done | by eapply outside_layout | rewrite length_app; lia]|].
    eapply reach_trans; [eapply (plain_step v (pre ++ _)); [by rewrite <- app_assoc | done | rewrite !length_app; lia]|]. rewrite <- !app_assoc. exact E.
  - destruct (field_pieces e inside k pad Hk H36 Hpad) as (P1 & P2 & P3). destruct (outside_name e inside k Hk) as [O1 O2]. apply Forall_cons_iff in Hin as [Hkin Hin]. cbn [fst] in Hkin.
    cbn [flat_map] in *. change (render (Tag k)) with (write_piece (Element k)) in *. change (render (Tag (47 :: k))) with (write_piece (Element (47 :: k))) in *.
    change (render (Text ?s)) with s in *. change (write_piece (Plain ?s)) with s in *. rewrite !length_app in Hx. rewrite <- !app_assoc in Htem.
    change (pair_fields n b ((k, v) :: r) ++ later) with (Field (Some k) v b n :: pair_fields n b r ++ later).
    set (pre2 := (pre ++ write_piece (Element k)) ++ pad). set (x2 := (x ++ write_piece (Element k)) ++ pad).
    destruct (variable_step k v pre2 (write_piece (Element (47 :: k)) ++ text ++ flat_map write_piece ps ++ rest) used (pair_fields n b r ++ later) b n x2 inside beg rm wr) as (used1 & Hu1 & E1);
      [by rewrite Htem; subst pre2; rewrite <- !app_assoc | done | done | done | subst x2; rewrite !length_app; lia|].
    set (pre4 := ((pre2 ++ write_piece (Variable_ k)) ++ write_piece (Element (47 :: k))) ++ text). set (x4 := ((x2 ++ v) ++ write_piece (Element (47 :: k))) ++ text).
    destruct (IH pre4 rest used1 later b n x4 beg (rm || more b [(k, v)] n wr) wr) as (used' & Hu' & E2); [subst pre4 pre2; by rewrite Htem, <- !app_assoc | done | done | subst x4 x2; rewrite !length_app; lia|].
    exists used'. split; [done|].
    assert ((rm || more b [(k, v)] n wr) || more b r n wr = rm || more b ((k, v) :: r) n wr) as Em
      by (unfold more; destruct rm, b, r, (rd count n - wr >? 1); done).
    rewrite Em in E2. subst pre4 x4.
    eapply reach_trans; [eapply (element_step k pre); [exact Htem | done | done | rewrite length_app; lia]|].
    eapply reach_trans; [eapply (plain_step pad (pre ++ _)); [by rewrite <- app_assoc | by apply blank_plain | rewrite !length_app; lia]|].
    eapply reach_trans; [exact E1|].
    eapply reach_trans; [eapply (element_step (47 :: k)); [by rewrite Htem; subst pre2; rewrite <- !app_assoc | done | done | subst x2; rewrite !length_app; lia]|].
    eapply reach_trans; [eapply (plain_step text); [by rewrite Htem; subst pre2; rewrite <- !app_assoc | done | subst x2; rewrite !length_app; lia]|].
    subst pre2 x2. rewrite <- !app_assoc in *. exact E2.
Qed.

(** ** The instances of a sub-form *)
Lemma written_tag (x t : list Z) : (x ++ 60 :: t) ++ [62] = x ++ write_piece (Element t).
Proof. cbn [write_piece]. by rewrite <- app_assoc. Qed.
Lemma tag_step t pre rest fs x inst b rm wr w' i' : template = pre ++ write_piece (Element t) ++ rest -> Forall plain_char t -> Z.of_nat (length t) <= 1023 ->
  Z.of_nat (length (x ++ write_piece (Element t))) < size ->
  tag_closed (Z.of_nat (length (pre ++ 60 :: t))) (Writing fs ((x ++ 60 :: t) ++ [62]) false true [] t inst b rm wr) = (w', i') ->
  reach (Z.of_nat (length pre)) (rest_at fs x inst b rm wr) (i' + 1) w'.
Proof. intros Ht Hc Hl Hx E. pose proof (tag_runs size count template t pre rest fs x inst b rm wr Ht Hc Hl Hx) as H. rewrite written_tag in E. rewrite E in H. by eexists. Qed.
Lemma end_of_tag (pre t : list Z) : Z.of_nat (length (pre ++ 60 :: t)) + 1 = Z.of_nat (length (pre ++ write_piece (Element t))).
Proof. cbn [write_piece]. rewrite !length_app. cbn [length]. rewrite length_app. cbn [length]. lia. Qed.

(** one instance: the loop goes back to the character before it when there are more *)
Definition one_instance (text : list Z) (toks : list token) : list token := Tag data_tag :: Text text :: toks ++ [Tag (47 :: data_tag)].
Definition one_pieces (text : list Z) (data : list piece) : list piece := Element data_tag :: Plain text :: data ++ [Element (47 :: data_tag)].
Lemma one_instance_run e text data toks r w rest used later n x beg rm wr : fills e true data toks r -> r <> [] -> blank text ->
  template = (w ++ [10]) ++ flat_map write_piece (one_pieces text data) ++ rest ->
  Forall (unnamed all) used -> Forall (fun kv => lower kv.1 ∈ all) r -> Z.of_nat (length (x ++ flat_map render (one_instance text toks))) < size ->
  let more := rd count n - wr >? 1 in
  exists used' beg', Forall (unnamed all) used' /\
  reach (Z.of_nat (length (w ++ [10]))) (rest_at (used ++ pair_fields n true r ++ later) x true beg rm wr)
    (if more then Z.of_nat (length w) else Z.of_nat (length ((w ++ [10]) ++ flat_map write_piece (one_pieces text data))))
    (rest_at (used' ++ later) (x ++ flat_map render (one_instance text toks)) true beg' false (if more then wr + 1 else wr)).
Proof.
  intros Hf Hr Htext Htem Hu Hin Hx again. set (d := w ++ [10]) in *.
  assert (flat_map write_piece (one_pieces text data) = write_piece (Element data_tag) ++ text ++ flat_map write_piece data ++ write_piece (Element (47 :: data_tag))) as Ep
    by (unfold one_pieces; cbn [flat_map]; rewrite flat_map_app; cbn [flat_map]; by rewrite app_nil_r).
  assert (flat_map render (one_instance text toks) = write_piece (Element data_tag) ++ text ++ flat_map render toks ++ write_piece (Element (47 :: data_tag))) as Et
    by (unfold one_instance; cbn [flat_map]; rewrite flat_map_app; cbn [flat_map]; by rewrite app_nil_r).
  rewrite Ep in *. rewrite Et in *. rewrite <- !app_assoc in Htem. rewrite !length_app in Hx.
  assert (Forall plain_char data_tag /\ Forall plain_char (47 :: data_tag)) as [P1 P2] by (split; repeat (apply List.Forall_cons; [by repeat split|]); apply List.Forall_nil).
  set (beg' := Z.of_nat (length (d ++ 60 :: data_tag)) - 7).
  destruct (fields_run e true data toks r Hf ((d ++ write_piece (Element data_tag)) ++ text) (write_piece (Element (47 :: data_tag)) ++ rest) used later true n
    ((x ++ write_piece (Element data_tag)) ++ text) beg' false wr) as (used' & Hu' & E); [by rewrite Htem, <- !app_assoc | done | done | rewrite !length_app; lia|].
  exists used', beg'. split; [done|].
  assert (more true r n wr = again) as Em by (unfold more, again; by destruct r). rewrite Em in E. cbn [orb] in E.
  eapply reach_trans; [eapply (tag_step data_tag d); [exact Htem | done | vm_compute; discriminate | rewrite length_app; lia | reflexivity]|].
  rewrite end_of_tag, written_tag. fold beg'.
  eapply reach_trans; [eapply (plain_step text (d ++ _)); [by rewrite Htem, <- app_assoc | by apply blank_plain | rewrite !length_app; lia]|].
  eapply reach_trans; [exact E|]. set (pre := ((d ++ _) ++ _) ++ _). set (y := ((x ++ _) ++ _) ++ _).
  assert (template = pre ++ write_piece (Element (47 :: data_tag)) ++ rest) as Htem' by (rewrite Htem; subst pre; by rewrite <- !app_assoc).
  assert (Z.of_nat (length (y ++ write_piece (Element (47 :: data_tag)))) < size) as Hy by (subst y; rewrite !length_app; lia).
  assert (x ++ write_piece (Element data_tag) ++ text ++ flat_map render toks ++ write_piece (Element (47 :: data_tag)) = (y ++ 60 :: 47 :: data_tag) ++ [62]) as ->
    by (rewrite written_tag; subst y; by rewrite <- !app_assoc).
  destruct again eqn:Eagain.
  - replace (Z.of_nat (length w)) with (beg' + 1) by (subst beg' d; rewrite !length_app; cbn [length]; change (length data_tag) with 4%nat; lia).
    eapply tag_step; [exact Htem' | done | vm_compute; discriminate | exact Hy | reflexivity].
  - replace (Z.of_nat (length (d ++ _))) with (Z.of_nat (length (pre ++ 60 :: 47 :: data_tag)) + 1) by (rewrite end_of_tag; subst pre; by rewrite <- !app_assoc).
    eapply tag_step; [exact Htem' | done | vm_compute; discriminate | exact Hy | reflexivity].
Qed.
Lemma instances_run e text data w rest later n l : blank text -> template = (w ++ [10]) ++ flat_map write_piece (one_pieces text data) ++ rest ->
  Forall (fun i : list token * pairs => fills e true data i.1 i.2 /\ i.2 <> []) l -> Forall (fun i : list token * pairs => Forall (fun kv => lower kv.1 ∈ all) i.2) l -> l <> [] ->
  forall used x beg rm wr, Forall (unnamed all) used -> rd count n - wr = Z.of_nat (length l) ->
  Z.of_nat (length (x ++ flat_map render (instance_tokens text (map fst l)))) < size ->
  exists used' beg' wr', Forall (unnamed all) used' /\
  reach (Z.of_nat (length (w ++ [10]))) (rest_at (used ++ flat_map (pair_fields n true) (map snd l) ++ later) x true beg rm wr)
    (Z.of_nat (length ((w ++ [10]) ++ flat_map write_piece (one_pieces text data)))) (rest_at (used' ++ later) (x ++ flat_map render (instance_tokens text (map fst l))) true beg' false wr').
Proof.
  intros Htext Htem. induction l as [|[toks r] l IH]; intros Hl Hin Hne used x beg rm wr Hu Hn Hx; [done|].
  apply Forall_cons_iff in Hl as [[Hf Hr] Hl]. apply Forall_cons_iff in Hin as [Hi Hin]. cbn [fst snd] in Hf, Hr, Hi. cbn [map fst snd flat_map] in *. destruct l as [|j l].
  - destruct (one_instance_run e text data toks r w rest used later n x beg rm wr Hf Hr Htext Htem Hu Hi Hx) as (used' & beg' & Hu' & E).
    destruct (Z.gtb_spec (rd count n - wr) 1) as [H|_]; [cbn [length] in Hn; lia|]. cbn [map flat_map]. rewrite app_nil_r. by exists used', beg', wr.
  - assert (instance_tokens text (toks :: map fst (j :: l)) = one_instance text toks ++ Text [10] :: instance_tokens text (map fst (j :: l))) as Etoks
      by (unfold one_instance; cbn [map instance_tokens app]; by rewrite <- app_assoc).
    rewrite Etoks, flat_map_app in *. cbn [flat_map] in Hx |- *. change (render (Text [10])) with [10] in *. rewrite !length_app in Hx. cbn [length] in Hx, Hn.
    destruct (one_instance_run e text data toks r w rest used (flat_map (pair_fields n true) (map snd (j :: l)) ++ later) n x beg rm wr Hf Hr Htext Htem Hu Hi) as (used1 & beg1 & Hu1 & E1); [rewrite length_app; lia|].
    destruct (Z.gtb_spec (rd count n - wr) 1) as [_|H]; [|lia].
    destruct (IH Hl Hin ltac:(done) used1 ((x ++ flat_map render (one_instance text toks)) ++ [10]) beg1 false (wr + 1) Hu1) as (used' & beg' & wr' & Hu' & E2); [cbn [length]; lia | rewrite !length_app; cbn [length]; lia|].
    exists used', beg', wr'. split; [done|]. rewrite <- !(app_assoc (pair_fields n true r)).
    eapply reach_trans; [exact E1|]. eapply reach_trans; [eapply (plain_step [10] w); [by rewrite Htem, <- !app_assoc | by repeat constructor | rewrite !length_app; cbn [length]; lia]|].
    rewrite <- !app_assoc in *. exact E2.
Qed.

(** a sub-form, and what is behind it *)
Definition item_named (it : item) : Prop :=
  match it with Pair k _ => lower k ∈ all | SubForm h l => Forall (fun kv => lower kv.1 ∈ all) h /\ Forall (Forall (fun kv : list Z * list Z => lower kv.1 ∈ all)) l end.
Lemma sub_run e a v head htoks h text data l behind v' pre rest used later n x : sub_texts a v text behind v' -> sub_fills e head htoks h data l ->
  template = pre ++ flat_map write_piece (sub_pieces a v head text data behind v') ++ rest -> Forall (unnamed all) used -> item_named (SubForm h (map snd l)) ->
  rd count n = Z.of_nat (length l) -> Z.of_nat (length (x ++ flat_map render (sub_tokens a v htoks text (map fst l) behind v'))) < size ->
  exists used', Forall (unnamed all) used' /\
  reach (Z.of_nat (length pre)) (rest_at (used ++ item_fields n (SubForm h (map snd l)) ++ later) x false 0 false 0)
    (Z.of_nat (length (pre ++ flat_map write_piece (sub_pieces a v head text data behind v'))))
    (rest_at (used' ++ later) (x ++ flat_map render (sub_tokens a v htoks text (map fst l) behind v')) false 0 false 0).
Proof.
  intros [(Ha & Hal & _) [Hv Ht] [Hb Hv']] [Hh [w Hw] Hne Hl] Htem Hu [Hhin Hin] Hn Hx.
  set (tag1 := sub_tag a) in *. set (tag2 := 47 :: sub_tag []) in *.
  assert (flat_map write_piece (sub_pieces a v head text data behind v') =
    write_piece (Element tag1) ++ v ++ flat_map write_piece head ++ flat_map write_piece (one_pieces text data) ++ behind ++ write_piece (Element tag2) ++ v') as Ep.
  { unfold sub_pieces, one_pieces. cbn [flat_map]. rewrite flat_map_app. cbn [flat_map]. rewrite !flat_map_app. cbn [flat_map write_piece]. fold tag1 tag2. rewrite !app_nil_r.
    repeat (rewrite <- !app_assoc; cbn [app]). reflexivity. }
  assert (flat_map render (sub_tokens a v htoks text (map fst l) behind v') =
    write_piece (Element tag1) ++ v ++ flat_map render htoks ++ flat_map render (instance_tokens text (map fst l)) ++ behind ++ write_piece (Element tag2) ++ v') as Et.
  { unfold sub_tokens. cbn [flat_map]. rewrite !flat_map_app. cbn [flat_map render write_piece]. fold tag1 tag2. by rewrite !app_nil_r. }
  rewrite Ep in *. rewrite Et in *. clear Ep Et. rewrite <- !app_assoc in Htem. rewrite !length_app in Hx.
  assert (Forall plain_char tag1 /\ Z.of_nat (length tag1) <= 1023) as [P1 L1].
  { unfold tag1, sub_tag. split; [apply Forall_app; split; [|done]; repeat (apply List.Forall_cons; [by repeat split|]); apply List.Forall_nil|]. rewrite length_app. change (length (codes "dd:subform")) with 10%nat. lia. }
  assert (Forall plain_char tag2) as P2 by (repeat (apply List.Forall_cons; [by repeat split|]); apply List.Forall_nil).
  cbn [item_fields]. rewrite <- (app_assoc (pair_fields n false h)).
  set (pre2 := (pre ++ write_piece (Element tag1)) ++ v). set (x2 := (x ++ write_piece (Element tag1)) ++ v).
  destruct (fields_run e true head htoks h Hh pre2 (flat_map write_piece (one_pieces text data) ++ behind ++ write_piece (Element tag2) ++ v' ++ rest) used
    (flat_map (pair_fields n true) (map snd l) ++ later) false n x2 0 false 0) as (used1 & Hu1 & E1); [subst pre2; by rewrite Htem, <- !app_assoc | done | done | subst x2; rewrite !length_app; lia|].
  unfold more in E1. cbn [andb orb] in E1.
  assert (pre2 ++ flat_map write_piece head = (pre2 ++ w) ++ [10]) as Epre by (by rewrite Hw, app_assoc). rewrite Epre in E1.
  assert (template = ((pre2 ++ w) ++ [10]) ++ flat_map write_piece (one_pieces text data) ++ behind ++ write_piece (Element tag2) ++ v' ++ rest) as Htem2
    by (rewrite <- Epre; subst pre2; by rewrite Htem, <- !app_assoc).
  destruct (instances_run e text data (pre2 ++ w) (behind ++ write_piece (Element tag2) ++ v' ++ rest) later n l Ht Htem2 Hl) with (used := used1) (x := x2 ++ flat_map render htoks) (beg := 0) (rm := false) (wr := 0)
    as (used' & beg' & wr' & Hu' & E2); [by rewrite Forall_map in Hin | done | done | lia | subst x2; rewrite !length_app; lia|].
  exists used'. split; [done|].
  eapply reach_trans; [eapply (tag_step tag1 pre); [exact Htem | done | done | rewrite length_app; lia | unfold tag_closed; rewrite plain_cstr by done; reflexivity]|].
  rewrite end_of_tag, written_tag.
  eapply reach_trans; [eapply (plain_step v (pre ++ _)); [by rewrite Htem, <- app_assoc | by apply blank_plain | rewrite !length_app; lia]|]. fold pre2 x2.
  eapply reach_trans; [exact E1|]. eapply reach_trans; [exact E2|]. rewrite <- Epre in *.
  set (pre3 := (pre2 ++ flat_map write_piece head) ++ flat_map write_piece (one_pieces text data)) in *.
  set (x3 := (x2 ++ flat_map render htoks) ++ flat_map render (instance_tokens text (map fst l))) in *.
  assert (Z.of_nat (length ((x3 ++ behind) ++ write_piece (Element tag2) ++ v')) < size) as Hx3 by (subst x3 x2; rewrite !length_app; lia). rewrite !length_app in Hx3.
  eapply reach_trans; [eapply (plain_step behind pre3); [subst pre3 pre2; by rewrite Htem, <- !app_assoc | done | rewrite !length_app; lia]|].
  eapply reach_trans; [eapply (tag_step tag2 (pre3 ++ behind)); [subst pre3 pre2; by rewrite Htem, <- !app_assoc | done | vm_compute; discriminate | rewrite !length_app; lia | reflexivity]|].
  rewrite end_of_tag, written_tag.
  eapply reach_trans; [eapply (plain_step v' ((pre3 ++ behind) ++ _)); [subst pre3 pre2; by rewrite Htem, <- !app_assoc | done | rewrite !length_app; lia]|].
  subst x3 x2 pre3 pre2. rewrite <- !app_assoc. apply reach_nil.
Qed.

Lemma items_fields_pairs n r its : items_fields n (map (fun kv => Pair kv.1 kv.2) r ++ its) = pair_fields n false r ++ items_fields n its.
Proof. induction r as [|[k v] r IH]; [done|]. cbn [map app items_fields item_fields after pair_fields fst snd]. by rewrite IH. Qed.
Lemma counts_pairs (r : pairs) its : counts (map (fun kv => Pair kv.1 kv.2) r ++ its) = counts its.
Proof. by induction r as [|[k v] r IH]. Qed.
Lemma form_run e ps toks its : form_fills e ps toks its -> forall pre rest used later n x, template = pre ++ flat_map write_piece ps ++ rest ->
  Forall (unnamed all) used -> Forall item_named its -> (forall j, 0 <= j < Z.of_nat (length (counts its)) -> rd count (n + j) = rd (counts its) j) ->
  Z.of_nat (length (x ++ flat_map render toks)) < size ->
  exists used', Forall (unnamed all) used' /\
  reach (Z.of_nat (length pre)) (rest_at (used ++ items_fields n its ++ later) x false 0 false 0)
    (Z.of_nat (length (pre ++ flat_map write_piece ps))) (rest_at (used' ++ later) (x ++ flat_map render toks) false 0 false 0).
Proof.
  induction 1 as [|ps toks r ps' toks' its H _ IH|a v head htoks h text data l behind v' ps' toks' its Htexts Hsub _ IH]; intros pre rest used later n x Htem Hu Hin Hn Hx.
  - exists used. split; [done|]. cbn [flat_map]. rewrite !app_nil_r. apply reach_nil.
  - rewrite !flat_map_app in *. rewrite <- app_assoc in Htem. rewrite items_fields_pairs. rewrite counts_pairs in Hn. rewrite !length_app in Hx.
    apply Forall_app in Hin as [Hr Hin]. rewrite Forall_map in Hr.
    destruct (fields_run e false ps toks r H pre (flat_map write_piece ps' ++ rest) used (items_fields n its ++ later) false n x 0 false 0) as (used1 & Hu1 & E1); [done | done | exact Hr | rewrite length_app; lia|].
    destruct (IH (pre ++ flat_map write_piece ps) rest used1 later n (x ++ flat_map render toks)) as (used' & Hu' & E2); [by rewrite Htem, <- app_assoc | done | done | done | rewrite !length_app; lia|].
    exists used'. split; [done|]. unfold more in E1. cbn [andb orb] in E1. rewrite !(app_assoc pre), !(app_assoc x), <- (app_assoc (pair_fields n false r)). by eapply reach_trans.
  - rewrite !flat_map_app in *. rewrite <- app_assoc in Htem. cbn [items_fields after]. rewrite <- (app_assoc (item_fields n _)). rewrite !length_app in Hx.
    apply Forall_cons_iff in Hin as [Hs Hin]. cbn [counts length] in Hn.
    destruct (sub_run e a v head htoks h text data l behind v' pre (flat_map write_piece ps' ++ rest) used (items_fields (n + 1) its ++ later) n x) as (used1 & Hu1 & E1); [done | done | done | done | done | | rewrite length_app; lia|].
    { specialize (Hn 0 ltac:(lia)). by rewrite Z.add_0_r, rd_cons_0, length_map in Hn. }
    destruct (IH (pre ++ flat_map write_piece (sub_pieces a v head text data behind v')) rest used1 later (n + 1) (x ++ flat_map render (sub_tokens a v htoks text (map fst l) behind v'))) as (used' & Hu' & E2);
      [by rewrite Htem, <- app_assoc | done | done | | rewrite !length_app; lia|].
    { intros j Hj. specialize (Hn (j + 1) ltac:(lia)). rewrite rd_cons in Hn by lia. replace (n + 1 + j) with (n + (j + 1)) by lia. by rewrite Hn, Z.add_simpl_r. }
    exists used'. split; [done|]. rewrite !(app_assoc pre), !(app_assoc x). by eapply reach_trans.
Qed.
Definition piece_of (tok : token) : piece := match tok with Tag t => Element t | Text v => Plain v end.
Lemma write_tokens toks : flat_map write_piece (map piece_of toks) = flat_map render toks.
Proof. induction toks as [|[t|v] toks IH]; cbn [map flat_map]; [done | by rewrite IH | by rewrite IH]. Qed.
Lemma tokens_run toks : Forall piece_ok (map piece_of toks) -> forall pre rest fs x b rm wr, template = pre ++ flat_map render toks ++ rest -> Z.of_nat (length (x ++ flat_map render toks)) < size ->
  reach (Z.of_nat (length pre)) (rest_at fs x false b rm wr) (Z.of_nat (length (pre ++ flat_map render toks))) (rest_at fs (x ++ flat_map render toks) false b rm wr).
Proof.
  induction toks as [|tok toks IH]; intros Hok pre rest fs x b rm wr Htem Hx; [cbn [flat_map]; rewrite !app_nil_r; apply reach_nil|].
  apply Forall_cons_iff in Hok as [Htok Hok]. cbn [flat_map] in *. rewrite <- app_assoc in Htem. rewrite !length_app in Hx. rewrite !(app_assoc pre), !(app_assoc x).
  apply (reach_trans _ _ (Z.of_nat (length (pre ++ render tok))) (rest_at fs (x ++ render tok) false b rm wr)).
  - destruct tok as [t|v]; cbn [map piece_of] in Htok; [change (render (Tag t)) with (write_piece (Element t)) in *; eapply (element_step t) | change (render (Text v)) with v in *; eapply plain_step]; try done; rewrite length_app; lia.
  - eapply (IH Hok (pre ++ render tok)); [by rewrite Htem, <- app_assoc | rewrite !length_app; lia].
Qed.
End Forms.

(** more fuel changes nothing *)
Lemma loop_more size count template m fuel : forall i w, template_loop size count fuel template i w <> Running ->
  template_loop size count (fuel + m) template i w = template_loop size count fuel template i w.
Proof.
  induction fuel as [|fuel IH]; intros i w H; [done|]. cbn [Nat.add template_loop] in *. destruct (negb _); [done|]. destruct (i <? 0); [done|].
  destruct (template_step _ _ _ _ _) as [[w' i']| |]; [by apply IH | done..].
Qed.
Lemma reach_written size count template fuel w w' : reach size count template 0 w (Z.of_nat (length template)) w' -> template_loop size count fuel template 0 w <> Running ->
  template_loop size count fuel template 0 w = Written (xml w').
Proof.
  intros [k Hk] Hends. rewrite <- (loop_more size count template (k + 1) fuel) by done. replace (fuel + (k + 1))%nat with (k + S fuel)%nat by lia.
  rewrite Hk. cbn [template_loop]. by rewrite Z.ltb_irrefl.
Qed.

(** ** The round trip *)
Definition item_names (it : item) : list (list Z) :=
  match it with Pair k _ => [lower k] | SubForm h l => map (fun kv => lower kv.1) (h ++ concat l) end.
Lemma names_named its : Forall (item_named (flat_map item_names its)) its.
Proof.
  apply List.Forall_forall. intros it Hit. assert (forall x, x ∈ item_names it -> x ∈ flat_map item_names its) as Hin.
  { intros x Hx. apply list_elem_of_In, in_flat_map. exists it. split; [done | by apply list_elem_of_In]. }
  destruct it as [k v|h l]; cbn [item_named item_names] in *; [apply Hin; by left|]. split.
  - apply List.Forall_forall. intros kv Hkv. apply Hin, list_elem_of_In. apply (in_map (fun kv : list Z * list Z => lower kv.1) _ kv), in_app_iff. by left.
  - apply List.Forall_forall. intros i Hi. apply List.Forall_forall. intros kv Hkv. apply Hin, list_elem_of_In. apply (in_map (fun kv : list Z * list Z => lower kv.1) _ kv), in_app_iff. right.
    apply in_concat. by exists i.
Qed.
Definition pair_items (l : pairs) : list item := map (fun kv => Pair kv.1 kv.2) l.
(** a text for the template: [p0] is what the opening of the form shows *)
Record form_readable (p0 : pairs) (its : list item) : Prop := {
  fr_plain : Forall item_plain (pair_items p0 ++ its);
  fr_names : Forall (fun kv => lower kv.1 ∉ flat_map item_names its) p0;
  fr_fields : Z.of_nat (length (items_fields 0 (pair_items p0 ++ its))) <= 1024   (* the arrays of the code *)
}.
Definition whole_template (pre : list token) (ps : list piece) (close : list Z) : list Z :=
  flat_map write_piece (map piece_of pre ++ ps ++ map piece_of [Tag close; Text [10]]).
Definition whole_xml (pre toks : list token) (close : list Z) : list Z := flat_map render (pre ++ toks ++ [Tag close; Text [10]]).
Lemma form_some e ps toks its : form_fills e ps toks its -> Forall item_some its.
Proof.
  induction 1 as [|ps toks r ps' toks' its H _ IH|a v head htoks h text data l behind v' ps' toks' its Htexts [_ _ Hne Hl] _ IH]; [done| |].
  - apply Forall_app. split; [|done]. rewrite Forall_map. by apply List.Forall_forall.
  - constructor; [|done]. destruct l as [|[toks p] l]; [done|]. apply Forall_cons_iff in Hl as [[_ Hp] _]. cbn [item_some map concat snd] in *.
    intros [_ [E _]%app_eq_nil]%app_eq_nil. done.
Qed.
Lemma template_filled pre close ps e toks p0 its xml_size : form_fills e ps toks its -> Forall piece_ok (map piece_of (pre ++ [Tag close])) -> form_readable p0 its ->
  Z.of_nat (length (whole_xml pre toks close)) < xml_size ->
  stripped2xml (print_record (record_of (pair_items p0 ++ its))) (whole_template pre ps close) xml_size = Written (whole_xml pre toks close).
Proof.
  intros Hf Hpieces [Hplain Hnames Hfields] Hsize.
  unfold stripped2xml. unfold pair_items in *. destruct (read_items (map (fun kv => Pair kv.1 kv.2) p0 ++ its) (repeat 0 1024) 0 []) as (count & n' & Hread & _ & Hc);
    [done | | done | by rewrite repeat_length | done | intros j Hj; rewrite rd_nth by lia; apply nth_repeat|].
  { apply Forall_app. split; [|by eapply form_some]. rewrite Forall_map. by apply List.Forall_forall. }
  pose proof (fill_ends (Reading false false false count n' ([] ++ items_fields 0 (map (fun kv => Pair kv.1 kv.2) p0 ++ its)) [] []) (whole_template pre ps close) xml_size) as Hends.
  rewrite Hread. cbn [app fields record_count] in *. rewrite items_fields_pairs in *. rewrite counts_pairs in Hc.
  assert (whole_template pre ps close = flat_map render pre ++ flat_map write_piece ps ++ flat_map render [Tag close; Text [10]]) as Et
    by (unfold whole_template; by rewrite !flat_map_app, !write_tokens).
  assert (whole_xml pre toks close = flat_map render pre ++ flat_map render toks ++ flat_map render [Tag close; Text [10]]) as Ex by (unfold whole_xml; by rewrite !flat_map_app).
  rewrite map_app in Hpieces. apply Forall_app in Hpieces as [Hpre Hclose]. apply Forall_cons_iff in Hclose as [Hclose _].
  rewrite Ex, !length_app in Hsize. set (template := whole_template pre ps close) in *. set (fs := pair_fields 0 false p0 ++ items_fields 0 its) in *.
  destruct (form_run xml_size count template (flat_map item_names its) e ps toks its Hf (flat_map render pre) (flat_map render [Tag close; Text [10]]) (pair_fields 0 false p0) [] 0 (flat_map render pre))
    as (used' & _ & E); [exact Et | | apply names_named | exact Hc | rewrite !length_app; lia|].
  { unfold pair_fields. rewrite Forall_map. exact Hnames. }
  rewrite !app_nil_r in E. fold fs in E.
  rewrite (reach_written xml_size count template _ _ (rest_at used' (whole_xml pre toks close) false 0 false 0)); [done | | exact Hends].
  rewrite Ex. replace template with ((flat_map render pre ++ flat_map write_piece ps) ++ flat_map render [Tag close; Text [10]]) at 2 by (by rewrite Et, <- app_assoc).
  eapply reach_trans; [apply (tokens_run xml_size count template pre Hpre [] (flat_map write_piece ps ++ flat_map render [Tag close; Text [10]]) fs []); [exact Et | cbn [app]; lia]|].
  eapply reach_trans; [exact E|]. rewrite (app_assoc (flat_map render pre)).
  apply (tokens_run xml_size count template [Tag close; Text [10]]) with (rest := []).
  - apply List.Forall_cons; [done|]. apply List.Forall_cons; [by repeat constructor | apply List.Forall_nil].
  - by rewrite Et, app_nil_r, <- app_assoc.
  - rewrite !length_app. lia.
Qed.
Lemma form_rendered pre toks close : whole_xml pre toks close = flat_map render (pre ++ toks ++ [Tag close]) ++ [10].
Proof. unfold whole_xml. rewrite !flat_map_app. cbn [flat_map render]. by rewrite <- !app_assoc. Qed.
Lemma form_last e ps toks r : fills e false ps toks r -> form_fills e ps toks (pair_items r).
Proof. intros H. rewrite <- (app_nil_r ps), <- (app_nil_r toks), <- (app_nil_r (pair_items r)). by apply filled_fields; [|apply filled_end]. Qed.
Lemma record_of_pairs p0 its : record_of (pair_items p0 ++ its) = kvs p0 ++ record_of its.
Proof. unfold record_of, pair_items. by rewrite map_app, map_map. Qed.

(** C19: What stripped2xml makes of the text of a record and a template of its form,
    xml2stripped turns into that text again: for Magpi and for ODK, wherever the variables
    stand, and with sub-forms, whose element is repeated for each instance in the
    text. *)
Theorem dexml_roundtrip `{MemoryOk} pre e p0 close ps toks its xml_size buff : opening [] pre e (kvs p0) close -> form_fills e ps toks its ->
  strcaseeq (codes "dd:subform") e = false -> strcaseeq (codes "data") e = false ->
  Forall piece_ok (map piece_of (pre ++ [Tag close])) -> form_readable p0 its -> Z.of_nat (length (whole_xml pre toks close)) < xml_size ->
  let text := print_record (record_of (pair_items p0 ++ its)) in Z.of_nat (length text) < Z.of_nat (length buff) < 2 ^ 31 ->
  exists xml buff', stripped2xml text (whole_template pre ps close) xml_size = Written xml /\
    Strip.xml2stripped None (Z.of_nat (length buff)) xml buff = (Z.of_nat (length text), buff') /\ take (length text) buff' = text.
Proof.
  intros Hopen Hfills Hdd Hdata Hpieces Hread Hsize text Hfit. unfold text in *. rewrite record_of_pairs in *.
  destruct (form_stripped pre e (kvs p0) close toks (record_of its) buff Hopen (form_displays _ _ _ _ Hfills) Hdd Hdata Hfit) as (buff' & Hrun & Htake & _).
  eexists _, buff'. split; [rewrite <- record_of_pairs; exact (template_filled pre close ps e toks p0 its xml_size Hfills Hpieces Hread Hsize)|]. split; [|exact Htake].
  rewrite form_rendered. exact Hrun.
Qed.

(** ** Evaluated *)
#[local] Existing Instances sample_memory sample_memory_ok.
Definition text_charsb (s : list Z) : bool := forallb (fun c => (32 <=? c) && negb (c =? 123) && negb (c =? 125)) s.
Lemma text_charsb_spec s : text_charsb s = true -> text_chars s.
Proof. induction s as [|c s IH]; intros H; constructor; cbn [text_charsb forallb] in H; b2p; [lia | by apply IH]. Qed.
Definition pair_plainb (kv : list Z * list Z) : bool :=
  text_charsb kv.1 && text_charsb kv.2 && negb (bool_decide (61 ∈ kv.1)) && (Z.of_nat (length kv.1) <=? 1000) && (Z.of_nat (length kv.2) <=? 1000).
Lemma pair_plain_check l : forallb pair_plainb l = true -> Forall pair_plain l.
Proof.
  intros H. rewrite forallb_forall in H. apply List.Forall_forall. intros [k v] Hkv. apply H in Hkv. unfold pair_plainb in Hkv. cbn [fst snd] in Hkv. b2p.
  match goal with H : bool_decide _ = _ |- _ => apply bool_decide_eq_false in H end.
  split; cbn [fst snd]; [split; [by apply text_charsb_spec | done] | split; [by apply text_charsb_spec | done]].
Qed.
Definition item_plainb (it : item) : bool :=
  match it with Pair k v => pair_plainb (k, v) | SubForm h l => forallb pair_plainb h && forallb (forallb pair_plainb) l end.
Lemma items_plain_check its : forallb item_plainb its = true -> Forall item_plain its.
Proof.
  intros H. rewrite forallb_forall in H. apply List.Forall_forall. intros it Hit. apply H in Hit. destruct it as [k v|h l]; cbn [item_plainb item_plain] in *.
  - assert (Forall pair_plain [(k, v)]) as Hp by (apply pair_plain_check; cbn [forallb]; by rewrite andb_true_r). by apply Forall_cons_iff in Hp as [Hp _].
  - b2p. split; [by apply pair_plain_check|]. match goal with H : forallb (forallb _) l = true |- _ => rewrite forallb_forall in H; apply List.Forall_forall; intros i Hi; apply pair_plain_check; exact (H i Hi) end.
Qed.

Definition pair_of (k v : string) : list Z * list Z := (codes k, codes v).
Definition sample_instances : list pairs := [[pair_of "age" "7"]; [pair_of "age" "9"]].
Definition sample_items : list item :=
  pair_items [pair_of "formid" "visit"] ++ [SubForm [pair_of "question" "q2"] sample_instances] ++ pair_items [pair_of "q1" "a=b"].
Definition sample_xml_name : list Z := codes "?xml".
Definition sample_sub_attribute : list Z := codes " xmlns:dd=x".
Definition sample_sub_data : list piece := layout "x" [10] ++ form_pieces [10] (codes "age") ++ layout "/x" [10].
Definition sample_sub_tokens (i : pairs) : list token := layout_token "x" [10] ++ flat_map (fun kv => form_tokens [10] kv.1 kv.2) i ++ layout_token "/x" [10].
Definition sample_pieces : list piece :=
  (layout "meta" [10] ++ form_pieces [10] (codes "formid") ++ layout "/meta" [10]) ++
  sub_pieces sample_sub_attribute [10] (form_pieces [10] (codes "question")) [10] sample_sub_data [10] [10] ++ form_pieces [10] (codes "q1").
Definition sample_tokens : list token :=
  (layout_token "meta" [10] ++ form_tokens [10] (codes "formid") (codes "visit") ++ layout_token "/meta" [10]) ++
  sub_tokens sample_sub_attribute [10] (form_tokens [10] (codes "question") (codes "q2")) [10] (map sample_sub_tokens sample_instances) [10] [10] ++
  form_tokens [10] (codes "q1") (codes "a=b").
Lemma newline_blank : blank [10].
Proof. apply blankb_spec. reflexivity. Qed.
Lemma sample_form_fills : form_fills sample_xml_name sample_pieces sample_tokens sample_items.
Proof.
  assert (forall inside k v ps toks r, fitsb sample_xml_name inside k && value_okb v = true -> fills sample_xml_name inside ps toks r ->
    fills sample_xml_name inside (form_pieces [10] k ++ ps) (form_tokens [10] k v ++ toks) ((k, v) :: r)) as Hfield.
  { intros inside k v ps toks r H Hps. b2p. apply field_then; [by apply fitsb_spec | by apply value_okb_spec | by repeat constructor | done]. }
  apply (filled_fields _ _ _ [pair_of "formid" "visit"]).
  { apply layout_then; [reflexivity | apply newline_blank|]. apply Hfield; [reflexivity|]. apply layout_last; [reflexivity | apply newline_blank]. }
  apply (filled_sub _ sample_sub_attribute [10] _ _ [pair_of "question" "q2"] [10] sample_sub_data (map (fun i => (sample_sub_tokens i, i)) sample_instances)).
  - split; [split; [apply plain_charb_spec; reflexivity | split; [vm_compute; discriminate|]] | split; apply newline_blank | split; by repeat constructor].
    split; [done|]. split; [vm_compute; discriminate|]. repeat (apply List.Forall_cons; [done|]). apply List.Forall_nil.
  - split; [|exists (removelast (flat_map write_piece (form_pieces [10] (codes "question")))); vm_compute; reflexivity | done|].
    + apply (Hfield true _ _ [] [] []); [reflexivity | apply fills_end].
    + repeat (apply List.Forall_cons; [split; [|done]; apply layout_then; [reflexivity | apply newline_blank|]; apply Hfield; [reflexivity|]; apply layout_last; [reflexivity | apply newline_blank]|]). apply List.Forall_nil.
  - apply (form_last _ _ _ [pair_of "q1" "a=b"]). apply (Hfield false _ _ [] [] []); [reflexivity | apply fills_end].
Qed.
Lemma dexml_roundtrip_witness :
  exists xml buff', stripped2xml (print_record (record_of sample_items)) (whole_template sample_prolog sample_pieces (codes "/form")) 400 = Written xml /\
    Strip.xml2stripped None 100 xml (repeat 0 100) = (Z.of_nat (length (print_record (record_of sample_items))), buff') /\
    take (length (print_record (record_of sample_items))) buff' = print_record (record_of sample_items).
Proof.
  apply (dexml_roundtrip sample_prolog sample_xml_name [] (codes "/form") sample_pieces sample_tokens sample_items 400 (repeat 0 100)).
  - exact sample_opening.
  - exact sample_form_fills.
  - reflexivity.
  - reflexivity.
  - repeat (apply List.Forall_cons; [repeat split; repeat constructor; discriminate|]). apply List.Forall_nil.
  - split; [apply items_plain_check; vm_compute; reflexivity | apply List.Forall_nil | vm_compute; discriminate].
  - vm_compute. reflexivity.
  - vm_compute. split; reflexivity.
Defined.
