(* ===== verification/Xhtml.v ===== *)
(** xhtml2recipe.c: the recipes and the template of a form from its XHTML definition,
    and recipe_read_from_specification of recipe.c. *)
From Stdlib Require Import String.
From S2P Require Import Prelude Charset CString BlockHash Md5 Recipe Dexml.
Local Open Scope Z_scope.

(** ** The string builder *)
Module StrBuilder.
(** [str] is the memory, [alloc_len] bytes, or NULL *)
Record str_builder := Builder { str_len : Z; alloc_len : Z; str : option (list Z) }.
Definition empty_builder : str_builder := Builder 0 0 None.

(** [while(new_len < needed) new_len *= 2]; memory is not so large that the product
    could wrap around *)
Fixpoint double_until (fuel : nat) (new_len needed : Z) : Z :=
  match fuel with
  | O => new_len
  | S fuel => if new_len <? needed then double_until fuel (new_len * 2) needed else new_len
  end.

Section Grow.
Context `{Memory}.
Definition strgrow (b : str_builder) (new_segment : list Z) : str_builder :=
  let new_segment := cstr new_segment in
  match new_segment with
  | [] => b
  | _ =>
      let len := Z.of_nat (length new_segment) in
      let needed := str_len b + len + 1 in
      let b :=
        if alloc_len b <? needed then
          let new_len := double_until 64 (Z.max (alloc_len b) 256) needed in
          let out := garbage new_len in
          let out := match str b with Some s => copy_into out 0 (cstr s ++ [0]) | None => out end in
          Builder (str_len b) new_len (Some out)
        else b in
      Builder (str_len b + len) (alloc_len b) (option_map (fun s => copy_into s (str_len b) (new_segment ++ [0])) (str b))
  end.
End Grow.
End StrBuilder.

(** ** The state of the parser

    The strings that builders hold are lists of characters here ([StrBuilder]).  The
    nodes of the lists of recipes and tags are never freed while the form is parsed:
    a pointer is the number of the node. *)
Definition grow (text segment : list Z) : list Z := text ++ cstr segment.

Record recipe_node := RecipeNode {
  is_subform_node : bool; formversion : list Z; recipe_text : list Z;
  selects : list (list Z); r_next : option nat
}.
Record tag_node := TagNode { tagname : list Z; t_formversion : list Z; t_next : option nat }.
Definition MAXSUBFORMS : nat := 10.

Record parse_state := ParseState {
  recipes : list recipe_node; head_r : option nat; curr_r : option nat;
  tags : list tag_node; head_t : option nat; curr_t : option nat;
  subforms : list (list Z);     (* curr_s and, through prev, what is around it *)
  xhtmlFormName : option (list Z); xhtmlFormVersion : option (list Z);
  xhtml2template : list Z;
  xhtmlSelectElem : option (list Z);
  xhtmlSelectFirst : bool; xhtml_in_value : bool; xhtml_in_instance : bool; xhtml_in_subform : Z;
  subform_tags : list (list Z)
}.
Definition set_recipes (l : list recipe_node) (h c : option nat) (s : parse_state) : parse_state :=
  ParseState l h c (tags s) (head_t s) (curr_t s) (subforms s) (xhtmlFormName s) (xhtmlFormVersion s) (xhtml2template s)
    (xhtmlSelectElem s) (xhtmlSelectFirst s) (xhtml_in_value s) (xhtml_in_instance s) (xhtml_in_subform s) (subform_tags s).
Definition set_tags (l : list tag_node) (h c : option nat) (s : parse_state) : parse_state :=
  ParseState (recipes s) (head_r s) (curr_r s) l h c (subforms s) (xhtmlFormName s) (xhtmlFormVersion s) (xhtml2template s)
    (xhtmlSelectElem s) (xhtmlSelectFirst s) (xhtml_in_value s) (xhtml_in_instance s) (xhtml_in_subform s) (subform_tags s).
Definition set_subforms (l : list (list Z)) (n : Z) (names : list (list Z)) (s : parse_state) : parse_state :=
  ParseState (recipes s) (head_r s) (curr_r s) (tags s) (head_t s) (curr_t s) l (xhtmlFormName s) (xhtmlFormVersion s) (xhtml2template s)
    (xhtmlSelectElem s) (xhtmlSelectFirst s) (xhtml_in_value s) (xhtml_in_instance s) n names.
Definition set_form (n v : option (list Z)) (s : parse_state) : parse_state :=
  ParseState (recipes s) (head_r s) (curr_r s) (tags s) (head_t s) (curr_t s) (subforms s) n v (xhtml2template s)
    (xhtmlSelectElem s) (xhtmlSelectFirst s) (xhtml_in_value s) (xhtml_in_instance s) (xhtml_in_subform s) (subform_tags s).
Definition template (segment : list Z) (s : parse_state) : parse_state :=
  ParseState (recipes s) (head_r s) (curr_r s) (tags s) (head_t s) (curr_t s) (subforms s) (xhtmlFormName s) (xhtmlFormVersion s)
    (grow (xhtml2template s) segment)
    (xhtmlSelectElem s) (xhtmlSelectFirst s) (xhtml_in_value s) (xhtml_in_instance s) (xhtml_in_subform s) (subform_tags s).
Definition set_select (e : option (list Z)) (first in_value : bool) (s : parse_state) : parse_state :=
  ParseState (recipes s) (head_r s) (curr_r s) (tags s) (head_t s) (curr_t s) (subforms s) (xhtmlFormName s) (xhtmlFormVersion s) (xhtml2template s)
    e first in_value (xhtml_in_instance s) (xhtml_in_subform s) (subform_tags s).
Definition set_instance (b : bool) (s : parse_state) : parse_state :=
  ParseState (recipes s) (head_r s) (curr_r s) (tags s) (head_t s) (curr_t s) (subforms s) (xhtmlFormName s) (xhtmlFormVersion s) (xhtml2template s)
    (xhtmlSelectElem s) (xhtmlSelectFirst s) (xhtml_in_value s) b (xhtml_in_subform s) (subform_tags s).

(** ** The lists *)
Definition set_r_next (n : option nat) (r : recipe_node) : recipe_node := RecipeNode (is_subform_node r) (formversion r) (recipe_text r) (selects r) n.
Definition set_text (t : list Z) (r : recipe_node) : recipe_node := RecipeNode (is_subform_node r) (formversion r) t (selects r) (r_next r).
Definition set_selects (l : list (list Z)) (r : recipe_node) : recipe_node := RecipeNode (is_subform_node r) (formversion r) (recipe_text r) l (r_next r).
Definition set_subform_node (b : bool) (r : recipe_node) : recipe_node := RecipeNode b (formversion r) (recipe_text r) (selects r) (r_next r).

(** [add_to_end] is true in all calls.  [None]: the version does not fit into the array of
    the node; the nodes of the other two lists are as large as their strings. *)
Definition VERSION_SIZE : Z := 1024.
Definition add_to_list_recipes (version : list Z) (s : parse_state) : option parse_state :=
  if VERSION_SIZE <=? Z.of_nat (length (cstr version)) then None
  else
    let new := length (recipes s) in
    Some (match curr_r s with
          | Some c =>
              set_recipes (alter (set_r_next (Some new)) c (recipes s) ++ [RecipeNode false (cstr version) [] [] None]) (head_r s) (Some new) s
          | None => set_recipes (recipes s ++ [RecipeNode false (cstr version) [] [] (head_r s)]) (Some new) (Some new) s
          end).
Definition add_to_list_tags (name version : list Z) (s : parse_state) : parse_state :=
  let new := length (tags s) in
  match curr_t s with
  | Some c =>
      set_tags (alter (fun t => TagNode (tagname t) (t_formversion t) (Some new)) c (tags s) ++ [TagNode (cstr name) (cstr version) None]) (head_t s) (Some new) s
  | None => set_tags (tags s ++ [TagNode (cstr name) (cstr version) (head_t s)]) (Some new) (Some new) s
  end.
Definition add_to_list_subforms (version : list Z) (s : parse_state) : parse_state :=
  set_subforms (cstr version :: subforms s) (xhtml_in_subform s) (subform_tags s) s.

(** the walks from the heads; a list has no more turns than there are nodes *)
Fixpoint search_recipes (fuel : nat) (l : list recipe_node) (p : option nat) (version : list Z) : option nat :=
  match fuel, p with
  | S fuel, Some i =>
      match l !! i with
      | Some r => if streq (formversion r) (cstr version) then Some i else search_recipes fuel l (r_next r) version
      | None => None
      end
  | _, _ => None
  end.
Definition search_in_list_recipes (version : list Z) (s : parse_state) : option nat :=
  search_recipes (S (length (recipes s))) (recipes s) (head_r s) version.
Fixpoint search_tags (fuel : nat) (l : list tag_node) (p : option nat) (name : list Z) : option nat :=
  match fuel, p with
  | S fuel, Some i =>
      match l !! i with
      | Some t => if streq (tagname t) (cstr name) then Some i else search_tags fuel l (t_next t) name
      | None => None
      end
  | _, _ => None
  end.
Definition search_in_list_tags (name : list Z) (s : parse_state) : option nat :=
  search_tags (S (length (tags s))) (tags s) (head_t s) name.

(** [state->curr_r->recipe] and [->selects]; [None]: a null pointer is followed *)
Definition on_recipe (f : recipe_node -> recipe_node) (s : parse_state) : option parse_state :=
  match curr_r s with
  | Some c => Some (set_recipes (alter f c (recipes s)) (head_r s) (curr_r s) s)
  | None => None
  end.
Definition recipe_grow (segment : list Z) : parse_state -> option parse_state := on_recipe (fun r => set_text (grow (recipe_text r) segment) r).
(** a line more in [selects]; [None] also when the array is full *)
Definition SELECTS_SIZE : Z := 1024.
Definition add_select_line (line : list Z) (s : parse_state) : option parse_state :=
  match curr_r s with
  | Some c =>
      match recipes s !! c with
      | Some r => if SELECTS_SIZE <=? Z.of_nat (length (selects r)) then None else on_recipe (fun r => set_selects (selects r ++ [line]) r) s
      | None => None
      end
  | None => None
  end.

(** ** The handlers *)
Definition nl (s : string) : list Z := codes s ++ [10].
Definition implied_meta_fields : list Z :=
  nl "userid:string:0:0:0" ++ nl "accesstoken:string:0:0:0" ++ nl "formid:string:0:0:0" ++ nl "lastsubmittime:magpitimestamp:0:0:0" ++
  nl "endrecordtime:magpitimestamp:0:0:0" ++ nl "startrecordtime:magpitimestamp:0:0:0" ++ nl "version:string:0:0:0" ++ nl "uuid:magpiuuid:0:0:0" ++
  nl "latitude:float:-90:90:0" ++ nl "longitude:float:-200:200:0".
Definition implied_meta_fields_subforms : list Z :=
  nl "formid:string:0:0:0" ++ nl "question:string:0:0:0" ++ nl "uuid:magpiuuid:0:0:0".
Definition implied_meta_fields_template_subform : list Z :=
  nl "<formid>$formid$</formid>" ++ nl "<question>$question$</question>".
Definition implied_data_fields_template_subform : list Z := nl "<uuid>$uuid$</uuid>".

Definition attributes := list (list Z * list Z).
Definition first_attribute (name : list Z) (attr : attributes) : option (list Z) :=
  match attr with (n, v) :: _ => if streq n name then Some v else None | [] => None end.

Local Open Scope succinct_scope.

(** an element inside of the instance; [None] also when [subform_tags] is full *)
Definition subform_starts (el id : list Z) (s : parse_state) : option parse_state :=
  opt s <- add_to_list_recipes id s ;;
  opt s <- recipe_grow implied_meta_fields_subforms s ;;
  opt s <- on_recipe (set_subform_node true) s ;;
  let s := add_to_list_subforms id s in
  let s := add_to_list_tags el id s in
  let depth := xhtml_in_subform s + 1 in
  opt s <- (if Z.of_nat MAXSUBFORMS <=? depth then None else Some s) ;;
  let s := set_subforms (subforms s) depth (<[Z.to_nat depth := cstr el]> (subform_tags s)) s in
  let s := template (codes "<dd:subform xmlns:dd=" ++ 34 :: codes "http://datadyne.org/javarosa" ++ 34 :: nl "> ") s in
  let s := template (nl "<meta> ") s in
  let s := template implied_meta_fields_template_subform s in
  let s := template (nl "</meta> ") s in
  let s := template (nl "<data> ") s in
  Some (template implied_data_fields_template_subform s).
Definition template_attributes (attr : attributes) (s : parse_state) : parse_state :=
  fold_left (fun s '(n, v) => template [34] (template v (template (codes "=" ++ [34]) (template n (template [32] s))))) attr s.
Definition field_starts (el : list Z) (attr : attributes) (s : parse_state) : parse_state :=
  let s := match subforms s with id :: _ => add_to_list_tags el id s | [] => s end in
  let s := template el (template [60] s) in
  let s := template_attributes attr s in
  template [36] (template el (template (codes ">$") s)).

(** [strrchr(path, '/')+1] *)
Definition after_last_slash (path : list Z) : option (list Z) :=
  if bool_decide (47 ∈ path) then Some (skipn (Z.to_nat (basename_start 0 0 path)) path) else None.
(** [strstr(s, ":")+1] when there is a colon *)
Definition after_colon (s : list Z) : list Z := match span_not 58 s with (_, _ :: rest) => rest | _ => s end.

Record bind := Bind { type : Z; node_name : list Z; node_constraint : list Z }.
(** the attributes of a bind element, in their order *)
Definition bind_nodeset (attr : attributes) (value : list Z) (b : bind) (s : parse_state) : option (bind * parse_state) :=
  match after_last_slash value with
  | None => None
  | Some name =>
      let t := search_in_list_tags name s in
      let s := set_tags (tags s) (head_t s) t s in
      let temp_type := fold_left (fun t '(n, v) => if starts (codes "type") n then v else t) attr [] in
      let s :=
        match t with
        | Some i =>
            if negb (strcaseeq temp_type (codes "xsd:subform")) then
              match tags s !! i with
              | Some node => set_recipes (recipes s) (head_r s) (search_in_list_recipes (t_formversion node) s) s
              | None => s
              end
            else s
        | None => s
        end in
      Some (Bind (type b) name (node_constraint b), s)
  end.
Definition bind_attribute (attr : attributes) (st : option (bind * parse_state)) (a : list Z * list Z) : option (bind * parse_state) :=
  let '(n, v) := a in
  opt (b, s) <- st ;;
  opt (b, s) <- (if starts (codes "nodeset") n then bind_nodeset attr v b s else Some (b, s)) ;;
  let b := if starts (codes "type") n then Bind (recipe_parse_fieldtype (after_colon v)) (node_name b) (node_constraint b) else b in
  let b := if starts (codes "constraint") n then Bind (type b) (node_name b) v else b in
  Some (b, s).

Fixpoint skip_while (p : Z -> bool) (s : list Z) : list Z :=
  match s with c :: s' => if p c then skip_while p s' else s | [] => [] end.
(** the first two numbers of a constraint; signs are not looked at *)
Definition constraint_range (c : list Z) : Z * Z :=
  let ptr := skip_while (fun c => negb (isdigit c)) c in
  let a := atoi ptr in
  let ptr := skip_while (fun c => negb (isdigit c)) (skip_while isdigit ptr) in
  let b := atoi ptr in
  let b := if b <=? a then i32 (a + 999) else b in
  (if a <? b then a else b, if a <? b then b else a).
Definition bind_range (b : bind) : Z * Z :=
  if (type b =? FIELDTYPE_INTEGER) || (type b =? FIELDTYPE_FIXEDPOINT) then
    match node_constraint b with [] => (0, 999) | c => constraint_range c end
  else (0, 0).

Definition bind_line (name : list Z) (type min max : Z) : list Z :=
  name ++ codes ":" ++ recipe_field_type_name type ++ codes ":" ++ show_int min ++ codes ":" ++ show_int max ++ codes ":0".
(** [sprintf] into [temp]; [None]: the array is overrun *)
Definition TEMP_SIZE : Z := 4096.
Definition into_temp (line : list Z) : option (list Z) := if TEMP_SIZE <=? Z.of_nat (length line) then None else Some line.
Definition bind_starts (attr : attributes) (s : parse_state) : option parse_state :=
  opt (b, s) <- fold_left (bind_attribute attr) attr (Some (Bind (-1) [] [], s)) ;;
  let b := if strcaseeq (node_name b) (codes "instanceID") then Bind FIELDTYPE_UUID (node_name b) (node_constraint b) else b in
  if type b =? -1 then Some s
  else
    let '(min, max) := bind_range b in
    opt temp <- (if type b =? FIELDTYPE_SUBFORM then
                  match curr_t s with
                  | Some i => opt t <- tags s !! i ;; into_temp (codes "subform/" ++ t_formversion t ++ codes ":subform:0:0:0")
                  | None => None
                  end
                else into_temp (bind_line (node_name b) (type b) min max)) ;;
    if (type b =? FIELDTYPE_MULTISELECT) || (type b =? FIELDTYPE_ENUM) then add_select_line temp s
    else opt s <- recipe_grow temp s ;; recipe_grow [10] s.

Definition select_starts (attr : attributes) (s : parse_state) : parse_state :=
  fold_left (fun s '(n, v) =>
    if strcaseeq (codes "bind") n then
      let last_slash := match after_last_slash v with Some name => name | None => v end in
      set_select (Some last_slash) true (xhtml_in_value s) s
    else s) attr s.
Definition model_starts (attr : attributes) (s : parse_state) : parse_state :=
  fold_left (fun s '(n, v) =>
    let s := if strcaseeq (codes "id") n then set_form (Some v) (xhtmlFormVersion s) s else s in
    if strcaseeq (codes "dd:formid") n then set_form (xhtmlFormName s) (Some v) s else s) attr s.

Definition is_el (names : list string) (el : list Z) : bool := existsb (fun n => strcaseeq (codes n) el) names.
Definition start_xhtml (el : list Z) (attr : attributes) (s : parse_state) : option parse_state :=
  opt s <- (match first_attribute (codes "dd:formid") attr with
           | Some id =>
               opt s <- add_to_list_recipes id s ;;
               opt s <- on_recipe (set_subform_node false) s ;;
               opt s <- recipe_grow implied_meta_fields s ;;
               Some (add_to_list_subforms id s)
           | None => Some s
           end) ;;
  if xhtml_in_instance s then
    match first_attribute (codes "dd:subformid") attr with
    | Some id => subform_starts el id s
    | None => Some (field_starts el attr s)
    end
  else if is_el ["bind"; "xf:bind"]%string el then bind_starts attr s
  else if is_el ["xf:select1"; "xf:select"]%string el then Some (select_starts attr s)
  else if bool_decide (is_Some (xhtmlSelectElem s)) && is_el ["value"; "xf:value"]%string el then
    Some (set_select (xhtmlSelectElem s) (xhtmlSelectFirst s) true s)
  else if is_el ["data"]%string el then Some (set_instance true s)
  else if is_el ["xf:model"]%string el then Some (model_starts attr s)
  else Some s.

(** the value goes to all selects of the recipe whose text begins with the name *)
Fixpoint add_value (elem x : list Z) (first : bool) (l : list (list Z)) : list (list Z) * bool :=
  match l with
  | [] => ([], first)
  | t :: l =>
      if starts elem t then
        let t := grow (grow t (if first then codes ":" else codes ",")) x in
        let '(l, first) := add_value elem x false l in (t :: l, first)
      else let '(l, first) := add_value elem x first l in (t :: l, first)
  end.
Definition characterdata_xhtml (text : list Z) (s : parse_state) : option parse_state :=
  match xhtmlSelectElem s with
  | Some elem =>
      if xhtml_in_value s then
        opt i <- search_in_list_tags elem s ;;
        opt node <- tags s !! i ;;
        opt r <- search_in_list_recipes (t_formversion node) s ;;
        opt recipe <- recipes s !! r ;;
        let '(l, first) := add_value elem text (xhtmlSelectFirst s) (selects recipe) in
        Some (set_select (Some elem) first true (set_recipes (alter (set_selects l) r (recipes s)) (head_r s) (Some r) s))
      else Some s
  | None => Some s
  end.

Definition subform_tag (s : parse_state) : list Z := nth (Z.to_nat (xhtml_in_subform s)) (subform_tags s) [].
Definition end_xhtml (el : list Z) (s : parse_state) : option parse_state :=
  let s := if bool_decide (is_Some (xhtmlSelectElem s)) && is_el ["xf:select1"; "xf:select"]%string el
           then set_select None (xhtmlSelectFirst s) (xhtml_in_value s) s else s in
  let s := if xhtml_in_value s && is_el ["value"; "xf:value"]%string el then set_select (xhtmlSelectElem s) (xhtmlSelectFirst s) false s else s in
  let s := if xhtml_in_instance s && is_el ["data"]%string el then set_instance false s else s in
  let inside := negb (xhtml_in_subform s =? 0) in
  let ends := strcaseeq (subform_tag s) el in
  let s := if (xhtml_in_instance s && negb inside) || ((xhtml_in_subform s >? 0) && negb ends)
           then template (codes ">" ++ [10]) (template el (template (codes "</") s)) else s in
  if inside && ends then
    let s := template (nl "</data>" ++ nl "</dd:subform>") s in
    match subforms s with
    | _ :: ((_ :: _) as around) => Some (set_subforms around (xhtml_in_subform s - 1) (subform_tags s) s)
    | _ => None
    end
  else Some s.

(** ** The whole form *)

(** what the parser calls the handlers for *)
Inductive event := StartElement (el : list Z) (attr : attributes) | EndElement (el : list Z) | CharacterData (text : list Z).
(** XML, and the calls for it: an element's content is between its own calls, and there
    is none for a text without characters *)
Inductive xml := Node (el : list Z) (attr : attributes) (content : list xml) | Chars (text : list Z).
Fixpoint node_events (x : xml) : list event :=
  match x with
  | Node el attr content => StartElement el attr :: flat_map node_events content ++ [EndElement el]
  | Chars [] => []
  | Chars text => [CharacterData text]
  end.
Definition handle (s : option parse_state) (e : event) : option parse_state :=
  opt s <- s ;;
  match e with
  | StartElement el attr => start_xhtml el attr s
  | EndElement el => end_xhtml el s
  | CharacterData text => characterdata_xhtml text s
  end.
Definition initial_state : parse_state :=
  ParseState [] None None [] None None [] None None [] None true false false 0 (repeat [] MAXSUBFORMS).

(** the recipes from [curr_r] on: the texts and the versions *)
Definition finished (r : recipe_node) : list Z := fold_left (fun t x => grow (grow t x) [10]) (selects r) (recipe_text r).
Fixpoint finish (fuel : nat) (l : list recipe_node) (p : option nat) : list (list Z * list Z) :=
  match fuel, p with
  | S fuel, Some i => match l !! i with Some r => (finished r, formversion r) :: finish fuel l (r_next r) | None => [] end
  | _, _ => []
  end.

(** what xhtmlToRecipe gives: a failure, nothing since a null pointer was followed or an
    array overrun, or the recipes and the template *)
Inductive converted := NotParsed | Crashed | Converted (texts : list (list Z * list Z)) (template : list Z).

(** [recipe_text] and [form_versions] of the callers *)
Definition RECIPES_SIZE : Z := 1024.
Section Convert.
(** expat: the calls that it makes for a text, and whether the text was well-formed *)
Variable XML_Parse : list Z -> list event * bool.
Definition xhtmlToRecipe (xmltext : list Z) : converted :=
  let '(events, ok) := XML_Parse xmltext in
  match fold_left handle events (Some initial_state) with
  | None => Crashed
  | Some s =>
      if ok then
        let texts := finish (S (length (recipes s))) (recipes s) (curr_r s) in
        if RECIPES_SIZE <? Z.of_nat (length texts) then Crashed else Converted texts (xhtml2template s)
      else NotParsed
  end.

(** *** The files of a form: names and contents, in the order in which they are written *)
Definition snprintf_1024 (s : list Z) : list Z := firstn 1023 s.
Definition implied_meta_fields_template : list Z :=
  nl "<userid>$userid$</userid>" ++ nl "<accesstoken>$accesstoken$</accesstoken>" ++ nl "<formid>$formid$</formid>" ++ nl "<lastsubmittime>$lastsubmittime$</lastsubmittime>" ++
  nl "<endrecordtime>$endrecordtime$</endrecordtime>" ++ nl "<startrecordtime>$startrecordtime$</startrecordtime>" ++ nl "<version>$version$</version>" ++ nl "<uuid>$uuid$</uuid>" ++
  nl "<geotag>" ++ nl "  <longitude>$longitude$</longitude>" ++ nl "  <latitude>$latitude$</latitude>" ++ nl "</geotag>".
Definition template_file (templatetext : list Z) : list Z :=
  (codes "<?xml version=" ++ 34 :: codes "1.0" ++ 34 :: codes " encoding=" ++ 34 :: codes "UTF-8" ++ 34 :: nl "?>") ++ nl "<form>" ++ nl "<meta>" ++
  implied_meta_fields_template ++ nl "</meta>" ++ nl "<data>" ++ templatetext ++ nl "</data>" ++ nl "</form>".
Definition MAXCHARS : Z := 1000000.
(** [input]: what is in the file, when it can be opened; the other files can be.  [None]: a
    null pointer is followed, or printed when there is no recipe or nothing in the
    template, or the terminator of a file that fills the buffer is written behind it. *)
Definition xhtml_recipe_create (recipe_dir : list Z) (input : option (list Z)) : option (Z * list (list Z * list Z)) :=
  match input with
  | None => Some (-1, [])
  | Some input =>
      if MAXCHARS <=? Z.of_nat (length input) then None
      else
      match xhtmlToRecipe (cstr input) with
      | NotParsed => Some (1, [])
      | Crashed | Converted [] _ | Converted _ [] => None
      | Converted (((_, version) :: _) as texts) template =>
          let recipe_file '(text, version) := (snprintf_1024 (recipe_dir ++ [47] ++ version ++ codes ".recipe"), text) in
          Some (0, map recipe_file texts ++ [(snprintf_1024 (recipe_dir ++ [47] ++ version ++ codes ".template"), template_file template)])
      end
  end.

Context `{M : Memory}.
(** recipe_read_from_specification: [None] when a null pointer is followed, as when
    the form has no recipe, or an array overrun *)
Definition recipe_read_from_specification (xmlform : list Z) : option (result recipe) :=
  match xhtmlToRecipe xmlform with
  | NotParsed => Some Null
  | Crashed => None
  | Converted [] _ => None
  | Converted ((text, version) :: _) _ => Some (recipe_read version text)
  end.
End Convert.

(** ** Evaluated *)
(** parsers that make the same calls for every text *)
Definition expat_gives (events : list event) : list Z -> list event * bool := fun _ => (events, true).
Definition leaf (name : string) : xml := Node (codes name) [] [].
Definition bind_el (path type : string) : xml := Node (codes "xf:bind") [(codes "nodeset", codes path); (codes "type", codes type)] [].
Definition value_el (parts : list string) : xml := Node (codes "xf:value") [] (map (fun t => Chars (codes t)) parts).
Definition select_el (name : string) (values : list (list string)) : xml := Node (codes "xf:select1") [(codes "bind", codes name)] (map value_el values).
Definition form_of (instance binds selects : list xml) : list event :=
  node_events (Node (codes "html") [] (Node (codes "xf:model") [(codes "id", codes "Visit")] (Node (codes "data") [(codes "dd:formid", codes "77")] instance :: binds) :: selects)).
Definition simple_form (values : list (list string)) : list event :=
  form_of [leaf "age"; leaf "sex"] [bind_el "/data/age" "xsd:int"; bind_el "/data/sex" "xsd:select1"] [select_el "sex" values].

Example simple_recipe : xhtmlToRecipe (expat_gives (simple_form [["m"]; ["f"]]%string)) [] =
  Converted [(implied_meta_fields ++ nl "age:integer:0:999:0" ++ nl "sex:enum:0:0:0:m,f", codes "77")] (nl "<age>$age$</age>" ++ nl "<sex>$sex$</sex>").
Proof. vm_compute. reflexivity. Qed.
(** A reference in a value, as in m&amp;f, makes expat give the value in three parts: each
    of them is taken for a value. *)
Example value_split : xhtmlToRecipe (expat_gives (simple_form [["m"; "&"; "f"]]%string)) [] =
  Converted [(implied_meta_fields ++ nl "age:integer:0:999:0" ++ nl "sex:enum:0:0:0:m,&,f", codes "77")] (nl "<age>$age$</age>" ++ nl "<sex>$sex$</sex>").
Proof. vm_compute. reflexivity. Qed.

(** an id that is too long for its node, a name too long for the line of its bind, a
    sub-form within nine others *)
Definition after (es : list event) : option parse_state := fold_left handle es (Some initial_state).
Definition data_of (n : nat) : list event := [StartElement (codes "data") [(codes "dd:formid", repeat 55 n)]].
Example version_overrun : after (data_of 1023) <> None /\ after (data_of 1024) = None.
Proof. vm_compute. split; [discriminate | reflexivity]. Qed.
Definition bind_of (n : nat) : list event :=
  data_of 2 ++ [StartElement (repeat 97 n) []; EndElement (repeat 97 n); EndElement (codes "data"); StartElement (codes "xf:bind") [(codes "nodeset", codes "/data/" ++ repeat 97 n); (codes "type", codes "xsd:string")]].
Example temp_overrun : after (bind_of 4084) <> None /\ after (bind_of 4085) = None.
Proof. vm_compute. split; [discriminate | reflexivity]. Qed.
Definition nested (n : nat) : list event := data_of 2 ++ map (fun i => StartElement (codes "sub") [(codes "dd:subformid", show_int (Z.of_nat i))]) (seq 0 n).
Example subforms_overrun : after (nested 9) <> None /\ after (nested 10) = None.
Proof. vm_compute. split; [discriminate | reflexivity]. Qed.

(** the recipe of the form is the first one only as long as the last field that was
    bound is its own *)
Definition subform_first : list event :=
  form_of [leaf "age"; Node (codes "kids") [(codes "dd:subformid", codes "78")] [leaf "name"]]
    [bind_el "/data/age" "xsd:int"; bind_el "/data/kids" "xsd:subform"; bind_el "/data/kids/name" "xsd:string"] [].
Definition subform_recipe : list Z * list Z := (implied_meta_fields_subforms ++ nl "name:text:0:0:0", codes "78").
Example recipe_after_form : match xhtmlToRecipe (expat_gives subform_first) [] with Converted texts _ => texts = [subform_recipe] | _ => False end.
Proof. vm_compute. reflexivity. Qed.
Example select_prefix :
  match xhtmlToRecipe (expat_gives (form_of [leaf "q1"; leaf "q10"] [bind_el "/data/q10" "select1"; bind_el "/data/q1" "select1"]
      [select_el "q1" [["a"]; ["b"]]; select_el "q10" [["x"]]]%string)) [] with
  | Converted [(text, _)] _ => text = implied_meta_fields ++ nl "q10:enum:0:0:0:a,b:x" ++ nl "q1:enum:0:0:0,a,b"
  | _ => False
  end.
Proof. vm_compute. reflexivity. Qed.
