(* ===== verification/XmlReader.v ===== *)
(** A reader of XML, to evaluate the form code on documents: it makes the calls that expat
    makes for elements, attributes, references and texts, and refuses a text that is not
    one element with everything closed.  It is a concrete instance of the parameter
    XML_Parse of Xhtml.v, for the witnesses; expat itself is not modelled. *)
From Stdlib Require Import String.
From S2P Require Import Prelude Charset CString Dexml Xhtml.
Local Open Scope Z_scope.
Local Open Scope succinct_scope.

(** characters, and whether a reference stands for them *)
Fixpoint units (s : list Z) : list (bool * Z) :=
  match s with
  | 38 :: 108 :: 116 :: 59 :: s => (true, 60) :: units s
  | 38 :: 103 :: 116 :: 59 :: s => (true, 62) :: units s
  | 38 :: 97 :: 109 :: 112 :: 59 :: s => (true, 38) :: units s
  | c :: s => (false, c) :: units s
  | [] => []
  end.
(** a text is given in parts: references and ends of lines are parts of their own *)
Fixpoint text_calls (part : list Z) (us : list (bool * Z)) : list event :=
  match us with
  | [] => node_events (Chars part)
  | (r, c) :: us => if r || (c =? 10) then node_events (Chars part) ++ CharacterData [c] :: text_calls [] us else text_calls (part ++ [c]) us
  end.

Definition blank_char (c : Z) : bool := (c =? 32) || ((9 <=? c) && (c <=? 10)) || (c =? 13).
Fixpoint span_name (s : list Z) : list Z * list Z :=
  match s with
  | c :: s' => if blank_char c then ([], s) else let '(n, rest) := span_name s' in (c :: n, rest)
  | [] => ([], [])
  end.
(** names and values, in quotes of either kind *)
Fixpoint xml_attributes (fuel : nat) (s : list Z) : option attributes :=
  match fuel, skip_while blank_char s with
  | _, [] => Some []
  | O, _ => None
  | S fuel, s =>
      match span_not 61 s with
      | (name, _ :: quote :: s) =>
          match span_not quote s with
          | (value, _ :: s) => opt l <- xml_attributes fuel s ;; Some ((name, map snd (units value)) :: l)
          | _ => None
          end
      | _ => None
      end
  end.

(** what is between < and >, among the elements that are open; [root]: there was one *)
Definition read_tag (tag : list Z) (open : list (list Z)) (root : bool) : option (list event * list (list Z) * bool) :=
  match tag with
  | 63 :: _ => Some ([], open, root)
  | 47 :: name => match open with n :: open => if streq n name then Some ([EndElement name], open, root) else None | [] => None end
  | _ =>
      if root && bool_decide (open = []) then None
      else
        let closed := last tag 0 =? 47 in
        let '(name, rest) := span_name (if closed then removelast tag else tag) in
        opt attr <- xml_attributes (length rest) rest ;;
        Some (if closed then ([StartElement name attr; EndElement name], open, true) else ([StartElement name attr], name :: open, true))
  end.
Inductive place := InText | InTag (quote : option Z).
Definition calls (es : list event) (r : list event * bool) : list event * bool := (es ++ fst r, snd r).
Fixpoint read_xml (p : place) (part : list Z) (open : list (list Z)) (root : bool) (s : list Z) : list event * bool :=
  match s, p with
  | [], InText => ([], root && bool_decide (open = []) && forallb blank_char part)
  | [], InTag _ => ([], false)
  | c :: s, InText =>
      if c =? 60 then
        match open with
        | [] => if forallb blank_char part then read_xml (InTag None) [] open root s else ([], false)
        | _ => calls (text_calls [] (units part)) (read_xml (InTag None) [] open root s)
        end
      else read_xml InText (part ++ [c]) open root s
  | c :: s, InTag None =>
      if c =? 62 then
        match read_tag part open root with
        | Some (es, open, root) => calls es (read_xml InText [] open root s)
        | None => ([], false)
        end
      else read_xml (InTag (if (c =? 34) || (c =? 39) then Some c else None)) (part ++ [c]) open root s
  | c :: s, InTag (Some q) => read_xml (InTag (if c =? q then None else Some q)) (part ++ [c]) open root s
  end.
Definition read_document (text : list Z) : list event * bool := read_xml InText [] [] false text.

Example document_read : read_document (codes "<?xml version='1.0'?><a k='x &lt; y'>m&amp;n<b/></a>") =
  ([StartElement (codes "a") [(codes "k", codes "x < y")]; CharacterData (codes "m"); CharacterData (codes "&"); CharacterData (codes "n");
    StartElement (codes "b") []; EndElement (codes "b"); EndElement (codes "a")], true).
Proof. vm_compute. reflexivity. Qed.
Example document_refused : map (fun t => snd (read_document (codes t))) ["<a/><b/>"; "<a></b>"; "<a>"; ""; "x<a/>"]%string = [false; false; false; false; false].
Proof. vm_compute. reflexivity. Qed.
