(* ===== verification/XhtmlRun.v ===== *)
(** xhtml2recipe.c: the run of the handlers over the definition of a form, with its
    sub-forms: the instance, the binds and the selects. *)
From Stdlib Require Import String.
From S2P Require Import Prelude Charset CString BlockHash Md5 Recipe RecipeText RecipeRead Dexml Xhtml.
Local Open Scope Z_scope.
Local Open Scope succinct_scope.

(** ** Forms *)
Record question := Question { q_name : list Z; q_type : list Z; q_constraint : list Z; q_values : list (list Z * list Z) (* labels and values *) }.
Definition q_bind (q : question) : bind := Bind (recipe_parse_fieldtype (after_colon (q_type q))) (q_name q) (q_constraint q).
Definition q_code (q : question) : Z := type (q_bind q).
Definition is_select (q : question) : bool := (q_code q =? FIELDTYPE_MULTISELECT) || (q_code q =? FIELDTYPE_ENUM).
Definition q_field (q : question) : field :=
  let '(min, max) := bind_range (q_bind q) in
  let values := if is_select q then map snd (q_values q) else [] in
  Field (q_name q) (q_code q) min max 0 values (Z.of_nat (length values)).
Definition q_line (q : question) : list Z := field_head (q_field q).

Definition instance_events (q : question) : list event := [StartElement (q_name q) []; EndElement (q_name q)].
Definition bind_events (q : question) : list event :=
  [StartElement (codes "xf:bind") [(codes "nodeset", codes "/data/" ++ q_name q); (codes "type", q_type q); (codes "constraint", q_constraint q)]; EndElement (codes "xf:bind")].
Definition item_events (lv : list Z * list Z) : list event :=
  StartElement (codes "xf:item") [] :: StartElement (codes "xf:label") [] :: node_events (Chars lv.1) ++
  [EndElement (codes "xf:label"); StartElement (codes "xf:value") []] ++ node_events (Chars lv.2) ++ [EndElement (codes "xf:value"); EndElement (codes "xf:item")].
Definition select_events (q : question) : list event :=
  StartElement (codes "xf:select1") [(codes "bind", q_name q)] :: flat_map item_events (q_values q) ++ [EndElement (codes "xf:select1")].
Record question_ok (q : question) : Prop := {
  qo_field : field_printable (q_field q);
  qo_path : 47 ∉ q_name q;
  qo_words : strcaseeq (codes "data") (q_name q) = false /\ strcaseeq (q_name q) (codes "instanceID") = false;
  qo_type : q_code q <> FIELDTYPE_SUBFORM /\ strcaseeq (q_type q) (codes "xsd:subform") = false;
  qo_line : Z.of_nat (length (q_line q)) < TEMP_SIZE;
  qo_values : Forall (fun lv => lv.2 <> []) (q_values q)
}.

Lemma q_field_name q : f_name (q_field q) = q_name q.
Proof. unfold q_field. by destruct (bind_range _). Qed.
Lemma q_field_type q : f_type (q_field q) = q_code q.
Proof. unfold q_field. by destruct (bind_range _). Qed.
Lemma qo_plain q : question_ok q -> plain (q_name q).
Proof. intros [[_ [H _] _ _] _ _ _ _ _]. by rewrite q_field_name in H. Qed.
Lemma head_plain f : field_printable f -> plain (field_head f).
Proof. intros H%print_field_plain. rewrite print_field_head in H. by apply Forall_app in H as [H _]. Qed.
Lemma bind_line_head q : bind_line (q_name q) (q_code q) (f_minimum (q_field q)) (f_maximum (q_field q)) = q_line q.
Proof. unfold q_line, bind_line, field_head, q_field. by destruct (bind_range _). Qed.

(** a part of a form: questions, and the sub-form that comes after them *)
Record section := Section_ { before : list question; s_tag : list Z; s_id : list Z; s_questions : list question }.
Definition bind_at (d : list Z) (q : question) : list event :=
  [StartElement (codes "xf:bind") [(codes "nodeset", d ++ 47 :: q_name q); (codes "type", q_type q); (codes "constraint", q_constraint q)]; EndElement (codes "xf:bind")].
Definition section_instance (s : section) : list event :=
  flat_map instance_events (before s) ++ StartElement (s_tag s) [(codes "dd:subformid", s_id s)] :: flat_map instance_events (s_questions s) ++ [EndElement (s_tag s)].
Definition section_binds (s : section) : list event :=
  flat_map bind_events (before s) ++
  [StartElement (codes "xf:bind") [(codes "nodeset", codes "/data/" ++ s_tag s); (codes "type", codes "xsd:subform")]; EndElement (codes "xf:bind")] ++
  flat_map (bind_at (codes "/data/" ++ s_tag s)) (s_questions s).
Definition section_selects (s : section) : list event := flat_map select_events (List.filter is_select (before s) ++ List.filter is_select (s_questions s)).

(** A form with sub-forms, and the questions after the last one: a document with one root,
    as expat asks for. *)
Definition question_node (q : question) : xml := Node (q_name q) [] [].
Definition section_nodes (s : section) : list xml := map question_node (before s) ++ [Node (s_tag s) [(codes "dd:subformid", s_id s)] (map question_node (s_questions s))].
Definition bind_node (d : list Z) (q : question) : xml :=
  Node (codes "xf:bind") [(codes "nodeset", d ++ 47 :: q_name q); (codes "type", q_type q); (codes "constraint", q_constraint q)] [].
Definition section_bind_nodes (s : section) : list xml :=
  map (bind_node (codes "/data")) (before s) ++ Node (codes "xf:bind") [(codes "nodeset", codes "/data/" ++ s_tag s); (codes "type", codes "xsd:subform")] [] ::
  map (bind_node (codes "/data/" ++ s_tag s)) (s_questions s).
Definition item_node (lv : list Z * list Z) : xml := Node (codes "xf:item") [] [Node (codes "xf:label") [] [Chars lv.1]; Node (codes "xf:value") [] [Chars lv.2]].
Definition select_node (q : question) : xml := Node (codes "xf:select1") [(codes "bind", q_name q)] (map item_node (q_values q)).
Definition whole_document (name id : list Z) (secs : list section) (qs : list question) : xml :=
  Node (codes "h:html") [] [
    Node (codes "h:head") [] [
      Node (codes "xf:model") [(codes "id", name)]
        (Node (codes "data") [(codes "dd:formid", id)] (flat_map section_nodes secs ++ map question_node qs) ::
         flat_map section_bind_nodes secs ++ map (bind_node (codes "/data")) qs)];
    Node (codes "h:body") []
      (map select_node (flat_map (fun s => List.filter is_select (before s) ++ List.filter is_select (s_questions s)) secs ++ List.filter is_select qs))].
Definition whole_events (name id : list Z) (secs : list section) (qs : list question) : list event := node_events (whole_document name id secs qs).

Lemma flat_map_ext_eq {A B} (f g : A -> list B) l : (forall x, f x = g x) -> flat_map f l = flat_map g l.
Proof. intros H. by apply flat_map_ext. Qed.
Lemma flat_map_flat_map {A B C} (f : A -> list B) (g : B -> list C) l : flat_map g (flat_map f l) = flat_map (fun x => flat_map g (f x)) l.
Proof. induction l as [|x l IH]; [done|]. cbn [flat_map]. by rewrite flat_map_app, IH. Qed.
Lemma item_node_events lv : node_events (item_node lv) = item_events lv.
Proof. unfold item_node, item_events. cbn [node_events flat_map app]. by repeat (rewrite ?app_nil_r, <- ?app_assoc; cbn [app]). Qed.
Lemma select_node_events q : node_events (select_node q) = select_events q.
Proof. unfold select_node, select_events. cbn [node_events]. by rewrite flat_map_of_map, (flat_map_ext_eq _ _ _ item_node_events). Qed.
Lemma questions_events qs : flat_map node_events (map question_node qs) = flat_map instance_events qs.
Proof. by rewrite flat_map_of_map. Qed.
Lemma binds_events d qs : flat_map node_events (map (bind_node d) qs) = flat_map (bind_at d) qs.
Proof. by rewrite flat_map_of_map. Qed.
Lemma section_nodes_events s : flat_map node_events (section_nodes s) = section_instance s.
Proof. unfold section_nodes, section_instance. rewrite flat_map_app, questions_events. cbn [flat_map node_events]. by rewrite questions_events, app_nil_r. Qed.
Lemma section_bind_nodes_events s : flat_map node_events (section_bind_nodes s) = section_binds s.
Proof. unfold section_bind_nodes, section_binds. rewrite flat_map_app, binds_events. cbn [flat_map node_events app]. by rewrite binds_events. Qed.
(** the calls in their order *)
Lemma whole_events_order name id secs qs : whole_events name id secs qs =
  [StartElement (codes "h:html") []; StartElement (codes "h:head") []; StartElement (codes "xf:model") [(codes "id", name)]; StartElement (codes "data") [(codes "dd:formid", id)]] ++
  flat_map section_instance secs ++ flat_map instance_events qs ++ [EndElement (codes "data")] ++
  flat_map section_binds secs ++ flat_map bind_events qs ++ [EndElement (codes "xf:model"); EndElement (codes "h:head"); StartElement (codes "h:body") []] ++
  flat_map section_selects secs ++ flat_map select_events (List.filter is_select qs) ++ [EndElement (codes "h:body"); EndElement (codes "h:html")].
Proof.
  unfold whole_events, whole_document. cbn [node_events flat_map]. rewrite !flat_map_app, !flat_map_flat_map, !questions_events, !binds_events.
  rewrite (flat_map_ext_eq _ _ secs section_nodes_events), (flat_map_ext_eq _ _ secs section_bind_nodes_events).
  rewrite map_app, flat_map_app, !flat_map_of_map, !(flat_map_ext_eq _ _ _ select_node_events), flat_map_flat_map.
  change (flat_map (bind_at (codes "/data")) qs) with (flat_map bind_events qs). change (flat_map (fun x => flat_map select_events _) secs) with (flat_map section_selects secs).
  cbn [app]. repeat (rewrite <- ?app_assoc; cbn [app]). reflexivity.
Qed.

(** ** The lists of the parser *)

(** what the recipe of a form has so far *)
Record form_state := FormState { fs_sub : bool; fs_id : list Z; fs_text : list Z; fs_selects : list (list Z) }.
Definition next_of (n j : nat) : option nat := if decide (S j = n) then None else Some (S j).
Definition node_of (n j : nat) (f : form_state) : recipe_node := RecipeNode (fs_sub f) (fs_id f) (fs_text f) (fs_selects f) (next_of n j).
Definition nodes (fs : list form_state) : list recipe_node := imap (node_of (length fs)) fs.
Definition tag_of (n j : nat) (t : list Z * list Z) : tag_node := TagNode (fst t) (snd t) (next_of n j).
Definition tag_nodes (ts : list (list Z * list Z)) : list tag_node := imap (tag_of (length ts)) ts.

Lemma length_nodes fs : length (nodes fs) = length fs.
Proof. apply length_imap. Qed.
Lemma length_tag_nodes ts : length (tag_nodes ts) = length ts.
Proof. apply length_imap. Qed.
Lemma nodes_lookup fs j : nodes fs !! j = node_of (length fs) j <$> fs !! j.
Proof. apply list_lookup_imap. Qed.
Lemma tag_nodes_lookup ts j : tag_nodes ts !! j = tag_of (length ts) j <$> ts !! j.
Proof. apply list_lookup_imap. Qed.
Lemma alter_nodes g h j fs : (forall n f, g (node_of n j f) = node_of n j (h f)) -> alter g j (nodes fs) = nodes (alter h j fs).
Proof.
  intros H. apply list_eq. intros i. rewrite list_lookup_alter, !nodes_lookup, list_lookup_alter, length_alter. case_decide as E; [|done]. subst i.
  destruct (fs !! j); cbn [fmap option_fmap option_map]; [by rewrite H | done].
Qed.
(** adding at the end: the old last node gets the number of the new one *)
Lemma imap_snoc {A B} (f : nat -> nat -> A -> B) (g : nat -> B -> B) (l : list A) (x : A) : l <> [] ->
  (forall i y, (S i < length l)%nat -> f (length l) i y = f (S (length l)) i y) -> (forall i y, S i = length l -> g (length l) (f (length l) i y) = f (S (length l)) i y) ->
  alter (g (length l)) (length l - 1)%nat (imap (f (length l)) l) ++ [f (S (length l)) (length l) x] = imap (f (length (l ++ [x]))) (l ++ [x]).
Proof.
  intros Hne H1 H2. rewrite imap_app, length_app. cbn [length imap]. rewrite Nat.add_1_r, Nat.add_0_r. f_equal.
  apply list_eq. intros i. rewrite list_lookup_alter, !list_lookup_imap. assert (length l <> 0)%nat by (by destruct l).
  case_decide as E; [subst i; set (i := (length l - 1)%nat) in *|]; destruct (l !! i) as [z|] eqn:Ei; cbn [fmap option_fmap option_map]; [|done| |done]; apply lookup_lt_Some in Ei; [by rewrite H2 by lia | by rewrite H1 by lia].
Qed.
Lemma nodes_snoc fs f : fs <> [] -> alter (set_r_next (Some (length fs))) (length fs - 1)%nat (nodes fs) ++ [RecipeNode (fs_sub f) (fs_id f) (fs_text f) (fs_selects f) None] = nodes (fs ++ [f]).
Proof.
  intros Hne. unfold nodes. rewrite <- (imap_snoc node_of (fun n => set_r_next (Some n))) by (try done; intros i y Hi; unfold node_of, set_r_next, next_of; cbn; rewrite ?decide_False by lia; by rewrite ?Hi).
  f_equal. unfold node_of, next_of. by rewrite decide_True.
Qed.
Lemma tag_nodes_snoc ts k v : ts <> [] ->
  alter (fun t => TagNode (tagname t) (t_formversion t) (Some (length ts))) (length ts - 1)%nat (tag_nodes ts) ++ [TagNode k v None] = tag_nodes (ts ++ [(k, v)]).
Proof.
  intros Hne. unfold tag_nodes. rewrite <- (imap_snoc tag_of (fun n t => TagNode (tagname t) (t_formversion t) (Some n))) by (try done; intros i y Hi; unfold tag_of, next_of; cbn; rewrite ?decide_False by lia; by rewrite ?Hi).
  f_equal. unfold tag_of, next_of. by rewrite decide_True.
Qed.

(** the walks find the first node *)
Lemma next_of_in n j : (S j < n)%nat -> next_of n j = Some (S j).
Proof. intros H. unfold next_of. by rewrite decide_False by lia. Qed.
Lemma search_nodes v fs j f : no_nul v -> fs !! j = Some f -> fs_id f = v -> (forall i g, (i < j)%nat -> fs !! i = Some g -> fs_id g <> v) ->
  forall d fuel i, (j = i + d)%nat -> (d < fuel)%nat -> search_recipes fuel (nodes fs) (Some i) v = Some j.
Proof.
  intros Hv Hj Hid Hfirst. induction d as [|d IH]; intros fuel i Hi Hf; (destruct fuel as [|fuel]; [lia|]); cbn [search_recipes]; rewrite nodes_lookup, (cstr_id v) by done.
  - assert (i = j) as -> by lia. rewrite Hj. cbn [fmap option_fmap option_map node_of formversion]. rewrite Hid. unfold streq. by rewrite bool_decide_true.
  - pose proof (lookup_lt_Some _ _ _ Hj). destruct (lookup_lt_is_Some_2 fs i ltac:(lia)) as [g Hg]. rewrite Hg. cbn [fmap option_fmap option_map node_of formversion r_next].
    unfold streq. rewrite bool_decide_false by (apply (Hfirst i g); [lia | done]). rewrite next_of_in by lia. apply IH; lia.
Qed.
Lemma search_tag_nodes k ts j v : no_nul k -> ts !! j = Some (k, v) -> (forall i t, (i < j)%nat -> ts !! i = Some t -> fst t <> k) ->
  forall d fuel i, (j = i + d)%nat -> (d < fuel)%nat -> search_tags fuel (tag_nodes ts) (Some i) k = Some j.
Proof.
  intros Hk Hj Hfirst. induction d as [|d IH]; intros fuel i Hi Hf; (destruct fuel as [|fuel]; [lia|]); cbn [search_tags]; rewrite tag_nodes_lookup, (cstr_id k) by done.
  - assert (i = j) as -> by lia. rewrite Hj. cbn [fmap option_fmap option_map tag_of tagname fst]. unfold streq. by rewrite bool_decide_true.
  - pose proof (lookup_lt_Some _ _ _ Hj). destruct (lookup_lt_is_Some_2 ts i ltac:(lia)) as [t Ht]. rewrite Ht. cbn [fmap option_fmap option_map tag_of tagname t_next].
    unfold streq. rewrite bool_decide_false by (apply (Hfirst i t); [lia | done]). rewrite next_of_in by lia. apply IH; lia.
Qed.
Lemma nodup_first {A B} (f : A -> B) (l : list A) j x : NoDup (map f l) -> l !! j = Some x -> forall i y, (i < j)%nat -> l !! i = Some y -> f y <> f x.
Proof.
  intros Hnd Hj i y Hi Hy E. pose proof (NoDup_lookup (map f l) i j (f x) Hnd) as H. rewrite !list_lookup_fmap, Hy, Hj in H. cbn in H. rewrite E in H. specialize (H eq_refl eq_refl). lia.
Qed.

(** ** The states of a run *)
Definition head_of {A} (ts : list A) : option nat := match ts with [] => None | _ => Some 0%nat end.
Definition last_of {A} (ts : list A) : option nat := match ts with [] => None | _ => Some (length ts - 1)%nat end.
Section Form.
Variable name : list Z.
Definition st (fs : list form_state) (cr : nat) (ts : list (list Z * list Z)) (ct : option nat) (subf : list (list Z)) (tpl : list Z) (elem : option (list Z)) (first in_value inst : bool) (depth : Z) (subs : list (list Z)) : parse_state :=
  ParseState (nodes fs) (Some 0%nat) (Some cr) (tag_nodes ts) (head_of ts) ct subf (Some name) None tpl elem first in_value inst depth subs.
#[local] Ltac fields := cbn [xhtml2template recipes head_r curr_r tags head_t curr_t subforms xhtmlFormName xhtmlFormVersion xhtmlSelectElem xhtmlSelectFirst
  xhtml_in_value xhtml_in_instance xhtml_in_subform subform_tags].

Lemma add_tag k v fs cr ts subf tpl elem first w inst depth subs : no_nul k -> no_nul v ->
  add_to_list_tags k v (st fs cr ts (last_of ts) subf tpl elem first w inst depth subs) = st fs cr (ts ++ [(k, v)]) (last_of (ts ++ [(k, v)])) subf tpl elem first w inst depth subs.
Proof.
  intros Hk Hv. unfold add_to_list_tags. cbn [st curr_t tags head_t]. rewrite !cstr_id by done. destruct ts as [|t ts]; [done|].
  cbn [last_of]. unfold set_tags, st. fields. rewrite length_tag_nodes, tag_nodes_snoc by done. cbn [app head_of last_of length]. rewrite length_app. cbn [length].
  by replace (S (length ts + 1) - 1)%nat with (S (length ts)) by lia.
Qed.
Definition version_ok (v : list Z) : Prop := no_nul v /\ Z.of_nat (length v) < VERSION_SIZE.
Lemma version_fits v : version_ok v -> (VERSION_SIZE <=? Z.of_nat (length (cstr v))) = false.
Proof. intros [Hv Hl]. rewrite cstr_id by done. by apply Z.leb_gt. Qed.
Lemma add_recipe v fs ts ct subf tpl elem first w inst depth subs : version_ok v -> fs <> [] ->
  add_to_list_recipes v (st fs (length fs - 1) ts ct subf tpl elem first w inst depth subs) =
  Some (st (fs ++ [FormState false v [] []]) (length fs) ts ct subf tpl elem first w inst depth subs).
Proof.
  intros Hok Hne. unfold add_to_list_recipes. rewrite version_fits by done. destruct Hok as [Hv _]. cbn [st curr_r recipes head_r]. unfold set_recipes, st. fields. rewrite length_nodes, cstr_id by done.
  pose proof (nodes_snoc fs (FormState false v [] []) Hne) as E. cbn [fs_sub fs_id fs_text fs_selects] in E. by rewrite E.
Qed.
Lemma on_recipe_st g h fs cr ts ct subf tpl elem first w inst depth subs : (forall n f, g (node_of n cr f) = node_of n cr (h f)) ->
  on_recipe g (st fs cr ts ct subf tpl elem first w inst depth subs) = Some (st (alter h cr fs) cr ts ct subf tpl elem first w inst depth subs).
Proof. intros H. unfold on_recipe. cbn [st curr_r recipes head_r]. unfold set_recipes, st. fields. by rewrite (alter_nodes g h). Qed.
(** the array has room for a line *)
Definition room_in (f : form_state) (n : Z) : Prop := Z.of_nat (length (fs_selects f)) + n <= SELECTS_SIZE.
Lemma into_temp_fits line : Z.of_nat (length line) < TEMP_SIZE -> into_temp line = Some line.
Proof. intros H. unfold into_temp. by destruct (Z.leb_spec TEMP_SIZE (Z.of_nat (length line))); [lia|]. Qed.
Definition add_text (line : list Z) (f : form_state) : form_state := FormState (fs_sub f) (fs_id f) (fs_text f ++ line) (fs_selects f).
Definition add_select (line : list Z) (f : form_state) : form_state := FormState (fs_sub f) (fs_id f) (fs_text f) (fs_selects f ++ [line]).
Lemma add_select_line_st line f fs cr ts ct subf tpl elem first w inst depth subs : fs !! cr = Some f -> room_in f 1 ->
  add_select_line line (st fs cr ts ct subf tpl elem first w inst depth subs) = Some (st (alter (add_select line) cr fs) cr ts ct subf tpl elem first w inst depth subs).
Proof.
  intros Hf Hroom. unfold add_select_line. cbn [st curr_r recipes]. rewrite nodes_lookup, Hf. cbn [fmap option_fmap option_map node_of selects].
  unfold room_in in Hroom. destruct (Z.leb_spec SELECTS_SIZE (Z.of_nat (length (fs_selects f)))); [lia|]. by apply on_recipe_st.
Qed.
Lemma grow_app t s : no_nul s -> grow t s = t ++ s.
Proof. intros H. unfold grow. by rewrite cstr_id. Qed.
Lemma recipe_grow_st seg fs cr ts ct subf tpl elem first w inst depth subs : no_nul seg ->
  recipe_grow seg (st fs cr ts ct subf tpl elem first w inst depth subs) = Some (st (alter (add_text seg) cr fs) cr ts ct subf tpl elem first w inst depth subs).
Proof. intros H. apply on_recipe_st. intros n f. unfold set_text, node_of. cbn [is_subform_node formversion recipe_text selects r_next]. by rewrite grow_app. Qed.

(** ** The instance *)
Definition q_template (q : question) : list Z := [60] ++ q_name q ++ codes ">$" ++ q_name q ++ [36] ++ codes "</" ++ q_name q ++ [62; 10].
Definition sub_head : list Z :=
  codes "<dd:subform xmlns:dd=" ++ 34 :: codes "http://datadyne.org/javarosa" ++ 34 :: nl "> " ++ nl "<meta> " ++ implied_meta_fields_template_subform ++
  nl "</meta> " ++ nl "<data> " ++ implied_data_fields_template_subform.
Definition sub_end : list Z := nl "</data>" ++ nl "</dd:subform>".
Definition section_template (s : section) : list Z := flat_map q_template (before s) ++ sub_head ++ flat_map q_template (s_questions s) ++ sub_end.
Lemma no_nul_check s : forallb (fun c => negb (c =? 0)) s = true -> no_nul s.
Proof. intros H Hin%list_elem_of_In. rewrite forallb_forall in H. by specialize (H 0 Hin). Qed.

Lemma run_start el attr es s : fold_left handle (StartElement el attr :: es) (Some s) = fold_left handle es (start_xhtml el attr s).
Proof. done. Qed.
Lemma run_end el es s : fold_left handle (EndElement el :: es) (Some s) = fold_left handle es (end_xhtml el s).
Proof. done. Qed.
Lemma run_text x es s : x <> [] -> fold_left handle (node_events (Chars x) ++ es) (Some s) = fold_left handle es (characterdata_xhtml x s).
Proof. by destruct x. Qed.
(** a text that is not for a select *)
Lemma run_ignored x es s : xhtml_in_value s = false -> fold_left handle (node_events (Chars x) ++ es) (Some s) = fold_left handle es (Some s).
Proof. intros H. destruct x as [|c x]; [done|]. cbn [node_events app fold_left handle]. unfold characterdata_xhtml. rewrite H. by destruct (xhtmlSelectElem s). Qed.
Lemma run_none s : fold_left handle [] s = s.
Proof. done. Qed.
Lemma start_field el i s : xhtml_in_instance s = true -> head (subforms s) = Some i ->
  start_xhtml el [] s = Some (template [36] (template el (template (codes ">$") (template el (template [60] (add_to_list_tags el i s)))))).
Proof.
  intros E3 E4. unfold start_xhtml. cbn [first_attribute]. rewrite E3. unfold field_starts. destruct (subforms s) as [|? ?]; [done|]. cbn [head] in E4. by injection E4 as ->.
Qed.
Lemma end_field el s : xhtmlSelectElem s = None -> xhtml_in_value s = false -> xhtml_in_instance s = true -> 0 <= xhtml_in_subform s ->
  (xhtml_in_subform s <> 0 -> strcaseeq (subform_tag s) el = false) -> strcaseeq (codes "data") el = false ->
  end_xhtml el s = Some (template (codes ">" ++ [10]) (template el (template (codes "</") s))).
Proof.
  intros E1 E2 E3 Hd Hends Hdata. assert (is_el ["data"%string] el = false) as Hel by (unfold is_el; cbn [existsb]; by rewrite Hdata).
  unfold end_xhtml. cbv zeta. rewrite E1, (bool_decide_false (is_Some None)) by (intros [? [=]]). cbv iota beta delta [andb]. rewrite E2. cbv iota beta.
  rewrite E3, Hel. cbv iota beta. rewrite E3. destruct (Z.eqb_spec (xhtml_in_subform s) 0) as [E|E]; [done|]. rewrite (Hends E).
  destruct (Z.gtb_spec (xhtml_in_subform s) 0); [done | lia].
Qed.
Lemma template_st seg fs cr ts ct subf tpl elem first w inst depth subs : no_nul seg ->
  template seg (st fs cr ts ct subf tpl elem first w inst depth subs) = st fs cr ts ct subf (tpl ++ seg) elem first w inst depth subs.
Proof. intros H. unfold template, st. fields. by rewrite grow_app. Qed.

(** the questions of a form: [v] is its version, [outer] what is around it *)
Lemma instance_run qs v outer depth subs : no_nul v -> 0 <= depth -> Forall question_ok qs ->
  Forall (fun q => depth <> 0 -> strcaseeq (nth (Z.to_nat depth) subs []) (q_name q) = false) qs -> forall fs cr ts tpl,
  fold_left handle (flat_map instance_events qs) (Some (st fs cr ts (last_of ts) (v :: outer) tpl None true false true depth subs)) =
  Some (st fs cr (ts ++ map (fun q => (q_name q, v)) qs) (last_of (ts ++ map (fun q => (q_name q, v)) qs)) (v :: outer) (tpl ++ flat_map q_template qs) None true false true depth subs).
Proof.
  intros Hv Hd. induction qs as [|q qs IH]; intros Hok Htag fs cr ts tpl; [cbn [flat_map map fold_left]; by rewrite !app_nil_r|].
  apply Forall_cons_iff in Hok as [Hq Hok]. apply Forall_cons_iff in Htag as [Ht Htag]. pose proof (plain_no_nul _ (qo_plain q Hq)) as Hn.
  cbn [flat_map map]. rewrite fold_left_app. unfold instance_events at 2. rewrite run_start, (start_field _ v) by done. rewrite add_tag by done.
  rewrite !template_st by (done || by apply no_nul_check). rewrite run_end, end_field, run_none by (done || apply Hq). rewrite !template_st by (done || by apply no_nul_check).
  replace (_ ++ codes ">" ++ [10]) with (tpl ++ q_template q) by (unfold q_template; by rewrite <- !app_assoc). rewrite IH by done. by rewrite <- !app_assoc.
Qed.

(** a sub-form *)
Record section_ok (s : section) : Prop := {
  so_before : Forall question_ok (before s) /\ before s <> [];
  so_questions : Forall question_ok (s_questions s);
  so_tag : no_nul (s_tag s) /\ (47 ∉ s_tag s) /\ strcaseeq (codes "data") (s_tag s) = false /\ strcaseeq (s_tag s) (codes "instanceID") = false;
  so_id : version_ok (s_id s);
  so_inner : Forall (fun q => strcaseeq (s_tag s) (q_name q) = false) (s_questions s);
  so_room : Z.of_nat (length (List.filter is_select (s_questions s))) <= SELECTS_SIZE
}.
Definition new_sub (s : section) : form_state := FormState true (s_id s) implied_meta_fields_subforms [].
Definition section_tags (id : list Z) (s : section) : list (list Z * list Z) :=
  map (fun q => (q_name q, id)) (before s) ++ (s_tag s, s_id s) :: map (fun q => (q_name q, s_id s)) (s_questions s).

Lemma set_sub_flag b f n j : set_subform_node b (node_of n j f) = node_of n j (FormState b (fs_id f) (fs_text f) (fs_selects f)).
Proof. done. Qed.
Lemma alter_last {A} (h : A -> A) l x : alter h (length l) (l ++ [x]) = l ++ [h x].
Proof. induction l as [|y l IH]; [done|]. cbn. f_equal. exact IH. Qed.
Lemma add_sub_st sid fs cr ts ct subf tpl elem first w inst depth subs : no_nul sid ->
  add_to_list_subforms sid (st fs cr ts ct subf tpl elem first w inst depth subs) = st fs cr ts ct (sid :: subf) tpl elem first w inst depth subs.
Proof. intros H. unfold add_to_list_subforms, set_subforms, st. fields. by rewrite cstr_id. Qed.
Lemma set_subforms_st l n names fs cr ts ct subf tpl elem first w inst depth subs :
  set_subforms l n names (st fs cr ts ct subf tpl elem first w inst depth subs) = st fs cr ts ct l tpl elem first w inst n names.
Proof. done. Qed.
Lemma st_depth fs cr ts ct subf tpl elem first w inst depth subs : xhtml_in_subform (st fs cr ts ct subf tpl elem first w inst depth subs) = depth.
Proof. done. Qed.
Lemma st_subforms fs cr ts ct subf tpl elem first w inst depth subs : subforms (st fs cr ts ct subf tpl elem first w inst depth subs) = subf.
Proof. done. Qed.
Lemma st_subtags fs cr ts ct subf tpl elem first w inst depth subs : subform_tags (st fs cr ts ct subf tpl elem first w inst depth subs) = subs.
Proof. done. Qed.
Lemma subform_starts_st el sid id fs ts tpl subs : no_nul el -> version_ok sid -> fs <> [] -> length subs = MAXSUBFORMS ->
  subform_starts el sid (st fs (length fs - 1) ts (last_of ts) [id] tpl None true false true 0 subs) =
  Some (st (fs ++ [FormState true sid implied_meta_fields_subforms []]) (length fs) (ts ++ [(el, sid)]) (last_of (ts ++ [(el, sid)])) [sid; id] (tpl ++ sub_head) None true false true 1 (<[1%nat := el]> subs)).
Proof.
  intros Hel Hsok Hne Hlen. unfold subform_starts. rewrite add_recipe by done. destruct Hsok as [Hsid _]. rewrite recipe_grow_st by by apply no_nul_check.
  rewrite alter_last. rewrite (on_recipe_st _ (fun f => FormState true (fs_id f) (fs_text f) (fs_selects f))) by (intros; apply set_sub_flag). rewrite alter_last.
  cbn [fs_sub fs_id fs_text fs_selects add_text app]. rewrite add_sub_st, add_tag by done.
  rewrite st_depth. change (Z.of_nat MAXSUBFORMS <=? 0 + 1) with false. cbv iota. rewrite st_subforms, st_subtags, set_subforms_st, cstr_id by done. change (Z.to_nat (0 + 1)) with 1%nat. change (0 + 1) with 1.
  rewrite !template_st by by apply no_nul_check. unfold sub_head. by rewrite <- !app_assoc.
Qed.
Lemma strcaseeq_refl s : strcaseeq s s = true.
Proof. by apply bool_decide_true. Qed.
Lemma subform_ends el sid id fs cr ts ct tpl subs : nth 1 subs [] = el -> strcaseeq (codes "data") el = false ->
  end_xhtml el (st fs cr ts ct [sid; id] tpl None true false true 1 subs) = Some (st fs cr ts ct [id] (tpl ++ sub_end) None true false true 0 subs).
Proof.
  intros Hel Hdata. assert (is_el ["data"%string] el = false) as Hd by (unfold is_el; cbn [existsb]; by rewrite Hdata).
  unfold end_xhtml. cbv zeta. change (xhtmlSelectElem (st _ _ _ _ _ _ _ _ _ _ _ _)) with (@None (list Z)). rewrite (bool_decide_false (is_Some None)) by (intros [? [=]]). cbv iota beta delta [andb].
  change (xhtml_in_value (st _ _ _ _ _ _ _ _ _ _ _ _)) with false. cbv iota. change (xhtml_in_instance (st _ _ _ _ _ _ _ _ _ _ _ _)) with true. rewrite Hd. cbv iota.
  change (subform_tag (st _ _ _ _ _ _ _ _ _ _ _ _)) with (nth 1 subs []). rewrite Hel, strcaseeq_refl. change (xhtml_in_subform (st _ _ _ _ _ _ _ _ _ _ _ _)) with 1.
  change (xhtml_in_instance (st _ _ _ _ _ _ _ _ _ _ _ _)) with true. change (negb (1 =? 0)) with true. change (1 >? 0) with true. cbn [orb negb andb]. rewrite template_st by by apply no_nul_check.
  change (subforms (st _ _ _ _ _ _ _ _ _ _ _ _)) with [sid; id]. reflexivity.
Qed.

Lemma start_sub el v s : xhtml_in_instance s = true -> start_xhtml el [(codes "dd:subformid", v)] s = subform_starts el v s.
Proof.
  intros H. unfold start_xhtml. change (first_attribute (codes "dd:formid") [(codes "dd:subformid", v)]) with (@None (list Z)). cbv iota. rewrite H.
  by change (first_attribute (codes "dd:subformid") [(codes "dd:subformid", v)]) with (Some v).
Qed.
Lemma section_instance_run id s fs ts tpl subs : no_nul id -> section_ok s -> fs <> [] -> length subs = MAXSUBFORMS -> exists subs', length subs' = MAXSUBFORMS /\
  fold_left handle (section_instance s) (Some (st fs (length fs - 1) ts (last_of ts) [id] tpl None true false true 0 subs)) =
  Some (st (fs ++ [new_sub s]) (length fs) (ts ++ section_tags id s) (last_of (ts ++ section_tags id s)) [id] (tpl ++ section_template s) None true false true 0 subs').
Proof.
  intros Hid [[Hb _] Hq (Ht & _ & Hd & _) Hs Hin _] Hne Hlen. pose proof (proj1 Hs) as Hsn. exists (<[1%nat := s_tag s]> subs). split; [by rewrite length_insert|].
  unfold section_instance. rewrite fold_left_app. rewrite instance_run by (done || (apply List.Forall_forall; intros; done)).
  rewrite run_start, start_sub by done.
  rewrite subform_starts_st by done. rewrite fold_left_app.
  assert (nth 1 (<[1%nat := s_tag s]> subs) [] = s_tag s) as Hnth by (destruct subs as [|x [|y subs]]; done).
  rewrite (instance_run (s_questions s) (s_id s) [id] 1) by (done || lia || (change (Z.to_nat 1) with 1%nat; rewrite Hnth; revert Hin; apply Forall_impl; auto)).
  rewrite run_end, subform_ends, run_none by done. unfold section_tags, section_template, new_sub. rewrite <- !app_assoc. cbn [app]. done.
Qed.
Lemma sections_instance_run id secs : no_nul id -> Forall section_ok secs -> forall fs ts tpl subs, fs <> [] -> length subs = MAXSUBFORMS -> exists subs', length subs' = MAXSUBFORMS /\
  fold_left handle (flat_map section_instance secs) (Some (st fs (length fs - 1) ts (last_of ts) [id] tpl None true false true 0 subs)) =
  Some (st (fs ++ map new_sub secs) (length (fs ++ map new_sub secs) - 1) (ts ++ flat_map (section_tags id) secs) (last_of (ts ++ flat_map (section_tags id) secs)) [id]
    (tpl ++ flat_map section_template secs) None true false true 0 subs').
Proof.
  intros Hid. induction 1 as [|s secs Hs Hok IH]; intros fs ts tpl subs Hne Hlen; cbn [flat_map map]; [exists subs; split; [done|]; cbn [fold_left]; by rewrite !app_nil_r|].
  rewrite fold_left_app. destruct (section_instance_run id s fs ts tpl subs Hid Hs Hne Hlen) as (subs1 & Hl1 & ->).
  destruct (IH (fs ++ [new_sub s]) (ts ++ section_tags id s) (tpl ++ section_template s) subs1) as (subs2 & Hl2 & E); [by destruct fs | done|].
  exists subs2. split; [done|]. rewrite length_app in E. cbn [length] in E. replace (length fs + 1 - 1)%nat with (length fs) in E by lia. rewrite E. by rewrite <- !app_assoc.
Qed.

(** ** The binds *)
Lemma after_slash d k : 47 ∉ k -> after_last_slash (d ++ 47 :: k) = Some k.
Proof.
  intros Hk. unfold after_last_slash. rewrite bool_decide_true by (apply elem_of_app; right; left).
  change (d ++ 47 :: k) with (d ++ [47] ++ k). rewrite app_assoc, (basename_start_app (d ++ [47]) k) by (done || (right; by exists d)).
  by rewrite Nat2Z.id, drop_app_length.
Qed.
Lemma no_slash k : 47 ∉ k -> after_last_slash k = None.
Proof. intros Hk. unfold after_last_slash. by rewrite bool_decide_false. Qed.

Lemma bind_attributes d k ty c j t s : 47 ∉ k -> search_in_list_tags k s = Some j -> tags s !! j = Some t -> strcaseeq ty (codes "xsd:subform") = false ->
  let attr := [(codes "nodeset", d ++ 47 :: k); (codes "type", ty); (codes "constraint", c)] in
  fold_left (bind_attribute attr) attr (Some (Bind (-1) [] [], s)) =
  Some (Bind (recipe_parse_fieldtype (after_colon ty)) k c, set_recipes (recipes s) (head_r s) (search_in_list_recipes (t_formversion t) s) (set_tags (tags s) (head_t s) (Some j) s)).
Proof.
  intros Hk Hj Ht Hty attr. unfold attr at 2. cbn [fold_left]. unfold bind_attribute at 3.
  change (starts (codes "nodeset") (codes "nodeset")) with true. change (starts (codes "type") (codes "nodeset")) with false. change (starts (codes "constraint") (codes "nodeset")) with false. cbv iota.
  unfold bind_nodeset. rewrite (after_slash _ k) by done. cbv zeta. rewrite Hj.
  change (fold_left _ attr []) with ty. rewrite Hty. cbn [negb]. cbv iota. change (tags (set_tags (tags s) (head_t s) (Some j) s)) with (tags s). rewrite Ht.
  reflexivity.
Qed.
(** the bind of a sub-form does not change the recipe that is written to *)
Lemma bind_sub_attributes d k j s : 47 ∉ k -> search_in_list_tags k s = Some j ->
  let attr := [(codes "nodeset", d ++ 47 :: k); (codes "type", codes "xsd:subform")] in
  fold_left (bind_attribute attr) attr (Some (Bind (-1) [] [], s)) = Some (Bind FIELDTYPE_SUBFORM k [], set_tags (tags s) (head_t s) (Some j) s).
Proof.
  intros Hk Hj attr. unfold attr at 2. cbn [fold_left]. unfold bind_attribute at 2.
  change (starts (codes "nodeset") (codes "nodeset")) with true. change (starts (codes "type") (codes "nodeset")) with false. change (starts (codes "constraint") (codes "nodeset")) with false. cbv iota.
  unfold bind_nodeset. rewrite (after_slash _ k) by done. cbv zeta. rewrite Hj. change (fold_left _ attr []) with (codes "xsd:subform").
  change (strcaseeq (codes "xsd:subform") (codes "xsd:subform")) with true. cbn [negb]. cbv iota. destruct (tags s !! j); reflexivity.
Qed.
(** a name may occur more than once, but in one form only *)
Definition one_form (ts : list (list Z * list Z)) : Prop := forall k v v', (k, v) ∈ ts -> (k, v') ∈ ts -> v = v'.
Lemma search_tag_st k v fs cr ts ct subf tpl elem first w inst depth subs : no_nul k -> one_form ts -> (k, v) ∈ ts -> exists j,
  search_in_list_tags k (st fs cr ts ct subf tpl elem first w inst depth subs) = Some j /\
  tags (st fs cr ts ct subf tpl elem first w inst depth subs) !! j = Some (TagNode k v (next_of (length ts) j)).
Proof.
  intros Hk Hone Hin. destruct (list_find_elem_of (fun t => fst t = k) ts (k, v) Hin eq_refl) as [[j [k' v']] Hfind]. apply list_find_Some in Hfind as (Hj & Hk' & Hfirst). cbn [fst] in Hk'. subst k'.
  assert (v' = v) as -> by (apply (Hone k); [by eapply list_elem_of_lookup_2 | done]). exists j. split.
  - unfold search_in_list_tags. cbn [st tags head_t]. rewrite length_tag_nodes. pose proof (lookup_lt_Some _ _ _ Hj) as Hlt. assert (head_of ts = Some 0%nat) as -> by (by destruct ts).
    apply (search_tag_nodes k ts j v Hk Hj) with (d := j); [|lia | lia]. intros i t Hi Ht. exact (Hfirst i t Ht Hi).
  - cbn [st tags]. by rewrite tag_nodes_lookup, Hj.
Qed.
Lemma search_id_st v i f fs cr ts ct subf tpl elem first w inst depth subs : no_nul v -> NoDup (map fs_id fs) -> fs !! i = Some f -> fs_id f = v ->
  search_in_list_recipes v (st fs cr ts ct subf tpl elem first w inst depth subs) = Some i.
Proof.
  intros Hv Hnd Hi Hid. unfold search_in_list_recipes. cbn [st recipes head_r]. rewrite length_nodes. pose proof (lookup_lt_Some _ _ _ Hi) as Hlt.
  apply (search_nodes v fs i f Hv Hi Hid) with (d := i); [|lia | lia]. intros k g Hk Hg E. apply (nodup_first fs_id fs i f Hnd Hi k g Hk Hg). congruence.
Qed.

Lemma end_outside el s : xhtmlSelectElem s = None -> xhtml_in_value s = false -> xhtml_in_instance s = false -> xhtml_in_subform s = 0 -> end_xhtml el s = Some s.
Proof.
  intros E1 E2 E3 E4. unfold end_xhtml. cbv zeta. rewrite E1, (bool_decide_false (is_Some None)) by (intros [? [=]]). cbv iota beta delta [andb]. rewrite E2. cbv iota beta.
  rewrite E3. cbv iota beta. rewrite E3, E4. reflexivity.
Qed.


Definition text_line (q : question) : list Z := if is_select q then [] else q_line q ++ [10].
Definition select_line (q : question) : list (list Z) := if is_select q then [q_line q] else [].
Definition bound (qs : list question) (f : form_state) : form_state :=
  FormState (fs_sub f) (fs_id f) (fs_text f ++ flat_map text_line qs) (fs_selects f ++ flat_map select_line qs).
Lemma ids_alter h i fs : (forall f, fs_id (h f) = fs_id f) -> map fs_id (alter h i fs) = map fs_id fs.
Proof. intros H. revert i. induction fs as [|f fs IH]; intros [|i]; cbn; [done | done | by rewrite H|]. f_equal. apply IH. Qed.
(** the array has room for the lines of the questions *)
Definition room_for (qs : list question) (f : form_state) : Prop := room_in f (Z.of_nat (length (List.filter is_select qs))).
Lemma length_select_lines qs : length (flat_map select_line qs) = length (List.filter is_select qs).
Proof. induction qs as [|q qs IH]; [done|]. cbn [flat_map List.filter]. rewrite length_app, IH. unfold select_line. by destruct (is_select q). Qed.
Lemma room_bound q qs f : room_for (q :: qs) f -> room_for [q] f /\ room_for qs (bound [q] f).
Proof.
  unfold room_for, room_in, bound. cbn [fs_selects List.filter flat_map]. rewrite app_nil_r, length_app. unfold select_line. destruct (is_select q); cbn [length]; lia.
Qed.
Lemma bind_step d q v i f fs cr ts ct subf tpl subs : question_ok q -> no_nul v -> one_form ts -> NoDup (map fs_id fs) -> (q_name q, v) ∈ ts -> fs !! i = Some f -> fs_id f = v -> room_for [q] f -> exists ct',
  fold_left handle (bind_at d q) (Some (st fs cr ts ct subf tpl None true false false 0 subs)) = Some (st (alter (bound [q]) i fs) i ts ct' subf tpl None true false false 0 subs).
Proof.
  intros Hq Hv Hnt Hni Hin Hi Hid Hroom. pose proof (plain_no_nul _ (qo_plain q Hq)) as Hnul. pose proof (fp_wf _ (qo_field q Hq)) as Hwf. pose proof (head_plain _ (qo_field q Hq)) as Hhead.
  destruct Hq as [_ Hpath [_ Hidn] [Hsub Hty] Hfits _]. pose proof (fw_type _ Hwf) as Hcode. rewrite q_field_type in Hcode.
  destruct (search_tag_st (q_name q) v fs cr ts ct subf tpl None true false false 0 subs Hnul Hnt Hin) as (j & Hs & Ht).
  exists (Some j). unfold bind_at. rewrite run_start. change (start_xhtml (codes "xf:bind") ?a ?s) with (bind_starts a s). unfold bind_starts.
  rewrite (bind_attributes _ _ _ _ j (TagNode (q_name q) v (next_of (length ts) j))) by done. cbn [t_formversion]. rewrite (search_id_st v i f) by done.
  change (set_recipes _ _ _ _) with (st fs i ts (Some j) subf tpl None true false false 0 subs). cbv zeta iota beta.
  cbn [node_name]. rewrite Hidn. change (Bind _ _ _) with (q_bind q). change (type (q_bind q)) with (q_code q).
  destruct (Z.eqb_spec (q_code q) (-1)); [lia|]. destruct (Z.eqb_spec (q_code q) FIELDTYPE_SUBFORM); [done|].
  change (node_name (q_bind q)) with (q_name q). pose proof (bind_line_head q) as Hline. unfold q_field in Hline. destruct (bind_range (q_bind q)) as [mi ma].
  cbn [f_minimum f_maximum] in Hline. rewrite Hline, into_temp_fits by done. change (_ || _) with (is_select q). unfold bound. cbn [flat_map]. unfold text_line, select_line. unfold room_for in Hroom. cbn [List.filter] in Hroom. destruct (is_select q); cbv iota beta.
  - rewrite (add_select_line_st _ f) by done. rewrite run_end, end_outside by done. rewrite run_none. do 2 f_equal.
    apply list_alter_ext; [|done]. intros g _. unfold add_select. cbn. by rewrite !app_nil_r.
  - rewrite recipe_grow_st by by apply plain_no_nul. rewrite recipe_grow_st by by apply no_nul_check. rewrite run_end, end_outside by done. rewrite run_none, list_alter_alter_eq. do 2 f_equal.
    apply list_alter_ext; [|done]. intros g _. unfold compose, add_text. cbn. by rewrite !app_nil_r, app_assoc.
Qed.
Lemma bind_run d v i ts subf tpl subs : no_nul v -> one_form ts -> forall qs f fs cr ct, Forall question_ok qs -> NoDup (map fs_id fs) -> Forall (fun q => (q_name q, v) ∈ ts) qs ->
  fs !! i = Some f -> fs_id f = v -> room_for qs f -> exists ct',
  fold_left handle (flat_map (bind_at d) qs) (Some (st fs cr ts ct subf tpl None true false false 0 subs)) =
  Some (st (alter (bound qs) i fs) (match qs with [] => cr | _ => i end) ts ct' subf tpl None true false false 0 subs).
Proof.
  intros Hv Hnt. induction qs as [|q qs IH]; intros f fs cr ct Hok Hni Hin Hi Hid Hroom.
  - exists ct. cbn [flat_map]. rewrite run_none. do 2 f_equal. symmetry. apply list_alter_id. intros [a b c e]. unfold bound. cbn. by rewrite !app_nil_r.
  - apply Forall_cons_iff in Hok as [Hq Hok]. apply Forall_cons_iff in Hin as [Hqin Hin]. apply room_bound in Hroom as [Hroom Hrooms]. cbn [flat_map]. rewrite fold_left_app.
    destruct (bind_step d q v i f fs cr ts ct subf tpl subs Hq Hv Hnt Hni Hqin Hi Hid Hroom) as [ct1 ->].
    destruct (IH (bound [q] f) (alter (bound [q]) i fs) i ct1 Hok) as [ct2 E]; [by rewrite ids_alter | done | by rewrite list_lookup_alter_eq, Hi | done | done|].
    exists ct2. rewrite E, list_alter_alter_eq. assert (alter (bound qs ∘ bound [q]) i fs = alter (bound (q :: qs)) i fs) as ->.
    { apply list_alter_ext; [|done]. intros g _. unfold bound, compose. cbn. by rewrite !app_nil_r, <- !app_assoc. }
    by destruct qs.
Qed.

Definition sub_line (sid : list Z) : list Z := codes "subform/" ++ sid ++ codes ":subform:0:0:0".
Definition bind_sub (k : list Z) : list event := [StartElement (codes "xf:bind") [(codes "nodeset", codes "/data/" ++ k); (codes "type", codes "xsd:subform")]; EndElement (codes "xf:bind")].
Lemma bind_sub_step k sid fs cr ts ct subf tpl subs : no_nul k -> version_ok sid -> 47 ∉ k -> strcaseeq k (codes "instanceID") = false -> one_form ts -> (k, sid) ∈ ts -> exists ct',
  fold_left handle (bind_sub k) (Some (st fs cr ts ct subf tpl None true false false 0 subs)) =
  Some (st (alter (add_text (sub_line sid ++ [10])) cr fs) cr ts ct' subf tpl None true false false 0 subs).
Proof.
  intros Hk [Hsid Hlen] Hpath Hid Hnt Hin. destruct (search_tag_st k sid fs cr ts ct subf tpl None true false false 0 subs Hk Hnt Hin) as (j & Hs & Ht).
  exists (Some j). unfold bind_sub. change (codes "/data/" ++ k) with (codes "/data" ++ 47 :: k). rewrite run_start. change (start_xhtml (codes "xf:bind") ?a ?s) with (bind_starts a s). unfold bind_starts.
  rewrite (bind_sub_attributes _ _ j) by done. change (set_tags _ _ _ _) with (st fs cr ts (Some j) subf tpl None true false false 0 subs). cbv zeta iota beta.
  cbn [node_name]. rewrite Hid. cbn [type]. change (FIELDTYPE_SUBFORM =? -1) with false. change (FIELDTYPE_SUBFORM =? FIELDTYPE_SUBFORM) with true.
  change (bind_range (Bind FIELDTYPE_SUBFORM k [])) with (0, 0). cbv iota beta. change (curr_t (st _ _ _ _ _ _ _ _ _ _ _ _)) with (Some j). cbv iota.
  change (tags (st _ _ _ ?c _ _ _ _ _ _ _ _)) with (tags (st fs cr ts ct subf tpl None true false false 0 subs)). rewrite Ht. cbn [t_formversion]. change (codes "subform/" ++ sid ++ codes ":subform:0:0:0") with (sub_line sid).
  rewrite into_temp_fits by (unfold sub_line, VERSION_SIZE, TEMP_SIZE in *; rewrite !length_app; change (length (codes "subform/")) with 8%nat; change (length (codes ":subform:0:0:0")) with 14%nat; lia).
  change ((FIELDTYPE_SUBFORM =? FIELDTYPE_MULTISELECT) || (FIELDTYPE_SUBFORM =? FIELDTYPE_ENUM)) with false. cbv iota.
  assert (no_nul (sub_line sid)) as Hline.
  { unfold sub_line. intros [H|[H|H]%elem_of_app]%elem_of_app; [by apply (no_nul_check (codes "subform/") eq_refl) | by apply Hsid | by apply (no_nul_check (codes ":subform:0:0:0") eq_refl)]. }
  rewrite recipe_grow_st by done. rewrite recipe_grow_st by by apply no_nul_check. rewrite run_end, end_outside by done. rewrite run_none, list_alter_alter_eq. do 2 f_equal.
  apply list_alter_ext; [|done]. intros g _. unfold compose, add_text. cbn [fs_sub fs_id fs_text fs_selects]. by rewrite <- app_assoc.
Qed.

(** the recipes when some of the parts are bound: [P] are, [R] are not *)
Variable id : list Z.
Hypothesis id_string : no_nul id.
Definition section_text (s : section) : list Z := flat_map text_line (before s) ++ sub_line (s_id s) ++ [10].
Definition main_state (text : list Z) (sels : list (list Z)) : form_state := FormState false id text sels.
Definition bound_sub (s : section) : form_state := bound (s_questions s) (new_sub s).
Lemma section_binds_run s P R text sels cr ts ct tpl subs : section_ok s -> room_for (before s) (main_state text sels) -> NoDup (id :: map s_id (P ++ s :: R)) -> one_form ts -> (forall t, t ∈ section_tags id s -> t ∈ ts) -> exists cr' ct',
  fold_left handle (section_binds s) (Some (st (main_state text sels :: map bound_sub P ++ map new_sub (s :: R)) cr ts ct [id] tpl None true false false 0 subs)) =
  Some (st (main_state (text ++ section_text s) (sels ++ flat_map select_line (before s)) :: map bound_sub (P ++ [s]) ++ map new_sub R) cr' ts ct' [id] tpl None true false false 0 subs).
Proof.
  intros [[Hb Hne] Hq (Htn & Htp & _ & Hti) Hs _ Hroom] Hmain Hni Hnt Htags. unfold section_binds. rewrite !fold_left_app. set (fs := main_state text sels :: _).
  assert (map fs_id fs = id :: map s_id (P ++ s :: R)) as Hids by (subst fs; cbn [map main_state fs_id]; rewrite !map_app; cbn [map]; rewrite !map_map; reflexivity).
  destruct (bind_run (codes "/data") id 0%nat ts [id] tpl subs id_string Hnt (before s) (main_state text sels) fs cr ct Hb) as [ct1 E1]; [by rewrite Hids | | done | done | done|].
  { apply List.Forall_forall. intros q Hin. apply Htags, elem_of_app. left. apply list_elem_of_In. apply (in_map (fun q => (q_name q, id)) _ _ Hin). }
  change (flat_map bind_events (before s)) with (flat_map (bind_at (codes "/data")) (before s)). rewrite E1. clear E1. assert (match before s with [] => cr | _ => 0%nat end = 0%nat) as -> by (by destruct (before s)).
  destruct (bind_sub_step (s_tag s) (s_id s) (alter (bound (before s)) 0%nat fs) 0%nat ts ct1 [id] tpl subs) as [ct2 E2]; try done; [apply Htags, elem_of_app; right; by left|].
  unfold bind_sub in E2. rewrite E2. clear E2. subst fs. cbn [alter list_alter]. set (main := add_text _ _).
  assert (main = main_state (text ++ section_text s) (sels ++ flat_map select_line (before s))) as -> by (unfold main, add_text, bound, main_state, section_text; cbn [fs_sub fs_id fs_text fs_selects]; by rewrite <- app_assoc).
  set (fs := _ :: _). assert (map fs_id fs = id :: map s_id (P ++ s :: R)) as Hids' by (subst fs; cbn [map main_state fs_id]; rewrite !map_app; cbn [map]; rewrite !map_map; reflexivity).
  destruct (bind_run (codes "/data/" ++ s_tag s) (s_id s) (S (length P)) ts [id] tpl subs (proj1 Hs) Hnt (s_questions s) (new_sub s) fs 0%nat ct2 Hq) as [ct3 E3]; [by rewrite Hids' | | | done | done|].
  { apply List.Forall_forall. intros q Hin. apply Htags, elem_of_app. right. right. apply list_elem_of_In. apply (in_map (fun q => (q_name q, s_id s)) _ _ Hin). }
  { change ((map bound_sub P ++ map new_sub (s :: R)) !! length P = Some (new_sub s)). rewrite lookup_app_r by (by rewrite length_map). by rewrite length_map, Nat.sub_diag. }
  eexists _, ct3. rewrite E3. do 2 f_equal. subst fs. cbn [alter list_alter]. f_equal. rewrite map_app, <- app_assoc. cbn [map app].
  clear. induction P as [|x P IH]; [done|]. cbn. f_equal. exact IH.
Qed.
Lemma sections_binds_run R : forall P text sels cr ts ct tpl subs, Forall section_ok R -> room_for (flat_map before R) (main_state text sels) -> NoDup (id :: map s_id (P ++ R)) -> one_form ts -> (forall t, t ∈ flat_map (section_tags id) R -> t ∈ ts) -> exists cr' ct',
  fold_left handle (flat_map section_binds R) (Some (st (main_state text sels :: map bound_sub P ++ map new_sub R) cr ts ct [id] tpl None true false false 0 subs)) =
  Some (st (main_state (text ++ flat_map section_text R) (sels ++ flat_map select_line (flat_map before R)) :: map bound_sub (P ++ R)) cr' ts ct' [id] tpl None true false false 0 subs).
Proof.
  induction R as [|s R IH]; intros P text sels cr ts ct tpl subs Hok Hmain Hni Hnt Htags; [exists cr, ct; cbn [flat_map map]; by rewrite run_none, !app_nil_r|].
  apply Forall_cons_iff in Hok as [Hs Hok]. cbn [flat_map]. rewrite fold_left_app.
  assert (room_for (before s) (main_state text sels) /\ room_for (flat_map before R) (main_state (text ++ section_text s) (sels ++ flat_map select_line (before s)))) as [Hmain1 Hmain2].
  { revert Hmain. unfold room_for, room_in. cbn [flat_map main_state fs_selects]. rewrite List.filter_app, !length_app, length_select_lines. lia. }
  destruct (section_binds_run s P R text sels cr ts ct tpl subs Hs Hmain1 Hni Hnt) as (cr1 & ct1 & ->); [intros t Ht; apply Htags; cbn [flat_map]; apply elem_of_app; by left|].
  destruct (IH (P ++ [s]) (text ++ section_text s) (sels ++ flat_map select_line (before s)) cr1 ts ct1 tpl subs Hok Hmain2) as (cr2 & ct2 & E); [by rewrite <- app_assoc | done | |].
  { intros t Ht. apply Htags. cbn [flat_map]. apply elem_of_app. by right. }
  exists cr2, ct2. rewrite E. by rewrite flat_map_app, <- !app_assoc.
Qed.

(** ** The selects *)
Lemma starts_cons c k d n : starts (c :: k) (d :: n) = (tolower c =? tolower d) && starts k n.
Proof.
  unfold starts, strncaseeq, strcaseeq. cbn [length firstn map]. destruct (Z.eqb_spec (tolower c) (tolower d)) as [E|E]; cbn [andb].
  - rewrite E. apply bool_decide_ext. split; [by intros [= ->] | by intros ->].
  - apply bool_decide_false. by intros [= ? _].
Qed.
Lemma starts_self k r : starts k (k ++ r) = true.
Proof. induction k as [|c k IH]; [done|]. cbn [app]. by rewrite starts_cons, Z.eqb_refl. Qed.
Lemma starts_name n : forall k r, 58 ∉ k -> starts k n = false -> starts k (n ++ 58 :: r) = false.
Proof.
  induction n as [|d n IH]; intros [|c k] r Hk Hs; try done; apply not_elem_of_cons in Hk as [Hc Hk]; cbn [app]; rewrite starts_cons in *.
  - destruct (Z.eqb_spec (tolower c) (tolower 58)) as [E|]; [|done]. unfold tolower, isupper in E. repeat case_match; b2p; cbn in *; lia.
  - destruct (_ =? _); cbn [andb] in *; [by apply IH | done].
Qed.

Definition values_text (vs : list (list Z)) : list Z := match vs with [] => [] | _ => 58 :: join_values vs end.
Lemma values_text_snoc vs v : values_text (vs ++ [v]) = values_text vs ++ (match vs with [] => 58 | _ => 44 end) :: v.
Proof.
  destruct vs as [|w vs]; [done|]. cbn [app values_text]. f_equal. revert w. induction vs as [|x vs IH]; intros w; [done|].
  change (join_values (w :: (x :: vs) ++ [v])) with (w ++ 44 :: join_values (x :: vs ++ [v])). rewrite (IH x).
  change (join_values (w :: x :: vs)) with (w ++ 44 :: join_values (x :: vs)). by rewrite <- app_assoc.
Qed.

Lemma join_no_nul vs : Forall no_nul vs -> no_nul (join_values vs).
Proof.
  induction vs as [|w vs IH]; intros Hvs; [by intros ?%not_elem_of_nil|]. apply Forall_cons_iff in Hvs as [Hw Hvs]. destruct vs as [|x vs]; [exact Hw|].
  change (join_values (w :: x :: vs)) with (w ++ 44 :: join_values (x :: vs)). intros [H|[H|H]%elem_of_cons]%elem_of_app; [by apply Hw | done | by apply IH].
Qed.
Lemma add_value_none k x first l : Forall (fun t => starts k t = false) l -> add_value k x first l = (l, first).
Proof. induction 1 as [|t l Ht Hl IH]; cbn [add_value]; [done|]. by rewrite Ht, IH. Qed.
Lemma add_value_one k x first A t B : Forall (fun t => starts k t = false) A -> Forall (fun t => starts k t = false) B -> starts k t = true ->
  add_value k x first (A ++ t :: B) = (A ++ grow (grow t (if first then codes ":" else codes ",")) x :: B, false).
Proof.
  intros HA HB Ht. induction HA as [|u A Hu HA IH]; cbn [app add_value].
  - rewrite Ht. by rewrite add_value_none.
  - by rewrite Hu, IH.
Qed.

Lemma end_in_select el k s : xhtmlSelectElem s = Some k -> xhtml_in_instance s = false -> xhtml_in_subform s = 0 -> is_el ["xf:select1"; "xf:select"]%string el = false ->
  end_xhtml el s = Some (if xhtml_in_value s && is_el ["value"; "xf:value"]%string el then set_select (xhtmlSelectElem s) (xhtmlSelectFirst s) false s else s).
Proof.
  intros E1 E2 E3 Hel. unfold end_xhtml. cbv zeta. rewrite Hel, andb_false_r. cbv iota.
  set (s' := if xhtml_in_value s && _ then _ else s). assert (xhtml_in_instance s' = false /\ xhtml_in_subform s' = 0) as [E2' E3'] by (subst s'; by destruct (_ && _)).
  rewrite E2'. cbv iota beta delta [andb]. rewrite E2', E3'. reflexivity.
Qed.

Definition with_selects (l : list (list Z)) (f : form_state) : form_state := FormState (fs_sub f) (fs_id f) (fs_text f) l.
Lemma with_selects_twice l l' (i : nat) (fs : list form_state) : alter (with_selects l) i (alter (with_selects l') i fs) = alter (with_selects l) i fs.
Proof. rewrite list_alter_alter_eq. by apply list_alter_ext. Qed.
Section Selects.
Variables (ts : list (list Z * list Z)) (tpl : list Z) (subs : list (list Z)) (ct : option nat) (fs : list form_state) (i : nat) (f : form_state) (v : list Z).
Hypothesis names_differ : one_form ts.
Hypothesis ids_differ : NoDup (map fs_id fs).
Hypothesis form_there : fs !! i = Some f.
Hypothesis form_id : fs_id f = v.
Hypothesis version_string : no_nul v.
#[local] Abbreviation at_select l cr elem first w := (st (alter (with_selects l) i fs) cr ts ct [id] tpl elem first w false 0 subs).

Lemma value_step k x cr A t B first : no_nul k -> (k, v) ∈ ts -> no_nul x ->
  Forall (fun t => starts k t = false) A -> Forall (fun t => starts k t = false) B -> starts k t = true -> no_nul t ->
  characterdata_xhtml x (at_select (A ++ t :: B) cr (Some k) first true) = Some (at_select (A ++ (t ++ (if first then 58 else 44) :: x) :: B) i (Some k) false true).
Proof.
  intros Hk Hin Hx HA HB Ht Hnt.
  destruct (search_tag_st k v (alter (with_selects (A ++ t :: B)) i fs) cr ts ct [id] tpl (Some k) first true false 0 subs Hk names_differ Hin) as (j & Hs & Hn).
  unfold characterdata_xhtml. change (xhtmlSelectElem (st _ _ _ _ _ _ _ _ _ _ _ _)) with (Some k). change (xhtml_in_value (st _ _ _ _ _ _ _ _ true _ _ _)) with true. cbv iota.
  rewrite Hs, Hn. cbn [t_formversion]. rewrite (search_id_st v i (with_selects (A ++ t :: B) f)) by (first [done | by rewrite ids_alter | by rewrite list_lookup_alter_eq, form_there]).
  change (recipes (st ?a _ _ _ _ _ _ _ _ _ _ _)) with (nodes a). rewrite nodes_lookup, list_lookup_alter_eq, form_there. cbn [fmap option_fmap option_map node_of selects with_selects fs_selects].
  change (xhtmlSelectFirst (st _ _ _ _ _ _ _ first _ _ _ _)) with first. rewrite add_value_one by done. cbv iota.
  rewrite (alter_nodes _ (with_selects (A ++ grow (grow t (if first then codes ":" else codes ",")) x :: B))) by done. rewrite with_selects_twice.
  rewrite !grow_app by (done || by destruct first; apply no_nul_check). destruct first; by rewrite <- app_assoc.
Qed.
Lemma items_run k items A B t : no_nul k -> (k, v) ∈ ts -> Forall (fun lv => no_nul lv.2 /\ lv.2 <> []) items ->
  Forall (fun t => starts k t = false) A -> Forall (fun t => starts k t = false) B -> no_nul t -> (forall r, starts k (t ++ r) = true) ->
  forall vs cr, Forall no_nul vs -> exists first,
  fold_left handle (flat_map item_events items) (Some (at_select (A ++ (t ++ values_text vs) :: B) cr (Some k) (bool_decide (vs = [])) false)) =
  Some (at_select (A ++ (t ++ values_text (vs ++ map snd items)) :: B) (match items with [] => cr | _ => i end) (Some k) first false).
Proof.
  intros Hk Hin Hitems HA HB Hnt Ht. induction Hitems as [|[lab x] items [Hx Hxne] Hitems IH]; intros vs cr Hvs; [eexists; cbn [flat_map map]; by rewrite run_none, app_nil_r|].
  cbn [flat_map map snd]. rewrite fold_left_app. unfold item_events at 2. cbn [fst snd] in *.
  assert (no_nul (t ++ values_text vs)) as Hnul.
  { intros [H|H]%elem_of_app; [by apply Hnt|]. revert H. destruct vs as [|w vs]; [by intros ?%not_elem_of_nil|]. cbn [values_text]. intros [H|H]%elem_of_cons; [done | exact (join_no_nul (w :: vs) Hvs H)]. }
  rewrite run_start. change (start_xhtml (codes "xf:item") [] ?s) with (Some s). rewrite run_start. change (start_xhtml (codes "xf:label") [] ?s) with (Some s).
  rewrite run_ignored by done. cbn [app]. rewrite run_end, (end_in_select _ k) by reflexivity. change (if xhtml_in_value (st _ _ _ _ _ _ _ _ false _ _ _) && _ then _ else ?s) with s.
  rewrite run_start. change (start_xhtml (codes "xf:value") [] (st ?a ?b ?c ?d ?e ?g (Some k) ?h false false 0 ?o)) with (Some (st a b c d e g (Some k) h true false 0 o)).
  rewrite run_text by done. rewrite value_step by done. rewrite run_end, (end_in_select _ k) by reflexivity.
  change (if xhtml_in_value (st _ _ _ _ _ _ _ _ true _ _ _) && _ then ?s else _) with s.
  rewrite run_end, (end_in_select _ k) by reflexivity. rewrite run_none. change (if xhtml_in_value (st _ _ _ _ _ _ _ _ false _ _ _) && _ then _ else ?s) with s.
  destruct (IH (vs ++ [x]) i) as [first E]; [apply Forall_app; split; [done | by apply Forall_singleton]|]. exists first.
  rewrite (bool_decide_false (vs ++ [x] = [])) in E by (by destruct vs). rewrite values_text_snoc, <- app_assoc in E. cbn [app] in E.
  assert ((if bool_decide (vs = []) then 58 else 44) = (match vs with [] => 58 | _ => 44 end)) as -> by (by destruct vs).
  rewrite <- app_assoc. assert (match items with [] => i | _ => i end = i) as Ei by (by destruct items). rewrite Ei in E. exact E.
Qed.

(** no name is the beginning of another one, in any case of letters *)
Fixpoint separate (ns : list (list Z)) : bool :=
  match ns with
  | [] => true
  | k :: ns => forallb (fun n => negb (starts k n) && negb (starts n k)) ns && separate ns
  end.
Lemma separate_middle P k R : separate (P ++ k :: R) = true -> Forall (fun n => starts k n = false) P /\ Forall (fun n => starts k n = false) R.
Proof.
  induction P as [|n P IH]; cbn [app separate]; intros H; b2p.
  - split; [constructor|]. apply List.Forall_forall. intros n Hn. match goal with Hf : forallb _ R = true |- _ => rewrite forallb_forall in Hf; apply Hf in Hn end. b2p. done.
  - destruct IH as [HP HR]; [done|]. split; [|done]. constructor; [|done].
    match goal with Hf : forallb _ (P ++ k :: R) = true |- _ => rewrite forallb_forall in Hf; specialize (Hf k ltac:(apply in_or_app; right; by left)) end. by b2p.
Qed.

Definition select_text (q : question) : list Z := q_line q ++ values_text (map snd (q_values q)).
Lemma line_name q : exists r, q_line q = q_name q ++ 58 :: r.
Proof. unfold q_line, field_head. rewrite q_field_name. by eexists. Qed.
Lemma other_line k q x : 58 ∉ k -> starts k (q_name q) = false -> starts k (q_line q ++ x) = false.
Proof. intros Hk Hs. destruct (line_name q) as [r ->]. rewrite <- app_assoc. cbn [app]. by apply starts_name. Qed.
Lemma q_values_plain q : is_select q = true -> question_ok q -> Forall plain (map snd (q_values q)).
Proof. intros Hsel [[_ _ Hv _] _ _ _ _ _]. unfold q_field in Hv. rewrite Hsel in Hv. by destruct (bind_range _). Qed.

Lemma select_values q : question_ok q -> is_select q = true -> q_values q <> [].
Proof.
  intros Hq Hsel E. pose proof (fw_values _ (fp_wf _ (qo_field q Hq))) as Hv. pose proof (fw_count _ (fp_wf _ (qo_field q Hq))) as Hc. rewrite q_field_type in Hv.
  unfold has_values in Hv. rewrite orb_comm in Hv. change (_ || _) with (is_select q) in Hv. rewrite Hsel in Hv.
  assert (enum_value (q_field q) = []) as Ev by (unfold q_field; rewrite Hsel, E; by destruct (bind_range _)). rewrite Ev in Hc. cbn [length] in Hc. lia.
Qed.
Lemma select_step q cr A B first : question_ok q -> is_select q = true -> (q_name q, v) ∈ ts ->
  Forall (fun t => starts (q_name q) t = false) A -> Forall (fun t => starts (q_name q) t = false) B -> exists first',
  fold_left handle (select_events q) (Some (at_select (A ++ q_line q :: B) cr None first false)) = Some (at_select (A ++ select_text q :: B) i None first' false).
Proof.
  intros Hq Hsel Hin HA HB. pose proof (plain_no_nul _ (qo_plain q Hq)) as Hnul. pose proof (q_values_plain q Hsel Hq) as Hvals. pose proof (select_values q Hq Hsel) as Hne. destruct Hq as [Hf Hpath _ _ _ Hnempty].
  unfold select_events. rewrite run_start.
  assert (start_xhtml (codes "xf:select1") [(codes "bind", q_name q)] (at_select (A ++ q_line q :: B) cr None first false) =
    Some (at_select (A ++ (q_line q ++ values_text []) :: B) cr (Some (q_name q)) (bool_decide (@nil (list Z) = [])) false)) as ->.
  { change (start_xhtml (codes "xf:select1") ?a ?s) with (Some (select_starts a s)). unfold select_starts. cbn [fold_left].
    change (strcaseeq (codes "bind") (codes "bind")) with true. cbv iota. rewrite no_slash by done. cbn [values_text]. by rewrite app_nil_r. }
  rewrite fold_left_app. destruct (items_run (q_name q) (q_values q) A B (q_line q)) with (vs := @nil (list Z)) (cr := cr) as [first' ->]; try done.
  - rewrite Forall_map in Hvals. apply List.Forall_and; [|done]. eapply Forall_impl; [|exact Hvals]. intros lv. apply plain_no_nul.
  - by apply plain_no_nul, head_plain.
  - intros r. destruct (line_name q) as [r' ->]. rewrite <- app_assoc. apply starts_self.
  - exists first'. assert (match q_values q with [] => cr | _ => i end = i) as -> by (by destruct (q_values q)). reflexivity.
Qed.
Lemma select_run R : forall P T cr first, Forall (fun q => question_ok q /\ is_select q = true /\ (q_name q, v) ∈ ts) R ->
  separate (map q_name (P ++ R ++ T)) = true -> exists first',
  fold_left handle (flat_map select_events R) (Some (at_select (map select_text P ++ map q_line (R ++ T)) cr None first false)) =
  Some (at_select (map select_text (P ++ R) ++ map q_line T) (match R with [] => cr | _ => i end) None first' false).
Proof.
  induction R as [|q R IH]; intros P T cr first HR Hsep; [exists first; cbn [flat_map app]; by rewrite run_none, app_nil_r|].
  apply Forall_cons_iff in HR as [(Hq & Hsel & Hin) HR]. cbn [flat_map map app]. rewrite fold_left_app.
  pose proof Hsep as Hs. rewrite map_app in Hs. cbn [map app] in Hs. apply separate_middle in Hs as [HsP HsR]. rewrite Forall_map in HsP, HsR.
  assert (58 ∉ q_name q) as H58 by (destruct Hq as [[[_ [_ Hn] _ _ _ _] _ _ _] _ _ _ _ _]; by rewrite q_field_name in Hn).
  destruct (select_step q cr (map select_text P) (map q_line (R ++ T)) first) as [first1 ->]; try done.
  - rewrite Forall_map. eapply Forall_impl; [|exact HsP]. intros q'. by apply other_line.
  - rewrite Forall_map. eapply Forall_impl; [|exact HsR]. intros q' Hs. rewrite <- (app_nil_r (q_line q')). by apply other_line.
  - destruct (IH (P ++ [q]) T i first1 HR) as [first2 E]; [by rewrite <- app_assoc|]. exists first2. rewrite map_app, <- !app_assoc in E. cbn [map app] in E. rewrite E. by destruct R.
Qed.
End Selects.
End Form.
Definition text_fields (qs : list question) : list question := List.filter (fun q => negb (is_select q)) qs.
Definition select_fields (qs : list question) : list question := List.filter is_select qs.
Lemma text_lines qs : flat_map text_line qs = flat_map (fun q => q_line q ++ [10]) (text_fields qs).
Proof. induction qs as [|q qs IH]; [done|]. cbn [flat_map text_fields List.filter]. unfold text_line at 1. destruct (is_select q); cbn [negb flat_map app]; by rewrite IH. Qed.
Lemma select_lines qs : flat_map select_line qs = map q_line (select_fields qs).
Proof. induction qs as [|q qs IH]; [done|]. cbn [flat_map select_fields List.filter]. unfold select_line at 1. destruct (is_select q); cbn [map app]; by rewrite IH. Qed.

Section Whole.
Variables (name id : list Z).
Hypothesis id_string : no_nul id.
#[local] Abbreviation running fs cr ts ct tpl first := (st name fs cr ts ct [id] tpl None first false false 0).

Definition done_sub (s : section) : form_state := with_selects (map select_text (select_fields (s_questions s))) (bound_sub s).
Definition sections_selects (secs : list section) : list question := select_fields (flat_map before secs).
Lemma select_fields_app a b : select_fields (a ++ b) = select_fields a ++ select_fields b.
Proof. apply List.filter_app. Qed.
Lemma selects_ok qs (v : list Z) (ts : list (list Z * list Z)) : Forall question_ok qs -> (forall q, q ∈ qs -> (q_name q, v) ∈ ts) -> Forall (fun q => question_ok q /\ is_select q = true /\ (q_name q, v) ∈ ts) (select_fields qs).
Proof.
  intros Hok Hin. apply List.Forall_forall. intros q Hq. apply filter_In in Hq as [Hq Hsel]. rewrite List.Forall_forall in Hok. split; [by apply Hok|]. split; [done|].
  by apply Hin, list_elem_of_In.
Qed.
Lemma section_in s q : (q ∈ before s -> (q_name q, id) ∈ section_tags id s) /\ (q ∈ s_questions s -> (q_name q, s_id s) ∈ section_tags id s).
Proof.
  split; intros Hq; apply elem_of_app; [left | right; right]; apply list_elem_of_In; apply list_elem_of_In in Hq;
    [exact (in_map (fun q => (q_name q, id)) _ _ Hq) | exact (in_map (fun q => (q_name q, s_id s)) _ _ Hq)].
Qed.
Lemma with_main l text sels : with_selects l (main_state id text sels) = main_state id text l.
Proof. done. Qed.

Lemma section_selects_run s P R Pm T text cr ts ct tpl first subs : section_ok s -> NoDup (id :: map s_id (P ++ s :: R)) -> one_form ts -> (forall t, t ∈ section_tags id s -> t ∈ ts) ->
  separate (map q_name (Pm ++ select_fields (before s) ++ T)) = true -> separate (map q_name (select_fields (s_questions s))) = true -> exists cr' first', (cr = 0%nat -> select_fields (s_questions s) = [] -> cr' = 0%nat) /\
  fold_left handle (section_selects s) (Some (running (main_state id text (map select_text Pm ++ map q_line (select_fields (before s) ++ T)) :: map done_sub P ++ map bound_sub (s :: R)) cr ts ct tpl first subs)) =
  Some (running (main_state id text (map select_text (Pm ++ select_fields (before s)) ++ map q_line T) :: map done_sub (P ++ [s]) ++ map bound_sub R) cr' ts ct tpl first' subs).
Proof.
  intros [[Hb Hne] Hq _ [Hs _] _ _] Hni Hnt Htags Hsep Hsep'. unfold section_selects. rewrite flat_map_app, fold_left_app. set (fs := main_state id text _ :: _).
  assert (map fs_id fs = id :: map s_id (P ++ s :: R)) as Hids by (subst fs; cbn [map main_state fs_id]; rewrite !map_app; cbn [map]; rewrite !map_map; reflexivity).
  destruct (select_run name id ts tpl subs ct fs 0 (main_state id text (map select_text Pm ++ map q_line (select_fields (before s) ++ T))) id Hnt ltac:(by rewrite Hids) eq_refl eq_refl id_string
    (select_fields (before s)) Pm T cr first) as [first1 E1]; [apply selects_ok; [done | intros q Hin; by apply Htags, section_in] | exact Hsep|].
  subst fs. cbn [alter list_alter] in E1. rewrite !with_main in E1. change (List.filter is_select (before s)) with (select_fields (before s)). rewrite E1. clear E1. set (cr1 := match _ with [] => cr | _ => _ end).
  set (main := main_state id text _). set (fs := main :: _).
  assert (map fs_id fs = id :: map s_id (P ++ s :: R)) as Hids' by (subst fs main; cbn [map main_state fs_id]; rewrite !map_app; cbn [map]; rewrite !map_map; reflexivity).
  assert (fs !! S (length P) = Some (bound_sub s)) as Hget.
  { change ((map done_sub P ++ map bound_sub (s :: R)) !! length P = Some (bound_sub s)). rewrite lookup_app_r by (by rewrite length_map). by rewrite length_map, Nat.sub_diag. }
  destruct (select_run name id ts tpl subs ct fs (S (length P)) (bound_sub s) (s_id s) Hnt ltac:(by rewrite Hids') Hget eq_refl Hs (select_fields (s_questions s)) [] [] cr1 first1) as [first2 E2];
    [apply selects_ok; [done | intros q Hin; by apply Htags, section_in] | cbn [app]; by rewrite app_nil_r|]. cbn [map app] in E2. rewrite !app_nil_r in E2.
  assert (forall l, alter (with_selects l) (S (length P)) fs = main :: map done_sub P ++ with_selects l (bound_sub s) :: map bound_sub R) as Halter.
  { intros l. subst fs. cbn [alter list_alter map]. f_equal. rewrite <- (length_map done_sub P). generalize (map done_sub P). clear. intros l'. induction l' as [|x l' IH]; [done|]. cbn. f_equal. exact IH. }
  rewrite !Halter in E2. assert (with_selects (map q_line (select_fields (s_questions s))) (bound_sub s) = bound_sub s) as Hsame by (unfold bound_sub, bound, with_selects, new_sub; cbn; by rewrite select_lines).
  rewrite Hsame in E2. change (List.filter is_select (s_questions s)) with (select_fields (s_questions s)). eexists _, first2. split; [|subst fs; cbn [map]; rewrite E2; by rewrite map_app, <- app_assoc].
  intros -> ->. subst cr1. by destruct (select_fields (before s)).
Qed.
Lemma sections_selects_run R : forall P Pm T text cr ts ct tpl first subs, Forall section_ok R -> NoDup (id :: map s_id (P ++ R)) -> one_form ts -> (forall t, t ∈ flat_map (section_tags id) R -> t ∈ ts) ->
  separate (map q_name (Pm ++ sections_selects R ++ T)) = true -> Forall (fun s => separate (map q_name (select_fields (s_questions s))) = true) R ->
  exists cr' first', (cr = 0%nat -> Forall (fun s => select_fields (s_questions s) = []) R -> cr' = 0%nat) /\
  fold_left handle (flat_map section_selects R) (Some (running (main_state id text (map select_text Pm ++ map q_line (sections_selects R ++ T)) :: map done_sub P ++ map bound_sub R) cr ts ct tpl first subs)) =
  Some (running (main_state id text (map select_text (Pm ++ sections_selects R) ++ map q_line T) :: map done_sub (P ++ R)) cr' ts ct tpl first' subs).
Proof.
  induction R as [|s R IH]; intros P Pm T text cr ts ct tpl first subs Hok Hni Hnt Htags Hsep Hseps.
  { exists cr, first. split; [done|]. cbn [flat_map map app sections_selects select_fields List.filter]. by rewrite run_none, !app_nil_r. }
  apply Forall_cons_iff in Hok as [Hs Hok]. apply Forall_cons_iff in Hseps as [Hsep' Hseps]. assert (sections_selects (s :: R) = select_fields (before s) ++ sections_selects R) as Es by apply select_fields_app.
  rewrite Es in *. cbn [flat_map]. rewrite fold_left_app.
  destruct (section_selects_run s P R Pm (sections_selects R ++ T) text cr ts ct tpl first subs Hs Hni Hnt) as (cr1 & first1 & Hcr1 & E1); [intros t Ht; apply Htags; cbn [flat_map]; apply elem_of_app; by left | by rewrite <- app_assoc in Hsep | exact Hsep'|].
  rewrite <- app_assoc, E1. destruct (IH (P ++ [s]) (Pm ++ select_fields (before s)) T text cr1 ts ct tpl first1 subs Hok) as (cr2 & first2 & Hcr2 & E2); [by rewrite <- app_assoc | done | | by rewrite <- !app_assoc in * | done |].
  { intros t Ht. apply Htags. cbn [flat_map]. apply elem_of_app. by right. }
  exists cr2, first2. split; [intros -> [H1 H2]%Forall_cons_iff; auto|]. rewrite E2. by rewrite <- !app_assoc.
Qed.

(** ** The whole form *)
Lemma start_form : Z.of_nat (length id) < VERSION_SIZE ->
  fold_left handle [StartElement (codes "h:html") []; StartElement (codes "h:head") []; StartElement (codes "xf:model") [(codes "id", name)]; StartElement (codes "data") [(codes "dd:formid", id)]] (Some initial_state) =
  Some (st name [main_state id implied_meta_fields []] 0 [] None [id] [] None true false true 0 (repeat [] MAXSUBFORMS)).
Proof.
  intros Hlen. rewrite run_start. change (start_xhtml (codes "h:html") [] initial_state) with (Some initial_state).
  rewrite run_start. change (start_xhtml (codes "h:head") [] initial_state) with (Some initial_state).
  rewrite run_start. change (start_xhtml (codes "xf:model") _ initial_state) with (Some (set_form (Some name) None initial_state)). rewrite run_start, run_none.
  unfold start_xhtml. change (first_attribute (codes "dd:formid") [(codes "dd:formid", id)]) with (Some id). cbv iota.
  assert (add_to_list_recipes id (set_form (Some name) None initial_state) = Some (set_recipes [RecipeNode false id [] [] None] (Some 0%nat) (Some 0%nat) (set_form (Some name) None initial_state))) as ->.
  { unfold add_to_list_recipes. rewrite version_fits by done. cbn [set_form initial_state curr_r recipes head_r app length]. by rewrite cstr_id. }
  change (on_recipe (set_subform_node false) (set_recipes ?l ?h ?c ?s)) with (Some (set_recipes l h c s)). cbv iota.
  unfold add_to_list_subforms. rewrite cstr_id by done. reflexivity.
Qed.
Lemma end_data fs cr ts ct tpl subs : end_xhtml (codes "data") (st name fs cr ts ct [id] tpl None true false true 0 subs) = Some (running fs cr ts ct tpl true subs).
Proof. reflexivity. Qed.
Lemma finish_nodes fs : forall d fuel i, (i + d = length fs)%nat -> (0 < d)%nat -> (d < fuel)%nat ->
  finish fuel (nodes fs) (Some i) = map (fun f => (finished (node_of (length fs) 0 f), fs_id f)) (drop i fs).
Proof.
  induction d as [|d IH]; intros fuel i Hi Hd Hf; [lia|]. destruct fuel as [|fuel]; [lia|]. cbn [finish]. rewrite nodes_lookup.
  destruct (lookup_lt_is_Some_2 fs i ltac:(lia)) as [f Ef]. rewrite Ef. cbn [fmap option_fmap option_map]. rewrite (drop_S _ _ _ Ef). cbn [map]. f_equal. cbn [node_of r_next].
  unfold next_of. case_decide as E; [|apply IH; lia]. rewrite drop_ge by lia. by destruct fuel.
Qed.

Definition whole_text (secs : list section) (qs : list question) : list Z :=
  implied_meta_fields ++ flat_map section_text secs ++ flat_map (fun q => q_line q ++ [10]) (text_fields qs) ++
  flat_map (fun q => select_text q ++ [10]) (sections_selects secs ++ select_fields qs).
Definition sub_text (s : section) : list Z :=
  implied_meta_fields_subforms ++ flat_map (fun q => q_line q ++ [10]) (text_fields (s_questions s)) ++ flat_map (fun q => select_text q ++ [10]) (select_fields (s_questions s)).

(** what is asked of a form: the last question that is bound, or has choices, is one of
    its own, not of a sub-form; and the arrays have room *)
Record whole_ok (secs : list section) (qs : list question) : Prop := {
  wo_sections : Forall section_ok secs;
  wo_questions : Forall question_ok qs;
  wo_names : one_form (flat_map (section_tags id) secs ++ map (fun q => (q_name q, id)) qs);
  wo_ids : NoDup (id :: map s_id secs);
  wo_separate : separate (map q_name (sections_selects secs ++ select_fields qs)) = true;
  wo_subs : Forall (fun s => separate (map q_name (select_fields (s_questions s))) = true) secs;
  wo_last : secs = [] \/ qs <> [];
  wo_last_select : select_fields qs <> [] \/ Forall (fun s => select_fields (s_questions s) = []) secs;
  wo_id : Z.of_nat (length id) < VERSION_SIZE;
  wo_room : Z.of_nat (length (sections_selects secs ++ select_fields qs)) <= SELECTS_SIZE;
  wo_count : Z.of_nat (S (length secs)) <= RECIPES_SIZE
}.
Lemma whole_binds secs qs tpl subs : whole_ok secs qs -> let ts := flat_map (section_tags id) secs ++ map (fun q => (q_name q, id)) qs in forall ct, exists ct',
  fold_left handle (flat_map section_binds secs ++ flat_map bind_events qs) (Some (running (main_state id implied_meta_fields [] :: map new_sub secs) (length secs) ts ct tpl true subs)) =
  Some (running (main_state id (implied_meta_fields ++ flat_map section_text secs ++ flat_map text_line qs) (map q_line (sections_selects secs ++ select_fields qs)) :: map bound_sub secs) 0 ts ct' tpl true subs).
Proof.
  intros [Hok Hq Hone Hids _ _ Hlast _ _ Hroom _] ts ct. rewrite length_app in Hroom. destruct (decide (qs = [])) as [->|Hne].
  { destruct Hlast as [->|]; [|done]. exists ct. reflexivity. }
  rewrite fold_left_app.
  destruct (sections_binds_run name id id_string secs [] implied_meta_fields [] (length secs) ts ct tpl subs Hok) as (cr1 & ct1 & E1);
    [unfold room_for, room_in; cbn [main_state fs_selects length]; unfold sections_selects, select_fields in *; lia | exact Hids | exact Hone | intros t Ht; apply elem_of_app; by left|].
  cbn [map app] in E1. rewrite E1. clear E1. set (fs := main_state _ _ _ :: _).
  assert (map fs_id fs = id :: map s_id secs) as Hids' by (subst fs; cbn [map main_state fs_id]; by rewrite map_map).
  change (flat_map bind_events qs) with (flat_map (bind_at (codes "/data")) qs).
  destruct (bind_run name (codes "/data") id 0 ts [id] tpl subs id_string Hone qs (main_state id (implied_meta_fields ++ flat_map section_text secs) (flat_map select_line (flat_map before secs))) fs cr1 ct1 Hq)
    as [ct2 E2]; [by rewrite Hids' | | done | done | |].
  { apply List.Forall_forall. intros q Hin. apply elem_of_app. right. apply list_elem_of_In. exact (in_map (fun q => (q_name q, id)) _ _ Hin). }
  { unfold room_for, room_in. cbn [main_state fs_selects]. rewrite length_select_lines. rewrite Nat2Z.inj_add in Hroom. exact Hroom. }
  exists ct2. rewrite E2. assert (match qs with [] => cr1 | _ => 0%nat end = 0%nat) as -> by (by destruct qs). subst fs. cbn [alter list_alter].
  unfold bound at 1. cbn [main_state fs_sub fs_id fs_text fs_selects]. fold (main_state id ((implied_meta_fields ++ flat_map section_text secs) ++ flat_map text_line qs) (flat_map select_line (flat_map before secs) ++ flat_map select_line qs)).
  by rewrite <- app_assoc, !select_lines, <- map_app.
Qed.
Lemma whole_selects secs qs tpl subs : whole_ok secs qs -> let ts := flat_map (section_tags id) secs ++ map (fun q => (q_name q, id)) qs in forall text ct, exists first,
  fold_left handle (flat_map section_selects secs ++ flat_map select_events (select_fields qs)) (Some (running (main_state id text (map q_line (sections_selects secs ++ select_fields qs)) :: map bound_sub secs) 0 ts ct tpl true subs)) =
  Some (running (main_state id text (map select_text (sections_selects secs ++ select_fields qs)) :: map done_sub secs) 0 ts ct tpl first subs).
Proof.
  intros [Hok Hq Hone Hids Hsep Hseps _ Hlast _ _ _] ts text ct. rewrite fold_left_app.
  destruct (sections_selects_run secs [] [] (select_fields qs) text 0%nat ts ct tpl true subs Hok Hids Hone) as (cr1 & first1 & Hcr & E1); [intros t Ht; apply elem_of_app; by left | exact Hsep | exact Hseps|].
  cbn [map app] in E1. rewrite E1. clear E1. set (fs := main_state _ _ _ :: _).
  assert (map fs_id fs = id :: map s_id secs) as Hids' by (subst fs; cbn [map main_state fs_id]; by rewrite map_map).
  destruct (select_run name id ts tpl subs ct fs 0 (main_state id text (map select_text (sections_selects secs) ++ map q_line (select_fields qs))) id Hone ltac:(by rewrite Hids') eq_refl eq_refl id_string
    (select_fields qs) (sections_selects secs) [] cr1 first1) as [first2 E2]; [apply selects_ok; [done|] | by rewrite app_nil_r|].
  { intros q Hin. apply elem_of_app. right. apply list_elem_of_In. apply list_elem_of_In in Hin. exact (in_map (fun q => (q_name q, id)) _ _ Hin). }
  exists first2. subst fs. cbn [alter list_alter] in E2. rewrite !with_main, !app_nil_r in E2. rewrite E2. assert (match select_fields qs with [] => cr1 | _ => 0%nat end = 0%nat) as ->; [|done].
  destruct Hlast as [Hne|Hnone]; [by destruct (select_fields qs)|]. destruct (select_fields qs); [by apply Hcr | done].
Qed.
Lemma whole_run secs qs : whole_ok secs qs -> exists ct first subs,
  fold_left handle (whole_events name id secs qs) (Some initial_state) =
  Some (running (main_state id (implied_meta_fields ++ flat_map section_text secs ++ flat_map text_line qs) (map select_text (sections_selects secs ++ select_fields qs)) :: map done_sub secs) 0
    (flat_map (section_tags id) secs ++ map (fun q => (q_name q, id)) qs) ct (flat_map section_template secs ++ flat_map q_template qs) first subs).
Proof.
  intros Hok. rewrite whole_events_order, fold_left_app, start_form by apply (wo_id _ _ Hok). rewrite fold_left_app.
  destruct (sections_instance_run name id secs id_string (wo_sections _ _ Hok) [main_state id implied_meta_fields []] [] [] (repeat [] MAXSUBFORMS)) as (subs & _ & E1); [done | done|].
  cbn [length Nat.sub last_of app] in E1. rewrite E1. clear E1. rewrite fold_left_app.
  rewrite instance_run by (first [done | apply (wo_questions _ _ Hok) | apply List.Forall_forall; intros; done]). change ([EndElement (codes "data")] ++ ?l) with (EndElement (codes "data") :: l). rewrite run_end, end_data.
  rewrite Nat.sub_0_r, length_map.
  destruct (whole_binds secs qs (flat_map section_template secs ++ flat_map q_template qs) subs Hok (last_of (flat_map (section_tags id) secs ++ map (fun q => (q_name q, id)) qs))) as [ct E2].
  rewrite app_assoc, fold_left_app, E2. clear E2. cbn [app]. rewrite run_end, end_outside by done. rewrite run_end, end_outside by done. rewrite run_start. change (start_xhtml (codes "h:body") [] ?s) with (Some s).
  change (List.filter is_select qs) with (select_fields qs). rewrite (app_assoc (flat_map section_selects secs)), fold_left_app.
  destruct (whole_selects secs qs (flat_map section_template secs ++ flat_map q_template qs) subs Hok (implied_meta_fields ++ flat_map section_text secs ++ flat_map text_line qs) ct) as [first E3].
  exists ct, first, subs. rewrite E3. rewrite run_end, end_outside by done. by rewrite run_end, end_outside.
Qed.
Lemma select_text_nul q : question_ok q -> is_select q = true -> no_nul (select_text q).
Proof.
  intros Hq Hsel. pose proof (q_values_plain q Hsel Hq) as Hv. destruct Hq as [Hf _ _ _]. apply plain_no_nul. unfold select_text.
  apply plain_app; [by apply head_plain|]. unfold values_text. destruct (map snd (q_values q)) eqn:E; [constructor|]. rewrite <- E in *.
  constructor; [lia | by apply plain_join].
Qed.
Lemma finished_text t sels : Forall no_nul sels -> fold_left (fun t x => grow (grow t x) [10]) sels t = t ++ flat_map (fun s => s ++ [10]) sels.
Proof.
  intros Hs. revert t. induction Hs as [|x sels Hx Hs IH]; intros t; cbn [fold_left flat_map]; [by rewrite app_nil_r|].
  rewrite IH, !grow_app by (done || by apply no_nul_check). by rewrite <- !app_assoc.
Qed.

Lemma select_texts_nul qs : Forall question_ok qs -> Forall no_nul (map select_text (select_fields qs)).
Proof.
  intros Hok. rewrite Forall_map. apply List.Forall_forall. intros q [Hq Hsel]%filter_In. rewrite List.Forall_forall in Hok. by apply select_text_nul; [apply Hok|].
Qed.
Lemma before_ok secs : Forall section_ok secs -> Forall question_ok (flat_map before secs).
Proof. induction 1 as [|s secs [[Hb _] _ _ _ _] _ IH]; [constructor|]. cbn [flat_map]. by apply Forall_app. Qed.
Lemma whole_recipe (XML_Parse : list Z -> list event * bool) xml secs qs : XML_Parse xml = (whole_events name id secs qs, true) -> whole_ok secs qs ->
  xhtmlToRecipe XML_Parse xml = Converted ((whole_text secs qs, id) :: map (fun s => (sub_text s, s_id s)) secs) (flat_map section_template secs ++ flat_map q_template qs).
Proof.
  intros Hx Hok. unfold xhtmlToRecipe. rewrite Hx. destruct (whole_run secs qs Hok) as (ct & first & subs & ->).
  change (recipes (st _ ?a _ _ _ _ _ _ _ _ _ _ _)) with (nodes a). change (curr_r (st _ _ ?b _ _ _ _ _ _ _ _ _ _)) with (Some b).
  change (xhtml2template (st _ _ _ _ _ _ ?t _ _ _ _ _ _)) with t. set (fs := main_state _ _ _ :: _). rewrite length_nodes.
  rewrite (finish_nodes fs (length fs) (S (length fs)) 0) by (subst fs; cbn [length]; lia). rewrite drop_0. cbv zeta. rewrite length_map.
  assert ((RECIPES_SIZE <? Z.of_nat (length fs)) = false) as -> by (apply Z.ltb_ge; subst fs; cbn [length]; rewrite length_map; apply (wo_count _ _ Hok)).
  subst fs. cbn [map]. f_equal. f_equal.
  - f_equal. unfold finished. cbn [node_of selects recipe_text main_state fs_selects fs_text]. rewrite finished_text by (unfold sections_selects; rewrite <- select_fields_app; apply select_texts_nul, Forall_app; split; [exact (before_ok _ (wo_sections _ _ Hok)) | exact (wo_questions _ _ Hok)]).
    unfold whole_text. rewrite flat_map_of_map, text_lines, <- !app_assoc. done.
  - rewrite map_map. apply map_ext_in. intros s Hs. f_equal. unfold finished. cbn [node_of selects recipe_text done_sub with_selects bound_sub bound fs_selects fs_text new_sub].
    pose proof (wo_sections _ _ Hok) as Hsecs. rewrite List.Forall_forall in Hsecs. rewrite finished_text by (by apply select_texts_nul, so_questions, Hsecs).
    unfold sub_text. rewrite flat_map_of_map, text_lines, <- !app_assoc. done.
Qed.
End Whole.
