(* ===== verification/XhtmlForm.v ===== *)
(** xhtml2recipe.c: the string builder, the recipes that are made of a form, and what
    recipe_read makes of them. *)
From Stdlib Require Import String.
From S2P Require Import Prelude Charset CString BlockHash Md5 Recipe RecipeText RecipeRead Dexml Xhtml XmlReader XhtmlRun.
Local Open Scope Z_scope.
Local Open Scope succinct_scope.

(** ** The string builder keeps a string *)
Section Builder.
Import StrBuilder.
Context `{MemoryOk}.
Definition builder_text (b : str_builder) : list Z := match str b with Some s => cstr s | None => [] end.
Definition builder_ok (b : str_builder) : Prop :=
  match str b with
  | None => str_len b = 0 /\ alloc_len b = 0
  | Some s => Z.of_nat (length s) = alloc_len b /\ str_len b < alloc_len b /\
      exists t rest, s = t ++ 0 :: rest /\ no_nul t /\ Z.of_nat (length t) = str_len b
  end.

Lemma double_until_spec fuel : forall n needed, 0 < n -> needed <= n * 2 ^ Z.of_nat fuel -> n <= double_until fuel n needed /\ needed <= double_until fuel n needed.
Proof.
  induction fuel as [|fuel IH]; intros n needed Hn Hf; cbn [double_until]; [cbn in Hf; lia|].
  destruct (Z.ltb_spec n needed); [|lia]. destruct (IH (n * 2) needed); [lia | | lia].
  rewrite Nat2Z.inj_succ, Z.pow_succ_r in Hf by lia. lia.
Qed.

Lemma strgrow_ok b seg : builder_ok b -> str_len b + Z.of_nat (length seg) < 2 ^ 64 -> builder_ok (strgrow b seg) /\ builder_text (strgrow b seg) = builder_text b ++ cstr seg.
Proof.
  intros Hb Hsmall. assert (length (cstr seg) <= length seg)%nat as Hcl by (destruct (cstr_prefix seg) as [t E]; rewrite E at 2; rewrite length_app; lia).
  pose proof (cstr_no_nul seg) as Hnul. unfold strgrow. destruct (cstr seg) as [|c seg'] eqn:E; [split; [done | by rewrite app_nil_r]|].
  rewrite <- E in *. clear E. set (sg := cstr seg) in *. set (len := Z.of_nat (length sg)) in *.
  assert (exists t, builder_text b = t /\ no_nul t /\ str_len b = Z.of_nat (length t) /\ 0 <= alloc_len b) as (t & Ht & Htn & Hlt & Ha).
  { unfold builder_ok, builder_text in *. destruct (str b) as [s|].
    - destruct Hb as (Hs & Hl & t & rest & -> & Htn & Hlt). exists t. rewrite cstr_app by done. repeat split; try done. lia.
    - destruct Hb as [-> ->]. exists []. repeat split; try done. by intros ?%not_elem_of_nil. }
  set (b1 := if alloc_len b <? _ then _ else b).
  (* there is room, and the old text is there *)
  assert (str_len b1 = str_len b /\ str_len b + len + 1 <= alloc_len b1 /\
    ((exists s, str b1 = Some s /\ Z.of_nat (length s) = alloc_len b1 /\ (exists rest, s = t ++ rest /\ (t = [] \/ exists r, rest = 0 :: r))))) as (E1 & Hroom & s & Es & Hls & rest & -> & Hrest).
  { subst b1. destruct (Z.ltb_spec (alloc_len b) (str_len b + len + 1)) as [Hgrow|Hfits]; cbn [str_len alloc_len str].
    - destruct (double_until_spec 64 (Z.max (alloc_len b) 256) (str_len b + len + 1)) as [Hd1 Hd2]; [lia | cbn; lia|].
      set (new_len := double_until _ _ _) in *. split; [done|]. split; [done|].
      pose proof (garbage_length new_len ltac:(lia)) as Hg.
      unfold builder_text in Ht. destruct (str b) as [s|].
      + rewrite Ht. exists (copy_into (garbage new_len) 0 (t ++ [0])). split; [done|]. split; [by rewrite length_copy_into|].
        change 0 with (Z.of_nat 0) at 1. rewrite copy_into_split by (rewrite length_app; cbn [length]; lia). cbn [take app].
        rewrite <- app_assoc. eexists. split; [reflexivity|]. right. by eexists.
      + subst t. exists (garbage new_len). split; [done|]. split; [done|]. eexists. split; [reflexivity | by left].
    - split; [done|]. split; [done|]. unfold builder_ok, builder_text in *. destruct (str b) as [s|].
      + destruct Hb as (Hs & Hl & t' & rest & -> & Htn' & Hlt'). rewrite cstr_app in Ht by done. subst t'. eexists. split; [done|]. split; [done|].
        eexists. split; [reflexivity|]. right. by eexists.
      + subst len. lia. }
  rewrite Es. cbn [option_map]. rewrite E1, Hlt.
  assert (exists rest', copy_into (t ++ rest) (Z.of_nat (length t)) (sg ++ [0]) = (t ++ sg) ++ 0 :: rest') as [rest' Hcopy].
  { rewrite copy_into_split by (subst len; rewrite !length_app in *; cbn [length] in *; lia). rewrite firstn_app, Nat.sub_diag, firstn_O, app_nil_r, firstn_all.
    eexists. by rewrite <- !app_assoc. }
  assert (no_nul (t ++ sg)) as Hnn by (intros [Hin|Hin]%elem_of_app; [by apply Htn | by apply Hnul]).
  rewrite Ht. split; unfold builder_ok, builder_text; cbn [str str_len alloc_len]; rewrite Hcopy; [|by rewrite cstr_app].
  split; [by rewrite <- Hcopy, length_copy_into|]. split; [lia|]. exists (t ++ sg), rest'. split; [done|]. split; [done|]. rewrite length_app. lia.
Qed.
End Builder.

(** ** What recipe_read makes of it *)
Definition implied_fields : list field := [
  Field (codes "userid") FIELDTYPE_TEXT 0 0 0 [] 0; Field (codes "accesstoken") FIELDTYPE_TEXT 0 0 0 [] 0; Field (codes "formid") FIELDTYPE_TEXT 0 0 0 [] 0;
  Field (codes "lastsubmittime") FIELDTYPE_MAGPITIMEDATE 0 0 0 [] 0; Field (codes "endrecordtime") FIELDTYPE_MAGPITIMEDATE 0 0 0 [] 0;
  Field (codes "startrecordtime") FIELDTYPE_MAGPITIMEDATE 0 0 0 [] 0; Field (codes "version") FIELDTYPE_TEXT 0 0 0 [] 0; Field (codes "uuid") FIELDTYPE_MAGPIUUID 0 0 0 [] 0;
  Field (codes "latitude") FIELDTYPE_FLOAT (-90) 90 0 [] 0; Field (codes "longitude") FIELDTYPE_FLOAT (-200) 200 0 [] 0].
Definition implied_lines : list (list Z) := map codes
  ["userid:string:0:0:0"; "accesstoken:string:0:0:0"; "formid:string:0:0:0"; "lastsubmittime:magpitimestamp:0:0:0"; "endrecordtime:magpitimestamp:0:0:0";
   "startrecordtime:magpitimestamp:0:0:0"; "version:string:0:0:0"; "uuid:magpiuuid:0:0:0"; "latitude:float:-90:90:0"; "longitude:float:-200:200:0"]%string.
Lemma implied_lines_text : implied_meta_fields = flat_map (fun s => s ++ [10]) implied_lines.
Proof. reflexivity. Qed.
Definition line_readsb (s : list Z) : bool := plainb s && negb (bool_decide (s = [])) && negb (rd s 0 =? 35) && (Z.of_nat (length s) <=? 16380).
Lemma line_readsb_spec s f : line_readsb s = true -> read_field s = Value f -> line_reads s f.
Proof. unfold line_readsb. intros H Hf. b2p. split; [by apply plainb_spec | | done | done]. split; [by eapply bool_decide_eq_false | done]. Qed.
Lemma implied_lines_read : Forall2 line_reads implied_lines implied_fields.
Proof. repeat (apply List.Forall2_cons; [apply line_readsb_spec; vm_compute; reflexivity|]). apply List.Forall2_nil. Qed.
Lemma text_line_reads q : question_ok q -> is_select q = false -> line_reads (q_line q) (q_field q).
Proof.
  intros [Hf _ _ _] Hsel. pose proof (fp_length _ Hf) as Hl. rewrite print_field_head, length_app in Hl. split.
  - by apply head_plain.
  - apply (line_start _ _ Hf).
  - unfold q_line. lia.
  - apply read_head; [apply Hf | by apply plain_no_nul, head_plain|]. rewrite q_field_type. unfold has_values, is_select in *. by rewrite orb_comm.
Qed.
Lemma select_line_reads q : question_ok q -> is_select q = true -> line_reads (select_text q) (q_field q).
Proof.
  intros [Hf _ _ _] Hsel. assert (select_text q = print_field_line (q_field q)) as ->; [|by apply print_line_reads].
  rewrite print_field_head. unfold select_text, q_line. f_equal. pose proof (fw_values _ (fp_wf _ Hf)) as Hv. pose proof (fw_count _ (fp_wf _ Hf)) as Hc.
  rewrite q_field_type in Hv. unfold has_values in Hv. rewrite orb_comm in Hv. change (_ || _) with (is_select q) in Hv. rewrite Hsel in Hv.
  assert (enum_value (q_field q) = map snd (q_values q)) as E by (unfold q_field; rewrite Hsel; by destruct (bind_range _)).
  rewrite Hc, E in Hv. rewrite E. destruct (map snd (q_values q)); [cbn [length] in Hv; lia | done].
Qed.
Lemma reads_all {A} (P : A -> Prop) (line : A -> list Z) (fld : A -> field) l : (forall q, P q -> line_reads (line q) (fld q)) -> Forall P l -> Forall2 line_reads (map line l) (map fld l).
Proof. intros H. induction 1; constructor; auto. Qed.

Section Specification.
Context `{M : Memory} `{HM : !MemoryOk M}.
Variable XML_Parse : list Z -> list event * bool.

(** a recipe made of a text of lines *)
Definition form_hash (stem : list Z) : list Z := take 6 (md5 (codes "SMAC Binary Format v2" ++ stem)).
Definition recipe_of (stem : list Z) (fs : list field) : recipe := Recipe stem (form_hash stem) fs (Z.of_nat (length fs)).
(** the limits of recipe_read *)
Record readable (id stem text : list Z) (fs : list field) : Prop := {
  rd_id : no_nul id /\ names_form id stem;
  rd_stem : Z.of_nat (length stem) < 1023;
  rd_fields : Z.of_nat (length fs) <= 1000;
  rd_text : 1 <= Z.of_nat (length text) <= 1048576
}.
Definition lines (ls : list (list Z)) : list Z := flat_map (fun s => s ++ [10]) ls.
Lemma lines_app l l' : lines (l ++ l') = lines l ++ lines l'.
Proof. apply flat_map_app. Qed.
Lemma lines_map {A} (f : A -> list Z) l : lines (map f l) = flat_map (fun x => f x ++ [10]) l.
Proof. apply flat_map_of_map. Qed.
Lemma lines_read id stem ls fs : Forall2 line_reads ls fs -> readable id stem (lines ls) fs -> recipe_read id (lines ls) = Value (recipe_of stem fs).
Proof.
  intros Hls [[Hid Hstem] Hl Hn Hsize]. unfold recipe_read.
  destruct (Z.ltb_spec (Z.of_nat (length (lines ls))) 1); [lia|]. destruct (Z.gtb_spec (Z.of_nat (length (lines ls))) 1048576); [lia|]. cbn [orb].
  rewrite (recipe_form_hash_value id stem) by done. cbn [Recipe.bind fst snd].
  rewrite <- (app_nil_r (lines ls)). unfold lines. rewrite (recipe_lines_read _ _ Hls) by (cbn [field_count]; lia). by rewrite recipe_lines_end by (cbn [field_count]; lia).
Qed.

(** the lines of questions *)
Lemma text_fields_read qs : Forall question_ok qs -> Forall2 line_reads (map q_line (text_fields qs)) (map q_field (text_fields qs)).
Proof.
  intros Hok. apply (reads_all (fun q => question_ok q /\ is_select q = false)); [by intros q [Hq Hsel]; apply text_line_reads|].
  rewrite List.Forall_forall in Hok. apply List.Forall_forall. intros q [Hq Hsel]%filter_In. split; [by apply Hok | by apply negb_true_iff].
Qed.
Lemma select_fields_read qs : Forall question_ok qs -> Forall2 line_reads (map select_text (select_fields qs)) (map q_field (select_fields qs)).
Proof.
  intros Hok. apply (reads_all (fun q => question_ok q /\ is_select q = true)); [by intros q [Hq Hsel]; apply select_line_reads|].
  rewrite List.Forall_forall in Hok. apply List.Forall_forall. intros q [Hq Hsel]%filter_In. split; [by apply Hok | done].
Qed.

(** ** What recipe_read makes of a form with sub-forms *)
Definition sub_field (sid : list Z) : field := Field (codes "subform/" ++ sid) FIELDTYPE_SUBFORM 0 0 0 [] 0.
Definition section_fields (s : section) : list field := map q_field (text_fields (before s)) ++ [sub_field (s_id s)].
Definition whole_fields (secs : list section) (qs : list question) : list field :=
  implied_fields ++ flat_map section_fields secs ++ map q_field (text_fields qs) ++ map q_field (sections_selects secs ++ select_fields qs).
Definition implied_sub_fields : list field :=
  [Field (codes "formid") FIELDTYPE_TEXT 0 0 0 [] 0; Field (codes "question") FIELDTYPE_TEXT 0 0 0 [] 0; Field (codes "uuid") FIELDTYPE_MAGPIUUID 0 0 0 [] 0].
Definition sub_fields (s : section) : list field :=
  implied_sub_fields ++ map q_field (text_fields (s_questions s)) ++ map q_field (select_fields (s_questions s)).

Definition section_lines (s : section) : list (list Z) := map q_line (text_fields (before s)) ++ [sub_line (s_id s)].
Definition whole_lines (secs : list section) (qs : list question) : list (list Z) :=
  implied_lines ++ flat_map section_lines secs ++ map q_line (text_fields qs) ++ map select_text (sections_selects secs ++ select_fields qs).
Definition implied_sub_lines : list (list Z) := map codes ["formid:string:0:0:0"; "question:string:0:0:0"; "uuid:magpiuuid:0:0:0"]%string.
Definition sub_lines (s : section) : list (list Z) :=
  implied_sub_lines ++ map q_line (text_fields (s_questions s)) ++ map select_text (select_fields (s_questions s)).
Lemma whole_lines_text secs qs : whole_text secs qs = lines (whole_lines secs qs).
Proof.
  unfold whole_text, whole_lines. rewrite !lines_app, !lines_map. f_equal. f_equal. induction secs as [|s secs IH]; [done|].
  cbn [flat_map]. rewrite lines_app, <- IH. f_equal. unfold section_text, section_lines. rewrite text_lines, lines_app, lines_map. cbn [lines flat_map]. by rewrite app_nil_r.
Qed.
Lemma sub_lines_text s : sub_text s = lines (sub_lines s).
Proof. unfold sub_text, sub_lines. by rewrite !lines_app, !lines_map. Qed.
Lemma implied_sub_lines_read : Forall2 line_reads implied_sub_lines implied_sub_fields.
Proof. repeat (apply List.Forall2_cons; [apply line_readsb_spec; vm_compute; reflexivity|]). apply List.Forall2_nil. Qed.
Lemma sub_line_reads sid : field_printable (sub_field sid) -> line_reads (sub_line sid) (sub_field sid).
Proof.
  intros H. assert (sub_line sid = field_head (sub_field sid)) as -> by (unfold sub_line, field_head, sub_field; cbn [f_name]; by rewrite <- app_assoc).
  pose proof (fp_length _ H) as Hl. rewrite print_field_head, length_app in Hl. split.
  - by apply head_plain.
  - apply (line_start _ _ H).
  - lia.
  - apply read_head; [apply H | by apply plain_no_nul, head_plain | reflexivity].
Qed.
Lemma whole_lines_read secs qs : Forall section_ok secs -> Forall (fun s => field_printable (sub_field (s_id s))) secs -> Forall question_ok qs ->
  Forall2 line_reads (whole_lines secs qs) (whole_fields secs qs).
Proof.
  intros Hs Hp Hq. unfold whole_lines, whole_fields. apply List.Forall2_app; [apply implied_lines_read|]. apply List.Forall2_app.
  - induction Hs as [|s secs [[Hb _] _ _ _ _] _ IH]; [constructor|]. apply Forall_cons_iff in Hp as [Hp Hps]. cbn [flat_map]. apply List.Forall2_app; [|by apply IH].
    apply List.Forall2_app; [by apply text_fields_read|]. constructor; [by apply sub_line_reads | constructor].
  - apply List.Forall2_app; [by apply text_fields_read|]. rewrite !map_app. apply List.Forall2_app; apply select_fields_read; [by apply before_ok | done].
Qed.
Lemma sub_lines_read s : section_ok s -> Forall2 line_reads (sub_lines s) (sub_fields s).
Proof.
  intros [_ Hq _ _ _]. apply List.Forall2_app; [apply implied_sub_lines_read|]. apply List.Forall2_app; [by apply text_fields_read | by apply select_fields_read].
Qed.

Lemma whole_read id stem secs qs : whole_ok id secs qs -> Forall (fun s => field_printable (sub_field (s_id s))) secs -> readable id stem (whole_text secs qs) (whole_fields secs qs) ->
  recipe_read id (whole_text secs qs) = Value (recipe_of stem (whole_fields secs qs)).
Proof. intros Hok Hp Hr. rewrite whole_lines_text in *. apply lines_read; [|done]. apply whole_lines_read; [apply Hok | done | apply Hok]. Qed.
Lemma sub_read s : section_ok s -> readable (s_id s) (s_id s) (sub_text s) (sub_fields s) -> recipe_read (s_id s) (sub_text s) = Value (recipe_of (s_id s) (sub_fields s)).
Proof. intros Hs Hr. rewrite sub_lines_text in *. apply lines_read; [by apply sub_lines_read | done]. Qed.
(** the recipes of a form with its sub-forms, and what is asked of them *)
Definition form_recipes (stem : list Z) (secs : list section) (qs : list question) : list recipe :=
  recipe_of stem (whole_fields secs qs) :: map (fun s => recipe_of (s_id s) (sub_fields s)) secs.
Record recipes_readable (id stem : list Z) (secs : list section) (qs : list question) : Prop := {
  rr_form : readable id stem (whole_text secs qs) (whole_fields secs qs);
  rr_subs : Forall (fun s => readable (s_id s) (s_id s) (sub_text s) (sub_fields s)) secs;
  rr_lines : Forall (fun s => field_printable (sub_field (s_id s))) secs
}.
Lemma recipes_read id stem secs qs : whole_ok id secs qs -> recipes_readable id stem secs qs ->
  Forall2 (fun t r => recipe_read t.2 t.1 = Value r) ((whole_text secs qs, id) :: map (fun s => (sub_text s, s_id s)) secs) (form_recipes stem secs qs).
Proof.
  intros Hok [Hr Hsubs Hp]. constructor; [by apply whole_read|]. pose proof (wo_sections _ _ _ Hok) as Hs. clear - Hs Hsubs HM.
  induction Hs as [|s secs Hs _ IH]; [constructor|]. apply Forall_cons_iff in Hsubs as [H Hsubs]. cbn [map]. constructor; [by apply sub_read | by apply IH].
Qed.

(** ** Properties *)

(** The string builder refines appending to a string: whatever the memory that
    malloc gives, strgrow keeps the text and its terminator inside of the memory,
    grown in time, and adds the segment to the text. *)
Theorem strgrow_appends (b : StrBuilder.str_builder) seg : builder_ok b -> StrBuilder.str_len b + Z.of_nat (length seg) < 2 ^ 64 ->
  builder_ok (StrBuilder.strgrow b seg) /\ builder_text (StrBuilder.strgrow b seg) = grow (builder_text b) seg.
Proof. apply strgrow_ok. Qed.

(** C24: The definition of a form with sub-forms becomes a recipe for the form and one for
    each of its sub-forms. recipe_read makes of the form's the ten implied fields, then for each
    part of the form its questions without choices and the field of its sub-form, then
    the form's own questions and those with choices; of a sub-form's the three implied
    fields and the questions of the sub-form: each question with its type, its range and its
    values, under the hash of the form's name. The template has the elements of the
    questions, those of a sub-form inside of it.  The definition is a text that expat
    reads as the elements of [whole_document], each value of a choice in one call; names,
    ids, choices and sub-forms fit the arrays of the code (whole_ok). *)
Theorem specification_recipes name id stem xml secs qs : XML_Parse xml = (whole_events name id secs qs, true) -> whole_ok id secs qs ->
  recipes_readable id stem secs qs ->
  recipe_read_from_specification XML_Parse xml = Some (Value (recipe_of stem (whole_fields secs qs))) /\
  exists texts, xhtmlToRecipe XML_Parse xml = Converted texts (flat_map section_template secs ++ flat_map q_template qs) /\
    Forall2 (fun t r => recipe_read t.2 t.1 = Value r) texts (form_recipes stem secs qs).
Proof.
  intros Hx Hok Hr. pose proof (whole_recipe name id (proj1 (rd_id _ _ _ _ (rr_form _ _ _ _ Hr))) XML_Parse xml secs qs Hx Hok) as E.
  pose proof (recipes_read id stem secs qs Hok Hr) as Hread. split.
  - unfold recipe_read_from_specification. rewrite E. f_equal. by inversion Hread.
  - rewrite E. by eexists.
Qed.
End Specification.

(** ** Examples *)
Definition sample_questions : list question := [
  Question (codes "age") (codes "xsd:int") (codes ". > 5 and . < 120") [];
  Question (codes "colour") (codes "select1") [] [(codes "Red", codes "red"); (codes "Blue", codes "deep blue")];
  Question (codes "photo") (codes "image") [] [];
  Question (codes "pets") (codes "selectn") [] [(codes "A cat", codes "cat")]].
Definition question_okb (q : question) : bool :=
  field_printableb (q_field q) && forallb (fun c => negb (c =? 47)) (q_name q) && negb (strcaseeq (codes "data") (q_name q)) &&
  negb (strcaseeq (q_name q) (codes "instanceID")) && negb (q_code q =? FIELDTYPE_SUBFORM) && negb (strcaseeq (q_type q) (codes "xsd:subform")) &&
  (Z.of_nat (length (q_line q)) <? TEMP_SIZE) && forallb (fun lv : list Z * list Z => negb (bool_decide (lv.2 = []))) (q_values q).
Lemma question_okb_spec q : question_okb q = true -> question_ok q.
Proof.
  unfold question_okb. intros H. b2p. split; [by apply field_printableb_spec | by apply forallb_absent | done | done | done |].
  apply List.Forall_forall. intros lv Hlv. match goal with Hf : forallb _ (q_values q) = true |- _ => rewrite forallb_forall in Hf; apply Hf, negb_true_iff in Hlv end. by eapply bool_decide_eq_false.
Qed.
Lemma sample_questions_ok : Forall question_ok sample_questions.
Proof. repeat (apply List.Forall_cons; [apply question_okb_spec; vm_compute; reflexivity|]). apply List.Forall_nil. Qed.

#[local] Existing Instances sample_memory sample_memory_ok.
(** a form about a household, with a sub-form for its animals *)
Definition sample_section : section := Section_ [Question (codes "village") (codes "xsd:string") [] []] (codes "animals") (codes "78")
  [Question (codes "count") (codes "xsd:int") (codes ". > 0 and . < 50") []; Question (codes "kind") (codes "select1") [] [(codes "A cat", codes "cat"); (codes "A dog", codes "dog")]].
Definition section_okb (s : section) : bool :=
  forallb question_okb (before s) && negb (bool_decide (before s = [])) && forallb question_okb (s_questions s) &&
  forallb (fun c => negb (c =? 0)) (s_tag s) && forallb (fun c => negb (c =? 47)) (s_tag s) &&
  negb (strcaseeq (codes "data") (s_tag s)) && negb (strcaseeq (s_tag s) (codes "instanceID")) &&
  (forallb (fun c => negb (c =? 0)) (s_id s) && (Z.of_nat (length (s_id s)) <? VERSION_SIZE)) &&
  (Z.of_nat (length (List.filter is_select (s_questions s))) <=? SELECTS_SIZE) && forallb (fun q => negb (strcaseeq (s_tag s) (q_name q))) (s_questions s).
Lemma questions_okb_spec qs : forallb question_okb qs = true -> Forall question_ok qs.
Proof. intros H. rewrite forallb_forall in H. apply List.Forall_forall. intros q Hq. by apply question_okb_spec, H. Qed.
Lemma section_okb_spec s : section_okb s = true -> section_ok s.
Proof.
  unfold section_okb. intros H. repeat (apply andb_true_iff in H as [H ?]). repeat match goal with E : negb _ = true |- _ => apply negb_true_iff in E end.
  split; [split; [by apply questions_okb_spec | by eapply bool_decide_eq_false] | by apply questions_okb_spec | | match goal with E : _ && _ = true |- _ => apply andb_true_iff in E as [E1 E2]; b2p end; split; [by apply no_nul_check | done] | |by b2p].
  - split; [by apply no_nul_check|]. split; [by apply forallb_absent | done].
  - apply List.Forall_forall. match goal with E : forallb _ (s_questions s) = true |- _ => rewrite forallb_forall in E; intros q Hq; apply negb_true_iff; exact (E q Hq) end.
Qed.
Definition one_formb (ts : list (list Z * list Z)) : bool := forallb (fun a => forallb (fun b => negb (bool_decide (a.1 = b.1)) || bool_decide (a.2 = b.2)) ts) ts.
Lemma one_formb_spec ts : one_formb ts = true -> one_form ts.
Proof.
  unfold one_formb. intros H k v v' H1%list_elem_of_In H2%list_elem_of_In. rewrite forallb_forall in H. specialize (H _ H1). rewrite forallb_forall in H. specialize (H _ H2).
  cbn [fst snd] in H. rewrite bool_decide_true in H by done. by apply bool_decide_eq_true in H.
Qed.
Lemma sample_whole_ok : whole_ok (codes "77") [sample_section] sample_questions.
Proof.
  split; [constructor; [apply section_okb_spec; vm_compute; reflexivity | constructor] | apply sample_questions_ok | apply one_formb_spec; vm_compute; reflexivity |
    apply (bool_decide_eq_true_1 _); vm_compute; reflexivity | vm_compute; reflexivity | constructor; [vm_compute; reflexivity | constructor] | by right | left; vm_compute; discriminate |
    reflexivity | vm_compute; discriminate | vm_compute; discriminate].
Qed.
Lemma plain_name_form s : forallb (fun c => negb (c =? 47)) s = true -> strcaseeq (codes ".recipe") (skipn (length s - 7) s) = false -> names_form s s.
Proof. intros H1 H2. exists [], []. rewrite app_nil_r. split; [done|]. split; [by left|]. split; [by apply forallb_absent | by left]. Qed.
Lemma readable_check id text fs : forallb (fun c => negb (c =? 0)) id && forallb (fun c => negb (c =? 47)) id && negb (strcaseeq (codes ".recipe") (skipn (length id - 7) id)) &&
  (Z.of_nat (length id) <? 1023) && (Z.of_nat (length fs) <=? 1000) && (1 <=? Z.of_nat (length text)) && (Z.of_nat (length text) <=? 1048576) = true -> readable id id text fs.
Proof. intros H. repeat (apply andb_true_iff in H as [H ?]). b2p. split; [split; [by apply no_nul_check | by apply plain_name_form] | lia | lia | lia]. Qed.
Lemma sample_recipes_readable : recipes_readable (codes "77") (codes "77") [sample_section] sample_questions.
Proof.
  split; [apply readable_check; vm_compute; reflexivity | |]; (apply List.Forall_cons; [first [apply readable_check | apply field_printableb_spec]; vm_compute; reflexivity | apply List.Forall_nil]).
Qed.
(** its definition *)
Definition sample_definition : list Z := flat_map codes [
  "<?xml version='1.0'?><h:html><h:head><xf:model id='Visit'><data dd:formid='77'>";
  "<village/><animals dd:subformid='78'><count/><kind/></animals><age/><colour/><photo/><pets/></data>";
  "<xf:bind nodeset='/data/village' type='xsd:string' constraint=''/><xf:bind nodeset='/data/animals' type='xsd:subform'/>";
  "<xf:bind nodeset='/data/animals/count' type='xsd:int' constraint='. > 0 and . &lt; 50'/><xf:bind nodeset='/data/animals/kind' type='select1' constraint=''/>";
  "<xf:bind nodeset='/data/age' type='xsd:int' constraint='. > 5 and . &lt; 120'/><xf:bind nodeset='/data/colour' type='select1' constraint=''/>";
  "<xf:bind nodeset='/data/photo' type='image' constraint=''/><xf:bind nodeset='/data/pets' type='selectn' constraint=''/></xf:model></h:head><h:body>";
  "<xf:select1 bind='kind'><xf:item><xf:label>A cat</xf:label><xf:value>cat</xf:value></xf:item><xf:item><xf:label>A dog</xf:label><xf:value>dog</xf:value></xf:item></xf:select1>";
  "<xf:select1 bind='colour'><xf:item><xf:label>Red</xf:label><xf:value>red</xf:value></xf:item><xf:item><xf:label>Blue</xf:label><xf:value>deep blue</xf:value></xf:item></xf:select1>";
  "<xf:select1 bind='pets'><xf:item><xf:label>A cat</xf:label><xf:value>cat</xf:value></xf:item></xf:select1></h:body></h:html>"]%string.
Lemma sample_definition_read : read_document sample_definition = (whole_events (codes "Visit") (codes "77") [sample_section] sample_questions, true).
Proof. vm_compute. reflexivity. Qed.
Lemma specification_recipes_witness :
  recipe_read_from_specification read_document sample_definition =
  Some (Value (recipe_of (codes "77") (implied_fields ++ [
    Field (codes "village") FIELDTYPE_TEXT 0 0 0 [] 0; Field (codes "subform/78") FIELDTYPE_SUBFORM 0 0 0 [] 0;
    Field (codes "age") FIELDTYPE_INTEGER 5 120 0 [] 0; Field (codes "photo") FIELDTYPE_TEXT 0 0 0 [] 0;
    Field (codes "colour") FIELDTYPE_ENUM 0 0 0 [codes "red"; codes "deep blue"] 2; Field (codes "pets") FIELDTYPE_MULTISELECT 0 0 0 [codes "cat"] 1]))) /\
  exists texts, xhtmlToRecipe read_document sample_definition = Converted texts
      (nl "<village>$village$</village>" ++ sub_head ++ nl "<count>$count$</count>" ++ nl "<kind>$kind$</kind>" ++ sub_end ++
       nl "<age>$age$</age>" ++ nl "<colour>$colour$</colour>" ++ nl "<photo>$photo$</photo>" ++ nl "<pets>$pets$</pets>") /\
    Forall2 (fun t r => recipe_read t.2 t.1 = Value r) texts [
      recipe_of (codes "77") (whole_fields [sample_section] sample_questions);
      recipe_of (codes "78") (implied_sub_fields ++ [Field (codes "count") FIELDTYPE_INTEGER 0 50 0 [] 0; Field (codes "kind") FIELDTYPE_ENUM 0 0 0 [codes "cat"; codes "dog"] 2])].
Proof.
  apply (specification_recipes read_document (codes "Visit") (codes "77") (codes "77") sample_definition [sample_section] sample_questions);
    [exact sample_definition_read | apply sample_whole_ok | apply sample_recipes_readable].
Defined.

(** the lines of a text *)
Fixpoint split_lines (line text : list Z) : list (list Z) :=
  match text with [] => [] | c :: text => if c =? 10 then line :: split_lines [] text else split_lines (line ++ [c]) text end.
(** The condition that a question of the form comes before each sub-form is needed: the
    line of a sub-form goes to the recipe of the question that was bound before it, here
    the one of the first sub-form. *)
Definition adjacent_section : section := Section_ [] (codes "trees") (codes "79") [Question (codes "height") (codes "xsd:int") [] []].
Example sub_form_in_other_recipe :
  match xhtmlToRecipe (expat_gives (whole_events (codes "Visit") (codes "77") [sample_section; adjacent_section] sample_questions)) [] with
  | Converted texts _ => map (fun t => existsb (streq (codes "subform/79:subform:0:0:0")) (split_lines [] t.1)) texts = [false; true; false]
  | _ => False
  end.
Proof. vm_compute. reflexivity. Qed.

Definition grown (n : nat) : StrBuilder.str_builder := StrBuilder.strgrow StrBuilder.empty_builder (repeat 97 n).
Lemma strgrow_appends_witness :
  builder_ok (StrBuilder.strgrow (grown 250) (codes "0123456789")) /\ builder_text (StrBuilder.strgrow (grown 250) (codes "0123456789")) = repeat 97 250 ++ codes "0123456789".
Proof.
  apply (strgrow_appends (grown 250) (codes "0123456789")); [|vm_compute; reflexivity].
  apply (proj1 (strgrow_ok StrBuilder.empty_builder (repeat 97 250) ltac:(by split) ltac:(vm_compute; reflexivity))).
Defined.
