(* ===== verification/Compression.v ===== *)
(** compression.cpp: what the application asks of the form code: recipes of a form, the
    text of a form that was filled in, and the bytes that are sent. *)
From Stdlib Require Import String.
From S2P Require Import Prelude Charset CString PackedStats Smac Recipe RecipeCompress Dexml Xhtml.
Local Open Scope Z_scope.
Local Open Scope succinct_scope.

Section Compression.
Context `{M : Memory} `{E : Environment}.
(** expat *)
Variable XML_Parse : list Z -> list event * bool.

(** The statistics of an asset, with the tree of its nodes.  The null pointer that is given
    for a header that is not valid is followed. *)
Definition open_stats (asset : list Z) : outcome stats_handle :=
  do h <- stats_mapped_file asset ;;
  match h with
  | Some h => stats_load_tree h
  | None => Undefined
  end.

(** an array of recipes, which a null pointer ends *)
Definition recipes := list recipe.

(** The pointers that recipe_read gives, up to the first one that is null.  [None]: an
    array was overrun. *)
Fixpoint read_all (texts : list (list Z * list Z)) : option (list (option recipe)) :=
  match texts with
  | [] => Some []
  | (text, version) :: texts =>
      opt r <- (match recipe_read version text with Value r => Some (Some r) | Null => Some None | Overrun => None end) ;;
      opt rs <- read_all texts ;;
      Some (r :: rs)
  end.
Fixpoint up_to_null (rs : list (option recipe)) : recipes :=
  match rs with Some r :: rs => r :: up_to_null rs | _ => [] end.

(** What the callback is given: the hash and the recipes, or that it is not called.
    [None]: a null pointer is followed, as for a form whose first recipe cannot be read, or
    an array was overrun. *)
Definition build_recipe (form_spec : list Z) : option (option (list Z * recipes)) :=
  match xhtmlToRecipe XML_Parse (cstr form_spec) with
  | NotParsed => Some None
  | Crashed => None
  | Converted texts _ =>
      opt rs <- read_all texts ;;
      match rs with
      | [] => Some None
      | None :: _ => None
      | Some r :: _ => Some (Some (formhash r, up_to_null rs))
      end
  end.

Definition stripped_size : Z := 0x10000.
(** the string that is returned, or NULL *)
Definition strip_form (form_instance : list Z) : option (list Z) :=
  let '(stripped_len, stripped) := Strip.xml2stripped None stripped_size (cstr form_instance) (repeat 0 (Z.to_nat stripped_size)) in
  if stripped_len <=? 0 then None else Some (cstr stripped).

(** The loop begins with the value that [i] happens to have: [start]. *)
Fixpoint lookup_loop (rs : recipes) (formid : list Z) : option recipe :=
  match rs with
  | [] => None
  | r :: rs => if streq (formname r) formid then Some r else lookup_loop rs formid
  end.
Definition lookup_recipe (start : nat) (rs : recipes) (formid : list Z) : option recipe := lookup_loop (skipn start rs) formid.

Definition compress_form (start : nat) (h : stats_handle) (rs : recipes) (stripped_form : list Z) : outcome (option (list Z)) :=
  recipe_compress (lookup_recipe start rs) h (head rs) (Some (cstr stripped_form)) true 1024.

(** [None]: the result does not fit into the array, which is as long as the string *)
Definition compress_string (h : stats_handle) (str : list Z) : option (option (list Z)) :=
  match stats3_compress h (cstr str) (Z.of_nat (length (cstr str))) with
  | None => Some None
  | Some out => if Z.of_nat (length out) >? Z.of_nat (length (cstr str)) then None else Some (Some out)
  end.
End Compression.

(** ** Evaluated *)
#[local] Existing Instances sample_memory sample_memory_ok.
(** two bytes, which do not fit into the array of one *)
Example string_overrun : stats3_compress sample_stats (codes "a") 1 = Some [131; 66] /\ compress_string sample_stats (codes "a") = None.
Proof. vm_compute. split; reflexivity. Qed.
(** an index that was left behind by the code before: the first recipe is not found *)
Example recipe_missed : let r := Recipe (codes "77") [] [] 0 in lookup_recipe 0 [r] (codes "77") = Some r /\ lookup_recipe 1 [r] (codes "77") = None.
Proof. split; reflexivity. Qed.
