(* ===== verification/FormChain.v ===== *)
(** From the definition of a form, with its sub-forms, to the bytes of a form that was
    filled in, and back: how the parts of the form code fit together. *)
From Stdlib Require Import String.
From S2P Require Import Prelude RangeCoder RangeBits RangeCodec Charset CString BlockHash Md5 PackedStats Smac Recipe RecipeText RecipeRead RecipeCompress RecipeFields RecipeRecords Dexml DexmlStrip DexmlFill DexmlForms Xhtml XmlReader XhtmlRun XhtmlForm Compression.
Local Open Scope Z_scope.
Local Open Scope succinct_scope.

(** ** The template of a form *)
Definition xml_name : list Z := codes "?xml".
Definition xml_prolog : list Z := codes "?xml version=" ++ 34 :: codes "1.0" ++ 34 :: codes " encoding=" ++ 34 :: codes "UTF-8" ++ 34 :: codes "?".
Definition form_prolog : list token := [Tag xml_prolog; Text [10]; Tag (codes "form"); Text [10]].
Definition meta_names : list (list Z) := map codes ["userid"; "accesstoken"; "formid"; "lastsubmittime"; "endrecordtime"; "startrecordtime"; "version"; "uuid"]%string.
Definition indent : list Z := 10 :: codes "  ".
Definition space : list Z := [32; 10].
Definition fields_pieces (names : list (list Z)) : list piece := flat_map (form_pieces [10]) names.
Definition meta_pieces : list piece :=
  layout "meta" [10] ++ fields_pieces meta_names ++ layout "geotag" indent ++ form_pieces indent (codes "longitude") ++ form_pieces [10] (codes "latitude") ++
  layout "/geotag" [10] ++ layout "/meta" [10] ++ layout "data" [10].
Definition namespace : list Z := codes " xmlns:dd=" ++ 34 :: codes "http://datadyne.org/javarosa" ++ [34].
Definition head_names : list (list Z) := map codes ["formid"; "question"]%string.
Definition head_pieces : list piece := layout "meta" space ++ fields_pieces head_names ++ layout "/meta" space.
Definition instance_names (s : section) : list (list Z) := codes "uuid" :: map q_name (s_questions s).
Definition section_pieces (s : section) : list piece :=
  fields_pieces (map q_name (before s)) ++ sub_pieces namespace space head_pieces space (fields_pieces (instance_names s)) [10] [10].
Definition last_pieces (names : list (list Z)) : list piece := fields_pieces names ++ layout "/data" [10].
Definition template_pieces (secs : list section) (qs : list question) : list piece := meta_pieces ++ flat_map section_pieces secs ++ last_pieces (map q_name qs).

Lemma question_pieces qs : flat_map write_piece (fields_pieces (map q_name qs)) = flat_map q_template qs.
Proof.
  induction qs as [|q qs IH]; [done|]. unfold fields_pieces in *. cbn [map flat_map]. rewrite flat_map_app, IH. f_equal. unfold form_pieces, q_template. cbn [flat_map write_piece app].
  by repeat (rewrite <- app_assoc; cbn [app]).
Qed.
Lemma sections_written secs : flat_map write_piece (flat_map section_pieces secs) = flat_map section_template secs.
Proof.
  induction secs as [|s secs IH]; [done|]. cbn [flat_map]. rewrite flat_map_app, IH. f_equal. unfold section_pieces, section_template. rewrite flat_map_app, question_pieces. f_equal.
  unfold sub_pieces, instance_names. cbn [flat_map]. rewrite flat_map_app. cbn [flat_map]. rewrite flat_map_app. change (fields_pieces (codes "uuid" :: ?l)) with (form_pieces [10] (codes "uuid") ++ fields_pieces l).
  rewrite flat_map_app, question_pieces.
  assert (sub_head = write_piece (Element (sub_tag namespace)) ++ space ++ flat_map write_piece head_pieces ++ write_piece (Element data_tag) ++ space ++ flat_map write_piece (form_pieces [10] (codes "uuid"))) as -> by (vm_compute; reflexivity).
  assert (sub_end = flat_map write_piece [Element (47 :: data_tag); Plain [10]; Element (47 :: sub_tag []); Plain [10]]) as -> by (vm_compute; reflexivity).
  change (write_piece (Plain ?v)) with v. by rewrite <- !app_assoc.
Qed.
Lemma template_written secs qs : whole_template form_prolog (template_pieces secs qs) (codes "/form") = template_file (flat_map section_template secs ++ flat_map q_template qs).
Proof.
  unfold whole_template, template_pieces, last_pieces. rewrite !flat_map_app, sections_written, question_pieces. unfold template_file.
  assert (flat_map write_piece (map piece_of form_prolog) ++ flat_map write_piece meta_pieces =
    (codes "<?xml version=" ++ 34 :: codes "1.0" ++ 34 :: codes " encoding=" ++ 34 :: codes "UTF-8" ++ 34 :: nl "?>") ++ nl "<form>" ++ nl "<meta>" ++ implied_meta_fields_template ++ nl "</meta>" ++ nl "<data>") as E
    by (vm_compute; reflexivity).
  rewrite <- !app_assoc, (app_assoc (flat_map write_piece (map piece_of form_prolog))), E. rewrite <- !app_assoc. reflexivity.
Qed.

(** ** The answers *)

(** to a part of the form: to its questions, to what its sub-form implies, and in each instance of it *)
Record filled_section := FilledSection { f_before : pairs; f_head : pairs; f_instances : list pairs }.
(** to what the form implies, and to its questions *)
Record filled_form := Filled { metas : pairs; longitude : list Z; latitude : list Z; sections : list filled_section; asked : pairs }.
Definition first_answers (a : filled_form) : pairs := metas a ++ [(codes "longitude", longitude a); (codes "latitude", latitude a)].
Definition section_items (f : filled_section) : list item := pair_items (f_before f) ++ [SubForm (f_head f) (f_instances f)].
Definition filled_items (a : filled_form) : list item := pair_items (first_answers a) ++ flat_map section_items (sections a) ++ pair_items (asked a).
Definition filled_record (a : filled_form) : list record_field := record_of (filled_items a).

Definition fields_tokens (l : pairs) : list token := flat_map (fun kv => form_tokens [10] kv.1 kv.2) l.
Definition first_tokens (a : filled_form) : list token :=
  layout_token "meta" [10] ++ fields_tokens (metas a) ++ layout_token "geotag" indent ++ form_tokens indent (codes "longitude") (longitude a) ++
  form_tokens [10] (codes "latitude") (latitude a) ++ layout_token "/geotag" [10] ++ layout_token "/meta" [10] ++ layout_token "data" [10].
Definition head_tokens (l : pairs) : list token := layout_token "meta" space ++ fields_tokens l ++ layout_token "/meta" space.
Definition section_tokens (f : filled_section) : list token :=
  fields_tokens (f_before f) ++ sub_tokens namespace space (head_tokens (f_head f)) space (map fields_tokens (f_instances f)) [10] [10].
Definition filled_tokens (a : filled_form) : list token := first_tokens a ++ flat_map section_tokens (sections a) ++ fields_tokens (asked a) ++ layout_token "/data" [10].

Definition answers_ok (names : list (list Z)) (l : pairs) : Prop := map fst l = names /\ Forall (fun kv => value_ok kv.2) l.
Record section_filled (s : section) (f : filled_section) : Prop := {
  sfd_before : answers_ok (map q_name (before s)) (f_before f);
  sfd_head : answers_ok head_names (f_head f);
  sfd_instances : Forall (answers_ok (instance_names s)) (f_instances f) /\ f_instances f <> [];
  sfd_names : Forall (name_fits xml_name false) (map q_name (before s)) /\ Forall (name_fits xml_name true) (map q_name (s_questions s))
}.
Record form_filled (secs : list section) (qs : list question) (a : filled_form) : Prop := {
  ff_metas : answers_ok meta_names (metas a);
  ff_place : value_ok (longitude a) /\ value_ok (latitude a);
  ff_sections : Forall2 section_filled secs (sections a);
  ff_asked : answers_ok (map q_name qs) (asked a);
  ff_names : Forall (name_fits xml_name false) (map q_name qs)
}.
Lemma answers_fill e inside names l : Forall (name_fits e inside) names -> answers_ok names l -> fills e inside (fields_pieces names) (fields_tokens l) l.
Proof. intros Hn [Hl Hv]. by apply named_fields. Qed.
Lemma space_blank : blank space.
Proof. apply blankb_spec. reflexivity. Qed.
Lemma section_texts : sub_texts namespace space space [10] [10].
Proof.
  split; [split; [apply plain_charb_spec; vm_compute; reflexivity | split; [vm_compute; discriminate|]] | split; apply space_blank | split; by repeat constructor].
  split; [done|]. split; [vm_compute; discriminate|]. apply List.Forall_forall. intros c Hc.
  assert (forallb name_charb (sub_tag namespace) = true) as H by (vm_compute; reflexivity). rewrite forallb_forall in H. apply H in Hc. unfold name_charb in Hc. b2p. repeat split; lia.
Qed.
Lemma section_fills s f ps toks its : section_filled s f -> form_fills xml_name ps toks its ->
  form_fills xml_name (section_pieces s ++ ps) (section_tokens f ++ toks) (section_items f ++ its).
Proof.
  intros [Hb Hh [Hi Hne] [Nb Ns]] H. unfold section_pieces, section_tokens, section_items. rewrite <- !app_assoc.
  apply filled_fields; [by apply answers_fill|]. cbn [app].
  assert (map fst (map (fun i => (fields_tokens i, i)) (f_instances f)) = map fields_tokens (f_instances f) /\ map snd (map (fun i => (fields_tokens i, i)) (f_instances f)) = f_instances f) as [<- E]
    by (rewrite !map_map; split; [done | apply map_id]).
  rewrite <- E at 2. apply filled_sub; [apply section_texts | | done].
  assert (Forall (name_fits xml_name true) head_names /\ Forall (name_fits xml_name true) (instance_names s)) as [Nh Ni].
  { split; [apply fits_all; vm_compute; reflexivity|]. apply List.Forall_cons; [apply fitsb_spec; vm_compute; reflexivity | done]. }
  split.
  - apply layout_then; [vm_compute; reflexivity | apply space_blank|].
    apply layout_behind; [by apply answers_fill | vm_compute; reflexivity | apply space_blank].
  - exists (removelast (flat_map write_piece head_pieces)). vm_compute. reflexivity.
  - by destruct (f_instances f).
  - rewrite Forall_map. eapply List.Forall_impl; [|exact Hi]. intros i Hi'. cbn [fst snd]. split; [by apply answers_fill|]. destruct Hi' as [Hn _]. by destruct i.
Qed.
Lemma form_filled_fills secs qs a : form_filled secs qs a -> form_fills xml_name (template_pieces secs qs) (filled_tokens a) (filled_items a).
Proof.
  intros [Hm [Hlon Hlat] Hs Hq Hn]. unfold template_pieces, filled_tokens, filled_items.
  assert (Forall (name_fits xml_name false) meta_names) as Hmn by (apply fits_all; vm_compute; reflexivity).
  apply filled_fields.
  - unfold meta_pieces, first_tokens, first_answers. apply layout_then; [vm_compute; reflexivity | apply newline_blank|]. apply fills_app; [by apply answers_fill|].
    apply layout_then; [vm_compute; reflexivity | by apply blankb_spec|]. apply field_then; [apply fitsb_spec; vm_compute; reflexivity | done | by apply plain_charb_spec|].
    apply field_then; [apply fitsb_spec; vm_compute; reflexivity | done | by apply plain_charb_spec|].
    apply layout_then; [vm_compute; reflexivity | apply newline_blank|]. apply layout_then; [vm_compute; reflexivity | apply newline_blank|].
    apply layout_last; [vm_compute; reflexivity | apply newline_blank].
  - induction Hs as [|s f secs fs Hsf _ IH]; cbn [flat_map app].
    + apply form_last. unfold last_pieces.
      apply layout_behind; [by apply answers_fill | vm_compute; reflexivity | apply newline_blank].
    + rewrite <- !(app_assoc (section_pieces s)), <- !(app_assoc (section_tokens f)), <- !(app_assoc (section_items f)). by apply section_fills.
Qed.

(** ** The opening of the form, and the text of the record *)
Lemma form_opening : opening [] form_prolog xml_name [] (codes "/form").
Proof.
  apply (open_prolog [] xml_prolog [10]).
  - split; [by apply tag_ok | done | by split | vm_compute; lia].
  - by repeat constructor.
  - change (exit_after _ _) with xml_name. apply open_magpi. by repeat constructor.
Qed.
Lemma token_no_nul tok : token_ok tok -> no_nul (render tok).
Proof.
  unfold no_nul. destruct tok as [t|v]; cbn [token_ok render]; intros H Hin; apply list_elem_of_In in Hin.
  - destruct H as (_ & _ & H). rewrite List.Forall_forall in H. destruct Hin as [Hin|Hin]; [done|]. apply in_app_iff in Hin as [Hin|[Hin|[]]]; [|done].
    by destruct (H _ Hin).
  - rewrite List.Forall_forall in H. by destruct (H _ Hin).
Qed.
Lemma tokens_no_nul toks : Forall token_ok toks -> no_nul (flat_map render toks).
Proof. unfold no_nul. induction 1 as [|tok toks Ht _ IH]; cbn [flat_map]; rewrite ?elem_of_app; [by intros ?%elem_of_nil | intros [Hin|Hin]; [by apply (token_no_nul tok) | done]]. Qed.
Lemma text_chars_nul s : text_chars s -> no_nul s.
Proof. intros H Hin. apply list_elem_of_In in Hin. unfold text_chars in H. rewrite List.Forall_forall in H. apply H in Hin. lia. Qed.
Lemma no_nul_app s t : no_nul s -> no_nul t -> no_nul (s ++ t).
Proof. intros Hs Ht [H|H]%elem_of_app; [by apply Hs | by apply Ht]. Qed.
Lemma pairs_no_nul l : Forall pair_plain l -> no_nul (print_record (kvs l)).
Proof.
  induction 1 as [|[k v] l [[Hk _] [Hv _]] _ IH]; [by intros ?%elem_of_nil|]. cbn [fst snd] in *. cbn [kvs map print_record flat_map print_field fst snd]. fold (kvs l). change (flat_map print_field (kvs l)) with (print_record (kvs l)).
  apply no_nul_app; [|done]. apply no_nul_app; [by apply text_chars_nul|]. apply (no_nul_app [61]); [by apply no_nul_check|]. apply no_nul_app; [by apply text_chars_nul | by apply no_nul_check].
Qed.
Lemma braces_no_nul s : no_nul s -> no_nul (123 :: 10 :: s ++ [125; 10]).
Proof. intros H. apply (no_nul_app [123; 10]); [by apply no_nul_check|]. apply no_nul_app; [done | by apply no_nul_check]. Qed.
Lemma print_no_nul its : Forall item_plain its -> no_nul (print_record (record_of its)).
Proof.
  induction 1 as [|it its Hit _ IH]; [by intros ?%elem_of_nil|]. change (print_record (record_of (it :: its))) with (print_field (item_field it) ++ print_record (record_of its)).
  apply no_nul_app; [|done]. destruct it as [k v|h l].
  - pose proof (pairs_no_nul [(k, v)] ltac:(by apply List.Forall_cons)) as H. cbn [kvs map print_record flat_map fst snd] in H. by rewrite app_nil_r in H.
  - destruct Hit as [Hh Hl]. cbn [item_field print_field]. change (flat_map print_field ?x) with (print_record x). apply braces_no_nul. unfold print_record. rewrite flat_map_app.
    apply no_nul_app; [by apply pairs_no_nul|]. induction Hl as [|i l Hi _ IHl]; [by intros ?%elem_of_nil|]. cbn [map flat_map]. apply no_nul_app; [|done]. by apply braces_no_nul, pairs_no_nul.
Qed.
Lemma cstr_of_prefix text buff : no_nul text -> rd buff (Z.of_nat (length text)) = 0 -> take (length text) buff = text -> cstr buff = text.
Proof.
  intros Hn Hr Ht. pose proof (take_drop (length text) buff) as E. rewrite Ht in E. rewrite <- E in Hr |- *. clear E Ht. rewrite rd_of_nat in Hr.
  destruct (drop (length text) buff) as [|x rest]; [rewrite app_nil_r; by apply cstr_id|].
  rewrite app_nth2, Nat.sub_diag in Hr by lia. cbn [nth] in Hr. subst x. by apply cstr_app.
Qed.


(** ** A form from its definition to the bytes *)
Section Chain.
Context `{M : Memory} `{HM : !MemoryOk M} `{E : Environment}.
Variable XML_Parse : list Z -> list event * bool.
Variable h : stats_handle.

(** a form, in a file that the buffer holds *)
Record form_given (name id stem : list Z) (secs : list section) (qs : list question) (xml : list Z) : Prop := {
  fg_xml : no_nul xml /\ Z.of_nat (length xml) < MAXCHARS;
  fg_parsed : XML_Parse xml = (whole_events name id secs qs, true);
  fg_ok : whole_ok id secs qs /\ qs <> [];
  fg_recipes : recipes_readable id stem secs qs
}.
(** answers of which a text can be made *)
Record form_answered (secs : list section) (qs : list question) (a : filled_form) : Prop := {
  fa_filled : form_filled secs qs a;
  fa_readable : form_readable [] (filled_items a);
  fa_record : record_ok (filled_record a)
}.
Definition form_instance (a : filled_form) : list Z := whole_xml form_prolog (filled_tokens a) (codes "/form").

Lemma template_nonempty secs qs : qs <> [] -> flat_map section_template secs ++ flat_map q_template qs <> [].
Proof. destruct qs; [done|]. intros _ [_ H]%app_eq_nil. discriminate H. Qed.
Lemma form_files name id stem secs qs xml recipe_dir : form_given name id stem secs qs xml -> exists recipe_files template_name,
  xhtml_recipe_create XML_Parse recipe_dir (Some xml) = Some (0, recipe_files ++ [(template_name, template_file (flat_map section_template secs ++ flat_map q_template qs))]).
Proof.
  intros [[Hx Hl] Hp [Hok Hne] [Hr _ _]]. unfold xhtml_recipe_create. cbv zeta. destruct (Z.leb_spec MAXCHARS (Z.of_nat (length xml))); [lia|]. rewrite (cstr_id xml Hx).
  rewrite (whole_recipe name id (proj1 (rd_id _ _ _ _ Hr)) XML_Parse xml secs qs) by done. pose proof (template_nonempty secs qs Hne) as Ht.
  destruct (flat_map section_template secs ++ flat_map q_template qs) as [|c t]; [by destruct Ht | by do 2 eexists].
Qed.
Lemma read_all_values texts rs : Forall2 (fun t r => recipe_read t.2 t.1 = Value r) texts rs -> read_all texts = Some (map Some rs).
Proof. induction 1 as [|[t v] r texts rs Hr _ IH]; [done|]. cbn [fst snd] in Hr. cbn [read_all]. by rewrite Hr, IH. Qed.
Lemma up_to_null_all rs : up_to_null (map Some rs) = rs.
Proof. induction rs as [|r rs IH]; [done|]. cbn [map up_to_null]. by rewrite IH. Qed.
Lemma form_built name id stem secs qs xml : form_given name id stem secs qs xml ->
  build_recipe XML_Parse xml = Some (Some (formhash (recipe_of stem (whole_fields secs qs)), form_recipes stem secs qs)).
Proof.
  intros [[Hx _] Hp [Hok _] Hr]. unfold build_recipe. rewrite (cstr_id xml Hx).
  rewrite (whole_recipe name id (proj1 (rd_id _ _ _ _ (rr_form _ _ _ _ Hr))) XML_Parse xml secs qs) by done.
  rewrite (read_all_values _ _ (recipes_read id stem secs qs Hok Hr)). unfold form_recipes. cbn [map up_to_null]. by rewrite up_to_null_all.
Qed.

(** the text that was filled in, and stripped again *)
Lemma instance_written secs qs a xml_size : form_answered secs qs a -> Z.of_nat (length (form_instance a)) < xml_size ->
  Dexml.Fill.stripped2xml (print_record (filled_record a)) (template_file (flat_map section_template secs ++ flat_map q_template qs)) xml_size = Dexml.Fill.Written (form_instance a).
Proof.
  intros [Hf Hread _] Hsize. rewrite <- template_written.
  apply (template_filled form_prolog (codes "/form") _ xml_name (filled_tokens a) [] (filled_items a)); [by apply form_filled_fills | | exact Hread | exact Hsize].
  repeat (apply List.Forall_cons; [repeat split; repeat constructor; discriminate|]). apply List.Forall_nil.
Qed.
Lemma record_nonempty secs qs a : form_filled secs qs a -> print_record (filled_record a) <> [].
Proof.
  intros [[Hm _] _ _ _ _]. unfold filled_record, filled_items, first_answers. destruct (metas a) as [|[k v] l]; [discriminate Hm|]. cbn. by destruct k.
Qed.
Lemma instance_stripped secs qs a : form_answered secs qs a -> Z.of_nat (length (print_record (filled_record a))) < stripped_size ->
  strip_form (form_instance a) = Some (print_record (filled_record a)).
Proof.
  intros [Hf Hread _] Hsize. pose proof (fr_plain _ _ Hread) as Hplain. cbn [pair_items map app] in Hplain. assert (displays xml_name false (filled_tokens a) (filled_record a)) as Hshow by (eapply form_displays, form_filled_fills, Hf).
  set (buff := repeat 0 (Z.to_nat stripped_size)). assert (Z.of_nat (length buff) = stripped_size) as Hbuff by (subst buff; rewrite repeat_length; unfold stripped_size; lia).
  destruct (form_stripped _ _ _ _ _ _ buff form_opening Hshow eq_refl eq_refl) as (buff' & Hrun & Htake & Hend); [rewrite Hbuff; cbn [app]; unfold stripped_size in *; lia|].
  cbn [app] in Hrun, Htake, Hend. rewrite Hbuff in Hrun. unfold strip_form. fold buff. clearbody buff.
  assert (no_nul (form_instance a)) as Hnul.
  { apply tokens_no_nul. destruct (opening_tokens _ _ _ _ _ form_opening) as [Ho Hc]. apply Forall_app. split; [done|]. apply Forall_app. split; [by eapply displays_tokens|].
    apply List.Forall_cons; [done|]. apply List.Forall_cons; [by repeat constructor | apply List.Forall_nil]. }
  rewrite (cstr_id _ Hnul). unfold form_instance. rewrite form_rendered, Hrun. pose proof (record_nonempty _ _ _ Hf) as Hne. pose proof (print_no_nul _ Hplain) as Hnr. fold (filled_record a) in Hnr.
  revert Hend Htake Hsize Hne Hnr. generalize (filled_record a) as r. intros r Hend Htake Hsize Hne Hnr.
  assert (0 < Z.of_nat (length (print_record r))) as Hpos by (destruct (print_record r); [by destruct Hne | cbn [length]; lia]).
  destruct (Z.leb_spec (Z.of_nat (length (print_record r))) 0); [lia|].
  f_equal. apply cstr_of_prefix; [done | by apply Hend | exact Htake].
Qed.

(** ** Property *)
Lemma hash_bytes stem : length (form_hash stem) = 6%nat /\ Forall (fun b => 0 <= b < 256) (form_hash stem).
Proof. unfold form_hash. destruct (md5_bytes (codes "SMAC Binary Format v2" ++ stem)) as [Hl Hb]. rewrite length_take, Hl. split; [done|]. by apply Forall_take. Qed.

(** C1: What the calls for a form make of one another.  The definition of a form with its
    sub-forms is a text that expat reads as the elements of [whole_document], each value of
    a choice in one call.  It becomes recipes and a template; the text of an answered form,
    written into that template with all the instances of its sub-forms, is read back from
    the XML as the same text; and that text, compressed with those recipes, becomes bytes
    from which a decoder that knows the recipes reads the hash of the form and what was
    sent for every answer.  The answers are sent faithfully (means, see
    recipe_compress_roundtrip), the form fits the arrays of the code (whole_ok), the
    kilobyte of the coder does not run out of room, and the result fits its buffer. *)
Theorem form_journey name id stem secs qs xml a data xml_size recipe_dir :
  stats_ok h -> form_given name id stem secs qs xml -> form_answered secs qs a -> Z.of_nat (length (form_instance a)) < xml_size ->
  let rs := form_recipes stem secs qs in let r := recipe_of stem (whole_fields secs qs) in let text := print_record (filled_record a) in
  Z.of_nat (length text) < stripped_size -> means (lookup_recipe 0 rs) h (field_list r) (filled_record a) data ->
  let c := snd (range_conclude (put_form h r data (range_new_coder (garbage 1024) 1024))) in
  out_of_bits c = false -> bits_used c / 8 + (if nz (Z.land (bits_used c) 7) then 1 else 0) <= 1024 ->
  build_recipe XML_Parse xml = Some (Some (formhash r, rs)) /\
  exists recipe_files template_name template out,
    xhtml_recipe_create XML_Parse recipe_dir (Some xml) = Some (0, recipe_files ++ [(template_name, template)]) /\
    Dexml.Fill.stripped2xml text template xml_size = Dexml.Fill.Written (form_instance a) /\
    strip_form (form_instance a) = Some text /\
    compress_form 0 h rs text = Done (Some out) /\
    forall n, (data_size data < n)%nat -> fst (decode_form (lookup_recipe 0 rs) h n r (stats3_decoder out)) = (formhash r, Some data).
Proof.
  intros Hh Hform Ha Hxml rs r text Htext Hm c Hflag Hbytes. split; [by eapply form_built|].
  destruct (hash_bytes stem) as [Hlen Hb]. destruct (form_files _ _ _ _ _ _ recipe_dir Hform) as (files & tname & Hfiles).
  destruct (compress_result (lookup_recipe 0 rs) h Hh HM r text (filled_record a) data 1024 (parse_print _ (fa_record _ _ _ Ha)) Hm Hlen Hb Hflag Hbytes) as (Hrun & _ & Hdec).
  eexists files, tname, _, _. split; [exact Hfiles|]. split; [by apply instance_written|]. split; [by eapply instance_stripped|]. split; [|exact Hdec].
  unfold compress_form. rewrite (cstr_id text) by apply print_no_nul, (fr_plain [] _ (fa_readable _ _ _ Ha)). exact Hrun.
Qed.
End Chain.

(** ** Evaluated *)
Section Evaluated.
Context `{M : Memory} `{E : Environment}.
Definition sent_okb (f : field) (h : stats_handle) (s : sent) : bool :=
  match s with
  | Numbers l => forallb (fun p => (0 <=? p.2) && (p.2 <? p.1) && (p.1 <? 2 ^ 31)) l &&
      negb ((f_type f =? FIELDTYPE_INTEGER) && bool_decide (map snd l = [i32 (f_maximum f - f_minimum f + 1)]))
  | Words m len => ascii_messageb h m && (len =? Z.of_nat (length m))
  | Escaped e m => (0 <=? e.2) && (e.2 <? e.1) && (e.1 <? 2 ^ 31) && ascii_messageb h m
  end.
Lemma sent_okb_spec f h s : sent_okb f h s = true -> sent_ok f h s.
Proof.
  destruct s as [l|m len|e m]; cbn [sent_okb sent_ok]; intros H; b2p.
  - split; [|intros Ht HE; match goal with Hn : _ \/ _ |- _ => destruct Hn as [Hn|Hn]; [by apply Z.eqb_neq in Hn | by apply bool_decide_eq_false in Hn] end].
    apply List.Forall_forall. intros p Hp. match goal with Hf : forallb _ l = true |- _ => rewrite forallb_forall in Hf; apply Hf in Hp end. b2p. split; lia.
  - split; [by apply ascii_message | done].
  - split; [split; lia | by apply ascii_message].
Qed.
(** what is sent for a record; [None] when a value is refused, or a recipe is missing *)
Fixpoint all_some {A} (l : list (option A)) : option (list A) :=
  match l with [] => Some [] | x :: l => opt x <- x ;; opt l <- all_some l ;; Some (x :: l) end.
Variable find : list Z -> option recipe.
Variable h : stats_handle.
Definition field_data (instance : list field -> list record_field -> option (list datum)) (record : list record_field) (f : field) : option datum :=
  if is_subform f then opt r <- find (form_id f) ;; option_map Instances (all_some (map (instance (field_list r)) (enclosed (form_id f) record)))
  else match find_value record (f_name f) with
       | Some value => opt s <- field_sent f value ;; if sent_okb f h s then Some (Present s) else None
       | None => Some Missing
       end.
Fixpoint record_data (fuel : nat) (fields : list field) (record : list record_field) : option (list datum) :=
  match fuel with O => None | S fuel => all_some (map (field_data (record_data fuel) record) fields) end.
Lemma record_data_means fuel : forall fields record data, record_data fuel fields record = Some data -> means find h fields record data.
Proof.
  induction fuel as [|fuel IH]; intros fields record data; [done|]. cbn [record_data]. revert data. induction fields as [|f fields IHf]; intros data; cbn [map all_some]; [intros [= <-]; apply means_end|].
  destruct (field_data _ record f) as [d|] eqn:Ed; [|done]. destruct (all_some _) as [data'|]; [|done]. intros [= <-]. specialize (IHf data' eq_refl). unfold field_data in Ed.
  destruct (is_subform f) eqn:Es.
  - destruct (find (form_id f)) as [r|] eqn:Er; [|done]. destruct (all_some _) as [l|] eqn:El; [|done]. injection Ed as <-. eapply means_subform; [done | exact Er | | exact IHf].
    clear - El IH. revert l El. generalize (enclosed (form_id f) record). intros rs. induction rs as [|i rs IHr]; intros l; cbn [map all_some]; [intros [= <-]; apply means_no_more|].
    destruct (record_data fuel (field_list r) i) as [data|] eqn:Ei; [|done]. destruct (all_some _) as [l'|]; [|done]. intros [= <-]. apply means_instance; [by apply IH | by apply IHr].
  - destruct (find_value record (f_name f)) as [value|] eqn:Ev; [|injection Ed as <-; by apply means_missing].
    destruct (field_sent f value) as [s|] eqn:Esent; [|done]. destruct (sent_okb f h s) eqn:Eok; [|done]. injection Ed as <-.
    eapply means_present; [done | exact Ev | exact Esent | by apply sent_okb_spec | exact IHf].
Qed.
End Evaluated.

#[local] Existing Instances sample_memory sample_memory_ok sample_environment.
Definition sample_secs : list section := [sample_section].
(** two animals *)
Definition sample_answers : filled_form := Filled
  [pair_of "userid" "ann"; pair_of "accesstoken" "t0k"; pair_of "formid" "77"; pair_of "lastsubmittime" "2017-03-09 10:20:30";
   pair_of "endrecordtime" "2017-03-09 10:20:00"; pair_of "startrecordtime" "2017-03-09 10:00:00"; pair_of "version" "1.0"; pair_of "uuid" "0123456789abcdef-1489054800000"]
  (codes "138.6") (codes "-34.9")
  [FilledSection [pair_of "village" "north"] [pair_of "formid" "78"; pair_of "question" "animals"]
    [[pair_of "uuid" "0123456789abcdef-1489054800001"; pair_of "count" "3"; pair_of "kind" "cat"]; [pair_of "uuid" "0123456789abcdef-1489054800002"; pair_of "count" "1"; pair_of "kind" "dog"]]]
  [pair_of "age" "42"; pair_of "colour" "red"; pair_of "photo" "p.jpg"; pair_of "pets" "cat"].
Definition sample_recipes : list recipe := form_recipes (codes "77") sample_secs sample_questions.
Definition sample_recipe : recipe := recipe_of (codes "77") (whole_fields sample_secs sample_questions).
Definition sample_sent : list datum := Eval vm_compute in default [] (record_data (lookup_recipe 0 sample_recipes) sample_stats 2 (field_list sample_recipe) (filled_record sample_answers)).

Lemma sample_given : form_given read_document (codes "Visit") (codes "77") (codes "77") sample_secs sample_questions sample_definition.
Proof. split; [split; [apply no_nul_check; vm_compute; reflexivity | vm_compute; reflexivity] | exact sample_definition_read | split; [apply sample_whole_ok | discriminate] | apply sample_recipes_readable]. Qed.
Lemma answers_check names l : map fst l = names -> forallb (fun kv : list Z * list Z => value_okb kv.2) l = true -> answers_ok names l.
Proof. intros Hn H. split; [done|]. rewrite forallb_forall in H. apply List.Forall_forall. intros kv Hkv. by apply value_okb_spec, H. Qed.
Lemma sample_filled : form_filled sample_secs sample_questions sample_answers.
Proof.
  split; [apply answers_check; vm_compute; reflexivity | split; apply value_okb_spec; vm_compute; reflexivity | | apply answers_check; vm_compute; reflexivity | apply fits_all; vm_compute; reflexivity].
  apply List.Forall2_cons; [|apply List.Forall2_nil].
  split; [apply answers_check; vm_compute; reflexivity | apply answers_check; vm_compute; reflexivity | split; [|discriminate] | split; apply fits_all; vm_compute; reflexivity].
  repeat (apply List.Forall_cons; [apply answers_check; vm_compute; reflexivity|]). apply List.Forall_nil.
Qed.
Lemma sample_answered : form_answered sample_secs sample_questions sample_answers.
Proof.
  split; [exact sample_filled | split; [apply items_plain_check; vm_compute; reflexivity | apply List.Forall_nil | vm_compute; discriminate] |].
  apply (parse_ok (print_record (filled_record sample_answers))). vm_compute. reflexivity.
Qed.
Lemma sample_sent_means : means (lookup_recipe 0 sample_recipes) sample_stats (field_list sample_recipe) (filled_record sample_answers) sample_sent.
Proof. apply (record_data_means _ _ 2). vm_compute. reflexivity. Qed.

Lemma form_journey_witness :
  build_recipe read_document sample_definition = Some (Some (formhash sample_recipe, sample_recipes)) /\
  exists recipe_files template_name template out,
    xhtml_recipe_create read_document (codes "/forms") (Some sample_definition) = Some (0, recipe_files ++ [(template_name, template)]) /\
    Dexml.Fill.stripped2xml (print_record (filled_record sample_answers)) template 2000 = Dexml.Fill.Written (form_instance sample_answers) /\
    strip_form (form_instance sample_answers) = Some (print_record (filled_record sample_answers)) /\
    compress_form 0 sample_stats sample_recipes (print_record (filled_record sample_answers)) = Done (Some out) /\
    forall n, (data_size sample_sent < n)%nat ->
      fst (decode_form (lookup_recipe 0 sample_recipes) sample_stats n sample_recipe (stats3_decoder out)) = (formhash sample_recipe, Some sample_sent).
Proof.
  apply (form_journey read_document sample_stats (codes "Visit") (codes "77") (codes "77") sample_secs sample_questions sample_definition sample_answers sample_sent 2000 (codes "/forms")).
  - exact sample_stats_ok.
  - exact sample_given.
  - exact sample_answered.
  - vm_compute. reflexivity.
  - vm_compute. reflexivity.
  - exact sample_sent_means.
  - vm_compute. reflexivity.
  - vm_compute. discriminate.
Defined.
