(* ===== verification/SyncKeys.v ===== *)
(** sync_keys.cpp: finding the differences of two sets of keys.

    A set is a binary tree of prefixes; every inner node carries the exclusive or
    of the keys below it. *)
From S2P Require Import Prelude CString.
Local Open Scope Z_scope.
Local Open Scope succinct_scope.

Definition KEY_LEN : Z := 8.
Definition KEY_LEN_BITS : Z := 64.
Definition PREFIX_STEP_BITS : Z := 1.
Definition NODE_CHILDREN : Z := 2.
Definition MESSAGE_BYTES : Z := KEY_LEN + 2.

(** sync_key_t: an array of KEY_LEN bytes *)
Definition sync_key_t := list Z.
Record key_message_t := Message { min_prefix_len : Z; stored : bool; prefix_len : Z; key : sync_key_t }.
Definition set_min (n : Z) (m : key_message_t) : key_message_t := Message n (stored m) (prefix_len m) (key m).
Definition set_stored (b : bool) (m : key_message_t) : key_message_t := Message (min_prefix_len m) b (prefix_len m) (key m).
Definition set_key (k : sync_key_t) (m : key_message_t) : key_message_t := Message (min_prefix_len m) (stored m) (prefix_len m) k.
Definition message_from_key (k : sync_key_t) : key_message_t := Message 0 false KEY_LEN_BITS k.

(** A pointer to a struct node: NULL, or a node with its message, the context of
    the key (a pointer, 0 for NULL) and two children. *)
Inductive node := Null | Node (message : key_message_t) (context : Z) (child0 child1 : node).

Definition is_null (n : node) : bool := match n with Null => true | Node _ _ _ _ => false end.
Definition child (n : node) (i : Z) : node :=
  match n with Null => Null | Node _ _ c0 c1 => if i =? 0 then c0 else c1 end.

(** ** Keys *)
Definition sync_xor_byte (src dest : sync_key_t) (prefix_len i : Z) : Z :=
  if i <? Z.shiftr prefix_len 3 then rd src i
  else if (i =? Z.shiftr prefix_len 3) && nz (Z.land prefix_len 7) then
    let mask := Z.land (Z.shiftr 0xff00 (Z.land prefix_len 7)) 0xff in
    Z.lor (Z.land mask (rd src i)) (Z.lxor (rd dest i) (rd src i))
  else Z.lxor (rd dest i) (rd src i).
Definition sync_xor (src : sync_key_t) (dest : key_message_t) : key_message_t :=
  set_key (map (sync_xor_byte src (key dest) (prefix_len dest)) [0; 1; 2; 3; 4; 5; 6; 7]) dest.

Definition sync_get_bits (offset len : Z) (k : sync_key_t) : Z :=
  let start_byte := Z.shiftr offset 3 in
  let context := u16 (Z.shiftl (rd k start_byte) 8) in
  let context := if start_byte + 1 <? KEY_LEN then Z.lor context (rd k (start_byte + 1)) else context in
  u8 (Z.land (Z.shiftr context (16 - Z.land offset 7 - len)) (Z.shiftl 1 len - 1)).

(** [memcmp] of [n] bytes from [start] on; the sign of a difference is not used *)
Definition memcmp (a b : list Z) (start n : Z) : Z :=
  if streq (firstn (Z.to_nat n) (skipn (Z.to_nat start) a)) (firstn (Z.to_nat n) (skipn (Z.to_nat start) b)) then 0 else -1.

Definition xor_begin (m : key_message_t) : Z := if prefix_len m =? KEY_LEN_BITS then min_prefix_len m else prefix_len m.
Definition cmp_message (first second : key_message_t) : Z :=
  let common_prefix_len := Z.min (prefix_len first) (prefix_len second) in
  let xor_begin_offset := Z.max (xor_begin first) (xor_begin second) in
  if common_prefix_len <? xor_begin_offset then
    if (common_prefix_len >=? 8) && nz (memcmp (key first) (key second) 0 (Z.shiftr common_prefix_len 3)) then -1
    else
      let xor_begin_byte := Z.shiftr (xor_begin_offset + 7) 3 in
      if (xor_begin_byte <? KEY_LEN) && nz (memcmp (key first) (key second) xor_begin_byte (KEY_LEN - xor_begin_byte)) then -1
      else 0
  else memcmp (key first) (key second) 0 KEY_LEN.
Definition same_message (first second : key_message_t) : bool := cmp_message first second =? 0.

(** ** Trees *)
Fixpoint xor_children (n : node) (dest : key_message_t) : key_message_t :=
  match n with
  | Null => dest
  | Node m _ c0 c1 => if prefix_len m =? KEY_LEN_BITS then sync_xor (key m) dest else xor_children c1 (xor_children c0 dest)
  end.

Definition set_child (c0 c1 : node) (i : Z) (n : node) : node * node := if i =? 0 then (n, c1) else (c0, n).

Section AddKey.
Variable k : sync_key_t.
Variable context : Z.
Variable st : bool.
(** what the pointer that was searched from [n] on points to in the end; [fuel]
    bounds the number of turns, which is at most one for each bit and one more *)
Fixpoint add_key_loop (fuel : nat) (n : node) (prefix min_prefix : Z) : node :=
  match n with
  | Null => Node (Message min_prefix st KEY_LEN_BITS k) context Null Null
  | Node m ctx c0 c1 =>
      match fuel with
      | O => n
      | S fuel =>
          let child_index := sync_get_bits prefix PREFIX_STEP_BITS k in
          if prefix_len m =? prefix then
            let m := sync_xor k m in
            let prefix := prefix + PREFIX_STEP_BITS in
            let '(c0, c1) := set_child c0 c1 child_index (add_key_loop fuel (child n child_index) prefix prefix) in
            Node m ctx c0 c1
          else
            let node_child_index := sync_get_bits prefix PREFIX_STEP_BITS (key m) in
            if child_index =? node_child_index then add_key_loop fuel n (prefix + PREFIX_STEP_BITS) min_prefix
            else
              let old := Node (set_min (prefix + PREFIX_STEP_BITS) m) ctx c0 c1 in
              let '(p0, p1) := set_child Null Null node_child_index old in
              let pm := Message min_prefix st prefix (repeat 0 8) in
              let pm := xor_children (Node pm 0 p0 p1) pm in
              add_key_loop fuel (Node pm 0 p0 p1) prefix min_prefix
      end
  end.
Definition add_key (root : node) : node := add_key_loop 66 root 0 0.
End AddKey.

(** [None]: a null pointer was dereferenced *)
Fixpoint remove_key_loop (fuel : nat) (k : sync_key_t) (n : node) (prefix : Z) : option node :=
  match n, fuel with
  | Null, _ => None
  | _, O => None
  | Node m ctx c0 c1, S fuel =>
      if prefix_len m =? KEY_LEN_BITS then Some Null
      else if prefix <? prefix_len m then remove_key_loop fuel k n (prefix + PREFIX_STEP_BITS)
      else
        let child_index := sync_get_bits prefix PREFIX_STEP_BITS k in
        let m := sync_xor k m in
        match remove_key_loop fuel k (child n child_index) (prefix + PREFIX_STEP_BITS) with
        | None => None
        | Some c =>
            let '(c0, c1) := set_child c0 c1 child_index c in
            match c, c0, c1 with
            | Null, Node m' ctx' a b, Null | Null, Null, Node m' ctx' a b => Some (Node (set_min (min_prefix_len m) m') ctx' a b)
            | Null, Null, Null => None
            | _, _, _ => Some (Node m ctx c0 c1)
            end
        end
  end.
Definition remove_key (root : node) (k : sync_key_t) : option node := remove_key_loop 66 k root 0.

Fixpoint find_loop (fuel : nat) (n : node) (prefix : Z) (message : key_message_t) : node :=
  match n, fuel with
  | Null, _ => Null
  | _, O => Null
  | Node m _ c0 c1, S fuel =>
      if same_message m message then n
      else if prefix_len m =? KEY_LEN_BITS then Null
      else
        let child_index := sync_get_bits prefix PREFIX_STEP_BITS (key message) in
        if prefix <? prefix_len m then
          if negb (sync_get_bits prefix PREFIX_STEP_BITS (key m) =? child_index) then Null
          else find_loop fuel n (prefix + PREFIX_STEP_BITS) message
        else find_loop fuel (child n child_index) (prefix + PREFIX_STEP_BITS) message
  end.
Definition find_message (n : node) (message : key_message_t) : node :=
  match n with Null => Null | Node m _ _ _ => find_loop 66 n (prefix_len m) message end.

Definition sync_key_exists (root : node) (k : sync_key_t) : Z :=
  if is_null (find_message root (message_from_key k)) then 0 else 1.

(** the bytes of a message, which is the memory of a key_message_t *)
Definition message_bytes (m : key_message_t) : list Z :=
  Z.lor (if stored m then 0x80 else 0) (Z.land (min_prefix_len m) 0x7f) :: prefix_len m :: key m.
Definition parse_message (p : list Z) : key_message_t :=
  Message (Z.land (rd p 0) 0x7f) (nz (Z.land (rd p 0) 0x80)) (rd p 1) (firstn 8 (skipn 2 p)).

Definition sync_root_msg (root : node) (buff_len : Z) : list Z :=
  if buff_len <? MESSAGE_BYTES then []
  else match root with
  | Node m _ _ _ => message_bytes m
  | Null => 0x80 :: KEY_LEN_BITS + 1 :: repeat 0 8
  end.

(** ** The state, and what the calls of it do *)

Record sync_peer_state := Peer { peer_context : Z; send_count : Z; recv_count : Z; peer_root : node }.
Record sync_state := State {
  has_callback : bool; has_not_callback : bool; now_has_callback : bool; queue_callback : bool;
  key_count : Z; received_record_count : Z; received_uninteresting : Z; progress : Z;
  peers : list sync_peer_state; root : node
}.

(** the calls of the callbacks, with the context of the peer *)
Inductive event :=
  | Has (peer : Z) (k : sync_key_t)
  | HasNot (peer key_context : Z) (k : sync_key_t)
  | NowHas (peer key_context : Z) (k : sync_key_t)
  | QueueMessage (peer : Z) (bytes : list Z).

(** the calls run on the state, one peer of it, and the log of the callbacks;
    [None] is undefined behaviour *)
Record world := World { w_state : sync_state; w_peer : sync_peer_state; w_log : list event }.
Definition sync (A : Type) : Type := world -> option (A * world).
Definition sret {A} (a : A) : sync A := fun w => Some (a, w).
Definition sbind {A B} (m : sync A) (k : A -> sync B) : sync B :=
  fun w => match m w with Some (a, w) => k a w | None => None end.
Notation "'let!' x := m 'in' k" := (sbind m (fun x => k)) (at level 10, x pattern, m at level 100, k at level 200) : succinct_scope.
Definition crash {A} : sync A := fun _ => None.
Definition get {A} (f : world -> A) : sync A := fun w => Some (f w, w).
Definition on_state (f : sync_state -> sync_state) : sync unit := fun w => Some (tt, World (f (w_state w)) (w_peer w) (w_log w)).
Definition on_peer (f : sync_peer_state -> sync_peer_state) : sync unit := fun w => Some (tt, World (w_state w) (f (w_peer w)) (w_log w)).
(** call a callback that is set *)
Definition notify (set_ : sync_state -> bool) (e : Z -> event) : sync unit :=
  fun w => Some (tt, if set_ (w_state w) then World (w_state w) (w_peer w) (w_log w ++ [e (peer_context (w_peer w))]) else w).
Definition queue_message (m : key_message_t) : sync unit := notify queue_callback (fun p => QueueMessage p (message_bytes m)).

Definition set_root (r : node) (s : sync_state) : sync_state :=
  State (has_callback s) (has_not_callback s) (now_has_callback s) (queue_callback s) (key_count s) (received_record_count s) (received_uninteresting s) (progress s) (peers s) r.
Definition set_counts (keys records uninteresting prog : Z) (s : sync_state) : sync_state :=
  State (has_callback s) (has_not_callback s) (now_has_callback s) (queue_callback s) keys records uninteresting prog (peers s) (root s).
Definition set_peers (l : list sync_peer_state) (s : sync_state) : sync_state :=
  State (has_callback s) (has_not_callback s) (now_has_callback s) (queue_callback s) (key_count s) (received_record_count s) (received_uninteresting s) (progress s) l (root s).
Definition reset_progress (s : sync_state) : sync_state := set_counts (key_count s) (received_record_count s) (received_uninteresting s) 0 s.
Definition count_record (s : sync_state) : sync_state := set_counts (key_count s) (u32 (received_record_count s + 1)) (received_uninteresting s) (progress s) s.
Definition count_uninteresting (s : sync_state) : sync_state := set_counts (key_count s) (received_record_count s) (u32 (received_uninteresting s + 1)) (progress s) s.
Definition with_peer_root (r : node) (send recv : Z) (p : sync_peer_state) : sync_peer_state :=
  Peer (peer_context p) (u32 (send_count p + send)) (u32 (recv_count p + recv)) r.

Definition sync_alloc_state (has has_not now_has queue : bool) : sync_state := State has has_not now_has queue 0 0 0 0 [] Null.
Definition sync_alloc_peer_state (s : sync_state) (context : Z) : sync_state := set_peers (Peer context 0 0 Null :: peers s) s.

(** the key is not one that the peer is known to have *)
Fixpoint forget_key (k : sync_key_t) (l : list sync_peer_state) : option (list sync_peer_state) :=
  match l with
  | [] => Some []
  | p :: l =>
      match forget_key k l with
      | None => None
      | Some l =>
          if is_null (find_message (peer_root p) (message_from_key k)) then Some (p :: l)
          else match remove_key (peer_root p) k with
               | None => None
               | Some r => Some (with_peer_root r 0 (-1) p :: l)
               end
      end
  end.

(** the node that [find_message] finds is changed where it is *)
Fixpoint update_found (fuel : nat) (n : node) (prefix : Z) (message : key_message_t) (context : Z) : node :=
  match n, fuel with
  | Null, _ => Null
  | _, O => n
  | Node m ctx c0 c1, S fuel =>
      if same_message m message then Node (set_stored true m) context c0 c1
      else if prefix_len m =? KEY_LEN_BITS then n
      else
        let child_index := sync_get_bits prefix PREFIX_STEP_BITS (key message) in
        if prefix <? prefix_len m then
          if negb (sync_get_bits prefix PREFIX_STEP_BITS (key m) =? child_index) then n
          else update_found fuel n (prefix + PREFIX_STEP_BITS) message context
        else
          let '(c0, c1) := set_child c0 c1 child_index (update_found fuel (child n child_index) (prefix + PREFIX_STEP_BITS) message context) in
          Node m ctx c0 c1
  end.

Definition sync_add_key (s : sync_state) (k : sync_key_t) (context : Z) : option sync_state :=
  let message := message_from_key k in
  match find_message (root s) message with
  | Node m _ _ _ =>
      let start := match root s with Node r _ _ _ => prefix_len r | Null => 0 end in
      Some (set_root (update_found 66 (root s) start message context) s)
  | Null =>
      let s := set_counts (u32 (key_count s + 1)) (received_record_count s) (received_uninteresting s) 0 s in
      let s := set_root (add_key k context true (root s)) s in
      match forget_key k (peers s) with None => None | Some l => Some (set_peers l s) end
  end.

(** ** Receiving *)

(** remove a key from the tree of the peer, and count *)
Definition peer_remove (k : sync_key_t) (send recv : Z) : sync unit :=
  fun w =>
    match remove_key (peer_root (w_peer w)) k with
    | None => None
    | Some r => Some (tt, World (w_state w) (with_peer_root r send recv (w_peer w)) (w_log w))
    end.
Definition peer_insert (k : sync_key_t) (context : Z) (st : bool) (send recv : Z) : sync unit :=
  on_peer (fun p => with_peer_root (add_key k context st (peer_root p)) send recv p).

(** [m] and [context]: a leaf of our tree *)
Definition peer_is_missing (m : key_message_t) (context : Z) (allow_remove : bool) : sync Z :=
  let! found := get (fun w => find_message (peer_root (w_peer w)) m) in
  match found with
  | Node m' _ _ _ =>
      if stored m' && allow_remove then
        let! _ := notify now_has_callback (fun p => NowHas p context (key m)) in
        let! _ := peer_remove (key m) (-1) 0 in
        sret 1
      else sret 0
  | Null =>
      let! _ := peer_insert (key m) context true 1 0 in
      let! _ := on_state reset_progress in
      let! _ := notify has_not_callback (fun p => HasNot p context (key m)) in
      sret 1
  end.

(** [except]: the child that is left out, or NODE_CHILDREN *)
Fixpoint missing_leaf_nodes (n : node) (except : Z) (allow_remove : bool) : sync unit :=
  match n with
  | Null => sret tt
  | Node m context c0 c1 =>
      if prefix_len m =? KEY_LEN_BITS then
        let! missing := peer_is_missing m context allow_remove in
        if nz missing then queue_message m else sret tt
      else
        let! _ := if negb (0 =? except) then missing_leaf_nodes c0 NODE_CHILDREN allow_remove else sret tt in
        if negb (1 =? except) then missing_leaf_nodes c1 NODE_CHILDREN allow_remove else sret tt
  end.
Definition peer_missing_leaf_nodes (n : node) (except : Z) (allow_remove : bool) : sync unit :=
  let! queue := get (fun w => queue_callback (w_state w)) in
  if negb queue then sret tt else missing_leaf_nodes n except allow_remove.

(** the message of the leaf that add_key has put into the tree *)
Fixpoint find_leaf (fuel : nat) (n : node) (k : sync_key_t) : key_message_t :=
  match n, fuel with
  | Node m _ _ _, S fuel =>
      if prefix_len m =? KEY_LEN_BITS then m
      else find_leaf fuel (child n (sync_get_bits (prefix_len m) PREFIX_STEP_BITS k)) k
  | _, _ => message_from_key k
  end.

Definition peer_add_key (message : key_message_t) : sync unit :=
  if negb (prefix_len message =? KEY_LEN_BITS) || negb (stored message) then sret tt
  else
    let! found := get (fun w => find_message (peer_root (w_peer w)) message) in
    match found with
    | Node _ _ _ _ => sret tt
    | Null =>
        let! _ := peer_insert (key message) 0 false 0 0 in
        let! _ := on_state reset_progress in
        let! _ := on_peer (fun p => with_peer_root (peer_root p) 0 1 p) in
        let! _ := notify has_callback (fun p => Has p (key message)) in
        (* the message of the new leaf *)
        let! added := get (fun w => find_leaf 66 (peer_root (w_peer w)) (key message)) in
        queue_message added
    end.

(** [n]: the part of the tree of the peer as it was when it was found *)
Fixpoint peer_has_received_all (n : node) : sync Z :=
  match n with
  | Null => sret 0
  | Node m context c0 c1 =>
      if prefix_len m =? KEY_LEN_BITS then
        if stored m then
          let! _ := notify now_has_callback (fun p => NowHas p context (key m)) in
          let! _ := peer_remove (key m) (-1) 0 in
          sret 1
        else sret 0
      else
        let! a := peer_has_received_all c0 in
        let! b := peer_has_received_all c1 in
        sret (a + b)
  end.

(** the node of the tree of the peer that the message is about, or NULL *)
Fixpoint differing_node (fuel : nat) (n : node) (prefix : Z) (message : key_message_t) : node :=
  match n, fuel with
  | Null, _ => Null
  | _, O => Null
  | Node m _ _ _, S fuel =>
      if negb (prefix <? prefix_len message) then n
      else if (prefix_len m =? KEY_LEN_BITS) && same_message message m then n
      else if (prefix_len m =? KEY_LEN_BITS) && (prefix_len message =? KEY_LEN_BITS) then Null
      else
        let child_index := sync_get_bits prefix PREFIX_STEP_BITS (key message) in
        if prefix <? prefix_len m then
          if negb (sync_get_bits prefix PREFIX_STEP_BITS (key m) =? child_index) then Null
          else differing_node fuel n (prefix + PREFIX_STEP_BITS) message
        else differing_node fuel (child n child_index) (prefix + PREFIX_STEP_BITS) message
  end.
Definition remove_differences (peer_root : node) (message : key_message_t) : node * key_message_t :=
  if is_null peer_root || negb (stored message) then (Null, message)
  else
    match differing_node 66 peer_root 0 message with
    | Null => (Null, message)
    | Node m _ _ _ as n =>
        if prefix_len message <? KEY_LEN_BITS then
          if (prefix_len m =? prefix_len message) || (prefix_len m =? KEY_LEN_BITS) then (n, sync_xor (key m) message)
          else (n, xor_children n message)
        else (n, message)
    end.

(** the bytes after the prefix are zero *)
Definition is_blank (m : key_message_t) : bool :=
  forallb (fun b => b =? 0) (skipn (Z.to_nat (Z.shiftr (prefix_len m) 3 + 1)) (key m)).

(** the part of our tree that explains the difference, NULL when there is none *)
Fixpoint explained_by (fuel : nat) (test_node : node) (test_prefix : Z) (test_message : key_message_t) : node :=
  match test_node, fuel with
  | Null, _ => Null
  | _, O => Null
  | Node m _ _ _, S fuel =>
      if same_message test_message m then test_node
      else if prefix_len m =? KEY_LEN_BITS then Null
      else
        let child_index := sync_get_bits test_prefix PREFIX_STEP_BITS (key test_message) in
        if test_prefix <? prefix_len m then
          if negb (sync_get_bits test_prefix PREFIX_STEP_BITS (key m) =? child_index) then Null
          else explained_by fuel test_node (test_prefix + PREFIX_STEP_BITS) test_message
        else explained_by fuel (child test_node child_index) (test_prefix + PREFIX_STEP_BITS) test_message
  end.

(** the first of the bits from [prefix] to [bound] in which the keys differ *)
Fixpoint skip_range (fuel : nat) (a b : sync_key_t) (prefix bound : Z) : bool * Z :=
  match fuel with
  | O => (false, prefix)
  | S fuel =>
      if prefix <? bound then
        if negb (sync_get_bits prefix PREFIX_STEP_BITS a =? sync_get_bits prefix PREFIX_STEP_BITS b) then (true, prefix)
        else skip_range fuel a b (prefix + PREFIX_STEP_BITS) bound
      else (false, prefix)
  end.

(** the message of a child, when it is there *)
Definition queue_child (n : node) : sync unit := match n with Null => sret tt | Node m _ _ _ => queue_message m end.

Section Receive.
Variable message : key_message_t.       (* as it came *)
Variable peer_message : key_message_t.  (* without what is known of the peer *)
Variable peer_node : node.

Fixpoint recv_loop (fuel : nat) (n : node) (prefix : Z) : sync unit :=
  match n, fuel with
  | Null, _ => crash
  | _, O => crash
  | Node m context _ _, S fuel =>
      if same_message message m then
        if stored message then
          let! received := peer_has_received_all peer_node in
          if received =? 0 then on_state count_uninteresting else sret tt
        else
          let! missing := peer_is_missing m context false in
          if missing =? 0 then on_state count_uninteresting else sret tt
      else if same_message peer_message m then on_state count_uninteresting
      else if prefix_len peer_message <=? prefix then
        if is_blank peer_message then peer_missing_leaf_nodes n NODE_CHILDREN true
        else if prefix_len m >? prefix_len peer_message then queue_message m
        else
          match explained_by 66 n prefix (sync_xor (key m) peer_message) with
          | Node _ _ _ _ as test_node => peer_missing_leaf_nodes test_node NODE_CHILDREN true
          | Null =>
              let! _ := queue_child (child n 0) in
              queue_child (child n 1)
          end
      else
        let '(differs, prefix) := skip_range 65 (key m) (key peer_message) prefix (Z.min (prefix_len m) (prefix_len peer_message)) in
        if differs then
          let! _ :=
            if (prefix >=? min_prefix_len peer_message) && stored peer_message then
              let! _ := peer_missing_leaf_nodes n NODE_CHILDREN false in
              if negb (prefix_len peer_message =? KEY_LEN_BITS) then queue_message m else sret tt
            else sret tt in
          if prefix_len peer_message =? KEY_LEN_BITS then peer_add_key peer_message else sret tt
        else if prefix_len message <=? prefix then recv_loop fuel n prefix
        else
          let key_index := sync_get_bits prefix PREFIX_STEP_BITS (key peer_message) in
          let! _ :=
            if (min_prefix_len peer_message <=? prefix_len m) && stored peer_message
            then peer_missing_leaf_nodes n key_index false else sret tt in
          match child n key_index with
          | Null =>
              if prefix_len peer_message =? KEY_LEN_BITS then peer_add_key peer_message
              else (* children[i], where i has run past the array *)
                let! queue := get (fun w => queue_callback (w_state w)) in
                if queue then crash else sret tt
          | Node _ _ _ _ as c => recv_loop fuel c (prefix + PREFIX_STEP_BITS)
          end
  end.
End Receive.

Definition recv_key (message : key_message_t) : sync Z :=
  if (min_prefix_len message >? prefix_len message) || (prefix_len message >? KEY_LEN_BITS + 1) then sret (-1)
  else
    let! _ := on_state count_record in
    let! ours := get (fun w => root (w_state w)) in
    match ours with
    | Null => let! _ := peer_add_key message in sret 0
    | Node _ _ _ _ as n =>
        if prefix_len message =? KEY_LEN_BITS + 1 then
          let! _ := peer_missing_leaf_nodes n NODE_CHILDREN false in sret 0
        else
          let! theirs := get (fun w => peer_root (w_peer w)) in
          let '(peer_node, peer_message) := remove_differences theirs message in
          let! _ := recv_loop message peer_message peer_node 132 n 0 in sret 0
    end.

(** the records of a packet *)
Fixpoint recv_records (fuel : nat) (buff : list Z) : sync Z :=
  match fuel with
  | O => sret 0
  | S fuel =>
      if Z.of_nat (length buff) <? MESSAGE_BYTES then sret 0
      else
        let! r := recv_key (parse_message (firstn 10 buff)) in
        if r =? -1 then sret (-1) else recv_records fuel (skipn 10 buff)
  end.
Definition sync_recv_message (buff : list Z) : sync Z :=
  if nz (Z.of_nat (length buff) mod MESSAGE_BYTES) then sret (-1)
  else recv_records (S (length buff)) buff.

(** the call with the peer at index [i] of the list: the result, the state after it
    and the calls of the callbacks *)
Definition sync_recv_from (s : sync_state) (i : nat) (buff : list Z) : option (Z * sync_state * list event) :=
  match peers s !! i with
  | None => None
  | Some p =>
      match sync_recv_message buff (World s p []) with
      | None => None
      | Some (r, w) => Some (r, set_peers (<[i := w_peer w]> (peers s)) (w_state w), w_log w)
      end
  end.
(** the context of the peer, and the state without it *)
Definition sync_free_peer_state (s : sync_state) (i : nat) : option (Z * sync_state) :=
  match peers s !! i with
  | None => None
  | Some p => Some (peer_context p, set_peers (delete i (peers s)) s)
  end.

(** the calls of the callback of sync_enum_differences: the key, and whether it is
    one that was sent to the peer *)
Fixpoint enum_diffs (n : node) : list (sync_key_t * bool) :=
  match n with
  | Null => []
  | Node m _ c0 c1 => if prefix_len m =? KEY_LEN_BITS then [(key m, stored m)] else enum_diffs c0 ++ enum_diffs c1
  end.
Definition sync_enum_differences (s : sync_state) : list (Z * (sync_key_t * bool)) :=
  flat_map (fun p => map (pair (peer_context p)) (enum_diffs (peer_root p))) (peers s).
