(* ===== verification/SyncTree.v ===== *)
(** The tree of sync_keys.cpp is a set of keys: adding, removing and finding, and
    the root as a fingerprint of the set. *)
From S2P Require Import Prelude CString SyncKeys.
Local Open Scope Z_scope.
Local Open Scope succinct_scope.

(** ** Keys as sequences of 64 bits *)
Definition kbit (k : sync_key_t) (i : Z) : bool := Z.testbit (rd k (i / 8)) (7 - i mod 8).
Definition key_ok (k : sync_key_t) : Prop := length k = 8%nat /\ Forall (fun b => 0 <= b < 256) k.
(** the same first [p] bits *)
Definition agree (p : Z) (a b : sync_key_t) : Prop := forall i, 0 <= i < p -> kbit a i = kbit b i.

Lemma agree_sym p a b : agree p a b -> agree p b a.
Proof. intros H i Hi. symmetry. by apply H. Qed.
Lemma agree_trans p a b c : agree p a b -> agree p b c -> agree p a c.
Proof. intros H1 H2 i Hi. by rewrite (H1 i Hi), (H2 i Hi). Qed.
Lemma agree_le p q a b : p <= q -> agree q a b -> agree p a b.
Proof. intros Hpq H i Hi. apply H. lia. Qed.
Lemma agree_succ p a b : agree p a b -> kbit a p = kbit b p -> agree (p + 1) a b.
Proof. intros H Hp i Hi. destruct (Z.eq_dec i p) as [->|]; [done | apply H; lia]. Qed.

Lemma key_byte k i : key_ok k -> 0 <= rd k i < 256.
Proof.
  intros [_ H]. unfold rd. destruct (i <? 0); [lia|]. destruct (Nat.lt_ge_cases (Z.to_nat i) (length k)).
  - rewrite List.Forall_forall in H. apply H. by apply nth_In.
  - rewrite nth_overflow by done. lia.
Qed.

Lemma byte_bits_high b j : 0 <= b < 256 -> 8 <= j -> Z.testbit b j = false.
Proof. intros Hb Hj. rewrite Z.testbit_eqb by lia. rewrite Z.div_small; [done|]. assert (2 ^ 8 <= 2 ^ j) by (apply Z.pow_le_mono_r; lia). lia. Qed.

Lemma key_ext a b : key_ok a -> key_ok b -> agree 64 a b -> a = b.
Proof.
  intros Ha Hb H. pose proof Ha as [La Fa]. pose proof Hb as [Lb Fb]. apply (nth_ext _ _ 0 0); [congruence|].
  intros n Hn. rewrite La in Hn. pose proof (key_byte a (Z.of_nat n) Ha) as Ba. pose proof (key_byte b (Z.of_nat n) Hb) as Bb.
  rewrite rd_of_nat in Ba, Bb. apply Z.bits_inj'. intros j Hj. destruct (Z.lt_ge_cases j 8); [|by rewrite !byte_bits_high].
  specialize (H (8 * Z.of_nat n + (7 - j)) ltac:(lia)). unfold kbit in H.
  replace ((8 * Z.of_nat n + (7 - j)) / 8) with (Z.of_nat n) in H by divmod.
  replace (7 - (8 * Z.of_nat n + (7 - j)) mod 8) with j in H by divmod. by rewrite !rd_of_nat in H.
Qed.

(** the one bit that sync_get_bits is asked for *)
Lemma get_bit k i : key_ok k -> 0 <= i < 64 -> sync_get_bits i PREFIX_STEP_BITS k = Z.b2z (kbit k i).
Proof.
  intros Hk Hi. unfold sync_get_bits, PREFIX_STEP_BITS, kbit, KEY_LEN. rewrite (Z.shiftr_div_pow2 i 3) by lia. change (2 ^ 3) with 8.
  change (Z.land i 7) with (Z.land i (2 ^ 3 - 1)). rewrite land_mod by lia. change (2 ^ 3) with 8.
  pose proof (key_byte k (i / 8) Hk) as B0. pose proof (key_byte k (i / 8 + 1) Hk) as B1.
  set (j := 7 - i mod 8). replace (16 - i mod 8 - 1) with (j + 8) by (unfold j; lia).
  assert (0 <= j < 8) as Hj by (unfold j; divmod). change (Z.shiftl 1 1 - 1) with 1. rewrite shiftr_bit by lia.
  assert (Z.testbit (if i / 8 + 1 <? 8 then Z.lor (u16 (Z.shiftl (rd k (i / 8)) 8)) (rd k (i / 8 + 1)) else u16 (Z.shiftl (rd k (i / 8)) 8)) (j + 8) = Z.testbit (rd k (i / 8)) j) as ->.
  { assert (Z.testbit (u16 (Z.shiftl (rd k (i / 8)) 8)) (j + 8) = Z.testbit (rd k (i / 8)) j) as E.
    { unfold u16. rewrite Z.mod_pow2_bits_low by lia. rewrite Z.shiftl_spec by lia. f_equal. lia. }
    destruct (_ <? 8); [|done]. rewrite Z.lor_spec, E, (byte_bits_high (rd k (i / 8 + 1))) by lia. apply orb_false_r. }
  unfold u8. destruct (Z.testbit _ _); done.
Qed.

Lemma get_bit_eq a b i : key_ok a -> key_ok b -> 0 <= i < 64 ->
  (sync_get_bits i PREFIX_STEP_BITS a =? sync_get_bits i PREFIX_STEP_BITS b) = Bool.eqb (kbit a i) (kbit b i).
Proof. intros Ha Hb Hi. rewrite !get_bit by done. by destruct (kbit a i), (kbit b i). Qed.

(** ** The exclusive or of a key into a message *)
Lemma mask_bit r j : 0 <= r < 8 -> 0 <= j < 8 -> Z.testbit (Z.land (Z.shiftr 0xff00 r) 0xff) (7 - j) = (j <? r).
Proof.
  intros Hr Hj. rewrite Z.land_spec, Z.shiftr_spec by lia. change 0xff with (Z.ones 8). change 0xff00 with (Z.shiftl (Z.ones 8) 8).
  rewrite Z.shiftl_spec by lia. rewrite (Z.ones_spec_low 8 (7 - j)) by lia. rewrite andb_true_r.
  destruct (Z.ltb_spec j r); [apply Z.ones_spec_low; lia | apply Z.testbit_neg_r; lia].
Qed.

Lemma byte_of_bits x : 0 <= x -> (forall j, 8 <= j -> Z.testbit x j = false) -> 0 <= x < 256.
Proof.
  intros Hx H. split; [done|]. destruct (Z.lt_ge_cases x 256) as [|Hge]; [done|]. exfalso.
  pose proof (Z.log2_le_mono 256 x Hge) as Hl. change (Z.log2 256) with 8 in Hl.
  pose proof (Z.bit_log2 x ltac:(lia)) as Hb. by rewrite H in Hb.
Qed.

Lemma sync_xor_ok src dest : key_ok src -> key_ok (key dest) -> key_ok (key (sync_xor src dest)).
Proof.
  intros Hs Hd. split; [done|]. unfold sync_xor. cbn [key set_key]. apply Forall_map, List.Forall_forall. intros i _. cbn [compose].
  pose proof (key_byte src i Hs) as Bs. pose proof (key_byte (key dest) i Hd) as Bd. unfold sync_xor_byte.
  destruct (_ <? _); [done|]. destruct (_ && _).
  - apply byte_of_bits.
    + apply Z.lor_nonneg. split; [apply Z.land_nonneg; right; lia | apply Z.lxor_nonneg; lia].
    + intros j Hj. by rewrite Z.lor_spec, Z.land_spec, Z.lxor_spec, (byte_bits_high (rd src i)), (byte_bits_high (rd (key dest) i)), andb_false_r.
  - apply byte_of_bits; [apply Z.lxor_nonneg; lia|]. intros j Hj. by rewrite Z.lxor_spec, !byte_bits_high.
Qed.

(** the bits of the byte in which the prefix ends are combined with or, those of
    the bytes before it are copied *)
Lemma sync_xor_bit src dest i : 0 <= prefix_len dest <= 64 -> 0 <= i < 64 ->
  kbit (key (sync_xor src dest)) i =
  if i / 8 <? prefix_len dest / 8 then kbit src i
  else if i <? prefix_len dest then kbit src i || kbit (key dest) i
  else xorb (kbit (key dest) i) (kbit src i).
Proof.
  intros Hp Hi. unfold kbit at 1, sync_xor. cbn [key set_key].
  assert (rd (map (sync_xor_byte src (key dest) (prefix_len dest)) [0; 1; 2; 3; 4; 5; 6; 7]) (i / 8) = sync_xor_byte src (key dest) (prefix_len dest) (i / 8)) as ->.
  { assert (0 <= i / 8 < 8) as H8 by divmod.
    assert (i / 8 = 0 \/ i / 8 = 1 \/ i / 8 = 2 \/ i / 8 = 3 \/ i / 8 = 4 \/ i / 8 = 5 \/ i / 8 = 6 \/ i / 8 = 7) as D by lia.
    repeat destruct D as [D|D]; rewrite D; reflexivity. }
  unfold sync_xor_byte. rewrite Z.shiftr_div_pow2 by lia. change (2 ^ 3) with 8. change (Z.land (prefix_len dest) 7) with (Z.land (prefix_len dest) (2 ^ 3 - 1)). rewrite land_mod by lia. change (2 ^ 3) with 8.
  fold (kbit src i). set (p := prefix_len dest) in *. destruct (Z.ltb_spec (i / 8) (p / 8)); [done|].
  assert (0 <= 7 - i mod 8) as Hj by divmod.
  destruct (Z.eqb_spec (i / 8) (p / 8)) as [E|E]; cbn [andb].
  - unfold nz. destruct (Z.eqb_spec (p mod 8) 0); cbn [negb].
    + destruct (Z.ltb_spec i p); [divmod|]. by rewrite Z.lxor_spec.
    + rewrite Z.lor_spec, Z.land_spec, Z.lxor_spec, mask_bit by divmod. fold (kbit src i) (kbit (key dest) i).
      destruct (Z.ltb_spec (i mod 8) (p mod 8)), (Z.ltb_spec i p); try divmod; by destruct (kbit src i), (kbit (key dest) i).
  - destruct (Z.ltb_spec i p); [divmod|]. by rewrite Z.lxor_spec.
Qed.

(** when the prefixes are the same, it stays, and the rest is exclusive or *)
Lemma sync_xor_agree src dest i : 0 <= prefix_len dest <= 64 -> agree (prefix_len dest) src (key dest) -> 0 <= i < 64 ->
  kbit (key (sync_xor src dest)) i = if i <? prefix_len dest then kbit src i else xorb (kbit (key dest) i) (kbit src i).
Proof.
  intros Hp Ha Hi. rewrite sync_xor_bit by done. destruct (Z.ltb_spec i (prefix_len dest)).
  - rewrite <- (Ha i) by lia. destruct (_ <? _), (kbit src i); done.
  - destruct (Z.ltb_spec (i / 8) (prefix_len dest / 8)); [divmod | done].
Qed.

(** ** Well-formed trees *)

Fixpoint leaves (n : node) : list sync_key_t :=
  match n with
  | Null => []
  | Node m _ c0 c1 => if prefix_len m =? KEY_LEN_BITS then [key m] else leaves c0 ++ leaves c1
  end.
(** the exclusive or of bit [i] *)
Definition xor_bits (i : Z) (l : list sync_key_t) : bool := fold_right (fun k b => xorb (kbit k i) b) false l.

(** the keys of [l] share the first [p] bits of [k], and bit [p] is [b] *)
Definition below (p : Z) (k : sync_key_t) (b : bool) (l : list sync_key_t) : Prop :=
  Forall (fun x => agree p x k /\ kbit x p = b) l.

(** A tree for the keys whose first [lo] bits are given: a leaf has the whole key,
    an inner node the prefix that its keys share up to [prefix_len], where they
    differ, and then the exclusive or of their bits. *)
Inductive wf : Z -> node -> Prop :=
  | wf_leaf lo m context : min_prefix_len m = lo -> 0 <= lo <= 64 -> prefix_len m = 64 -> key_ok (key m) ->
      wf lo (Node m context Null Null)
  | wf_inner lo m context c0 c1 : min_prefix_len m = lo -> 0 <= lo <= prefix_len m -> prefix_len m < 64 -> key_ok (key m) ->
      wf (prefix_len m + 1) c0 -> wf (prefix_len m + 1) c1 ->
      below (prefix_len m) (key m) false (leaves c0) -> below (prefix_len m) (key m) true (leaves c1) ->
      (forall i, prefix_len m <= i < 64 -> kbit (key m) i = xor_bits i (leaves c0 ++ leaves c1)) ->
      wf lo (Node m context c0 c1).
Definition wf_tree (n : node) : Prop := n = Null \/ wf 0 n.

Lemma xor_bits_app i l1 l2 : xor_bits i (l1 ++ l2) = xorb (xor_bits i l1) (xor_bits i l2).
Proof. unfold xor_bits. induction l1 as [|k l1 IH]; cbn [app fold_right]; [by rewrite xorb_false_l|]. by rewrite IH, xorb_assoc. Qed.
Lemma xor_bits_perm i l1 l2 : l1 ≡ₚ l2 -> xor_bits i l1 = xor_bits i l2.
Proof.
  unfold xor_bits. induction 1 as [|k l1 l2 _ IH | a b l | l1 l2 l3 _ IH1 _ IH2]; cbn [fold_right]; [done | by rewrite IH | | congruence].
  by rewrite <- !xorb_assoc, (xorb_comm (kbit a i)).
Qed.

Lemma leaves_leaf lo m ctx c0 c1 : wf lo (Node m ctx c0 c1) -> prefix_len m = 64 -> c0 = Null /\ c1 = Null /\ leaves (Node m ctx c0 c1) = [key m].
Proof. intros H Hp. inversion H; subst; [|lia]. cbn [leaves]. by rewrite Hp. Qed.
Lemma leaves_inner lo m ctx c0 c1 : wf lo (Node m ctx c0 c1) -> prefix_len m < 64 -> leaves (Node m ctx c0 c1) = leaves c0 ++ leaves c1.
Proof. intros H Hp. cbn [leaves]. unfold KEY_LEN_BITS. destruct (Z.eqb_spec (prefix_len m) 64); [lia | done]. Qed.

Lemma wf_leaves_ok lo n : wf lo n -> Forall key_ok (leaves n) /\ leaves n <> [].
Proof.
  induction 1 as [lo m ctx Hm Hl Hp Hk | lo m ctx c0 c1 Hm Hl Hp Hk H0 IH0 H1 IH1 B0 B1 Hx]; cbn [leaves]; unfold KEY_LEN_BITS.
  - rewrite Hp. cbn. split; [by apply List.Forall_cons | done].
  - destruct (Z.eqb_spec (prefix_len m) 64); [lia|]. destruct IH0 as [F0 N0], IH1 as [F1 N1]. split; [by apply Forall_app|].
    intros E. apply app_eq_nil in E. tauto.
Qed.

Lemma below_agree p k b l : below p k b l -> Forall (fun x => agree p x k) l.
Proof. intros H. eapply Forall_impl; [|exact H]. by intros x [Hx _]. Qed.

(** all the keys of a tree share the prefix of its node *)
Lemma wf_prefix lo m ctx c0 c1 : wf lo (Node m ctx c0 c1) -> Forall (fun k => agree (prefix_len m) k (key m)) (leaves (Node m ctx c0 c1)).
Proof.
  intros H. inversion H as [? ? ? Hm Hl Hp Hk | ? ? ? ? ? Hm Hl Hp Hk H0 H1 B0 B1 Hx]; subst; cbn [leaves]; unfold KEY_LEN_BITS.
  - rewrite Hp. cbn. apply List.Forall_cons; [by intros i|done].
  - destruct (Z.eqb_spec (prefix_len m) 64); [lia|]. apply Forall_app. split; by eapply below_agree.
Qed.

(** ** xor_children *)

(** a destination that has the prefix already, or no prefix yet *)
Definition prefixed (p : Z) (k d : sync_key_t) : Prop := agree p d k \/ forall i, 0 <= i < p -> kbit d i = false.

Lemma sync_xor_prefixed src dest k : 0 <= prefix_len dest <= 64 -> agree (prefix_len dest) src k -> prefixed (prefix_len dest) k (key dest) ->
  agree (prefix_len dest) (key (sync_xor src dest)) k /\
  forall i, prefix_len dest <= i < 64 -> kbit (key (sync_xor src dest)) i = xorb (kbit (key dest) i) (kbit src i).
Proof.
  intros Hp Ha Hd. split; intros i Hi; rewrite sync_xor_bit by lia.
  - destruct (Z.ltb_spec i (prefix_len dest)); [|lia]. rewrite (Ha i Hi). destruct (_ <? _); [done|].
    destruct Hd as [Hd|Hd]; rewrite (Hd i Hi); by destruct (kbit k i).
  - destruct (Z.ltb_spec (i / 8) (prefix_len dest / 8)); [divmod|]. destruct (Z.ltb_spec i (prefix_len dest)); [lia | done].
Qed.

Lemma xor_children_spec lo n : wf lo n -> forall dest k, 0 <= prefix_len dest <= 64 -> key_ok (key dest) ->
  Forall (fun x => agree (prefix_len dest) x k) (leaves n) -> prefixed (prefix_len dest) k (key dest) ->
  let d := xor_children n dest in
  (min_prefix_len d = min_prefix_len dest /\ stored d = stored dest /\ prefix_len d = prefix_len dest /\ key_ok (key d)) /\
  agree (prefix_len dest) (key d) k /\
  forall i, prefix_len dest <= i < 64 -> kbit (key d) i = xorb (kbit (key dest) i) (xor_bits i (leaves n)).
Proof.
  induction 1 as [lo m ctx Hm Hl Hp Hk | lo m ctx c0 c1 Hm Hl Hp Hk H0 IH0 H1 IH1 B0 B1 Hx]; intros dest k Hd Hok Hall Hpre;
    cbn [leaves xor_children] in *; unfold KEY_LEN_BITS in *.
  - rewrite Hp, Z.eqb_refl in *. cbv iota zeta in *. apply (Forall_singleton (fun x => agree (prefix_len dest) x k)) in Hall. destruct (sync_xor_prefixed (key m) dest k Hd Hall Hpre) as [A B].
    split; [by repeat split; apply sync_xor_ok|]. split; [done|]. intros i Hi. rewrite (B i Hi). cbn [xor_bits fold_right]. by rewrite xorb_false_r.
  - destruct (Z.eqb_spec (prefix_len m) 64); [lia|]. apply Forall_app in Hall as [Ha0 Ha1].
    destruct (IH0 dest k Hd Hok Ha0 Hpre) as ((M0 & S0 & P0 & K0) & A0 & X0). cbv zeta in *. set (d0 := xor_children c0 dest) in *.
    rewrite <- P0 in Hd, Ha1. destruct (IH1 d0 k Hd K0 Ha1) as ((M1 & S1 & P1 & K1) & A1 & X1); [left; by rewrite P0|].
    split; [split; [congruence | split; [congruence | split; [congruence | done]]]|]. rewrite P0 in *. split; [done|].
    intros i Hi. rewrite (X1 i Hi), (X0 i Hi), xor_bits_app. apply xorb_assoc.
Qed.

(** ** Adding a key *)
Lemma child_bit m ctx c0 c1 (b : bool) : child (Node m ctx c0 c1) (Z.b2z b) = if b then c1 else c0.
Proof. by destruct b. Qed.
Lemma set_child_bit c0 c1 (b : bool) n : set_child c0 c1 (Z.b2z b) n = if b then (c0, n) else (n, c1).
Proof. by destruct b. Qed.

Lemma wf_bounds lo m ctx c0 c1 : wf lo (Node m ctx c0 c1) -> min_prefix_len m = lo /\ 0 <= lo <= prefix_len m /\ prefix_len m <= 64 /\ key_ok (key m).
Proof. intros H. inversion H; subst; (split; [done|]; split; [lia|]; split; [lia | done]). Qed.
Lemma wf_node lo n : wf lo n -> exists m ctx c0 c1, n = Node m ctx c0 c1.
Proof. intros H. inversion H; eauto. Qed.

Lemma wf_set_min lo lo' m ctx c0 c1 : wf lo (Node m ctx c0 c1) -> 0 <= lo' <= prefix_len m -> wf lo' (Node (set_min lo' m) ctx c0 c1).
Proof. intros H Hl. inversion H; subst; [apply wf_leaf | apply wf_inner]; cbn [set_min min_prefix_len prefix_len key]; try done; lia. Qed.

Lemma agree_refl p k : agree p k k.
Proof. by intros i. Qed.
#[local] Hint Resolve agree_refl : core.

(** the keys of the two sides of a node are those with the bit clear and set *)
Lemma below_shift p k k' b l : agree p k k' -> below p k b l -> below p k' b l.
Proof. intros Ha H. eapply Forall_impl; [|exact H]. intros x [Hx Hb]. split; [by eapply agree_trans | done]. Qed.
Lemma below_next p k b l : below p k b l -> kbit k p = b -> Forall (fun x => agree (p + 1) x k) l.
Proof. intros H Hk. eapply Forall_impl; [|exact H]. intros x [Hx Hb]. apply agree_succ; [done | congruence]. Qed.

(** a node whose children and exclusive or have changed by a key *)
Lemma wf_rebuild lo m ctx c0 c1 k d0 d1 : wf lo (Node m ctx c0 c1) -> prefix_len m < 64 -> key_ok k -> agree (prefix_len m) k (key m) ->
  (forall i, xor_bits i (leaves d0 ++ leaves d1) = xorb (xor_bits i (leaves c0 ++ leaves c1)) (kbit k i)) ->
  wf (prefix_len m + 1) d0 -> wf (prefix_len m + 1) d1 ->
  below (prefix_len m) (key m) false (leaves d0) -> below (prefix_len m) (key m) true (leaves d1) ->
  wf lo (Node (sync_xor k m) ctx d0 d1) /\ leaves (Node (sync_xor k m) ctx d0 d1) = leaves d0 ++ leaves d1.
Proof.
  intros Hwf Hp Hk Ha HX W0 W1 D0 D1. inversion Hwf as [|? ? ? ? ? Hm Hlo _ Hkm _ _ _ _ Hx]; subst; [lia|].
  destruct (sync_xor_prefixed k m (key m) ltac:(lia) Ha) as [A X]; [by left|].
  assert (wf (min_prefix_len m) (Node (sync_xor k m) ctx d0 d1)) as W; [|split; [done | by apply (leaves_inner _ _ _ _ _ W)]].
  apply wf_inner; try done; [by apply sync_xor_ok | by eapply below_shift, D0; apply agree_sym | by eapply below_shift, D1; apply agree_sym|].
  intros i Hi. cbn [sync_xor set_key prefix_len] in Hi. by rewrite (X i Hi), (Hx i Hi), HX.
Qed.

(** a key with the prefix of the node, put on its side *)
Lemma wf_insert lo m ctx c0 c1 k c' : wf lo (Node m ctx c0 c1) -> prefix_len m < 64 -> key_ok k -> agree (prefix_len m) k (key m) ->
  wf (prefix_len m + 1) c' -> leaves c' ≡ₚ k :: leaves (child (Node m ctx c0 c1) (Z.b2z (kbit k (prefix_len m)))) ->
  let '(d0, d1) := set_child c0 c1 (Z.b2z (kbit k (prefix_len m))) c' in
  wf lo (Node (sync_xor k m) ctx d0 d1) /\ leaves (Node (sync_xor k m) ctx d0 d1) ≡ₚ k :: leaves (Node m ctx c0 c1).
Proof.
  intros Hwf Hp Hk Ha Hc Hl. rewrite set_child_bit. rewrite child_bit in Hl. rewrite (leaves_inner lo m ctx c0 c1 Hwf Hp).
  assert (forall d0 d1, leaves d0 ++ leaves d1 ≡ₚ k :: leaves c0 ++ leaves c1 -> wf (prefix_len m + 1) d0 -> wf (prefix_len m + 1) d1 ->
    below (prefix_len m) (key m) false (leaves d0) -> below (prefix_len m) (key m) true (leaves d1) ->
    wf lo (Node (sync_xor k m) ctx d0 d1) /\ leaves (Node (sync_xor k m) ctx d0 d1) ≡ₚ k :: leaves c0 ++ leaves c1) as Hboth.
  { intros d0 d1 HP W0 W1 D0 D1. destruct (wf_rebuild lo m ctx c0 c1 k d0 d1 Hwf Hp Hk Ha) as [W ->]; try done.
    intros i. rewrite (xor_bits_perm i _ _ HP). apply xorb_comm. }
  inversion Hwf as [|? ? ? ? ? _ _ _ _ H0 H1 B0 B1 _]; subst; [lia|].
  assert (below (prefix_len m) (key m) (kbit k (prefix_len m)) [k]) as Bk by (apply List.Forall_cons; [by split | done]).
  destruct (kbit k (prefix_len m)); (apply Hboth; [| done | done | |]); try done.
  - rewrite Hl. by rewrite Permutation_middle.
  - unfold below. rewrite Hl. apply List.Forall_cons; [by inversion Bk | done].
  - by rewrite Hl.
  - unfold below. rewrite Hl. apply List.Forall_cons; [by inversion Bk | done].
Qed.

(** a new node above [m] for a key that differs from it at bit [p] *)
Lemma wf_split lo m ctx c0 c1 k st p old : wf lo (Node m ctx c0 c1) -> key_ok k -> lo <= p < prefix_len m ->
  Forall (fun x => agree p x k) (leaves (Node m ctx c0 c1)) -> kbit (key m) p = negb (kbit k p) ->
  old = Node (set_min (p + 1) m) ctx c0 c1 ->
  let '(p0, p1) := set_child Null Null (Z.b2z (kbit (key m) p)) old in
  let pm := xor_children (Node (Message lo st p (repeat 0 8)) 0 p0 p1) (Message lo st p (repeat 0 8)) in
  prefix_len pm = p /\
  forall kctx, let leaf := Node (Message (p + 1) st 64 k) kctx Null Null in
  let '(d0, d1) := set_child p0 p1 (Z.b2z (kbit k p)) leaf in
  wf lo (Node (sync_xor k pm) 0 d0 d1) /\ leaves (Node (sync_xor k pm) 0 d0 d1) ≡ₚ k :: leaves (Node m ctx c0 c1).
Proof.
  intros Hwf Hk Hp Hall Hdiff Hold. destruct (wf_bounds _ _ _ _ _ Hwf) as (Hm & Hlo & H64 & Hkm).
  pose proof (wf_set_min lo (p + 1) _ _ _ _ Hwf ltac:(lia)) as Wold. rewrite <- Hold in Wold.
  assert (leaves old = leaves (Node m ctx c0 c1)) as Lold by (by rewrite Hold). rewrite <- Lold in *.
  assert (Forall (fun x => agree p x k /\ kbit x p = negb (kbit k p)) (leaves old)) as Bold.
  { rewrite Lold. pose proof (wf_prefix _ _ _ _ _ Hwf) as Hpre. rewrite Lold in Hall. rewrite List.Forall_forall in *. intros x Hx.
    split; [by apply Hall|]. rewrite <- Hdiff. apply (Hpre x Hx). lia. }
  set (pm0 := Message lo st p (repeat 0 8)).
  assert (key_ok (repeat 0 8)) as Hzero by (split; [done | repeat (apply List.Forall_cons; [lia|]); apply List.Forall_nil]).
  assert (forall i, 0 <= i < 64 -> kbit (repeat 0 8) i = false) as Z0.
  { intros i Hi. unfold kbit. assert (0 <= i / 8 < 8) by divmod. rewrite rd_nth, nth_repeat_lt by lia. apply Z.testbit_0_l. }
  destruct (xor_children_spec _ _ Wold pm0 k ltac:(cbn; lia) Hzero) as ((Mm & Ms & Mp & Mk) & MA & MX);
    [by eapply Forall_impl; [|exact Bold]; intros x [Hx _] | right; intros i Hi; apply Z0; cbn [pm0 prefix_len] in Hi; lia|].
  cbv zeta in *. cbn [pm0 min_prefix_len stored prefix_len key] in Mm, Ms, Mp, MA, MX.
  set (leaf := fun kctx => Node (Message (p + 1) st 64 k) kctx Null Null).
  assert (forall kctx, wf (p + 1) (leaf kctx)) as Wleaf by (intros kctx; apply wf_leaf; [done | lia | done | done]).
  assert (xor_children (Node pm0 0 Null old) pm0 = xor_children old pm0 /\ xor_children (Node pm0 0 old Null) pm0 = xor_children old pm0) as [E1 E0].
  { cbn [xor_children pm0 prefix_len]. unfold KEY_LEN_BITS. destruct (Z.eqb_spec p 64); [lia | done]. }
  set (pm := xor_children old pm0) in *.
  destruct (sync_xor_prefixed k pm k) as [A X]; [lia | by intros i | by left; rewrite Mp|]. rewrite Mp in A, X.
  assert (forall d0 d1 kctx, leaves d0 ++ leaves d1 ≡ₚ k :: leaves old -> wf (p + 1) d0 -> wf (p + 1) d1 ->
    below p k false (leaves d0) -> below p k true (leaves d1) ->
    wf lo (Node (sync_xor k pm) kctx d0 d1) /\ leaves (Node (sync_xor k pm) kctx d0 d1) ≡ₚ k :: leaves old) as Hboth.
  { intros d0 d1 kctx HP W0 W1 D0 D1. assert (wf lo (Node (sync_xor k pm) kctx d0 d1)) as W.
    { apply wf_inner; cbn [sync_xor set_key min_prefix_len prefix_len]; rewrite ?Mp; try done; try lia; [by apply sync_xor_ok | by eapply below_shift, D0; apply agree_sym | by eapply below_shift, D1; apply agree_sym|].
      intros i Hi. change (key (set_key _ pm)) with (key (sync_xor k pm)). rewrite (X i Hi), (MX i Hi), Z0, (xor_bits_perm i _ _ HP) by lia. cbn [xor_bits fold_right]. rewrite xorb_false_l. apply xorb_comm. }
    split; [done|]. rewrite (leaves_inner _ _ _ _ _ W); [done|]. cbn [sync_xor set_key prefix_len]. lia. }
  rewrite Hdiff, set_child_bit. destruct (kbit k p) eqn:Ekp; cbn [negb] in *; rewrite ?E0, ?E1; (split; [done|]); intros kctx; rewrite set_child_bit; cbv zeta iota;
    (apply Hboth; [| done || apply Wleaf | done || apply Wleaf | |]); try done.
  - change (leaves (leaf kctx)) with [k]. by rewrite Permutation_app_comm.
  - apply List.Forall_cons; [by split | done].
  - apply List.Forall_cons; [by split | done].
Qed.

Section AddKey.
Variable k : sync_key_t.
Variable kctx : Z.
Variable st : bool.
Hypothesis Hk : key_ok k.

Lemma add_key_loop_spec fuel : forall lo m ctx c0 c1 p, wf lo (Node m ctx c0 c1) -> lo <= p <= prefix_len m ->
  Forall (fun x => agree p x k) (leaves (Node m ctx c0 c1)) -> k ∉ leaves (Node m ctx c0 c1) -> 66 - p <= Z.of_nat fuel ->
  wf lo (add_key_loop k kctx st fuel (Node m ctx c0 c1) p lo) /\
  leaves (add_key_loop k kctx st fuel (Node m ctx c0 c1) p lo) ≡ₚ k :: leaves (Node m ctx c0 c1).
Proof.
  induction fuel as [|fuel IH]; intros lo m ctx c0 c1 p Hwf Hp Hall Hnot Hfuel;
    destruct (wf_bounds _ _ _ _ _ Hwf) as (Hm & Hlo & H64 & Hkm).
  - (* fuel *) exfalso. assert (p = 64 \/ p < 64) as [->|] by lia; lia.
  - pose proof (wf_prefix _ _ _ _ _ Hwf) as Hpre. destruct (wf_leaves_ok _ _ Hwf) as [Hoks Hne].
    assert (agree p k (key m)) as Hkm'.
    { destruct (leaves (Node m ctx c0 c1)) as [|x l]; [done|]. inversion Hall; inversion Hpre; subst.
      eapply agree_trans; [by apply agree_sym|]. eapply agree_le; [|done]. lia. }
    assert (p < 64) as Hp64.
    { destruct (Z.eq_dec p 64) as [->|]; [|lia]. destruct (leaves_leaf _ _ _ _ _ Hwf ltac:(lia)) as (_ & _ & El). rewrite El in Hnot.
      destruct Hnot. rewrite (key_ext k (key m) Hk Hkm Hkm'). by apply list_elem_of_singleton. }
    cbn [add_key_loop]. destruct (Z.eqb_spec (prefix_len m) p) as [<-|Hne'].
    + rewrite (get_bit k (prefix_len m)) by (done || lia). rewrite child_bit.
      assert (exists m' ctx' a b, (if kbit k (prefix_len m) then c1 else c0) = Node m' ctx' a b /\ wf (prefix_len m + 1) (Node m' ctx' a b) /\
        Forall (fun x => agree (prefix_len m + 1) x k) (leaves (Node m' ctx' a b)) /\ k ∉ leaves (Node m' ctx' a b)) as (m' & ctx' & a & b & Ec & Wc & Ac & Nc).
      { inversion Hwf as [|? ? ? ? ? _ _ _ _ H0 H1 B0 B1 _]; subst; [lia|]. rewrite (leaves_inner _ _ _ _ _ Hwf Hp64), not_elem_of_app in Hnot.
        apply agree_sym in Hkm'. destruct (kbit k (prefix_len m)) eqn:Ekp; [destruct (wf_node _ _ H1) as (m' & ctx' & a & b & E) | destruct (wf_node _ _ H0) as (m' & ctx' & a & b & E)];
          rewrite E in *; exists m', ctx', a, b; (split; [done|]); (split; [done|]); (split; [|tauto]); (eapply below_next; [by eapply below_shift | done]). }
      rewrite Ec. destruct (IH (prefix_len m + 1) m' ctx' a b (prefix_len m + 1) Wc) as [W L]; [destruct (wf_bounds _ _ _ _ _ Wc); lia | done | done | lia|].
      pose proof (wf_insert lo m ctx c0 c1 k _ Hwf Hp64 Hk Hkm' W ltac:(by rewrite child_bit, Ec)) as HI.
      unfold PREFIX_STEP_BITS. by destruct (set_child c0 c1 (Z.b2z (kbit k (prefix_len m))) _).
    + rewrite (get_bit_eq k (key m) p), (get_bit (key m) p) by (done || lia). destruct (Bool.eqb (kbit k p) (kbit (key m) p)) eqn:Eb.
      * apply eqb_prop in Eb. unfold PREFIX_STEP_BITS. apply IH; [done | lia | | done | lia].
        rewrite List.Forall_forall in *. intros x Hx. apply agree_succ; [by apply Hall|]. rewrite (Hpre x Hx p) by lia. by rewrite Eb.
      * assert (kbit (key m) p = negb (kbit k p)) as Hd by (by destruct (kbit k p), (kbit (key m) p)).
        pose proof (wf_split lo m ctx c0 c1 k st p _ Hwf Hk ltac:(lia) Hall Hd eq_refl) as HS. unfold PREFIX_STEP_BITS in *.
        destruct (set_child Null Null (Z.b2z (kbit (key m) p)) _) as [p0 p1] eqn:Esc. cbv zeta in HS. destruct HS as [HP HS]. specialize (HS kctx).
        set (pm := xor_children _ _) in *. destruct fuel as [|fuel]; [lia|]. cbn [add_key_loop]. rewrite HP, Z.eqb_refl, (get_bit k p) by (done || lia).
        unfold PREFIX_STEP_BITS. assert (child (Node pm 0 p0 p1) (Z.b2z (kbit k p)) = Null) as Hchild.
        { rewrite child_bit. rewrite Hd, set_child_bit in Esc. destruct (kbit k p); cbn [negb] in Esc; by injection Esc as <- <-. }
        rewrite Hchild. replace (add_key_loop k kctx st fuel Null (p + 1) (p + 1)) with (Node (Message (p + 1) st 64 k) kctx Null Null) by (by destruct fuel).
        by destruct (set_child p0 p1 _ _).
Qed.

(** adding a key that is not there *)
Lemma add_key_spec t : wf_tree t -> k ∉ leaves t -> wf_tree (add_key k kctx st t) /\ leaves (add_key k kctx st t) ≡ₚ k :: leaves t.
Proof.
  intros [->|Hwf] Hnot.
  - split; [right; by apply wf_leaf | done].
  - destruct (wf_node _ _ Hwf) as (m & ctx & c0 & c1 & ->). destruct (wf_bounds _ _ _ _ _ Hwf) as (_ & H & _).
    destruct (add_key_loop_spec 66 0 m ctx c0 c1 0 Hwf ltac:(lia)) as [W L]; [| done | lia | split; [by right | done]].
    apply List.Forall_forall. intros x _ i Hi. lia.
Qed.
End AddKey.

(** ** Removing a key *)

(** a node without one of the keys below it *)
Lemma wf_without lo m ctx c0 c1 k c' : wf lo (Node m ctx c0 c1) -> prefix_len m < 64 -> key_ok k -> agree (prefix_len m) k (key m) ->
  wf (prefix_len m + 1) c' -> leaves (child (Node m ctx c0 c1) (Z.b2z (kbit k (prefix_len m)))) ≡ₚ k :: leaves c' ->
  let '(d0, d1) := set_child c0 c1 (Z.b2z (kbit k (prefix_len m))) c' in
  wf lo (Node (sync_xor k m) ctx d0 d1) /\ leaves (Node m ctx c0 c1) ≡ₚ k :: leaves (Node (sync_xor k m) ctx d0 d1).
Proof.
  intros Hwf Hp Hk Ha Hc Hl. rewrite set_child_bit. rewrite child_bit in Hl. rewrite (leaves_inner lo m ctx c0 c1 Hwf Hp).
  assert (forall d0 d1, leaves c0 ++ leaves c1 ≡ₚ k :: leaves d0 ++ leaves d1 -> wf (prefix_len m + 1) d0 -> wf (prefix_len m + 1) d1 ->
    below (prefix_len m) (key m) false (leaves d0) -> below (prefix_len m) (key m) true (leaves d1) ->
    wf lo (Node (sync_xor k m) ctx d0 d1) /\ leaves c0 ++ leaves c1 ≡ₚ k :: leaves (Node (sync_xor k m) ctx d0 d1)) as Hboth.
  { intros d0 d1 HP W0 W1 D0 D1. destruct (wf_rebuild lo m ctx c0 c1 k d0 d1 Hwf Hp Hk Ha) as [W ->]; try done.
    intros i. rewrite (xor_bits_perm i _ _ HP). cbn [xor_bits fold_right]. by rewrite xorb_comm, <- xorb_assoc, xorb_nilpotent, xorb_false_l. }
  inversion Hwf as [|? ? ? ? ? _ _ _ _ H0 H1 B0 B1 _]; subst; [lia|].
  destruct (kbit k (prefix_len m)); (apply Hboth; [| done | done | |]); try done.
  - rewrite Hl. by rewrite Permutation_middle.
  - unfold below in *. rewrite Hl in B1. by inversion B1.
  - by rewrite Hl.
  - unfold below in *. rewrite Hl in B0. by inversion B0.
Qed.

Lemma remove_key_loop_spec k fuel : key_ok k -> forall lo m ctx c0 c1 p, wf lo (Node m ctx c0 c1) -> 0 <= p <= prefix_len m ->
  k ∈ leaves (Node m ctx c0 c1) -> 66 - p <= Z.of_nat fuel ->
  exists t, remove_key_loop fuel k (Node m ctx c0 c1) p = Some t /\
    leaves (Node m ctx c0 c1) ≡ₚ k :: leaves t /\ (if prefix_len m =? 64 then t = Null else wf lo t).
Proof.
  intros Hk. induction fuel as [|fuel IH]; intros lo m ctx c0 c1 p Hwf Hp Hin Hfuel; destruct (wf_bounds _ _ _ _ _ Hwf) as (Hm & Hlo & H64 & Hkm).
  - lia.
  - cbn [remove_key_loop]. unfold KEY_LEN_BITS. destruct (Z.eqb_spec (prefix_len m) 64) as [E|E].
    + destruct (leaves_leaf _ _ _ _ _ Hwf E) as (_ & _ & El). rewrite El in *. apply list_elem_of_singleton in Hin as ->. by exists Null.
    + assert (agree (prefix_len m) k (key m)) as Ha.
      { pose proof (wf_prefix _ _ _ _ _ Hwf) as Hpre. rewrite List.Forall_forall in Hpre. by apply Hpre, list_elem_of_In. }
      destruct (Z.ltb_spec p (prefix_len m)).
      * unfold PREFIX_STEP_BITS. destruct (IH lo m ctx c0 c1 (p + 1) Hwf ltac:(lia) Hin ltac:(lia)) as (t & Ht & HP & HW).
        exists t. split; [done|]. destruct (Z.eqb_spec (prefix_len m) 64); [lia | done].
      * assert (p = prefix_len m) as -> by lia. rewrite get_bit by (done || lia). unfold PREFIX_STEP_BITS.
        pose proof Hin as Hin'. rewrite (leaves_inner _ _ _ _ _ Hwf) in Hin' by lia.
        inversion Hwf as [|? ? ? ? ? _ _ _ _ H0 H1 B0 B1 _]; subst; [lia|].
        assert (k ∈ leaves (child (Node m ctx c0 c1) (Z.b2z (kbit k (prefix_len m))))) as Hc.
        { rewrite child_bit. unfold below in *. rewrite List.Forall_forall in B0, B1. apply elem_of_app in Hin' as [Hl|Hr].
          - pose proof (proj2 (B0 k ltac:(by apply list_elem_of_In))) as ->. done.
          - pose proof (proj2 (B1 k ltac:(by apply list_elem_of_In))) as ->. done. }
        assert (wf (prefix_len m + 1) (child (Node m ctx c0 c1) (Z.b2z (kbit k (prefix_len m))))) as Wc by (rewrite child_bit; by destruct (kbit k _)).
        destruct (wf_node _ _ Wc) as (m' & ctx' & a & b & Ec). rewrite Ec in *.
        destruct (IH _ _ _ _ _ (prefix_len m + 1) Wc) as (t & Ht & HP & HW); [destruct (wf_bounds _ _ _ _ _ Wc); lia | done | lia|]. rewrite Ht.
        destruct (prefix_len m' =? 64).
        -- subst t. rewrite child_bit in Ec. rewrite set_child_bit, (leaves_inner _ _ _ _ _ Hwf) by lia.
           destruct (wf_node _ _ H0) as (m0 & x0 & a0 & b0 & E0), (wf_node _ _ H1) as (m1 & x1 & a1 & b1 & E1). subst c0 c1.
           destruct (kbit k (prefix_len m)); injection Ec as -> -> -> ->; eexists; (split; [reflexivity|]); cbn [sync_xor set_key min_prefix_len]; rewrite HP;
             (split; [|destruct (Z.eqb_spec (prefix_len m) 64); [lia|]; eapply wf_set_min; [done|]]).
           ++ cbn [app leaves]. by rewrite Permutation_app_comm.
           ++ destruct (wf_bounds _ _ _ _ _ H0); lia.
           ++ done.
           ++ destruct (wf_bounds _ _ _ _ _ H1); lia.
        -- pose proof (wf_without _ m ctx c0 c1 k t Hwf ltac:(lia) Hk Ha HW ltac:(by rewrite Ec)) as HX.
           destruct (set_child c0 c1 (Z.b2z (kbit k (prefix_len m))) t) as [d0 d1]. exists (Node (sync_xor k m) ctx d0 d1).
           destruct (wf_node _ _ HW) as (? & ? & ? & ? & ->). split; [done|]. destruct HX as [HX1 HX2]. split; [done|].
           destruct (Z.eqb_spec (prefix_len m) 64); [lia | done].
Qed.
Lemma remove_key_spec t k : wf_tree t -> key_ok k -> k ∈ leaves t ->
  exists t', remove_key t k = Some t' /\ wf_tree t' /\ leaves t ≡ₚ k :: leaves t'.
Proof.
  intros [->|Hwf] Hk Hin; [by apply not_elem_of_nil in Hin|]. destruct (wf_node _ _ Hwf) as (m & ctx & c0 & c1 & ->).
  destruct (wf_bounds _ _ _ _ _ Hwf) as (_ & Hlo & _).
  destruct (remove_key_loop_spec k 66 Hk 0 m ctx c0 c1 0 Hwf ltac:(lia) Hin ltac:(lia)) as (t' & Ht & HP & HW).
  exists t'. split; [exact Ht|]. split; [|exact HP]. destruct (_ =? 64); [by left | by right].
Qed.

(** ** Finding *)

(** the keys of all nodes, the exclusive ors of the inner ones included *)
Fixpoint summaries (n : node) : list sync_key_t :=
  match n with Null => [] | Node m _ c0 c1 => key m :: summaries c0 ++ summaries c1 end.

Lemma leaves_summaries lo n : wf lo n -> forall k, k ∈ leaves n -> k ∈ summaries n.
Proof.
  induction 1 as [lo m ctx Hm Hl Hp Hk | lo m ctx c0 c1 Hm Hl Hp Hk H0 IH0 H1 IH1 B0 B1 Hx]; intros k Hin; cbn [leaves summaries] in *; unfold KEY_LEN_BITS in *.
  - rewrite Hp in Hin. exact Hin.
  - destruct (Z.eqb_spec (prefix_len m) 64); [lia|]. apply list_elem_of_further, elem_of_app. apply elem_of_app in Hin as [?|?]; auto.
Qed.

Lemma wf_summaries lo n : wf lo n -> forall p k, p <= lo -> Forall (fun x => agree p x k) (leaves n) -> Forall (fun x => agree p x k) (summaries n).
Proof.
  induction 1 as [lo m ctx Hm Hl Hp Hk | lo m ctx c0 c1 Hm Hl Hp Hk H0 IH0 H1 IH1 B0 B1 Hx]; intros p k Hpl Hall; cbn [leaves summaries] in *; unfold KEY_LEN_BITS in *.
  - rewrite Hp in Hall. exact Hall.
  - destruct (Z.eqb_spec (prefix_len m) 64); [lia|]. apply Forall_app in Hall as [A0 A1]. apply List.Forall_cons.
    + destruct (wf_leaves_ok _ _ H0) as [_ Hne]. destruct (leaves c0) as [|x l]; [done|]. inversion A0; subst. inversion B0 as [|? ? [Hb _]]; subst.
      eapply agree_trans; [apply agree_sym; eapply agree_le; [|exact Hb]; lia | done].
    + apply Forall_app. split; [apply IH0 | apply IH1]; try done; lia.
Qed.

Lemma below_summaries p k b n : 0 <= p -> wf (p + 1) n -> below p k b (leaves n) -> below p k b (summaries n).
Proof.
  intros Hp0 Hwf H. destruct (wf_leaves_ok _ _ Hwf) as [_ Hne]. destruct (leaves n) as [|x l] eqn:El; [done|].
  inversion H as [|? ? [Hx Hb] Hl]; subst. assert (Forall (fun y => agree (p + 1) y x) (leaves n)) as Hall.
  { rewrite El. apply List.Forall_cons; [by intros i|]. eapply Forall_impl; [|exact Hl]. intros y [Hy Hyb]. apply agree_succ; [|congruence].
    eapply agree_trans; [exact Hy | by apply agree_sym]. }
  pose proof (wf_summaries _ _ Hwf (p + 1) x ltac:(lia) Hall) as Hs. eapply Forall_impl; [|exact Hs]. intros y Hy. split.
  - eapply agree_trans; [eapply agree_le; [|exact Hy]; lia | done].
  - apply Hy. lia.
Qed.

Lemma memcmp_key a b : key_ok a -> key_ok b -> memcmp a b 0 KEY_LEN = if bool_decide (a = b) then 0 else -1.
Proof. intros [La _] [Lb _]. unfold memcmp, streq, KEY_LEN. change (Z.to_nat 8) with 8%nat. change (Z.to_nat 0) with 0%nat. cbn [skipn].
  by rewrite (firstn_all2 a), (firstn_all2 b) by lia. Qed.

Lemma same_key m k : 0 <= min_prefix_len m <= prefix_len m -> prefix_len m <= 64 -> key_ok (key m) -> key_ok k ->
  same_message m (message_from_key k) = bool_decide (key m = k).
Proof.
  intros Hm Hp Hkm Hk. unfold same_message, cmp_message, xor_begin, message_from_key, KEY_LEN_BITS. cbn [prefix_len min_prefix_len key Z.eqb Pos.eqb].
  rewrite memcmp_key by done.
  assert (Z.max (if prefix_len m =? 64 then min_prefix_len m else prefix_len m) 0 <= Z.min (prefix_len m) 64) as Hle by (destruct (Z.eqb_spec (prefix_len m) 64); lia).
  destruct (Z.ltb_spec (Z.min (prefix_len m) 64) (Z.max (if prefix_len m =? 64 then min_prefix_len m else prefix_len m) 0)); [lia|].
  by destruct (bool_decide _).
Qed.

Lemma find_loop_spec k fuel : key_ok k -> forall lo m ctx c0 c1 p, wf lo (Node m ctx c0 c1) -> 0 <= p <= prefix_len m -> 66 - p <= Z.of_nat fuel ->
  match find_loop fuel (Node m ctx c0 c1) p (message_from_key k) with
  | Null => k ∉ summaries (Node m ctx c0 c1)
  | Node m' _ _ _ => key m' = k /\ k ∈ summaries (Node m ctx c0 c1)
  end.
Proof.
  intros Hk. induction fuel as [|fuel IH]; intros lo m ctx c0 c1 p Hwf Hp Hfuel; destruct (wf_bounds _ _ _ _ _ Hwf) as (Hm & Hlo & H64 & Hkm); [lia|].
  cbn [find_loop]. rewrite same_key by (done || lia). case_bool_decide as Ek; [split; [done | rewrite <- Ek; by left]|].
  unfold KEY_LEN_BITS. inversion Hwf as [? ? ? _ _ Hp64 _ | ? ? ? ? ? _ _ Hp64 _ H0 H1 B0 B1 _]; subst.
  - rewrite Hp64. cbn. intros Hin. apply list_elem_of_singleton in Hin. done.
  - destruct (Z.eqb_spec (prefix_len m) 64); [lia|]. assert (0 <= prefix_len m) as Hp0 by lia. pose proof (below_summaries _ _ _ _ Hp0 H0 B0) as S0. pose proof (below_summaries _ _ _ _ Hp0 H1 B1) as S1.
    unfold below in S0, S1. rewrite List.Forall_forall in S0, S1.
    assert (k ∈ summaries (Node m ctx c0 c1) -> agree (prefix_len m) k (key m) /\ k ∈ summaries (if kbit k (prefix_len m) then c1 else c0)) as Hin.
    { cbn [summaries]. rewrite elem_of_cons, elem_of_app. intros [->|[Hl|Hr]]; [done| |].
      - destruct (S0 k ltac:(by apply list_elem_of_In)) as [A ->]. done.
      - destruct (S1 k ltac:(by apply list_elem_of_In)) as [A ->]. done. }
    change (key (message_from_key k)) with k. destruct (Z.ltb_spec p (prefix_len m)).
    + rewrite get_bit_eq by (done || lia). destruct (Bool.eqb (kbit (key m) p) (kbit k p)) eqn:Eb; cbn [negb].
      * unfold PREFIX_STEP_BITS. apply (IH _ m ctx c0 c1 (p + 1) Hwf); lia.
      * intros [A _]%Hin. rewrite (A p ltac:(lia)), eqb_reflx in Eb. done.
    + assert (p = prefix_len m) as -> by lia. rewrite get_bit by (done || lia). rewrite child_bit. unfold PREFIX_STEP_BITS.
      assert (wf (prefix_len m + 1) (if kbit k (prefix_len m) then c1 else c0)) as Wc by (by destruct (kbit k _)).
      assert (k ∈ summaries (if kbit k (prefix_len m) then c1 else c0) -> k ∈ summaries (Node m ctx c0 c1)) as Hback.
      { cbn [summaries]. rewrite elem_of_cons, elem_of_app. destruct (kbit k _); auto. }
      destruct (wf_node _ _ Wc) as (m' & ctx' & a & b & Ec). rewrite Ec in *.
      pose proof (IH _ m' ctx' a b (prefix_len m + 1) Wc ltac:(destruct (wf_bounds _ _ _ _ _ Wc); lia) ltac:(lia)) as HI.
      destruct (find_loop fuel (Node m' ctx' a b) (prefix_len m + 1) (message_from_key k)); tauto.
Qed.

Lemma find_key t k : wf_tree t -> key_ok k ->
  match find_message t (message_from_key k) with Null => k ∉ summaries t | Node m' _ _ _ => key m' = k /\ k ∈ summaries t end.
Proof.
  intros [->|Hwf] Hk; [apply not_elem_of_nil|]. destruct (wf_node _ _ Hwf) as (m & ctx & c0 & c1 & ->). unfold find_message.
  destruct (wf_bounds _ _ _ _ _ Hwf) as (_ & Hlo & H64 & _). apply (find_loop_spec k 66 Hk 0); [done | lia | lia].
Qed.

(** ** A set has one tree only *)

(** equal but for the contexts and the marks *)
Fixpoint same_tree (a b : node) : Prop :=
  match a, b with
  | Null, Null => True
  | Node m _ a0 a1, Node m' _ b0 b1 =>
      min_prefix_len m = min_prefix_len m' /\ prefix_len m = prefix_len m' /\ key m = key m' /\ same_tree a0 b0 /\ same_tree a1 b1
  | _, _ => False
  end.

Lemma filter_below p k b b' l : below p k b l -> List.filter (fun x => Bool.eqb (kbit x p) b') l = if Bool.eqb b b' then l else [].
Proof.
  induction 1 as [|x l [_ Hx] Hl IH]; cbn [List.filter]; [by destruct (Bool.eqb b b')|]. rewrite Hx, IH. by destruct (Bool.eqb b b').
Qed.
Lemma filter_perm {A} (f : A -> bool) l1 l2 : l1 ≡ₚ l2 -> List.filter f l1 ≡ₚ List.filter f l2.
Proof.
  induction 1 as [|x l1 l2 _ IH | x y l | l1 l2 l3 _ IH1 _ IH2]; cbn [List.filter]; [done | destruct (f x); by rewrite ?IH | | by etrans].
  destruct (f x), (f y); done || apply perm_swap.
Qed.

(** the two sides are the keys with the bit clear and those with the bit set *)
Lemma sides_perm p k k' a0 a1 b0 b1 : below p k false a0 -> below p k true a1 -> below p k' false b0 -> below p k' true b1 ->
  a0 ++ a1 ≡ₚ b0 ++ b1 -> a0 ≡ₚ b0 /\ a1 ≡ₚ b1.
Proof.
  intros A0 A1 B0 B1 HP. pose proof (filter_perm (fun x => Bool.eqb (kbit x p) false) _ _ HP) as F0.
  pose proof (filter_perm (fun x => Bool.eqb (kbit x p) true) _ _ HP) as F1. rewrite !List.filter_app in F0, F1.
  rewrite (filter_below _ _ _ _ _ A0), (filter_below _ _ _ _ _ A1), (filter_below _ _ _ _ _ B0), (filter_below _ _ _ _ _ B1) in F0.
  rewrite (filter_below _ _ _ _ _ A0), (filter_below _ _ _ _ _ A1), (filter_below _ _ _ _ _ B0), (filter_below _ _ _ _ _ B1) in F1.
  cbn in F0, F1. rewrite !app_nil_r in F0. done.
Qed.

(** two keys of the set that differ at the bit where a node branches *)
Lemma branches lo m ctx c0 c1 : wf lo (Node m ctx c0 c1) -> prefix_len m < 64 ->
  exists x y, x ∈ leaves (Node m ctx c0 c1) /\ y ∈ leaves (Node m ctx c0 c1) /\ kbit x (prefix_len m) = false /\ kbit y (prefix_len m) = true.
Proof.
  intros Hwf Hp. rewrite (leaves_inner _ _ _ _ _ Hwf Hp). inversion Hwf as [|? ? ? ? ? _ _ _ _ H0 H1 B0 B1 _]; subst; [lia|].
  destruct (wf_leaves_ok _ _ H0) as [_ N0], (wf_leaves_ok _ _ H1) as [_ N1].
  destruct (leaves c0) as [|x l0]; [done|]. destruct (leaves c1) as [|y l1]; [done|]. inversion B0 as [|? ? [_ Hx]]; inversion B1 as [|? ? [_ Hy]]; subst.
  exists x, y. split; [by left|]. split; [|done]. apply elem_of_app. right. by left.
Qed.

Lemma prefix_le lo m ctx c0 c1 lo' m' ctx' d0 d1 : wf lo (Node m ctx c0 c1) -> wf lo' (Node m' ctx' d0 d1) ->
  leaves (Node m ctx c0 c1) ≡ₚ leaves (Node m' ctx' d0 d1) -> prefix_len m < 64 -> prefix_len m' <= prefix_len m.
Proof.
  intros Hwf Hwf' HP Hp. destruct (branches _ _ _ _ _ Hwf Hp) as (x & y & Hx & Hy & Bx & By). rewrite HP in Hx, Hy.
  pose proof (wf_prefix _ _ _ _ _ Hwf') as Hpre. rewrite List.Forall_forall in Hpre. apply list_elem_of_In in Hx, Hy.
  destruct (Z.le_gt_cases (prefix_len m') (prefix_len m)) as [|Hgt]; [done|]. exfalso. destruct (wf_bounds _ _ _ _ _ Hwf) as (_ & Hlo & _).
  pose proof (Hpre x Hx (prefix_len m) ltac:(lia)). pose proof (Hpre y Hy (prefix_len m) ltac:(lia)). congruence.
Qed.

Lemma canonical lo a : wf lo a -> forall b, wf lo b -> leaves a ≡ₚ leaves b -> same_tree a b.
Proof.
  induction 1 as [lo m ctx Hm Hl Hp Hk | lo m ctx c0 c1 Hm Hl Hp Hk H0 IH0 H1 IH1 B0 B1 Hx]; intros b Hb HP;
    destruct (wf_node _ _ Hb) as (m' & ctx' & d0 & d1 & ->); destruct (wf_bounds _ _ _ _ _ Hb) as (Hm' & Hl' & Hp' & Hk').
  - pose proof (wf_leaf lo m ctx Hm Hl Hp Hk) as Ha. destruct (Z.eq_dec (prefix_len m') 64) as [E|E].
    + destruct (leaves_leaf _ _ _ _ _ Hb E) as (-> & -> & El). destruct (leaves_leaf _ _ _ _ _ Ha Hp) as (_ & _ & El'). rewrite El, El' in HP.
      apply Permutation_singleton_inj in HP. cbn [same_tree]. split; [congruence|]. split; [lia|]. done.
    + pose proof (prefix_le _ _ _ _ _ _ _ _ _ _ Hb Ha ltac:(by symmetry) ltac:(lia)). lia.
  - pose proof (wf_inner lo m ctx c0 c1 Hm Hl Hp Hk H0 H1 B0 B1 Hx) as Ha.
    assert (prefix_len m' = prefix_len m) as Ep.
    { pose proof (prefix_le _ _ _ _ _ _ _ _ _ _ Ha Hb HP Hp). pose proof (prefix_le _ _ _ _ _ _ _ _ _ _ Hb Ha ltac:(by symmetry) ltac:(lia)). lia. }
    pose proof (branches _ _ _ _ _ Ha Hp) as (x & _ & Hin & _).
    pose proof (wf_prefix _ _ _ _ _ Ha) as P. pose proof (wf_prefix _ _ _ _ _ Hb) as P'. rewrite List.Forall_forall in P, P'.
    pose proof (P x ltac:(by apply list_elem_of_In)) as Ax. rewrite HP in Hin. pose proof (P' x ltac:(by apply list_elem_of_In)) as Ax'.
    rewrite (leaves_inner _ _ _ _ _ Ha Hp), (leaves_inner _ _ _ _ _ Hb) in HP by lia.
    inversion Hb as [|? ? ? ? ? _ _ _ _ H0' H1' B0' B1' Hx']; subst; [lia|]. rewrite Ep in *.
    destruct (sides_perm _ _ _ _ _ _ _ B0 B1 B0' B1' HP) as [P0 P1]. cbn [same_tree].
    split; [done|]. split; [done|]. split; [|split; [by apply IH0 | by apply IH1]].
    apply key_ext; [done | done|]. intros i Hi. destruct (Z.lt_ge_cases i (prefix_len m)).
    + rewrite <- (Ax i), <- (Ax' i) by lia. done.
    + rewrite (Hx i), (Hx' i) by lia. by apply xor_bits_perm.
Qed.
