(* ===== verification/SyncProtocol.v ===== *)
(** sync_keys.cpp: the operations on the state, and what a message of a peer does. *)
From S2P Require Import Prelude CString SyncKeys SyncTree.
Local Open Scope Z_scope.
Local Open Scope succinct_scope.

(** ** Keys are in a tree once *)
Lemma wf_nodup lo n : wf lo n -> NoDup (leaves n).
Proof.
  induction 1 as [lo m ctx Hm Hl Hp Hk | lo m ctx c0 c1 Hm Hl Hp Hk H0 IH0 H1 IH1 B0 B1 Hx]; cbn [leaves]; unfold KEY_LEN_BITS.
  - rewrite Hp. apply NoDup_singleton.
  - destruct (Z.eqb_spec (prefix_len m) 64); [lia|]. apply list.NoDup_app. split; [done|]. split; [|done]. intros x X0 X1.
    unfold below in *. rewrite List.Forall_forall in B0, B1. apply list_elem_of_In in X0, X1. destruct (B0 x X0), (B1 x X1). congruence.
Qed.
Lemma tree_nodup t : wf_tree t -> NoDup (leaves t).
Proof. intros [->|H]; [apply NoDup_nil_2 | by eapply wf_nodup]. Qed.

Lemma same_tree_leaves a : forall b, same_tree a b -> leaves a = leaves b.
Proof.
  induction a as [|m ctx a0 IH0 a1 IH1]; intros [|m' ctx' b0 b1]; cbn [same_tree leaves]; try done.
  intros (_ & -> & -> & H0 & H1). by rewrite (IH0 _ H0), (IH1 _ H1).
Qed.
Lemma same_tree_wf lo a : wf lo a -> forall b, same_tree a b -> wf lo b.
Proof.
  induction 1 as [lo m ctx Hm Hl Hp Hk | lo m ctx c0 c1 Hm Hl Hp Hk H0 IH0 H1 IH1 B0 B1 Hx]; intros [|m' ctx' b0 b1]; cbn [same_tree]; try done.
  - intros (Em & Ep & Ek & S0 & S1). destruct b0, b1; try done. apply wf_leaf; congruence.
  - intros (Em & Ep & Ek & S0 & S1). pose proof (same_tree_leaves _ _ S0) as L0. pose proof (same_tree_leaves _ _ S1) as L1.
    rewrite Ep, Ek, L0, L1 in *. apply wf_inner; auto; congruence.
Qed.
Lemma same_tree_refl a : same_tree a a.
Proof. induction a; cbn [same_tree]; auto. Qed.

(** ** Adding a key that is found changes marks only *)
Lemma update_found_same fuel : forall n p message ctx, same_tree n (update_found fuel n p message ctx).
Proof.
  induction fuel as [|fuel IH]; intros [|m ctx' c0 c1] p message ctx; cbn [update_found]; try done; [apply same_tree_refl|].
  destruct (same_message m message); [cbn [same_tree set_stored min_prefix_len prefix_len key]; auto using same_tree_refl|].
  destruct (_ =? _); [apply same_tree_refl|]. destruct (_ <? _).
  - destruct (negb _); [apply same_tree_refl | apply IH].
  - unfold set_child, child. destruct (_ =? 0); cbn [same_tree]; auto 10 using same_tree_refl.
Qed.

(** ** Peers *)
Definition peer_ok (k : sync_key_t) (p : sync_peer_state) : Prop :=
  wf_tree (peer_root p) /\ (k ∈ summaries (peer_root p) -> k ∈ leaves (peer_root p)).
(** the same peer, without the key *)
Definition forgotten (k : sync_key_t) (p p' : sync_peer_state) : Prop :=
  peer_context p' = peer_context p /\ wf_tree (peer_root p') /\ forall x, x ∈ leaves (peer_root p') <-> x ∈ leaves (peer_root p) /\ x <> k.

Lemma tree_leaves_summaries t k : wf_tree t -> k ∈ leaves t -> k ∈ summaries t.
Proof. intros [->|H]; [done | by eapply leaves_summaries]. Qed.

Lemma forget_key_spec k l : key_ok k -> Forall (peer_ok k) l -> exists l', forget_key k l = Some l' /\ Forall2 (forgotten k) l l'.
Proof.
  intros Hk. induction 1 as [|p l [Hwf Hcol] Hl IH]; cbn [forget_key]; [by exists []|]. destruct IH as (l' & -> & HF).
  pose proof (find_key (peer_root p) k Hwf Hk) as Hfind. destruct (find_message _ _) as [|m ctx a b]; cbn [is_null].
  - eexists. split; [done|]. constructor; [|done]. split; [done|]. split; [done|]. intros x. split; [|tauto].
    intros Hx. split; [done|]. intros ->. by apply Hfind, tree_leaves_summaries.
  - destruct Hfind as [_ Hin]. destruct (remove_key_spec _ k Hwf Hk (Hcol Hin)) as (t' & -> & Hwf' & HP).
    eexists. split; [done|]. constructor; [|done]. split; [done|]. split; [done|]. intros x. cbn [with_peer_root peer_root].
    pose proof (tree_nodup _ Hwf) as HN. rewrite HP in *. apply list.NoDup_cons in HN as [Hnot _]. rewrite elem_of_cons. split; [|tauto].
    intros Hx. split; [by right|]. by intros ->.
Qed.

(** ** Marks *)
Fixpoint all_marked (n : node) : Prop :=
  match n with Null => True | Node m _ c0 c1 => stored m = true /\ all_marked c0 /\ all_marked c1 end.

Lemma xor_children_stored n : forall d, stored (xor_children n d) = stored d.
Proof. induction n as [|m ctx c0 IH0 c1 IH1]; intros d; cbn [xor_children]; [done|]. destruct (_ =? _); [done|]. by rewrite IH1, IH0. Qed.
Lemma set_child_marked c0 c1 i n : all_marked c0 -> all_marked c1 -> all_marked n ->
  all_marked (fst (set_child c0 c1 i n)) /\ all_marked (snd (set_child c0 c1 i n)).
Proof. unfold set_child. by destruct (_ =? _). Qed.
Lemma child_marked m ctx c0 c1 i : all_marked c0 -> all_marked c1 -> all_marked (child (Node m ctx c0 c1) i).
Proof. unfold child. by destruct (_ =? _). Qed.

Lemma add_key_marked k ctx fuel : forall n p lo, all_marked n -> all_marked (add_key_loop k ctx true fuel n p lo).
Proof.
  induction fuel as [|fuel IH]; intros [|m x c0 c1] p lo Hn; cbn [add_key_loop]; try done. destruct Hn as (Hm & H0 & H1).
  destruct (_ =? p).
  - destruct (set_child_marked c0 c1 (sync_get_bits p PREFIX_STEP_BITS k) _ H0 H1 (IH _ (p + PREFIX_STEP_BITS) (p + PREFIX_STEP_BITS) (child_marked m x c0 c1 (sync_get_bits p PREFIX_STEP_BITS k) H0 H1))) as [M0 M1].
    by destruct (set_child _ _ _ _).
  - destruct (_ =? _); [by apply IH|].
    destruct (set_child_marked Null Null (sync_get_bits p PREFIX_STEP_BITS (key m)) (Node (set_min (p + PREFIX_STEP_BITS) m) x c0 c1) I I ltac:(done)) as [M0 M1].
    destruct (set_child Null Null _ _) as [p0 p1]. apply IH. cbn [all_marked]. rewrite xor_children_stored. done.
Qed.
Lemma update_found_marked fuel : forall n p message ctx, all_marked n -> all_marked (update_found fuel n p message ctx).
Proof.
  induction fuel as [|fuel IH]; intros [|m x c0 c1] p message ctx Hn; cbn [update_found]; try done.
  destruct (same_message m message); [by destruct Hn|]. destruct (_ =? _); [done|]. destruct (_ <? _); [destruct (negb _); [done | by apply IH]|].
  destruct Hn as (Hm & H0 & H1). set (i := sync_get_bits p PREFIX_STEP_BITS (key message)).
  destruct (set_child_marked c0 c1 i _ H0 H1 (IH _ (p + PREFIX_STEP_BITS) message ctx (child_marked m x c0 c1 i H0 H1))) as [M0 M1].
  by destruct (set_child _ _ _ _).
Qed.

(** ** The set that a state holds *)
Lemma add_key_state s k ctx : wf_tree (root s) -> key_ok k -> k ∉ summaries (root s) -> Forall (peer_ok k) (peers s) ->
  exists s', sync_add_key s k ctx = Some s' /\ wf_tree (root s') /\ leaves (root s') ≡ₚ k :: leaves (root s) /\
    key_count s' = u32 (key_count s + 1) /\ Forall2 (forgotten k) (peers s) (peers s') /\ (all_marked (root s) -> all_marked (root s')).
Proof.
  intros Hwf Hk Hnot Hpeers. unfold sync_add_key. pose proof (find_key (root s) k Hwf Hk) as Hfind.
  destruct (find_message (root s) (message_from_key k)) as [|m c a b]; [|tauto].
  destruct (forget_key_spec k (peers s) Hk Hpeers) as (l' & Hl & HF). cbn [set_root set_counts peers]. rewrite Hl.
  destruct (add_key_spec k ctx true Hk (root s) Hwf) as [W L]; [intros Hin; by apply Hnot, tree_leaves_summaries|].
  eexists. split; [done|]. cbn [set_peers set_root set_counts root key_count peers]. split; [done|]. split; [done|]. split; [done|]. split; [done|].
  apply add_key_marked.
Qed.
Lemma add_key_found s k ctx : wf_tree (root s) -> key_ok k -> k ∈ summaries (root s) ->
  exists s', sync_add_key s k ctx = Some s' /\ same_tree (root s) (root s') /\ peers s' = peers s /\ key_count s' = key_count s /\
    (all_marked (root s) -> all_marked (root s')).
Proof.
  intros Hwf Hk Hin. unfold sync_add_key. pose proof (find_key (root s) k Hwf Hk) as Hfind.
  destruct (find_message (root s) (message_from_key k)) as [|m c a b]; [done|].
  eexists. split; [reflexivity|]. split; [apply update_found_same|]. split; [reflexivity|]. split; [reflexivity|]. apply update_found_marked.
Qed.

(** ** Messages as bytes *)
Lemma header_byte (st : bool) n : 0 <= n < 128 ->
  let b := Z.lor (if st then 0x80 else 0) (Z.land n 0x7f) in Z.land b 0x7f = n /\ nz (Z.land b 0x80) = st.
Proof.
  intros Hn. pose proof (byte_cases (fun n => (128 <=? n) ||
    ((Z.land (Z.lor 128 (Z.land n 127)) 127 =? n) && nz (Z.land (Z.lor 128 (Z.land n 127)) 128) &&
     (Z.land (Z.lor 0 (Z.land n 127)) 127 =? n) && negb (nz (Z.land (Z.lor 0 (Z.land n 127)) 128))))
    ltac:(vm_compute; reflexivity) n ltac:(lia)) as H. cbv beta in H. apply orb_true_iff in H as [H|H]; b2p; [lia|].
  by destruct st.
Qed.

Lemma parse_message_bytes m rest : 0 <= min_prefix_len m < 128 -> key_ok (key m) -> parse_message (message_bytes m ++ rest) = m.
Proof.
  intros Hm [Hlen _]. destruct m as [n st p k]. cbn [min_prefix_len key] in *. unfold parse_message, message_bytes. cbn [min_prefix_len stored prefix_len key app].
  rewrite !rd_nth by lia. change (Z.to_nat 0) with 0%nat. change (Z.to_nat 1) with 1%nat. cbn [nth skipn]. destruct (header_byte st n Hm) as [-> ->].
  change (drop 0 (k ++ rest)) with (k ++ rest). f_equal. by rewrite firstn_app, Hlen, Nat.sub_diag, firstn_O, app_nil_r, <- Hlen, firstn_all.
Qed.

(** ** Keys that a peer has received *)

(** the marked keys below a node, which were sent to the peer *)
Fixpoint sent_keys (n : node) : list sync_key_t :=
  match n with
  | Null => []
  | Node m _ c0 c1 => if prefix_len m =? KEY_LEN_BITS then if stored m then [key m] else [] else sent_keys c0 ++ sent_keys c1
  end.
Lemma sent_leaves n k : k ∈ sent_keys n -> k ∈ leaves n.
Proof.
  induction n as [|m ctx c0 IH0 c1 IH1]; cbn [sent_keys leaves]; [done|]. destruct (_ =? _).
  - destruct (stored m); [done|]. by intros ?%not_elem_of_nil.
  - rewrite !elem_of_app. tauto.
Qed.

Definition is_now_has (e : event) : Prop := match e with NowHas _ _ _ => True | _ => False end.
(** the state stays, and the only calls are those of now_has *)
Record quiet (w w' : world) : Prop := {
  q_state : w_state w' = w_state w;
  q_log : exists events, w_log w' = w_log w ++ events /\ Forall is_now_has events
}.
Lemma quiet_refl w : quiet w w.
Proof. split; [done|]. exists []. by rewrite app_nil_r. Qed.
Lemma quiet_trans w1 w2 w3 : quiet w1 w2 -> quiet w2 w3 -> quiet w1 w3.
Proof.
  intros [S1 (e1 & L1 & F1)] [S2 (e2 & L2 & F2)]. split; [congruence|]. exists (e1 ++ e2). rewrite L2, L1, app_assoc. split; [done|]. by apply Forall_app.
Qed.

Lemma received_all_spec lo n : wf lo n -> forall w, wf_tree (peer_root (w_peer w)) ->
  (forall k, k ∈ leaves n -> k ∈ leaves (peer_root (w_peer w))) ->
  exists w', peer_has_received_all n w = Some (Z.of_nat (length (sent_keys n)), w') /\ quiet w w' /\
    wf_tree (peer_root (w_peer w')) /\ leaves (peer_root (w_peer w)) ≡ₚ sent_keys n ++ leaves (peer_root (w_peer w')).
Proof.
  induction 1 as [lo m ctx Hm Hl Hp Hk | lo m ctx c0 c1 Hm Hl Hp Hk H0 IH0 H1 IH1 B0 B1 Hx]; intros w Hwf Hsub;
    cbn [peer_has_received_all sent_keys leaves] in *; unfold KEY_LEN_BITS in *.
  - rewrite Hp in *. change (64 =? 64) with true in *. cbv iota in *. destruct (stored m); [|exists w; repeat split; try done; by apply quiet_refl].
    unfold sbind, notify, peer_remove, sret.
    destruct (remove_key_spec (peer_root (w_peer w)) (key m) Hwf Hk ltac:(apply Hsub; by left)) as (t & Ht & Hwt & HP).
    destruct (now_has_callback (w_state w)); cbn [w_peer w_state w_log]; rewrite Ht; eexists; (split; [reflexivity|]); (split; [|split; [exact Hwt | exact HP]]);
      (split; [done|]); cbn [w_log]; [eexists; split; [done|]; by apply Forall_singleton | exists []; by rewrite app_nil_r].
  - destruct (Z.eqb_spec (prefix_len m) 64); [lia|]. unfold sbind.
    destruct (IH0 w Hwf ltac:(intros k Hin; apply Hsub, elem_of_app; by left)) as (w1 & -> & Q1 & W1 & P1).
    destruct (IH1 w1 W1) as (w2 & -> & Q2 & W2 & P2).
    { intros k Hin. pose proof (Hsub k ltac:(apply elem_of_app; by right)) as Hk'. rewrite P1 in Hk'. apply elem_of_app in Hk' as [Hs|]; [|done].
      exfalso. apply sent_leaves in Hs. unfold below in *. rewrite List.Forall_forall in B0, B1. apply list_elem_of_In in Hs, Hin.
      destruct (B0 k Hs), (B1 k Hin). congruence. }
    exists w2. unfold sret. rewrite length_app, Nat2Z.inj_add. split; [done|]. split; [by eapply quiet_trans|]. split; [done|].
    by rewrite P1, P2, app_assoc.
Qed.

Lemma child_leaf m ctx i : child (Node m ctx Null Null) i = Null.
Proof. unfold child. by destruct (_ =? _). Qed.

(** ** What a message is compared with is a part of the tree of the peer *)
Lemma differing_node_part message fuel : forall lo m ctx c0 c1 p, wf lo (Node m ctx c0 c1) ->
  match differing_node fuel (Node m ctx c0 c1) p message with
  | Null => True
  | Node _ _ _ _ as n => (exists lo', wf lo' n) /\ forall k, k ∈ leaves n -> k ∈ leaves (Node m ctx c0 c1)
  end.
Proof.
  induction fuel as [|fuel IH]; intros lo m ctx c0 c1 p Hwf; [done|]. cbn [differing_node].
  destruct (negb _); [by split; [exists lo|]|]. destruct (_ && _); [by split; [exists lo|]|]. unfold KEY_LEN_BITS.
  destruct (Z.eqb_spec (prefix_len m) 64) as [E|E]; cbn [andb].
  - destruct (prefix_len message =? 64); [done|]. destruct (leaves_leaf _ _ _ _ _ Hwf E) as (-> & -> & _). destruct (_ <? _).
    + destruct (negb _); [done | by apply (IH lo)].
    + rewrite child_leaf. by destruct fuel.
  - destruct (_ <? _); [destruct (negb _); [done | by apply (IH lo)]|].
    inversion Hwf as [|? ? ? ? ? _ _ Hp64 _ H0 H1 _ _ _]; subst; [done|].
    destruct (wf_node _ _ H0) as (m0 & x0 & a0 & b0 & E0), (wf_node _ _ H1) as (m1 & x1 & a1 & b1 & E1).
    rewrite (leaves_inner _ _ _ _ _ Hwf Hp64). unfold child. destruct (_ =? 0).
    + rewrite E0 in *. pose proof (IH _ _ _ _ _ (p + PREFIX_STEP_BITS) H0) as HI. destruct (differing_node _ _ _ _); [done|].
      destruct HI as [HW HL]. split; [done|]. intros k Hk. apply elem_of_app. left. by apply HL.
    + rewrite E1 in *. pose proof (IH _ _ _ _ _ (p + PREFIX_STEP_BITS) H1) as HI. destruct (differing_node _ _ _ _); [done|].
      destruct HI as [HW HL]. split; [done|]. intros k Hk. apply elem_of_app. right. by apply HL.
Qed.

(** the part is NULL, or a well-formed tree of keys of the peer *)
Definition part_of (n t : node) : Prop := n = Null \/ (exists lo, wf lo n) /\ forall k, k ∈ leaves n -> k ∈ leaves t.

Lemma remove_differences_part t message : wf_tree t -> part_of (fst (remove_differences t message)) t.
Proof.
  intros Hwf. unfold remove_differences. destruct (is_null t || negb (stored message)) eqn:En; [by left|].
  destruct t as [|m ctx c0 c1]; [done|]. destruct Hwf as [|Hwf]; [done|].
  pose proof (differing_node_part message 66 0 m ctx c0 c1 0 Hwf) as HD. destruct (differing_node _ _ _ _) as [|m' ctx' a b]; [by left|].
  clear En. cbv zeta in HD. destruct (_ <? _); [destruct (_ || _)|]; (right; exact HD).
Qed.

Lemma received_part n w : wf_tree (peer_root (w_peer w)) -> part_of n (peer_root (w_peer w)) ->
  exists r w', peer_has_received_all n w = Some (r, w') /\ quiet w w' /\ wf_tree (peer_root (w_peer w')).
Proof.
  intros Hwf [->|[[lo Hn] Hsub]]; [by exists 0, w; split; [done|]; split; [apply quiet_refl|]|].
  destruct (received_all_spec lo n Hn w Hwf Hsub) as (w' & H & Q & W & _). eauto.
Qed.

(** ** The root of the same set *)
Lemma same_message_refl m m' : min_prefix_len m = min_prefix_len m' -> prefix_len m = prefix_len m' -> key m = key m' ->
  min_prefix_len m <= prefix_len m -> same_message m m' = true.
Proof.
  intros Em Ep Ek Hm. unfold same_message, cmp_message, xor_begin. rewrite <- Em, <- Ep, <- Ek. rewrite Z.min_id, Z.max_id.
  destruct (Z.ltb_spec (prefix_len m) (if prefix_len m =? KEY_LEN_BITS then min_prefix_len m else prefix_len m)).
  - destruct (_ =? KEY_LEN_BITS); lia.
  - unfold memcmp, streq. by rewrite bool_decide_true.
Qed.

Lemma recv_same_root t ours w : wf_tree t -> all_marked t -> wf_tree ours -> root (w_state w) = ours -> same_tree t ours ->
  wf_tree (peer_root (w_peer w)) -> forall n, MESSAGE_BYTES <= n ->
  exists w', recv_key (parse_message (sync_root_msg t n)) w = Some (0, w') /\ root (w_state w') = ours /\
    exists events, w_log w' = w_log w ++ events /\ Forall is_now_has events.
Proof.
  intros Ht Hmark Hours Hroot Hsame Hpeer n Hn. unfold sync_root_msg. destruct (Z.ltb_spec n MESSAGE_BYTES); [lia|].
  destruct t as [|m ctx c0 c1], ours as [|m' ctx' d0 d1]; try done.
  - exists (World (count_record (w_state w)) (w_peer w) (w_log w)). split; [|split; [exact Hroot | exists []; by rewrite app_nil_r]].
    change (parse_message _) with (Message 0 true 65 (repeat 0 8)). unfold recv_key. cbn [min_prefix_len prefix_len]. change ((0 >? 65) || _) with false. cbv iota.
    unfold sbind at 1 2. unfold on_state, get. cbn [w_state]. change (root (count_record (w_state w))) with (root (w_state w)). by rewrite Hroot.
  - destruct Ht as [|Ht]; [done|]. destruct (wf_bounds _ _ _ _ _ Ht) as (Hmin & Hlo & H64 & Hk). destruct Hsame as (Em & Ep & Ek & _).
    destruct Hmark as (Hst & _). rewrite <- (app_nil_r (message_bytes m)), parse_message_bytes by (done || lia).
    unfold recv_key. unfold KEY_LEN_BITS. destruct (Z.gtb_spec (min_prefix_len m) (prefix_len m)); [lia|]. destruct (Z.gtb_spec (prefix_len m) (64 + 1)); [lia|]. cbn [orb].
    unfold sbind at 1 2. unfold on_state, get. cbn [w_state w_peer w_log]. change (root (count_record (w_state w))) with (root (w_state w)). rewrite Hroot.
    destruct (Z.eqb_spec (prefix_len m) (64 + 1)); [lia|]. unfold sbind at 1. cbn [w_peer]. set (w1 := World (count_record (w_state w)) (w_peer w) (w_log w)).
    pose proof (remove_differences_part (peer_root (w_peer w)) m Hpeer) as Hpart.
    destruct (remove_differences (peer_root (w_peer w)) m) as [peer_node peer_message]. cbn [fst] in Hpart.
    destruct (received_part peer_node w1 Hpeer Hpart) as (r & w2 & Hr & [Qs Ql] & Hw2).
    unfold sbind at 1. change 132%nat with (S 131). generalize 131%nat. intros fuel. cbn [recv_loop]. rewrite (same_message_refl m m') by (done || lia). rewrite Hst. unfold sbind. rewrite Hr.
    destruct (r =? 0); eexists; (split; [reflexivity|]); cbn [w_state w_log]; (split; [|exact Ql]); [change (root (w_state w2) = Node m' ctx' d0 d1)|]; rewrite Qs; exact Hroot.
Qed.

Lemma length_root_msg t n : wf_tree t -> MESSAGE_BYTES <= n -> length (sync_root_msg t n) = 10%nat.
Proof.
  intros Ht Hn. unfold sync_root_msg. destruct (Z.ltb_spec n MESSAGE_BYTES); [lia|]. destruct t as [|m ctx c0 c1]; [done|].
  destruct Ht as [|Ht]; [done|]. destruct (wf_bounds _ _ _ _ _ Ht) as (_ & _ & _ & [Hl _]). cbn [message_bytes length]. by rewrite Hl.
Qed.

Lemma same_tree_ok a b : wf_tree a -> same_tree a b -> wf_tree b.
Proof. intros [->|H] Hs; [destruct b; [by left | done] | right; by eapply same_tree_wf]. Qed.

Lemma sync_key_exists_iff t k : wf_tree t -> key_ok k -> sync_key_exists t k = 1 <-> k ∈ summaries t.
Proof.
  intros Hwf Hk. unfold sync_key_exists. pose proof (find_key t k Hwf Hk) as Hf. destruct (find_message _ _); cbn [is_null]; [by split|]. tauto.
Qed.

(** ** Properties *)

(** the own tree holds a set, with all keys marked, and no key of it is mistaken *)
Definition own_ok (s : sync_state) : Prop := wf_tree (root s) /\ all_marked (root s).

Lemma add_key_result s k context : own_ok s -> key_ok k -> (k ∈ summaries (root s) -> k ∈ leaves (root s)) -> Forall (peer_ok k) (peers s) ->
  exists s', sync_add_key s k context = Some s' /\ own_ok s' /\
    (forall x, x ∈ leaves (root s') <-> x = k \/ x ∈ leaves (root s)) /\
    (k ∈ leaves (root s) /\ peers s' = peers s /\ key_count s' = key_count s \/
     (k ∉ leaves (root s)) /\ Forall2 (forgotten k) (peers s) (peers s') /\ key_count s' = u32 (key_count s + 1)).
Proof.
  intros [Hwf Hmark] Hk Hcol Hpeers. destruct (decide (k ∈ leaves (root s))) as [Hin|Hnot].
  - destruct (add_key_found s k context Hwf Hk (tree_leaves_summaries _ _ Hwf Hin)) as (s' & Hs & Hsame & Hp & Hc & Hm). exists s'. split; [done|].
    split; [split; [by eapply same_tree_ok | auto]|]. split; [|by left]. intros x. rewrite <- (same_tree_leaves _ _ Hsame). split; [by right|]. by intros [->|].
  - destruct (add_key_state s k context Hwf Hk ltac:(auto) Hpeers) as (s' & Hs & Hw & HP & Hc & HF & Hm). exists s'. split; [done|].
    split; [split; auto|]. split; [|by right]. intros x. by rewrite HP, elem_of_cons.
Qed.

(** C6: sync_add_key adds one key to the set that the tree of the state stands for,
    however often it is called, and takes the key out of the sets of what the peers
    are known to have or need when it is new; the trees stay well-formed.  It holds
    for keys that are not the exclusive or of other keys below a node. *)
Theorem sync_add_key_set s k context : own_ok s -> key_ok k -> (k ∈ summaries (root s) -> k ∈ leaves (root s)) -> Forall (peer_ok k) (peers s) ->
  exists s', sync_add_key s k context = Some s' /\ own_ok s' /\
    (forall x, x ∈ leaves (root s') <-> x = k \/ x ∈ leaves (root s)) /\
    (k ∈ leaves (root s) /\ peers s' = peers s /\ key_count s' = key_count s \/
     (k ∉ leaves (root s)) /\ Forall2 (forgotten k) (peers s) (peers s') /\ key_count s' = u32 (key_count s + 1)).
Proof. apply add_key_result. Qed.

(** sync_key_exists says yes for the keys of the set, and for nothing else but
    the exclusive ors that the inner nodes of the tree carry. *)
Theorem sync_key_exists_spec t k : wf_tree t -> key_ok k -> sync_key_exists t k = 1 <-> k ∈ summaries t.
Proof. apply sync_key_exists_iff. Qed.

(** C27: A new key that is the exclusive or an inner node carries is lost:
    sync_add_key takes the node for the key, and the set stays as it was, although
    sync_key_exists says that the key is in it. *)
Theorem sync_add_key_collision s k context : wf_tree (root s) -> key_ok k -> k ∈ summaries (root s) -> k ∉ leaves (root s) ->
  exists s', sync_add_key s k context = Some s' /\ leaves (root s') = leaves (root s) /\ key_count s' = key_count s /\
    sync_key_exists (root s') k = 1 /\ k ∉ leaves (root s').
Proof.
  intros Hwf Hk Hin Hnot. destruct (add_key_found s k context Hwf Hk Hin) as (s' & Hs & Hsame & _ & Hc & _). exists s'.
  pose proof (same_tree_leaves _ _ Hsame) as HL. split; [done|]. rewrite <- HL. split; [done|]. split; [done|]. split; [|done].
  apply sync_key_exists_iff; [by eapply same_tree_ok | done|]. clear - Hsame Hin. revert Hsame Hin. generalize (root s) (root s').
  intros a. induction a as [|m x a0 IH0 a1 IH1]; intros [|m' x' b0 b1]; cbn [same_tree summaries]; try done.
  intros (_ & _ & -> & H0 & H1). rewrite !elem_of_cons, !elem_of_app. intros [->|[H|H]]; [by left | right; left; by eapply IH0 | right; right; by eapply IH1].
Qed.

(** a packet of one record *)
Lemma recv_one_record buff w r w' : length buff = 10%nat -> recv_key (parse_message buff) w = Some (r, w') ->
  sync_recv_message buff w = Some (if r =? -1 then -1 else 0, w').
Proof.
  intros Hlen Hr. unfold sync_recv_message. rewrite Hlen. change (nz (Z.of_nat 10 mod MESSAGE_BYTES)) with false. cbv iota.
  change (S 10) with (S (S 9)). cbn [recv_records]. rewrite Hlen. change (Z.of_nat 10 <? MESSAGE_BYTES) with false. cbv iota.
  rewrite firstn_all2 by (rewrite Hlen; lia). unfold sbind. rewrite Hr, skipn_all2 by (rewrite Hlen; lia). by destruct (r =? -1).
Qed.

(** trees with the same set of keys *)
Lemma same_set_tree t t' : wf_tree t -> wf_tree t' -> leaves t ≡ₚ leaves t' -> same_tree t t'.
Proof.
  intros [->|Ht] [->|Ht'] HP; [done | | | by apply (canonical 0)].
  - exfalso. destruct (wf_leaves_ok _ _ Ht') as [_ Hne]. apply Hne. symmetry in HP. by apply Permutation_nil_r in HP.
  - exfalso. destruct (wf_leaves_ok _ _ Ht) as [_ Hne]. apply Hne. by apply Permutation_nil_r in HP.
Qed.
Lemma same_set_root_msg t t' n : wf_tree t -> all_marked t -> wf_tree t' -> all_marked t' -> leaves t ≡ₚ leaves t' -> sync_root_msg t n = sync_root_msg t' n.
Proof.
  intros Ht Hmark Ht' Hmark' HP. pose proof (same_set_tree _ _ Ht Ht' HP) as Hsame. unfold sync_root_msg. destruct (n <? MESSAGE_BYTES); [done|].
  destruct t as [|m x c0 c1], t' as [|m' x' d0 d1]; try done.
  destruct Hsame as (Em & Ep & Ek & _), Hmark as [Hs _], Hmark' as [Hs' _]. unfold message_bytes. by rewrite Em, Ep, Ek, Hs, Hs'.
Qed.

(** C5: The root of the tree is a fingerprint of the set: two states with the same
    set of keys send the same root message, in whatever order the keys were added;
    and who receives the root message of a peer that has the same set sends
    nothing, and only notes which of the keys have arrived. *)
Theorem sync_same_set_quiet t w n : wf_tree t -> all_marked t -> own_ok (w_state w) -> leaves t ≡ₚ leaves (root (w_state w)) ->
  wf_tree (peer_root (w_peer w)) -> MESSAGE_BYTES <= n ->
  sync_root_msg t n = sync_root_msg (root (w_state w)) n /\
  exists w', sync_recv_message (sync_root_msg t n) w = Some (0, w') /\ root (w_state w') = root (w_state w) /\
    exists events, w_log w' = w_log w ++ events /\ Forall is_now_has events.
Proof.
  intros Ht Hmark [Hours Hmark'] HP Hpeer Hn. split; [by apply same_set_root_msg|].
  pose proof (same_set_tree _ _ Ht Hours HP) as Hsame.
  destruct (recv_same_root t _ w Ht Hmark Hours eq_refl Hsame Hpeer n Hn) as (w' & Hr & Hroot & Hlog). exists w'.
  split; [exact (recv_one_record _ w 0 w' (length_root_msg t n Ht Hn) Hr)|]. by split.
Qed.

(** ** Evaluated *)
Definition key_of (n : Z) : sync_key_t := [0; 0; 0; 0; 0; 0; n / 256; n mod 256].
Definition sample_state : sync_state := sync_alloc_peer_state (sync_alloc_state true true true true) 7.
Definition add_all (s : sync_state) (l : list Z) : sync_state :=
  fold_left (fun s n => match sync_add_key s (key_of n) n with Some s => s | None => s end) l s.

(** the second order gives the same root, and the peers agree *)
Example root_order : sync_root_msg (root (add_all sample_state [1; 2; 900; 77])) 10 = sync_root_msg (root (add_all sample_state [900; 2; 77; 1])) 10.
Proof. vm_compute. reflexivity. Qed.
Example lost_key : sync_enum_differences (add_all sample_state [1; 2; 3]) = [] /\ leaves (root (add_all sample_state [1; 2; 3])) = [key_of 1; key_of 2].
Proof. vm_compute. split; reflexivity. Qed.

(** two states that exchange what they have to say until nothing is left to say *)
Definition deliver (s : sync_state) (l : list event) : sync_state * list event :=
  let bytes := flat_map (fun e => match e with QueueMessage _ b => b | _ => [] end) l in
  match sync_recv_from s 0 bytes with
  | Some (_, s, l) => (s, l)
  | None => (s, [])
  end.
Fixpoint converse (fuel : nat) (a b : sync_state) (l : list event) : sync_state * sync_state :=
  match fuel with O => (a, b) | S fuel => let '(b, l) := deliver b l in converse fuel b a l end.
Definition known_differences (s : sync_state) : list (sync_key_t * bool) := map snd (sync_enum_differences s).

(** each sends its root to the other one, and both answer until there is nothing to answer *)
Fixpoint rounds (n : nat) (a b : sync_state) : sync_state * sync_state :=
  match n with
  | O => (a, b)
  | S n =>
      let '(a, b) := converse 8 a b [QueueMessage 7 (sync_root_msg (root a) 10)] in
      let '(b, a) := converse 8 b a [QueueMessage 7 (sync_root_msg (root b) 10)] in rounds n a b
  end.
(** keys whose bits are spread like those of hashes *)
Definition spread (n : Z) : sync_key_t := map (fun i => (n * (2 * i + 37) * 73 + i * 11 + n * n * 5) mod 256) [1; 2; 3; 4; 5; 6; 7; 8].
Definition add_keys (s : sync_state) (l : list sync_key_t) : sync_state :=
  fold_left (fun s k => match sync_add_key s k 0 with Some s => s | None => s end) l s.

(** after one round each knows exactly what it has sent ([true]) and what it lacks *)
Example conversation :
  let '(a, b) := rounds 1 (add_keys sample_state (map spread [1; 2; 9; 14])) (add_keys sample_state (map spread [2; 7; 50; 14])) in
  (known_differences a, known_differences b) =
  ([(spread 1, true); (spread 9, true); (spread 7, false); (spread 50, false)],
   [(spread 1, false); (spread 9, false); (spread 7, true); (spread 50, true)]).
Proof. vm_compute. reflexivity. Qed.

(** keys with long common prefixes can be taken for others that are alike outside of
    the middle, which is not compared: 1, 900 and 77 are never sent *)
Example conversation_stalls :
  let '(a, b) := rounds 5 (add_all sample_state [1; 2; 900]) (add_all sample_state [2; 77; 5000]) in
  (known_differences a, known_differences b) = ([(key_of 5000, false)], [(key_of 5000, true)]).
Proof. vm_compute. reflexivity. Qed.

Lemma key_of_ok n : 0 <= n < 65536 -> key_ok (key_of n).
Proof. intros Hn. split; [done|]. repeat (apply List.Forall_cons; [divmod|]). apply List.Forall_nil. Qed.
Lemma add_all_ok : own_ok (add_all sample_state [1; 2]) /\ leaves (root (add_all sample_state [1; 2])) = [key_of 1; key_of 2].
Proof.
  split; [|vm_compute; reflexivity]. split; [|vm_compute; auto].
  assert (root (add_all sample_state [1; 2]) = add_key (key_of 2) 2 true (add_key (key_of 1) 1 true Null)) as -> by (vm_compute; reflexivity).
  destruct (add_key_spec (key_of 1) 1 true (key_of_ok 1 ltac:(lia)) Null ltac:(by left) ltac:(apply not_elem_of_nil)) as [W L].
  apply (add_key_spec (key_of 2) 2 true (key_of_ok 2 ltac:(lia)) _ W). rewrite L. intros Hin%list_elem_of_singleton. discriminate Hin.
Qed.
Lemma sample_peer_ok k : Forall (peer_ok k) (peers (add_all sample_state [1; 2])).
Proof.
  assert (peers (add_all sample_state [1; 2]) = [Peer 7 0 0 Null]) as -> by (vm_compute; reflexivity).
  apply List.Forall_cons; [|apply List.Forall_nil]. split; [by left | by intros ?%not_elem_of_nil].
Qed.

Lemma sync_add_key_set_witness :
  exists s', sync_add_key (add_all sample_state [1; 2]) (key_of 900) 900 = Some s' /\ own_ok s' /\
    (forall x, x ∈ leaves (root s') <-> x = key_of 900 \/ x ∈ leaves (root (add_all sample_state [1; 2]))) /\
    (key_of 900 ∈ leaves (root (add_all sample_state [1; 2])) /\ peers s' = peers (add_all sample_state [1; 2]) /\ key_count s' = key_count (add_all sample_state [1; 2]) \/
     (key_of 900 ∉ leaves (root (add_all sample_state [1; 2]))) /\ Forall2 (forgotten (key_of 900)) (peers (add_all sample_state [1; 2])) (peers s') /\
     key_count s' = u32 (key_count (add_all sample_state [1; 2]) + 1)).
Proof.
  apply (sync_add_key_set (add_all sample_state [1; 2]) (key_of 900) 900 (proj1 add_all_ok) (key_of_ok 900 ltac:(lia))); [|apply sample_peer_ok].
  intros H. exfalso. revert H. assert (existsb (streq (key_of 900)) (summaries (root (add_all sample_state [1; 2]))) = false) as Hb by (vm_compute; reflexivity).
  intros H. rewrite <- not_true_iff_false in Hb. apply Hb, existsb_exists. exists (key_of 900). split; [by apply list_elem_of_In | by apply bool_decide_true].
Defined.

Lemma sync_key_exists_spec_witness : sync_key_exists (root (add_all sample_state [1; 2])) (key_of 3) = 1 <-> key_of 3 ∈ summaries (root (add_all sample_state [1; 2])).
Proof. apply (sync_key_exists_spec (root (add_all sample_state [1; 2])) (key_of 3) (proj1 (proj1 add_all_ok)) (key_of_ok 3 ltac:(lia))). Defined.

Lemma sync_add_key_collision_witness :
  exists s', sync_add_key (add_all sample_state [1; 2]) (key_of 3) 3 = Some s' /\ leaves (root s') = leaves (root (add_all sample_state [1; 2])) /\
    key_count s' = key_count (add_all sample_state [1; 2]) /\ sync_key_exists (root s') (key_of 3) = 1 /\ key_of 3 ∉ leaves (root s').
Proof.
  apply (sync_add_key_collision (add_all sample_state [1; 2]) (key_of 3) 3 (proj1 (proj1 add_all_ok)) (key_of_ok 3 ltac:(lia))).
  - assert (summaries (root (add_all sample_state [1; 2])) = [key_of 3; key_of 1; key_of 2]) as -> by (vm_compute; reflexivity). by left.
  - rewrite (proj2 add_all_ok). intros H. apply elem_of_cons in H as [H|H]; [discriminate H|]. apply list_elem_of_singleton in H. discriminate H.
Defined.

Lemma sync_same_set_quiet_witness :
  let s := add_all sample_state [1; 2] in
  let t := root (add_all sample_state [2; 1]) in
  sync_root_msg t 10 = sync_root_msg (root s) 10 /\
  exists w', sync_recv_message (sync_root_msg t 10) (World s (Peer 7 0 0 Null) []) = Some (0, w') /\ root (w_state w') = root s /\
    exists events, w_log w' = [] ++ events /\ Forall is_now_has events.
Proof.
  cbv zeta. apply (sync_same_set_quiet (root (add_all sample_state [2; 1])) (World (add_all sample_state [1; 2]) (Peer 7 0 0 Null) []) 10).
  - assert (root (add_all sample_state [2; 1]) = add_key (key_of 1) 1 true (add_key (key_of 2) 2 true Null)) as -> by (vm_compute; reflexivity).
    destruct (add_key_spec (key_of 2) 2 true (key_of_ok 2 ltac:(lia)) Null ltac:(by left) ltac:(apply not_elem_of_nil)) as [W L].
    apply (add_key_spec (key_of 1) 1 true (key_of_ok 1 ltac:(lia)) _ W). rewrite L. intros Hin%list_elem_of_singleton. discriminate Hin.
  - vm_compute. auto.
  - exact (proj1 add_all_ok).
  - change (w_state (World (add_all sample_state [1; 2]) (Peer 7 0 0 Null) [])) with (add_all sample_state [1; 2]). rewrite (proj2 add_all_ok). vm_compute. apply Permutation_refl.
  - by left.
  - reflexivity || discriminate.
Defined.
