(* ===== verification/SyncSafety.v ===== *)
(** sync_keys.cpp: any record of any peer is handled without a null pointer, an
    index past the children of a node, or a loop without end. *)
From S2P Require Import Prelude CString SyncKeys SyncTree SyncProtocol.
Local Open Scope Z_scope.
Local Open Scope succinct_scope.

(** ** The shape of a tree

    What is left of [wf] when a collision has made the tree of a peer lose a wrong
    key: lengths of prefixes that grow, and two children for each inner node. *)
Inductive shaped : Z -> node -> Prop :=
  | shaped_leaf lo m ctx c0 c1 : 0 <= lo <= 64 -> prefix_len m = 64 -> key_ok (key m) -> shaped lo (Node m ctx c0 c1)
  | shaped_inner lo m ctx c0 c1 : 0 <= lo <= prefix_len m -> prefix_len m < 64 -> key_ok (key m) ->
      shaped (prefix_len m + 1) c0 -> shaped (prefix_len m + 1) c1 -> shaped lo (Node m ctx c0 c1).
Definition shaped_tree (t : node) : Prop := t = Null \/ shaped 0 t.

Lemma wf_shaped lo n : wf lo n -> shaped lo n.
Proof. induction 1; [apply shaped_leaf | apply shaped_inner]; done. Qed.
Lemma wf_tree_shaped t : wf_tree t -> shaped_tree t.
Proof. intros [->|H]; [by left | right; by apply wf_shaped]. Qed.

Lemma shaped_bounds lo m ctx c0 c1 : shaped lo (Node m ctx c0 c1) -> 0 <= lo <= prefix_len m /\ prefix_len m <= 64 /\ key_ok (key m).
Proof. intros H. inversion H; subst; (split; [lia|]; split; [lia | done]). Qed.
Lemma shaped_node lo n : shaped lo n -> exists m ctx c0 c1, n = Node m ctx c0 c1.
Proof. intros H. inversion H; eauto. Qed.
Lemma shaped_set_min lo lo' m ctx c0 c1 v : shaped lo (Node m ctx c0 c1) -> 0 <= lo' <= prefix_len m -> shaped lo' (Node (set_min v m) ctx c0 c1).
Proof. intros H Hl. inversion H; subst; [apply shaped_leaf | apply shaped_inner]; cbn [set_min prefix_len key]; try done; lia. Qed.
Lemma shaped_child lo m ctx c0 c1 i : shaped lo (Node m ctx c0 c1) -> prefix_len m < 64 -> shaped (prefix_len m + 1) (child (Node m ctx c0 c1) i).
Proof. intros H Hp. inversion H; subst; [lia|]. unfold child. by destruct (_ =? _). Qed.

Lemma xor_children_ok lo n : shaped lo n -> forall d, key_ok (key d) -> key_ok (key (xor_children n d)) /\ prefix_len (xor_children n d) = prefix_len d.
Proof.
  induction 1 as [lo m ctx c0 c1 Hl Hp Hk | lo m ctx c0 c1 Hl Hp Hk H0 IH0 H1 IH1]; intros d Hd; cbn [xor_children]; unfold KEY_LEN_BITS.
  - rewrite Hp, Z.eqb_refl. split; [by apply sync_xor_ok | done].
  - destruct (Z.eqb_spec (prefix_len m) 64); [lia|]. destruct (IH0 d Hd) as [K0 P0], (IH1 _ K0) as [K1 P1]. split; [done | congruence].
Qed.

Lemma add_key_shaped k ctx st fuel : key_ok k -> forall lo m x c0 c1 p lo', shaped lo (Node m x c0 c1) -> lo <= p <= prefix_len m ->
  66 - p <= Z.of_nat fuel -> shaped lo (add_key_loop k ctx st fuel (Node m x c0 c1) p lo').
Proof.
  intros Hk. induction fuel as [|fuel IH]; intros lo m x c0 c1 p lo' Hs Hp Hfuel; destruct (shaped_bounds _ _ _ _ _ Hs) as (Hlo & H64 & Hkm); [lia|].
  cbn [add_key_loop]. unfold PREFIX_STEP_BITS in *. destruct (Z.eqb_spec (prefix_len m) p) as [<-|Hne].
  - set (i := sync_get_bits (prefix_len m) 1 k). destruct (set_child c0 c1 i _) as [d0 d1] eqn:Ed.
    destruct (Z.eq_dec (prefix_len m) 64); [apply shaped_leaf; [lia | done | by apply sync_xor_ok]|].
    pose proof (shaped_child _ _ _ _ _ i Hs ltac:(lia)) as Hc. destruct (shaped_node _ _ Hc) as (m' & x' & a & b & Ec). rewrite Ec in *.
    pose proof (IH _ m' x' a b (prefix_len m + 1) (prefix_len m + 1) Hc ltac:(destruct (shaped_bounds _ _ _ _ _ Hc); lia) ltac:(lia)) as HI.
    inversion Hs as [|? ? ? ? ? _ _ _ H0 H1]; subst; [lia|].
    apply shaped_inner; [done | cbn; lia | by apply sync_xor_ok | |]; cbn [sync_xor set_key prefix_len]; unfold set_child in Ed; destruct (i =? 0); by injection Ed as <- <-.
  - rewrite get_bit_eq, (get_bit (key m)) by (done || lia). destruct (Bool.eqb (kbit k p) (kbit (key m) p)) eqn:Eb; [apply IH; [done | lia | lia]|].
    set (old := Node (set_min (p + 1) m) x c0 c1). assert (shaped (p + 1) old) as Hold by (eapply shaped_set_min; [exact Hs | lia]).
    rewrite set_child_bit. destruct fuel as [|fuel]; [lia|].
    assert (forall p0 p1, (p0 = Null /\ p1 = old \/ p0 = old /\ p1 = Null) ->
      let pm := xor_children (Node (Message lo' st p (repeat 0 8)) 0 p0 p1) (Message lo' st p (repeat 0 8)) in key_ok (key pm) /\ prefix_len pm = p) as Hpm.
    { intros p0 p1 Hcase. cbn [xor_children prefix_len]. unfold KEY_LEN_BITS. destruct (Z.eqb_spec p 64); [lia|].
      assert (key_ok (repeat 0 8)) as Hz by (split; [done | repeat (apply List.Forall_cons; [lia|]); apply List.Forall_nil]).
      destruct Hcase as [[-> ->]|[-> ->]]; cbn [xor_children]; by apply (xor_children_ok _ _ Hold (Message lo' st p (repeat 0 8))). }
    assert (kbit k p = negb (kbit (key m) p)) as Hd by (by destruct (kbit k p), (kbit (key m) p)).
    assert (forall c, add_key_loop k ctx st fuel Null c c = Node (Message c st 64 k) ctx Null Null) as Hleaf by (intros c; by destruct fuel).
    assert (shaped (p + 1) (Node (Message (p + 1) st 64 k) ctx Null Null)) as Sleaf by (apply shaped_leaf; [lia | done | done]).
    destruct (kbit (key m) p) eqn:Em; cbn [negb] in Hd;
      [destruct (Hpm Null old ltac:(by left)) as [K P] | destruct (Hpm old Null ltac:(by right)) as [K P]]; set (pm := xor_children _ _) in *;
      cbn [add_key_loop]; rewrite P, Z.eqb_refl, (get_bit k p) by (done || lia); unfold PREFIX_STEP_BITS; rewrite child_bit, set_child_bit, Hd, Hleaf;
      (apply shaped_inner; cbn [sync_xor set_key prefix_len]; rewrite ?P; [lia | lia | by apply sync_xor_ok | done | done]).
Qed.

Lemma remove_key_shaped k fuel : key_ok k -> forall lo m x c0 c1 p, shaped lo (Node m x c0 c1) -> lo <= p <= prefix_len m -> 66 - p <= Z.of_nat fuel ->
  exists t, remove_key_loop fuel k (Node m x c0 c1) p = Some t /\ (if prefix_len m =? 64 then t = Null else shaped lo t).
Proof.
  intros Hk. induction fuel as [|fuel IH]; intros lo m x c0 c1 p Hs Hp Hfuel; destruct (shaped_bounds _ _ _ _ _ Hs) as (Hlo & H64 & Hkm); [lia|].
  cbn [remove_key_loop]. unfold KEY_LEN_BITS, PREFIX_STEP_BITS. destruct (Z.eqb_spec (prefix_len m) 64) as [E|E]; [by exists Null|].
  destruct (Z.ltb_spec p (prefix_len m)).
  - destruct (IH lo m x c0 c1 (p + 1) Hs ltac:(lia) ltac:(lia)) as (t & -> & Ht). exists t. split; [done|]. destruct (Z.eqb_spec (prefix_len m) 64); [lia | done].
  - assert (p = prefix_len m) as -> by lia. set (i := sync_get_bits _ _ k). pose proof (shaped_child _ _ _ _ _ i Hs ltac:(lia)) as Hc.
    destruct (shaped_node _ _ Hc) as (m' & x' & a & b & Ec). rewrite Ec in *.
    destruct (IH _ m' x' a b (prefix_len m + 1) Hc ltac:(destruct (shaped_bounds _ _ _ _ _ Hc); lia) ltac:(lia)) as (t & -> & Ht).
    inversion Hs as [|? ? ? ? ? _ _ _ H0 H1]; subst; [lia|].
    destruct (shaped_node _ _ H0) as (m0 & x0 & a0 & b0 & E0), (shaped_node _ _ H1) as (m1 & x1 & a1 & b1 & E1). subst c0 c1.
    destruct (shaped_bounds _ _ _ _ _ H0) as (L0 & _), (shaped_bounds _ _ _ _ _ H1) as (L1 & _).
    unfold set_child. destruct (prefix_len m' =? 64).
    + subst t. destruct (i =? 0); eexists; (split; [reflexivity|]); eapply shaped_set_min; try done; lia.
    + destruct (shaped_node _ _ Ht) as (m2 & x2 & a2 & b2 & ->). destruct (i =? 0); eexists; (split; [reflexivity|]);
        (apply shaped_inner; [done | cbn; lia | by apply sync_xor_ok | done | done]).
Qed.

(** ** Calls that come back *)

(** [m] has a result, and leaves a world with [P] *)
Definition safe {A} (P : world -> Prop) (m : sync A) (w : world) : Prop := exists a w', m w = Some (a, w') /\ P w'.

Lemma safe_bind {A B} (P Q : world -> Prop) (m : sync A) (k : A -> sync B) w :
  safe P m w -> (forall a w', P w' -> safe Q (k a) w') -> safe Q (sbind m k) w.
Proof. intros (a & w' & Hm & HP) Hk. unfold safe, sbind. rewrite Hm. by apply Hk. Qed.
Lemma safe_ret {A} (P : world -> Prop) (a : A) w : P w -> safe P (sret a) w.
Proof. intros H. by exists a, w. Qed.
Lemma safe_get {A B} (Q : world -> Prop) (f : world -> A) (k : A -> sync B) w : safe Q (k (f w)) w -> safe Q (sbind (get f) k) w.
Proof. done. Qed.
Lemma safe_weaken {A} (P Q : world -> Prop) (m : sync A) w : safe P m w -> (forall w', P w' -> Q w') -> safe Q m w.
Proof. intros (a & w' & Hm & HP) H. exists a, w'. auto. Qed.

(** the own tree is [r], and the tree of the peer has a property *)
Definition trees (r : node) (T : node -> Prop) (w : world) : Prop := root (w_state w) = r /\ T (peer_root (w_peer w)).

Lemma safe_notify r T set_ e w : trees r T w -> safe (trees r T) (notify set_ e) w.
Proof. intros H. unfold safe, notify. exists tt. eexists. split; [reflexivity|]. by destruct (set_ (w_state w)). Qed.
Lemma safe_queue r T m w : trees r T w -> safe (trees r T) (queue_message m) w.
Proof. apply safe_notify. Qed.
Lemma safe_state r T f w : (forall s, root (f s) = root s) -> trees r T w -> safe (trees r T) (on_state f) w.
Proof. intros Hf [Hr HT]. exists tt. eexists. split; [reflexivity|]. split; [cbn [w_state]; by rewrite Hf | done]. Qed.
Lemma safe_peer r (T T' : node -> Prop) f w : (forall p, T (peer_root p) -> T' (peer_root (f p))) -> trees r T w -> safe (trees r T') (on_peer f) w.
Proof. intros Hf [Hr HT]. exists tt. eexists. split; [reflexivity|]. split; [done | by apply Hf]. Qed.

Create HintDb sync.
#[export] Hint Resolve safe_ret safe_notify safe_queue : sync.
#[export] Hint Extern 3 (safe (trees _ _) (on_state _) _) => apply safe_state; [intros []; reflexivity|] : sync.

(** *** With a tree of the peer of the right shape *)
Lemma insert_shaped r k ctx st a b w : key_ok k -> trees r shaped_tree w -> safe (trees r shaped_tree) (peer_insert k ctx st a b) w.
Proof.
  intros Hk. apply safe_peer. intros p [->|Hs]; right; cbn [with_peer_root peer_root]; [by apply shaped_leaf|].
  destruct (shaped_node _ _ Hs) as (m & x & c0 & c1 & Et). rewrite Et in *. destruct (shaped_bounds _ _ _ _ _ Hs). unfold add_key. apply add_key_shaped; (done || lia).
Qed.
Lemma remove_shaped r k a b w : key_ok k -> is_null (peer_root (w_peer w)) = false -> trees r shaped_tree w -> safe (trees r shaped_tree) (peer_remove k a b) w.
Proof.
  intros Hk Hn [Hr [Hnull|Hs]]; [by rewrite Hnull in Hn|]. unfold safe, peer_remove, remove_key. destruct (shaped_node _ _ Hs) as (m & x & c0 & c1 & Ht). rewrite Ht in *.
  destruct (shaped_bounds _ _ _ _ _ Hs).
  destruct (remove_key_shaped k 66 Hk 0 m x c0 c1 0 Hs ltac:(lia) ltac:(lia)) as (t & -> & HT). eexists _, _. split; [reflexivity|].
  split; [done|]. cbn [w_peer with_peer_root peer_root]. destruct (_ =? 64); [by left | by right].
Qed.

Lemma is_missing_shaped r m ctx b w : key_ok (key m) -> trees r shaped_tree w -> safe (trees r shaped_tree) (peer_is_missing m ctx b) w.
Proof.
  intros Hk Hw. unfold peer_is_missing. apply safe_get. destruct (find_message (peer_root (w_peer w)) m) as [|m' x a c] eqn:Ef.
  - apply (safe_bind (trees r shaped_tree)); [by apply insert_shaped|]. intros [] w1 H1. apply (safe_bind (trees r shaped_tree)); [by auto with sync|]. intros [] w2 H2.
    apply (safe_bind (trees r shaped_tree)); [by apply safe_notify|]. auto with sync.
  - destruct (stored m' && b); [|auto with sync]. unfold notify. apply (safe_bind (fun w' => trees r shaped_tree w' /\ w_peer w' = w_peer w)).
    + exists tt. eexists. split; [reflexivity|]. by destruct (now_has_callback (w_state w)).
    + intros [] w1 [H1 E1]. apply (safe_bind (trees r shaped_tree)); [apply remove_shaped; [done | | done]|]; [|auto with sync].
      rewrite E1. by destruct (peer_root (w_peer w)).
Qed.

(** all the keys of a tree have eight bytes *)
Fixpoint keys_ok (n : node) : Prop := match n with Null => True | Node m _ c0 c1 => key_ok (key m) /\ keys_ok c0 /\ keys_ok c1 end.
Lemma wf_keys_ok lo n : wf lo n -> keys_ok n.
Proof. induction 1; cbn [keys_ok]; auto. Qed.

Lemma missing_shaped r b n : keys_ok n -> forall except w, trees r shaped_tree w -> safe (trees r shaped_tree) (missing_leaf_nodes n except b) w.
Proof.
  induction n as [|m ctx c0 IH0 c1 IH1]; intros Hk except w Hw; cbn [missing_leaf_nodes]; [auto with sync|]. destruct Hk as (Hk & K0 & K1).
  destruct (_ =? KEY_LEN_BITS).
  - apply (safe_bind (trees r shaped_tree)); [by apply is_missing_shaped|]. intros x w1 H1. destruct (nz x); auto with sync.
  - apply (safe_bind (trees r shaped_tree)); [destruct (negb _); auto with sync|]. intros [] w1 H1. destruct (negb _); auto with sync.
Qed.
Lemma peer_missing_shaped r n except b w : keys_ok n -> trees r shaped_tree w -> safe (trees r shaped_tree) (peer_missing_leaf_nodes n except b) w.
Proof. intros Hk Hw. unfold peer_missing_leaf_nodes. apply safe_get. destruct (negb _); [auto with sync | by apply missing_shaped]. Qed.

Lemma peer_add_key_shaped r m w : key_ok (key m) -> trees r shaped_tree w -> safe (trees r shaped_tree) (peer_add_key m) w.
Proof.
  intros Hk Hw. unfold peer_add_key. destruct (_ || _); [auto with sync|]. apply safe_get. destruct (find_message _ _); [|auto with sync].
  apply (safe_bind (trees r shaped_tree)); [by apply insert_shaped|]. intros [] w1 H1. apply (safe_bind (trees r shaped_tree)); [by auto with sync|]. intros [] w2 H2.
  apply (safe_bind (trees r shaped_tree)); [apply (safe_peer r shaped_tree shaped_tree); [done | exact H2]|]. intros [] w3 H3. apply (safe_bind (trees r shaped_tree)); [by apply safe_notify|]. intros [] w4 H4.
  apply safe_get. auto with sync.
Qed.

(** *** With a well-formed tree of the peer: keys are only added, and the part of it
    that was found before stays in it *)
Definition holds (part t : node) : Prop := wf_tree t /\ part_of part t.

Lemma same_leaf m m' : prefix_len m = 64 -> prefix_len m' = 64 -> 0 <= min_prefix_len m <= 64 -> 0 <= min_prefix_len m' <= 64 -> key m = key m' ->
  same_message m m' = true.
Proof.
  intros P P' M M' K. unfold same_message, cmp_message, xor_begin. rewrite P, P'. unfold KEY_LEN_BITS. cbn [Z.eqb Pos.eqb].
  destruct (Z.ltb_spec (Z.min 64 64) (Z.max (min_prefix_len m) (min_prefix_len m'))); [lia|]. rewrite K. unfold memcmp, streq. by rewrite bool_decide_true.
Qed.

(** a key of the tree is found, whatever the other nodes look like *)
Lemma find_complete message fuel : prefix_len message = 64 -> 0 <= min_prefix_len message <= 64 -> key_ok (key message) ->
  forall lo m ctx c0 c1 p, wf lo (Node m ctx c0 c1) -> 0 <= p <= prefix_len m -> 66 - p <= Z.of_nat fuel ->
  key message ∈ leaves (Node m ctx c0 c1) -> find_loop fuel (Node m ctx c0 c1) p message <> Null.
Proof.
  intros Hp Hmin Hk. induction fuel as [|fuel IH]; intros lo m ctx c0 c1 p Hwf Hpp Hfuel Hin; destruct (wf_bounds _ _ _ _ _ Hwf) as (Hm & Hlo & H64 & Hkm); [lia|].
  cbn [find_loop]. destruct (same_message m message) eqn:Es; [done|]. unfold KEY_LEN_BITS. destruct (Z.eqb_spec (prefix_len m) 64) as [E|E].
  - exfalso. destruct (leaves_leaf _ _ _ _ _ Hwf E) as (_ & _ & El). rewrite El in Hin. apply list_elem_of_singleton in Hin.
    rewrite same_leaf in Es by (done || lia). done.
  - pose proof (wf_prefix _ _ _ _ _ Hwf) as Hpre. rewrite List.Forall_forall in Hpre. pose proof (Hpre _ ltac:(by apply list_elem_of_In)) as Ha.
    unfold PREFIX_STEP_BITS. destruct (Z.ltb_spec p (prefix_len m)).
    + rewrite get_bit_eq by (done || lia). rewrite (Ha p) by lia. rewrite eqb_reflx. cbn [negb]. apply (IH lo); (done || lia).
    + assert (p = prefix_len m) as -> by lia. rewrite get_bit, child_bit by (done || lia).
      rewrite (leaves_inner _ _ _ _ _ Hwf) in Hin by lia. inversion Hwf as [|? ? ? ? ? _ _ _ _ H0 H1 B0 B1 _]; subst; [done|].
      unfold below in *. rewrite List.Forall_forall in B0, B1.
      assert (key message ∈ leaves (if kbit (key message) (prefix_len m) then c1 else c0)) as Hc.
      { apply elem_of_app in Hin as [Hl|Hr]; [pose proof (proj2 (B0 _ ltac:(by apply list_elem_of_In))) as -> | pose proof (proj2 (B1 _ ltac:(by apply list_elem_of_In))) as ->]; done. }
      assert (wf (prefix_len m + 1) (if kbit (key message) (prefix_len m) then c1 else c0)) as Wc by (by destruct (kbit _ _)).
      destruct (wf_node _ _ Wc) as (m' & ctx' & a & b & Ec). rewrite Ec in *.
      apply (IH _ m' ctx' a b (prefix_len m + 1) Wc); [destruct (wf_bounds _ _ _ _ _ Wc); lia | lia | done].
Qed.
Lemma find_message_node m ctx c0 c1 message : find_message (Node m ctx c0 c1) message = find_loop 66 (Node m ctx c0 c1) (prefix_len m) message.
Proof. reflexivity. Qed.
Lemma not_found message t : prefix_len message = 64 -> 0 <= min_prefix_len message <= 64 -> key_ok (key message) -> wf_tree t ->
  find_message t message = Null -> key message ∉ leaves t.
Proof.
  intros Hp Hmin Hk Hwf Hf Hin. destruct Hwf as [->|Hwf]; [by apply not_elem_of_nil in Hin|]. destruct (wf_node _ _ Hwf) as (m & ctx & c0 & c1 & ->).
  destruct (wf_bounds _ _ _ _ _ Hwf) as (_ & Hlo & H64 & _). rewrite find_message_node in Hf.
  assert (66 - prefix_len m <= Z.of_nat 66) as Hfuel by lia. assert (0 <= prefix_len m <= prefix_len m) as Hpp by lia.
  exact (find_complete message 66 Hp Hmin Hk 0 m ctx c0 c1 (prefix_len m) Hwf Hpp Hfuel Hin Hf).
Qed.

Lemma is_missing_wf r part m ctx w : prefix_len m = 64 -> 0 <= min_prefix_len m <= 64 -> key_ok (key m) -> trees r (holds part) w ->
  safe (trees r (holds part)) (peer_is_missing m ctx false) w.
Proof.
  intros Hp Hmin Hk [Hr [Hwf Hpart]]. unfold peer_is_missing. apply safe_get. destruct (find_message (peer_root (w_peer w)) m) as [|m' x a c] eqn:Ef.
  - pose proof (not_found m _ Hp Hmin Hk Hwf Ef) as Hnot. destruct (add_key_spec (key m) ctx true Hk _ Hwf Hnot) as [W L].
    apply (safe_bind (trees r (holds part))).
    + exists tt. eexists. split; [reflexivity|]. split; [done|]. cbn [w_peer with_peer_root peer_root]. split; [done|].
      destruct Hpart as [->|[Hn Hsub]]; [by left|]. right. split; [done|]. intros k Hin. rewrite L. apply list_elem_of_further, Hsub, Hin.
    + intros [] w1 H1. apply (safe_bind (trees r (holds part))); [auto with sync|]. intros [] w2 H2.
      apply (safe_bind (trees r (holds part))); [auto with sync|]. auto with sync.
  - rewrite andb_false_r. apply safe_ret. done.
Qed.

Lemma missing_wf r part lo n : wf lo n -> forall except w, trees r (holds part) w -> safe (trees r (holds part)) (missing_leaf_nodes n except false) w.
Proof.
  induction 1 as [lo m ctx Hm Hl Hp Hk | lo m ctx c0 c1 Hm Hl Hp Hk H0 IH0 H1 IH1 B0 B1 Hx]; intros except w Hw; cbn [missing_leaf_nodes]; unfold KEY_LEN_BITS.
  - rewrite Hp. change (64 =? 64) with true. cbv iota. apply (safe_bind (trees r (holds part))); [apply is_missing_wf; (done || lia)|].
    intros x w1 H1. destruct (nz x); auto with sync.
  - destruct (Z.eqb_spec (prefix_len m) 64); [lia|]. apply (safe_bind (trees r (holds part))); [destruct (negb _); auto with sync|].
    intros [] w1 Hw1. destruct (negb _); auto with sync.
Qed.
Lemma peer_missing_wf r part lo n except w : wf lo n -> trees r (holds part) w -> safe (trees r (holds part)) (peer_missing_leaf_nodes n except false) w.
Proof. intros Hn Hw. unfold peer_missing_leaf_nodes. apply safe_get. destruct (negb _); [auto with sync | by eapply missing_wf]. Qed.

Lemma received_safe r part w : trees r (holds part) w -> safe (trees r shaped_tree) (peer_has_received_all part) w.
Proof.
  intros [Hr [Hwf Hpart]]. destruct (received_part part w Hwf Hpart) as (x & w' & Hx & [Qs _] & Hw'). exists x, w'. split; [done|].
  split; [by rewrite Qs | by apply wf_tree_shaped].
Qed.

(** ** The descent *)
Lemma skip_range_spec a b bound : key_ok a -> key_ok b -> bound <= 64 -> forall fuel p, 0 <= p <= bound -> bound - p < Z.of_nat fuel ->
  match skip_range fuel a b p bound with (true, q) => p <= q < bound | (false, q) => q = bound end.
Proof.
  intros Ha Hb Hbound. induction fuel as [|fuel IH]; intros p Hp Hfuel; [lia|]. cbn [skip_range]. destruct (Z.ltb_spec p bound); [|lia].
  destruct (negb _); [lia|]. unfold PREFIX_STEP_BITS. pose proof (IH (p + 1) ltac:(lia) ltac:(lia)) as HI. destruct (skip_range _ _ _ _ _) as [[|] q]; lia.
Qed.

Lemma explained_keys_ok message fuel : forall n p, keys_ok n -> keys_ok (explained_by fuel n p message).
Proof.
  induction fuel as [|fuel IH]; intros [|m ctx c0 c1] p Hn; cbn [explained_by]; try done. destruct (same_message message m); [done|]. destruct (_ =? _); [done|].
  destruct (_ <? _); [destruct (negb _); [done | by apply IH]|]. apply IH. destruct Hn as (_ & K0 & K1). unfold child. by destruct (_ =? _).
Qed.

Lemma wf_holds_shaped r part w : trees r (holds part) w -> trees r shaped_tree w.
Proof. intros [Hr [Hwf _]]. split; [done | by apply wf_tree_shaped]. Qed.

Lemma recv_loop_safe r message peer_message part : prefix_len peer_message = prefix_len message -> 0 <= prefix_len message <= 64 ->
  key_ok (key peer_message) -> forall fuel lo m ctx c0 c1 p w, wf lo (Node m ctx c0 c1) -> lo <= p <= prefix_len m -> 67 - p <= Z.of_nat fuel ->
  trees r (holds part) w -> safe (trees r shaped_tree) (recv_loop message peer_message part fuel (Node m ctx c0 c1) p) w.
Proof.
  intros EL HL Hkp. induction fuel as [|fuel IH]; intros lo m ctx c0 c1 p w Hwf Hp Hfuel Hw; destruct (wf_bounds _ _ _ _ _ Hwf) as (Hm & Hlo & H64 & Hk); [lia|].
  pose proof (wf_holds_shaped _ _ _ Hw) as Hs. pose proof (wf_keys_ok _ _ Hwf) as Hkeys. cbn [recv_loop].
  destruct (same_message message m).
  { destruct (stored message).
    - apply (safe_bind (trees r shaped_tree)); [by apply received_safe|]. intros x w1 H1. destruct (x =? 0); auto with sync.
    - apply (safe_bind (trees r shaped_tree)); [by apply is_missing_shaped|]. intros x w1 H1. destruct (x =? 0); auto with sync. }
  destruct (same_message peer_message m); [auto with sync|]. rewrite EL. destruct (Z.leb_spec (prefix_len message) p).
  { destruct (is_blank peer_message); [by apply peer_missing_shaped|]. destruct (_ >? _); [auto with sync|].
    pose proof (explained_keys_ok (sync_xor (key m) peer_message) 66 (Node m ctx c0 c1) p Hkeys) as He.
    destruct (explained_by _ _ _ _); [|by apply peer_missing_shaped].
    assert (forall n w, trees r shaped_tree w -> safe (trees r shaped_tree) (queue_child n) w) as Hq by (intros [|]; cbn [queue_child]; auto with sync).
    apply (safe_bind (trees r shaped_tree)); auto. }
  pose proof (skip_range_spec (key m) (key peer_message) (Z.min (prefix_len m) (prefix_len message)) Hk Hkp ltac:(lia) 65 p ltac:(lia) ltac:(lia)) as Hskip.
  destruct (skip_range _ _ _ _ _) as [[|] q].
  { apply (safe_bind (trees r shaped_tree)); [|intros [] w1 H1; destruct (_ =? _); [by apply peer_add_key_shaped | auto with sync]].
    destruct (_ && _); [|auto with sync]. apply (safe_bind (trees r shaped_tree)); [by apply peer_missing_shaped|]. intros [] w1 H1. destruct (negb _); auto with sync. }
  subst q. destruct (Z.leb_spec (prefix_len message) (Z.min (prefix_len m) (prefix_len message))).
  - apply (IH lo); (done || lia).
  - inversion Hwf as [|? ? ? ? ? _ _ Hp64 _ W0 W1 _ _ _]; subst; [lia|]. replace (Z.min (prefix_len m) (prefix_len message)) with (prefix_len m) by lia.
    rewrite get_bit, child_bit by (done || lia).
    apply (safe_bind (trees r (holds part))); [destruct (_ && _); [by eapply peer_missing_wf | auto with sync]|]. intros [] w1 Hw1.
    assert (wf (prefix_len m + 1) (if kbit (key peer_message) (prefix_len m) then c1 else c0)) as Wc by (by destruct (kbit _ _)).
    destruct (wf_node _ _ Wc) as (m' & ctx' & a & b & Ec). rewrite Ec in *. unfold PREFIX_STEP_BITS.
    apply (IH _ _ _ _ _ _ _ Wc); [destruct (wf_bounds _ _ _ _ _ Wc); lia | lia | done].
Qed.

Lemma remove_differences_message t message : wf_tree t -> key_ok (key message) -> 0 <= prefix_len message ->
  let m := snd (remove_differences t message) in prefix_len m = prefix_len message /\ key_ok (key m).
Proof.
  intros Hwf Hk Hp. pose proof (remove_differences_part t message Hwf) as Hpart. unfold remove_differences in *. destruct (_ || _); [done|].
  destruct (differing_node _ _ _ _) as [|m ctx a b]; [done|]. destruct (_ <? _); [|done].
  assert ((exists lo, wf lo (Node m ctx a b))) as [lo Hn] by (destruct (_ || _), Hpart as [|[H _]]; done).
  destruct (wf_bounds _ _ _ _ _ Hn) as (_ & _ & _ & Hkm). destruct (_ || _); cbn [snd].
  - split; [done | by apply sync_xor_ok].
  - destruct (xor_children_ok _ _ (wf_shaped _ _ Hn) message Hk). done.
Qed.

Lemma recv_key_trees r message w : wf_tree r -> 0 <= min_prefix_len message -> key_ok (key message) -> 0 <= prefix_len message ->
  root (w_state w) = r -> wf_tree (peer_root (w_peer w)) -> safe (trees r shaped_tree) (recv_key message) w.
Proof.
  intros Hr Hmin Hk Hp Hroot Hpeer. unfold recv_key. destruct (_ || _) eqn:Eg; [apply safe_ret; by split; [|apply wf_tree_shaped]|].
  apply orb_false_iff in Eg as [_ Hbound]. unfold KEY_LEN_BITS in *. rewrite Z.gtb_ltb in Hbound. apply Z.ltb_ge in Hbound.
  apply (safe_bind (fun w' => root (w_state w') = r /\ wf_tree (peer_root (w_peer w')))).
  { exists tt. eexists. split; [reflexivity|]. split; [exact Hroot | exact Hpeer]. }
  intros [] w1 [Hr1 Hp1]. apply safe_get. rewrite Hr1.
  destruct r as [|m ctx c0 c1]; [apply (safe_bind (trees Null shaped_tree)); [apply peer_add_key_shaped; [done | by split; [|apply wf_tree_shaped]] | auto with sync]|].
  destruct Hr as [|Hr]; [done|]. destruct (Z.eqb_spec (prefix_len message) (64 + 1)).
  - apply (safe_bind (trees (Node m ctx c0 c1) shaped_tree)); [|auto with sync]. apply peer_missing_shaped; [by eapply wf_keys_ok | by split; [|apply wf_tree_shaped]].
  - apply safe_get. pose proof (remove_differences_part (peer_root (w_peer w1)) message Hp1) as Hpart.
    destruct (remove_differences_message (peer_root (w_peer w1)) message Hp1 Hk Hp) as [EL Hkp].
    destruct (remove_differences _ _) as [part peer_message]. cbn [fst snd] in *.
    apply (safe_bind (trees (Node m ctx c0 c1) shaped_tree)); [|auto with sync].
    destruct (wf_bounds _ _ _ _ _ Hr) as (_ & Hlo & _). apply (recv_loop_safe _ message peer_message part EL ltac:(lia) Hkp 132 0); [done | lia | lia|].
    split; [done|]. by split.
Qed.

(** ** Property *)

Lemma parse_message_ok buff : length buff = 10%nat -> Forall (fun b => 0 <= b < 256) buff ->
  0 <= min_prefix_len (parse_message buff) /\ 0 <= prefix_len (parse_message buff) /\ key_ok (key (parse_message buff)).
Proof.
  intros Hlen Hb. assert (forall i, 0 <= rd buff i) as Hrd.
  { intros i. unfold rd. destruct (i <? 0); [done|]. destruct (Nat.lt_ge_cases (Z.to_nat i) (length buff)); [|rewrite nth_overflow; [lia | done]].
    rewrite List.Forall_forall in Hb. apply Hb. by apply nth_In. }
  unfold parse_message. cbn [min_prefix_len prefix_len key]. split; [apply Z.land_nonneg; by left|]. split; [done|].
  split; [rewrite length_firstn, length_skipn; lia|]. by apply Forall_take, Forall_drop.
Qed.

(** C11: Whatever the ten bytes of a record are, handling it comes to an end, follows
    no null pointer and no child that is not there, and leaves the own tree alone:
    the trees are such that the branch that would read past the two children of a
    node cannot be reached. *)
Theorem recv_record_safe w buff : wf_tree (root (w_state w)) -> wf_tree (peer_root (w_peer w)) ->
  length buff = 10%nat -> Forall (fun b => 0 <= b < 256) buff ->
  exists r w', sync_recv_message buff w = Some (r, w') /\ root (w_state w') = root (w_state w).
Proof.
  intros Hr Hp Hlen Hb. destruct (parse_message_ok buff Hlen Hb) as (Hmin & Hpre & Hk).
  destruct (recv_key_trees (root (w_state w)) (parse_message buff) w Hr Hmin Hk Hpre eq_refl Hp) as (r & w' & Hrecv & [Hroot _]).
  eexists _, w'. split; [exact (recv_one_record _ w r w' Hlen Hrecv) | exact Hroot].
Qed.

Lemma recv_record_safe_witness :
  exists r w', sync_recv_message [0x9f; 0x3f; 0; 0; 0; 0; 0; 0; 1; 0xfe] (World (add_all sample_state [1; 2]) (Peer 7 0 0 Null) []) = Some (r, w') /\
    root (w_state w') = root (add_all sample_state [1; 2]).
Proof.
  apply (recv_record_safe (World (add_all sample_state [1; 2]) (Peer 7 0 0 Null) []) [0x9f; 0x3f; 0; 0; 0; 0; 0; 0; 1; 0xfe]).
  - exact (proj1 (proj1 add_all_ok)).
  - by left.
  - reflexivity.
  - repeat (apply List.Forall_cons; [lia|]). apply List.Forall_nil.
Defined.
