(* ===== verification/SyncLearn.v ===== *)
(** sync_keys.cpp: a key that a peer announces becomes known: the record of one key,
    and what the callbacks are told. *)
From S2P Require Import Prelude CString SyncKeys SyncTree SyncProtocol SyncSafety.
Local Open Scope Z_scope.
Local Open Scope succinct_scope.

(** ** What handling a record may do before the key of it is added *)

(** has is called when a key is not here *)
Definition is_has (e : event) : Prop := match e with Has _ _ => True | _ => False end.
(** the calls that tell the peer something, and nothing of it *)
Definition outward (e : event) : Prop := match e with HasNot _ _ _ | QueueMessage _ _ => True | _ => False end.
Lemma outward_not_has events : Forall outward events -> Forall (fun e => ~ is_has e) events.
Proof. apply Forall_impl. intros [| | |]; cbn; tauto. Qed.
#[export] Instance is_has_dec e : Decision (is_has e).
Proof. destruct e; cbn; apply _. Defined.
(** the calls of has among others *)
Definition has_calls (events : list event) : list event := filter is_has events.
Lemma has_calls_app a b : has_calls (a ++ b) = has_calls a ++ has_calls b.
Proof. apply list.filter_app. Qed.
Lemma has_calls_none events : Forall (fun e => ~ is_has e) events -> has_calls events = [].
Proof.
  induction 1 as [|e events He _ IH]; [done|]. unfold has_calls in *. cbn [filter list_filter]. by rewrite decide_False.
Qed.
Lemma has_calls_in e events : e ∈ has_calls events -> e ∈ events.
Proof. intros H. by apply list_elem_of_filter in H as [_ H]. Qed.
(** only keys of the own tree are added to the tree of the peer *)
Record calm (w0 w : world) : Prop := {
  c_root : root (w_state w) = root (w_state w0);
  c_flag : has_callback (w_state w) = has_callback (w_state w0);
  c_peer : peer_context (w_peer w) = peer_context (w_peer w0);
  c_wf : wf_tree (peer_root (w_peer w));
  c_sub : forall x, x ∈ leaves (peer_root (w_peer w0)) -> x ∈ leaves (peer_root (w_peer w));
  c_new : forall x, x ∈ leaves (peer_root (w_peer w)) -> x ∈ leaves (peer_root (w_peer w0)) \/ x ∈ leaves (root (w_state w0));
  c_log : exists events, w_log w = w_log w0 ++ events /\ Forall outward events
}.
Lemma calm_refl w : wf_tree (peer_root (w_peer w)) -> calm w w.
Proof. intros H. split; try done; [by left | exists []; by rewrite app_nil_r]. Qed.
Lemma calm_notify w0 w set_ e : (forall p, outward (e p)) -> calm w0 w -> safe (calm w0) (notify set_ e) w.
Proof.
  intros He Hw. unfold safe, notify. eexists tt, _. split; [reflexivity|]. destruct (set_ (w_state w)); [|done].
  destruct Hw as [? ? ? ? ? ? (events & Hl & Hf)]. split; try done. exists (events ++ [e (peer_context (w_peer w))]). cbn [w_log].
  rewrite Hl, app_assoc. split; [done|]. apply Forall_app. split; [done | by apply Forall_singleton].
Qed.
Lemma calm_state w0 w f : (forall s, root (f s) = root s /\ has_callback (f s) = has_callback s) -> calm w0 w -> safe (calm w0) (on_state f) w.
Proof.
  intros Hf Hw. eexists tt, _. split; [reflexivity|]. destruct (Hf (w_state w)) as [Hr Hc]. destruct Hw as [? ? ? ? ? ? ?]. by split; cbn [w_state w_peer w_log]; rewrite ?Hr, ?Hc.
Qed.
#[local] Hint Extern 2 (safe (calm _) (sret _) _) => apply safe_ret : sync.
#[local] Hint Extern 2 (safe (calm _) (queue_message _) _) => apply calm_notify; [intros ?; exact I|] : sync.
#[local] Hint Extern 2 (safe (calm _) (notify _ _) _) => apply calm_notify; [intros ?; exact I|] : sync.
#[local] Hint Extern 3 (safe (calm _) (on_state _) _) => apply calm_state; [intros []; split; reflexivity|] : sync.

Lemma is_missing_calm w0 w m ctx : prefix_len m = 64 -> 0 <= min_prefix_len m <= 64 -> key_ok (key m) -> key m ∈ leaves (root (w_state w0)) ->
  calm w0 w -> safe (calm w0) (peer_is_missing m ctx false) w.
Proof.
  intros Hp Hmin Hk Hin Hw. unfold peer_is_missing. apply safe_get. destruct (find_message (peer_root (w_peer w)) m) as [|m' x a c] eqn:Ef; [|rewrite andb_false_r; auto with sync].
  pose proof (not_found m _ Hp Hmin Hk (c_wf _ _ Hw) Ef) as Hnot. destruct (add_key_spec (key m) ctx true Hk _ (c_wf _ _ Hw) Hnot) as [W L].
  apply (safe_bind (calm w0)).
  - eexists tt, _. split; [reflexivity|]. destruct Hw as [? ? ? ? Hs Hn ?]. split; try done; cbn [w_peer with_peer_root peer_root].
    + intros y Hy. rewrite L. by apply list_elem_of_further, Hs.
    + intros y. rewrite L, elem_of_cons. intros [->|Hy]; [by right | by apply Hn].
  - intros [] w1 H1. apply (safe_bind (calm w0)); [auto with sync|]. intros [] w2 H2. apply (safe_bind (calm w0)); auto with sync.
Qed.
Lemma missing_calm w0 lo n : wf lo n -> (forall x, x ∈ leaves n -> x ∈ leaves (root (w_state w0))) ->
  forall except w, calm w0 w -> safe (calm w0) (missing_leaf_nodes n except false) w.
Proof.
  induction 1 as [lo m ctx Hm Hl Hp Hk | lo m ctx c0 c1 Hm Hl Hp Hk H0 IH0 H1 IH1 B0 B1 Hx]; intros Hsub except w Hw; cbn [missing_leaf_nodes leaves] in *; unfold KEY_LEN_BITS in *.
  - rewrite Hp in *. change (64 =? 64) with true in *. cbv iota in *. apply (safe_bind (calm w0)); [apply is_missing_calm; (done || lia || apply Hsub; by left)|].
    intros x w1 Hw1. destruct (nz x); auto with sync.
  - destruct (Z.eqb_spec (prefix_len m) 64); [lia|]. specialize (IH0 ltac:(intros; apply Hsub, elem_of_app; by left)). specialize (IH1 ltac:(intros; apply Hsub, elem_of_app; by right)).
    apply (safe_bind (calm w0)); [destruct (negb _); auto with sync|]. intros [] w1 Hw1. destruct (negb _); auto with sync.
Qed.
Lemma peer_missing_calm w0 lo n except w : wf lo n -> (forall x, x ∈ leaves n -> x ∈ leaves (root (w_state w0))) -> calm w0 w ->
  safe (calm w0) (peer_missing_leaf_nodes n except false) w.
Proof. intros Hn Hsub Hw. unfold peer_missing_leaf_nodes. apply safe_get. destruct (negb _); [auto with sync | by eapply missing_calm]. Qed.

(** ** Nodes that are taken for the key *)

(** the messages of the inner nodes *)
Fixpoint inner (n : node) : list key_message_t :=
  match n with
  | Null => []
  | Node m _ c0 c1 => if prefix_len m =? KEY_LEN_BITS then [] else m :: inner c0 ++ inner c1
  end.
Definition unmistaken (message : key_message_t) (n : node) : Prop := Forall (fun m => same_message m message = false) (inner n).

Lemma same_leaf_key m m' : prefix_len m = 64 -> prefix_len m' = 64 -> 0 <= min_prefix_len m <= 64 -> 0 <= min_prefix_len m' <= 64 -> key_ok (key m) -> key_ok (key m') ->
  same_message m m' = true -> key m = key m'.
Proof.
  intros P P' M M' K K'. unfold same_message, cmp_message, xor_begin. rewrite P, P'. unfold KEY_LEN_BITS. cbn [Z.eqb Pos.eqb].
  destruct (Z.ltb_spec (Z.min 64 64) (Z.max (min_prefix_len m) (min_prefix_len m'))); [lia|]. rewrite memcmp_key by done. by case_bool_decide.
Qed.
Lemma child_wf lo m ctx c0 c1 i : wf lo (Node m ctx c0 c1) -> prefix_len m < 64 -> wf (prefix_len m + 1) (child (Node m ctx c0 c1) i).
Proof. intros Hwf Hp. inversion Hwf; subst; [lia|]. unfold child. by destruct (_ =? _). Qed.
Lemma child_parts lo m ctx c0 c1 i : wf lo (Node m ctx c0 c1) -> prefix_len m < 64 ->
  (forall x, x ∈ leaves (child (Node m ctx c0 c1) i) -> x ∈ leaves (Node m ctx c0 c1)) /\ (forall x, x ∈ inner (child (Node m ctx c0 c1) i) -> x ∈ inner (Node m ctx c0 c1)).
Proof.
  intros Hwf Hp. rewrite (leaves_inner _ _ _ _ _ Hwf Hp). cbn [inner]. unfold KEY_LEN_BITS. destruct (Z.eqb_spec (prefix_len m) 64); [lia|].
  unfold child. destruct (i =? 0); split; intros x Hx; rewrite ?elem_of_cons, ?elem_of_app; auto.
Qed.
Lemma find_loop_found message fuel : forall lo n p m' ctx a b, wf lo n -> find_loop fuel n p message = Node m' ctx a b ->
  same_message m' message = true /\ (m' ∈ inner n \/ prefix_len m' = 64 /\ 0 <= min_prefix_len m' <= 64 /\ key_ok (key m') /\ key m' ∈ leaves n).
Proof.
  induction fuel as [|fuel IH]; intros lo n p m' ctx a b Hwf H; destruct (wf_node _ _ Hwf) as (m & x & c0 & c1 & ->); [done|]. cbn [find_loop] in H.
  destruct (wf_bounds _ _ _ _ _ Hwf) as (Hm & Hlo & H64 & Hk). destruct (same_message m message) eqn:Es.
  - injection H as <- _ _ _. split; [done|]. cbn [inner]. unfold KEY_LEN_BITS. destruct (Z.eqb_spec (prefix_len m) 64) as [E|_]; [|left; by left].
    right. split; [done|]. split; [lia|]. split; [done|]. destruct (leaves_leaf _ _ _ _ _ Hwf E) as (_ & _ & ->). by left.
  - unfold KEY_LEN_BITS in H. destruct (Z.eqb_spec (prefix_len m) 64); [done|]. destruct (p <? prefix_len m); [destruct (negb _); [done | by eapply IH]|].
    destruct (child_parts _ _ _ _ _ (sync_get_bits p PREFIX_STEP_BITS (key message)) Hwf ltac:(lia)) as [Hl Hi].
    apply (IH (prefix_len m + 1)) in H; [|apply (child_wf lo); [done | lia]]. destruct H as [Hs [H|(H1 & H2 & H3 & H4)]]; (split; [done|]); [left; auto | right; auto].
Qed.

(** ** Adding the key *)
Definition announced (k : sync_key_t) (lo : Z) : key_message_t := Message lo true 64 k.

(** the key is not mistaken in any tree of keys of the two sides *)
Definition plain (k : sync_key_t) (lo : Z) (w : world) : Prop :=
  forall t, wf_tree t -> (forall x, x ∈ leaves t -> x ∈ leaves (root (w_state w)) \/ x ∈ leaves (peer_root (w_peer w))) -> unmistaken (announced k lo) t.

Record learned (k : sync_key_t) (lo : Z) (w0 w : world) : Prop := {
  l_root : root (w_state w) = root (w_state w0);
  l_flag : has_callback (w_state w) = has_callback (w_state w0);
  l_peer : peer_context (w_peer w) = peer_context (w_peer w0);
  l_wf : wf_tree (peer_root (w_peer w));
  l_keep : forall x, x ∈ leaves (peer_root (w_peer w0)) -> x ∈ leaves (peer_root (w_peer w));
  l_keys : forall x, x ∈ leaves (peer_root (w_peer w)) -> x ∈ leaves (peer_root (w_peer w0)) \/ x ∈ leaves (root (w_state w0)) \/ x = k;
  l_log : exists events, w_log w = w_log w0 ++ events /\ Forall (fun e => outward e \/ e = Has (peer_context (w_peer w0)) k) events /\
    (unmistaken (announced k lo) (peer_root (w_peer w)) \/ plain k lo w0 -> k ∈ leaves (peer_root (w_peer w)) /\
      (has_callback (w_state w0) = true -> has_calls events = if bool_decide (k ∈ leaves (peer_root (w_peer w0))) then [] else [Has (peer_context (w_peer w0)) k]))
}.
(** the tree of the peer has the key already, or a node is taken for it *)
Lemma found_key k lo t : key_ok k -> 0 <= lo <= 64 -> wf_tree t -> is_null (find_message t (announced k lo)) = false -> unmistaken (announced k lo) t -> k ∈ leaves t.
Proof.
  intros Hk Hlo Hwf Hfound Hun. destruct Hwf as [->|Hwf]; [done|]. destruct (wf_node _ _ Hwf) as (m & x & c0 & c1 & ->). rewrite find_message_node in Hfound.
  destruct (find_loop _ _ _ _) as [|m' ctx a b] eqn:Ef; [done|]. apply (find_loop_found _ _ 0) in Ef as [Hsame [Hin|(Hp & Hmin & Hkm & Hin)]]; [| |done].
  - unfold unmistaken in Hun. rewrite List.Forall_forall in Hun. apply list_elem_of_In, Hun in Hin. congruence.
  - apply (same_leaf_key m' (announced k lo)) in Hsame; [|done..]. by rewrite Hsame in Hin.
Qed.
(** the calls when the key is added *)
Lemma peer_add_new k lo w : key_ok k -> 0 <= lo <= 64 -> wf_tree (peer_root (w_peer w)) -> is_null (find_message (peer_root (w_peer w)) (announced k lo)) = true ->
  exists w' calls, peer_add_key (announced k lo) w = Some (tt, w') /\ w_log w' = w_log w ++ calls /\
    root (w_state w') = root (w_state w) /\ has_callback (w_state w') = has_callback (w_state w) /\ peer_context (w_peer w') = peer_context (w_peer w) /\
    peer_root (w_peer w') = add_key k 0 false (peer_root (w_peer w)) /\
    Forall (fun e => outward e \/ e = Has (peer_context (w_peer w)) k) calls /\
    (has_callback (w_state w) = true -> has_calls calls = [Has (peer_context (w_peer w)) k]).
Proof.
  intros Hk Hlo Hwf Hnull. unfold peer_add_key. change (negb (prefix_len (announced k lo) =? KEY_LEN_BITS) || negb (stored (announced k lo))) with false. cbv iota.
  unfold sbind at 1, get at 1. cbv iota beta. destruct (find_message _ _); [clear Hnull | done].
  unfold sbind, peer_insert, on_peer, on_state, get, queue_message, notify. cbn [w_state w_peer w_log with_peer_root peer_root peer_context].
  change (has_callback (reset_progress (w_state w))) with (has_callback (w_state w)).
  destruct (has_callback (w_state w)) eqn:Ef; cbn [w_state w_peer w_log with_peer_root peer_root peer_context]; destruct (queue_callback (reset_progress (w_state w)));
    (eexists _; eexists; split; [reflexivity|]; cbn [w_state w_peer w_log with_peer_root peer_root peer_context];
     split; [rewrite <- ?app_assoc; cbn [app]; first [reflexivity | symmetry; apply app_nil_r] |]; do 4 (split; [first [reflexivity | exact Ef]|])).
  all: split; [repeat (apply List.Forall_cons; [first [exact (or_introl I) | right; reflexivity]|]); apply List.Forall_nil | first [discriminate | reflexivity]].
Qed.
Lemma peer_add_learned k lo w0 w : key_ok k -> 0 <= lo <= 64 -> k ∉ leaves (root (w_state w0)) -> calm w0 w -> safe (learned k lo w0) (peer_add_key (announced k lo)) w.
Proof.
  intros Hk Hlo Hnot [Hr Hf Hc Hwf Hs Hn (events & Hl & Hout)].
  assert (Forall (fun e => outward e \/ e = Has (peer_context (w_peer w0)) k) events) as Hev by (revert Hout; apply Forall_impl; auto).
  pose proof (has_calls_none _ (outward_not_has _ Hout)) as Hnone.
  destruct (is_null (find_message (peer_root (w_peer w)) (announced k lo))) eqn:Ef.
  - destruct (peer_add_new k lo w Hk Hlo Hwf Ef) as (w' & calls & Hrun & Hl' & Hr' & Hf' & Hc' & Hp' & Hcalls & Hhas). exists tt, w'. split; [exact Hrun|].
    assert (k ∉ leaves (peer_root (w_peer w))) as Hnew by (destruct (find_message _ _) eqn:E; [exact (not_found (announced k lo) _ eq_refl Hlo Hk Hwf E) | done]).
    destruct (add_key_spec k 0 false Hk _ Hwf Hnew) as [W L]. rewrite Hc in *. split; try congruence; rewrite ?Hp'.
    + intros x Hx. rewrite L. by apply list_elem_of_further, Hs.
    + intros x. rewrite L, elem_of_cons. intros [->|Hx]; [auto | destruct (Hn x Hx); auto].
    + exists (events ++ calls). split; [by rewrite Hl', Hl, app_assoc|]. split; [by apply Forall_app|]. intros _. split; [rewrite L; by left|]. intros Hcb.
      rewrite has_calls_app, Hnone, Hhas by congruence. by rewrite bool_decide_false by (intros Hin; by apply Hnew, Hs).
  - exists tt, w. split.
    { unfold peer_add_key. change (negb (prefix_len (announced k lo) =? KEY_LEN_BITS) || negb (stored (announced k lo))) with false. cbv iota.
      unfold sbind at 1, get at 1. cbv iota beta. by destruct (find_message _ _). }
    split; try done; [intros x Hx; destruct (Hn x Hx); auto|]. exists events. split; [done|]. split; [done|]. intros Hun.
    assert (k ∈ leaves (peer_root (w_peer w))) as Hin.
    { apply (found_key k lo); try done. destruct Hun as [Hun|Hun]; [done|]. apply Hun; [done|]. intros x Hx. destruct (Hn x Hx); auto. }
    split; [done|]. intros _. rewrite Hnone. destruct (Hn k Hin); [by rewrite bool_decide_true | done].
Qed.

(** ** The descent *)
Lemma same_message_sym a b : same_message a b = same_message b a.
Proof.
  unfold same_message, cmp_message. rewrite (Z.min_comm (prefix_len a)), (Z.max_comm (xor_begin a)).
  assert (forall s n, memcmp (key a) (key b) s n = memcmp (key b) (key a) s n) as E.
  { intros s n. unfold memcmp, streq. by rewrite (bool_decide_ext (_ = _) _ (conj (@eq_sym _ _ _) (@eq_sym _ _ _))). }
  by rewrite !E.
Qed.
Lemma skip_range_agree a b bound : key_ok a -> key_ok b -> bound <= 64 -> forall fuel p, 0 <= p <= bound -> bound - p < Z.of_nat fuel ->
  match skip_range fuel a b p bound with
  | (true, q) => p <= q < bound /\ kbit a q <> kbit b q
  | (false, q) => q = bound /\ forall i, p <= i < bound -> kbit a i = kbit b i
  end.
Proof.
  intros Ha Hb Hbound. induction fuel as [|fuel IH]; intros p Hp Hfuel; [lia|]. cbn [skip_range]. destruct (Z.ltb_spec p bound); [|split; [lia|]; intros; lia].
  rewrite get_bit_eq by (done || lia). destruct (Bool.eqb (kbit a p) (kbit b p)) eqn:E; cbn [negb].
  - apply eqb_prop in E. unfold PREFIX_STEP_BITS. pose proof (IH (p + 1) ltac:(lia) ltac:(lia)) as HI. destruct (skip_range _ _ _ _ _) as [[|] q]; [destruct HI as [HI Hne]; split; [lia | exact Hne]|].
    destruct HI as [-> HI]. split; [done|]. intros i Hi. destruct (Z.eq_dec i p) as [->|]; [done | apply HI; lia].
  - split; [lia|]. by apply eqb_false_iff.
Qed.
Lemma differences_leaf t message : wf_tree t -> prefix_len message = 64 -> exists part, remove_differences t message = (part, message) /\ part_of part t.
Proof.
  intros Hwf Hp. pose proof (remove_differences_part t message Hwf) as H. unfold remove_differences in *. destruct (_ || _); [by eexists|].
  destruct (differing_node _ _ _ _); [by eexists|]. rewrite Hp in *. change (64 <? KEY_LEN_BITS) with false in *. by eexists.
Qed.

Lemma received_context n : forall w r w', peer_has_received_all n w = Some (r, w') -> peer_context (w_peer w') = peer_context (w_peer w).
Proof.
  induction n as [|m ctx c0 IH0 c1 IH1]; intros w r w'; cbn [peer_has_received_all]; [by intros [= _ <-]|]. destruct (_ =? _).
  - destruct (stored m); [|by intros [= _ <-]]. unfold sbind, notify, peer_remove. destruct (now_has_callback _); cbn [w_peer]; destruct (remove_key _ _); try done; by intros [= _ <-].
  - unfold sbind. destruct (peer_has_received_all c0 w) as [[r0 w0]|] eqn:E0; [|done]. destruct (peer_has_received_all c1 w0) as [[r1 w1]|] eqn:E1; [|done].
    intros [= _ <-]. by rewrite (IH1 _ _ _ E1), (IH0 _ _ _ E0).
Qed.

Section Descent.
Variables (k : sync_key_t) (lo : Z) (part : node) (w0 : world).
Hypothesis Hk : key_ok k.
Hypothesis Hlo : 0 <= lo <= 64.
Let message := announced k lo.

(** nothing is said to be missing here; the peer is not known to lack the key any more *)
Record not_missing (w : world) : Prop := {
  n_root : root (w_state w) = root (w_state w0);
  n_flag : has_callback (w_state w) = has_callback (w_state w0);
  n_peer : peer_context (w_peer w) = peer_context (w_peer w0);
  n_wf : wf_tree (peer_root (w_peer w));
  n_keep : forall x, x ∈ leaves (peer_root (w_peer w0)) -> x = k \/ x ∈ leaves (peer_root (w_peer w));
  n_keys : forall x, x ∈ leaves (peer_root (w_peer w)) -> x ∈ leaves (peer_root (w_peer w0)) \/ x ∈ leaves (root (w_state w0));
  n_log : exists events, w_log w = w_log w0 ++ events /\ Forall (fun e => ~ is_has e) events
}.

(** the turn of the loop in which the node has been passed *)
Lemma pass_node (P : world -> Prop) fuel lo' m ctx c0 c1 p w : wf lo' (Node m ctx c0 c1) -> lo' <= p <= prefix_len m -> 67 - p <= Z.of_nat (S fuel) ->
  agree (prefix_len m) (key m) k -> prefix_len m < 64 -> (forall x, x ∈ leaves (Node m ctx c0 c1) -> x ∈ leaves (root (w_state w0))) ->
  same_message message m = false -> calm w0 w ->
  (forall w', calm w0 w' -> safe P (recv_loop message message part fuel (child (Node m ctx c0 c1) (Z.b2z (kbit k (prefix_len m)))) (prefix_len m + 1)) w') ->
  safe P (recv_loop message message part (S fuel) (Node m ctx c0 c1) p) w.
Proof.
  intros Hwf Hp Hfuel Ha H64 Hsub Hs Hw Hnext. destruct (wf_bounds _ _ _ _ _ Hwf) as (Hm & Hl & _ & Hkm). cbn [recv_loop]. rewrite Hs.
  change (prefix_len message) with 64. destruct (Z.leb_spec 64 p); [lia|]. replace (Z.min (prefix_len m) 64) with (prefix_len m) by lia.
  pose proof (skip_range_agree (key m) (key message) (prefix_len m) Hkm Hk ltac:(lia) 65 p ltac:(lia) ltac:(lia)) as Hskip.
  destruct (skip_range _ _ _ _ _) as [[|] q]; [exfalso; destruct Hskip as [Hq Hne]; apply Hne, Ha; lia|]. destruct Hskip as [-> _].
  destruct (Z.leb_spec 64 (prefix_len m)); [lia|]. change (key message) with k. rewrite get_bit by (done || lia).
  apply (safe_bind (calm w0)); [destruct (_ && _); [by eapply peer_missing_calm | by apply safe_ret]|]. intros [] w1 Hw1. specialize (Hnext w1 Hw1). unfold PREFIX_STEP_BITS.
  destruct (wf_node _ _ (child_wf _ _ _ _ _ (Z.b2z (kbit k (prefix_len m))) Hwf H64)) as (m' & x & a & b & ->) in Hnext |- *. exact Hnext.
Qed.

Lemma now_has_not_has events : Forall is_now_has events -> Forall (fun e => ~ is_has e) events.
Proof. apply Forall_impl. intros [| | |]; cbn; tauto. Qed.
Lemma quiet_end w : calm w0 w -> part_of part (peer_root (w_peer w0)) -> (forall x, x ∈ leaves part -> x = k) ->
  safe not_missing (let! received := peer_has_received_all part in if received =? 0 then on_state count_uninteresting else sret tt) w.
Proof.
  intros [Hr Hf Hc Hwf Hs Hn (e1 & Hl & Hfe)] Hpart Hpk.
  assert (exists r w', peer_has_received_all part w = Some (r, w') /\ quiet w w' /\ wf_tree (peer_root (w_peer w')) /\ peer_context (w_peer w') = peer_context (w_peer w) /\
    leaves (peer_root (w_peer w)) ≡ₚ sent_keys part ++ leaves (peer_root (w_peer w'))) as (r & w' & Hrun & [Qs (e2 & Ql & Qf)] & Hwf' & Hc' & HP).
  { destruct Hpart as [->|[[lo' Hwp] Hsub]]; [exists 0, w; do 2 (split; [by try apply quiet_refl|]); by split|].
    destruct (received_all_spec lo' part Hwp w Hwf) as (w' & Hrun & Hq & Hw' & HP); [auto|]. exists (Z.of_nat (length (sent_keys part))), w'. split; [exact Hrun|]. split; [exact Hq|].
    split; [exact Hw'|]. split; [by apply (received_context part _ _ _ Hrun) | exact HP]. }
  assert (not_missing w') as Hend.
  { split; try congruence.
    - intros x Hx. apply Hs in Hx. rewrite HP in Hx. apply elem_of_app in Hx as [Hx|Hx]; [left; by apply Hpk, sent_leaves | by right].
    - intros x Hx. apply Hn. rewrite HP. apply elem_of_app. by right.
    - exists (e1 ++ e2). rewrite Ql, Hl, app_assoc. split; [done|]. apply Forall_app. split; [by apply outward_not_has | by apply now_has_not_has]. }
  unfold safe, sbind. rewrite Hrun. destruct (r =? 0); [|by exists tt, w']. eexists tt, _. split; [reflexivity|]. destruct Hend. by split.
Qed.
Lemma child_of lo' m ctx c0 c1 : wf lo' (Node m ctx c0 c1) -> prefix_len m < 64 -> k ∈ leaves (Node m ctx c0 c1) ->
  agree (prefix_len m) (key m) k /\ k ∈ leaves (child (Node m ctx c0 c1) (Z.b2z (kbit k (prefix_len m)))).
Proof.
  intros Hwf H64 Hin. pose proof (wf_prefix _ _ _ _ _ Hwf) as Hpre. rewrite List.Forall_forall in Hpre. split; [apply agree_sym, Hpre; by apply list_elem_of_In|].
  rewrite (leaves_inner _ _ _ _ _ Hwf H64) in Hin. rewrite child_bit. inversion Hwf as [|? ? ? ? ? _ _ _ _ H0 H1 B0 B1 _]; subst; [lia|].
  unfold below in *. rewrite List.Forall_forall in B0, B1.
  apply elem_of_app in Hin as [Hin|Hin]; [pose proof (proj2 (B0 _ ltac:(by apply list_elem_of_In))) as -> | pose proof (proj2 (B1 _ ltac:(by apply list_elem_of_In))) as ->]; done.
Qed.
Lemma descent_known fuel : forall lo' n p w, wf lo' n -> lo' <= p -> 67 - p <= Z.of_nat fuel -> (match n with Node m _ _ _ => p <= prefix_len m | Null => True end) ->
  (forall x, x ∈ leaves n -> x ∈ leaves (root (w_state w0))) -> k ∈ leaves n -> part_of part (peer_root (w_peer w0)) -> (forall x, x ∈ leaves part -> x = k) -> calm w0 w ->
  safe not_missing (recv_loop message message part fuel n p) w.
Proof.
  induction fuel as [|fuel IH]; intros lo' n p w Hwf Hp Hfuel Hpm Hsub Hin Hpart Hpk Hw; destruct (wf_node _ _ Hwf) as (m & ctx & c0 & c1 & ->); destruct (wf_bounds _ _ _ _ _ Hwf) as (Hm & Hl & H64 & Hkm); [lia|].
  destruct (same_message message m) eqn:Es; [cbn [recv_loop]; rewrite Es; by apply quiet_end|].
  destruct (Z.eq_dec (prefix_len m) 64) as [E|E].
  - exfalso. destruct (leaves_leaf _ _ _ _ _ Hwf E) as (_ & _ & El). rewrite El in Hin. apply list_elem_of_singleton in Hin.
    rewrite (same_leaf message m) in Es; [done | done | done | exact Hlo | lia | exact Hin].
  - destruct (child_of _ _ _ _ _ Hwf ltac:(lia) Hin) as [Ha Hc]. apply (pass_node _ _ lo'); try (done || lia). intros w' Hw'.
    destruct (child_parts _ _ _ _ _ (Z.b2z (kbit k (prefix_len m))) Hwf ltac:(lia)) as [Hcl _]. pose proof (child_wf _ _ _ _ _ (Z.b2z (kbit k (prefix_len m))) Hwf ltac:(lia)) as Hcw.
    apply (IH (prefix_len m + 1)); try (done || lia); [|auto]. destruct (wf_node _ _ Hcw) as (m' & x & a & b & Ec). rewrite Ec in *. destruct (wf_bounds _ _ _ _ _ Hcw). lia.
Qed.

Lemma child_agree lo' m ctx c0 c1 : wf lo' (Node m ctx c0 c1) -> prefix_len m < 64 -> agree (prefix_len m) (key m) k ->
  match child (Node m ctx c0 c1) (Z.b2z (kbit k (prefix_len m))) with Node m' _ _ _ => prefix_len m + 1 <= prefix_len m' /\ agree (prefix_len m + 1) (key m') k | Null => True end.
Proof.
  intros Hwf H64 Ha. pose proof (child_wf _ _ _ _ _ (Z.b2z (kbit k (prefix_len m))) Hwf H64) as Hcw. destruct (wf_bounds _ _ _ _ _ Hwf) as (_ & Hl & _ & _).
  assert (below (prefix_len m) k (kbit k (prefix_len m)) (leaves (child (Node m ctx c0 c1) (Z.b2z (kbit k (prefix_len m)))))) as Hb.
  { rewrite child_bit. inversion Hwf as [|? ? ? ? ? _ _ _ _ _ _ B0 B1 _]; subst; [lia|]. apply (below_shift _ (key m)); [done|]. by destruct (kbit k _). }
  destruct (wf_node _ _ Hcw) as (m' & x & a & b & Ec). rewrite Ec in *. destruct (wf_bounds _ _ _ _ _ Hcw) as (_ & Hl' & _ & _). split; [lia|].
  destruct (wf_leaves_ok _ _ Hcw) as [_ Hne]. destruct (leaves (Node m' x a b)) as [|y ys] eqn:El; [done|].
  pose proof (wf_prefix _ _ _ _ _ Hcw) as Hpre. rewrite El in Hpre. apply Forall_cons_iff in Hpre as [Hy _]. apply below_next in Hb; [|done]. apply Forall_cons_iff in Hb as [Hyk _].
  apply (agree_trans _ _ y); [|exact Hyk]. apply agree_sym. apply (agree_le _ (prefix_len m')); [lia | exact Hy].
Qed.
(** the part of the tree of the peer that the message is about is the leaf of the key *)
Lemma differing_key fuel : forall lo' n p, wf lo' n -> 0 <= p -> (match n with Node m _ _ _ => p <= prefix_len m /\ agree p (key m) k | Null => True end) ->
  forall x, x ∈ leaves (differing_node fuel n p message) -> x = k.
Proof.
  induction fuel as [|fuel IH]; intros lo' n p Hwf Hp Hpm x; destruct (wf_node _ _ Hwf) as (m & ctx & c0 & c1 & ->); destruct (wf_bounds _ _ _ _ _ Hwf) as (Hm & Hl & H64 & Hkm);
    [by intros ?%not_elem_of_nil|]. destruct Hpm as [Hpm Ha]. cbn [differing_node]. change (prefix_len message) with 64. change (key message) with k. unfold KEY_LEN_BITS, PREFIX_STEP_BITS.
  destruct (Z.eqb_spec (prefix_len m) 64) as [E|E]; cbn [andb Z.eqb Pos.eqb].
  - destruct (leaves_leaf _ _ _ _ _ Hwf E) as (_ & _ & El). destruct (Z.ltb_spec p 64); cbn [negb].
    + destruct (same_message message m) eqn:Es; [|by intros ?%not_elem_of_nil]. rewrite El. intros ->%list_elem_of_singleton.
      symmetry. apply (same_leaf_key message m); (done || lia).
    + rewrite El. intros ->%list_elem_of_singleton. apply key_ext; [done..|]. intros i Hi. apply Ha. lia.
  - destruct (Z.ltb_spec p 64); cbn [negb]; [|lia]. rewrite !get_bit_eq by (done || lia). destruct (Z.ltb_spec p (prefix_len m)).
    + destruct (Bool.eqb (kbit (key m) p) (kbit k p)) eqn:Eb; cbn [negb]; [|by intros ?%not_elem_of_nil].
      apply (IH lo'); [done | lia|]. split; [lia|]. apply agree_succ; [done|]. by apply eqb_prop.
    + assert (p = prefix_len m) as -> by lia. rewrite get_bit by (done || lia). pose proof (child_agree lo' m ctx c0 c1 Hwf ltac:(lia) Ha) as Hc.
      apply (IH (prefix_len m + 1)); [apply (child_wf lo'); [done | lia] | lia | exact Hc].
Qed.
Lemma not_same m ctx c0 c1 lo' : wf lo' (Node m ctx c0 c1) -> unmistaken message (Node m ctx c0 c1) -> k ∉ leaves (Node m ctx c0 c1) -> same_message message m = false.
Proof.
  intros Hwf Hun Hnot. destruct (wf_bounds _ _ _ _ _ Hwf) as (Hm & Hl & H64 & Hkm). unfold unmistaken in Hun. cbn [inner] in Hun. unfold KEY_LEN_BITS in Hun.
  destruct (Z.eqb_spec (prefix_len m) 64) as [E|E]; [|rewrite same_message_sym; by apply Forall_cons_iff in Hun as [Hun _]].
  destruct (leaves_leaf _ _ _ _ _ Hwf E) as (_ & _ & El). rewrite El in Hnot. destruct (same_message message m) eqn:Es; [|done].
  apply same_leaf_key in Es; [|try done; lia..]. exfalso. apply Hnot, list_elem_of_singleton. exact Es.
Qed.
Lemma descent_learned fuel : k ∉ leaves (root (w_state w0)) -> forall lo' n p w, wf lo' n -> lo' <= p -> 67 - p <= Z.of_nat fuel -> (match n with Node m _ _ _ => p <= prefix_len m /\ agree p (key m) k | Null => True end) ->
  (forall x, x ∈ leaves n -> x ∈ leaves (root (w_state w0))) -> unmistaken message n -> calm w0 w ->
  safe (learned k lo w0) (recv_loop message message part fuel n p) w.
Proof.
  intros Hnot. induction fuel as [|fuel IH]; intros lo' n p w Hwf Hp Hfuel Hpm Hsub Hun Hw; destruct (wf_node _ _ Hwf) as (m & ctx & c0 & c1 & ->); destruct (wf_bounds _ _ _ _ _ Hwf) as (Hm & Hl & H64 & Hkm); [lia|].
  destruct Hpm as [Hpm Ha]. assert (k ∉ leaves (Node m ctx c0 c1)) as Hnot' by auto. pose proof (not_same _ _ _ _ _ Hwf Hun Hnot') as Es.
  assert (prefix_len m = 64 -> ~ agree 64 (key m) k) as Hleaf.
  { intros E Hag. destruct (leaves_leaf _ _ _ _ _ Hwf E) as (_ & _ & El). rewrite El in Hnot'. apply Hnot', list_elem_of_singleton. symmetry. by apply key_ext. }
  pose proof (skip_range_agree (key m) k (prefix_len m) Hkm Hk ltac:(lia) 65 p ltac:(lia) ltac:(lia)) as Hskip.
  destruct (skip_range 65 (key m) k p (prefix_len m)) as [[|] q] eqn:Eq.
  - cbn [recv_loop]. rewrite Es. change (prefix_len message) with 64. replace (Z.min (prefix_len m) 64) with (prefix_len m) by lia. change (key message) with k. rewrite Eq.
    destruct (Z.leb_spec 64 p); [lia|]. change (negb (64 =? KEY_LEN_BITS)) with false. change (64 =? KEY_LEN_BITS) with true. cbv iota.
    apply (safe_bind (calm w0)); [|intros [] w1 H1; by apply peer_add_learned].
    destruct (_ && _); [|by apply safe_ret]. apply (safe_bind (calm w0)); [by eapply peer_missing_calm | intros [] w1 H1; by apply safe_ret].
  - destruct Hskip as [_ Hskip]. assert (agree (prefix_len m) (key m) k) as Hag by (intros i Hi; destruct (Z.lt_ge_cases i p); [apply Ha; lia | apply Hskip; lia]).
    destruct (Z.eq_dec (prefix_len m) 64) as [E|E]; [by destruct (Hleaf E); rewrite <- E|]. apply (pass_node _ _ lo'); try (done || lia). intros w' Hw'.
    set (i := Z.b2z (kbit k (prefix_len m))). destruct (child_parts _ _ _ _ _ i Hwf ltac:(lia)) as [Hcl Hci]. pose proof (child_wf _ _ _ _ _ i Hwf ltac:(lia)) as Hcw.
    apply (IH (prefix_len m + 1)); try (done || lia); [|auto|].
    + apply (child_agree lo'); [done | lia | done].
    + unfold unmistaken in *. rewrite List.Forall_forall in *. intros x Hx. apply list_elem_of_In in Hx. by apply Hun, list_elem_of_In, Hci.
Qed.
End Descent.

(** ** Property *)
Lemma parse_announced k lo : key_ok k -> 0 <= lo <= 64 -> parse_message (message_bytes (announced k lo)) = announced k lo.
Proof. intros Hk Hlo. rewrite <- (app_nil_r (message_bytes _)). apply parse_message_bytes; cbn; (done || lia). Qed.
Lemma length_announced k lo : key_ok k -> length (message_bytes (announced k lo)) = 10%nat.
Proof. intros [Hl _]. cbn [message_bytes length announced key]. by rewrite Hl. Qed.
Lemma differences_key k lo t : key_ok k -> 0 <= lo <= 64 -> wf_tree t -> forall x, x ∈ leaves (fst (remove_differences t (announced k lo))) -> x = k.
Proof.
  intros Hk Hlo Hwf x. unfold remove_differences. destruct Hwf as [->|Hwf]; [by intros ?%not_elem_of_nil|]. destruct (_ || _); [by intros ?%not_elem_of_nil|].
  destruct (wf_node _ _ Hwf) as (m & ctx & c0 & c1 & ->). destruct (wf_bounds _ _ _ _ _ Hwf) as (_ & Hl & _).
  pose proof (differing_key k lo Hk Hlo 66 0 (Node m ctx c0 c1) 0 Hwf ltac:(lia)) as Hd. cbv zeta in Hd.
  destruct (differing_node _ _ _ _) as [|m' ctx' a b]; [by intros ?%not_elem_of_nil|]. change (prefix_len (announced k lo) <? KEY_LEN_BITS) with false. cbv iota.
  apply Hd. split; [lia|]. intros i Hi. lia.
Qed.
Lemma announced_received k lo w : key_ok k -> 0 <= lo <= 64 -> wf_tree (root (w_state w)) -> wf_tree (peer_root (w_peer w)) ->
  (k ∈ leaves (root (w_state w)) -> exists w', recv_key (announced k lo) w = Some (0, w') /\ not_missing k w w') /\
  (k ∉ leaves (root (w_state w)) -> unmistaken (announced k lo) (root (w_state w)) -> exists w', recv_key (announced k lo) w = Some (0, w') /\ learned k lo w w').
Proof.
  intros Hk Hlo Hr Hp. assert (forall P, (root (w_state w) = Null -> safe P (peer_add_key (announced k lo)) (World (count_record (w_state w)) (w_peer w) (w_log w))) ->
    (forall part, part_of part (peer_root (w_peer w)) -> (forall x, x ∈ leaves part -> x = k) -> root (w_state w) <> Null -> safe P (recv_loop (announced k lo) (announced k lo) part 132 (root (w_state w)) 0) (World (count_record (w_state w)) (w_peer w) (w_log w))) ->
    exists w', recv_key (announced k lo) w = Some (0, w') /\ P w') as Hrun.
  { intros P Hnull Hnode. unfold recv_key. change (min_prefix_len (announced k lo)) with lo. change (prefix_len (announced k lo)) with 64. unfold KEY_LEN_BITS. destruct (Z.gtb_spec lo 64); [lia|]. change (64 >? 64 + 1) with false. cbn [orb].
    unfold sbind at 1, on_state at 1. cbv iota beta. unfold sbind at 1, get at 1. cbv iota beta. cbn [w_state w_peer]. change (root (count_record (w_state w))) with (root (w_state w)).
    destruct (root (w_state w)) as [|m ctx c0 c1].
    - destruct (Hnull eq_refl) as ([] & w' & Hw & HP). exists w'. unfold sbind. by rewrite Hw.
    - change (64 =? 64 + 1) with false. cbv iota. unfold sbind at 1, get at 1. cbv iota beta. cbn [w_peer].
      pose proof (differences_key k lo (peer_root (w_peer w)) Hk Hlo Hp) as Hpk. destruct (differences_leaf (peer_root (w_peer w)) (announced k lo) Hp eq_refl) as (part & E & Hpart). rewrite E in *. destruct (Hnode part Hpart Hpk ltac:(done)) as ([] & w' & Hw & HP). exists w'. unfold sbind. by rewrite Hw. }
  assert (calm w (World (count_record (w_state w)) (w_peer w) (w_log w))) as Hcalm by (split; try done; [by left | exists []; by rewrite app_nil_r]).
  assert (forall n, wf 0 n -> match n with Node m _ _ _ => 0 <= prefix_len m /\ agree 0 (key m) k | Null => True end) as H0.
  { intros n Hn. destruct (wf_node _ _ Hn) as (m & x & a & b & ->). destruct (wf_bounds _ _ _ _ _ Hn) as (_ & Hl & _). split; [lia|]. intros i Hi. lia. }
  split; intros Hin.
  - apply Hrun; [intros E; rewrite E in Hin; by apply not_elem_of_nil in Hin|]. intros part Hpart Hpk Hne. destruct Hr as [|Hr]; [done|].
    apply (descent_known k lo part w Hk Hlo 132 0); try (done || lia). specialize (H0 _ Hr). destruct (root (w_state w)); [done | apply H0].
  - intros Hun. apply Hrun; [intros _; by apply peer_add_learned|]. intros part Hpart Hpk Hne. destruct Hr as [|Hr]; [done|].
    apply (descent_learned k lo part w Hk Hlo 132 Hin 0); try (done || lia). by apply H0.
Qed.

(** A key that a peer announces is noticed.  When the key is in the own set,
    handling its record calls has for no key.  When it is not, it is afterwards among
    the keys that the peer is known to have, and has is called for it if it was not
    before.  It holds for keys that no inner node of the trees is mistaken for, as
    cmp_message compares nodes. *)
Theorem sync_key_announced w k lo : key_ok k -> 0 <= lo <= 64 -> wf_tree (root (w_state w)) -> wf_tree (peer_root (w_peer w)) ->
  unmistaken (announced k lo) (root (w_state w)) ->
  exists w' events, sync_recv_message (message_bytes (announced k lo)) w = Some (0, w') /\ root (w_state w') = root (w_state w) /\ w_log w' = w_log w ++ events /\
    (k ∈ leaves (root (w_state w)) -> Forall (fun e => ~ is_has e) events) /\
    (k ∉ leaves (root (w_state w)) -> unmistaken (announced k lo) (peer_root (w_peer w')) -> k ∈ leaves (peer_root (w_peer w')) /\
      (k ∉ leaves (peer_root (w_peer w)) -> has_callback (w_state w) = true -> Has (peer_context (w_peer w)) k ∈ events)).
Proof.
  intros Hk Hlo Hr Hp Hun. destruct (announced_received k lo w Hk Hlo Hr Hp) as [Hin Hout].
  pose proof (parse_announced k lo Hk Hlo) as Hparse. pose proof (length_announced k lo Hk) as Hlen.
  destruct (decide (k ∈ leaves (root (w_state w)))) as [H|H].
  - destruct (Hin H) as (w' & Hrecv & [Hroot _ _ _ _ _ (events & Hlog & Hf)]). exists w', events. rewrite <- Hparse in Hrecv. split; [exact (recv_one_record _ w 0 w' Hlen Hrecv)|]. done.
  - destruct (Hout H Hun) as (w' & Hrecv & [Hroot _ _ _ _ _ (events & Hlog & _ & Hl)]). exists w', events. rewrite <- Hparse in Hrecv. split; [exact (recv_one_record _ w 0 w' Hlen Hrecv)|].
    do 3 (split; [done|]). intros _ Hun'. destruct (Hl (or_introl Hun')) as [Hink Hcalls]. split; [done|]. intros Hno Hcb.
    apply has_calls_in. rewrite (Hcalls Hcb), bool_decide_false by done. by left.
Qed.

(** ** The keys of a packet *)
Record heard (k : sync_key_t) (w0 w : world) : Prop := {
  h_root : root (w_state w) = root (w_state w0);
  h_flag : has_callback (w_state w) = has_callback (w_state w0);
  h_peer : peer_context (w_peer w) = peer_context (w_peer w0);
  h_wf : wf_tree (peer_root (w_peer w));
  h_known : forall x, x ∈ leaves (root (w_state w0)) ++ leaves (peer_root (w_peer w)) <-> x = k \/ x ∈ leaves (root (w_state w0)) ++ leaves (peer_root (w_peer w0));
  h_log : exists events, w_log w = w_log w0 ++ events /\
    has_calls events = if bool_decide (k ∈ leaves (root (w_state w0)) ++ leaves (peer_root (w_peer w0))) then [] else [Has (peer_context (w_peer w0)) k]
}.
Lemma recv_heard k lo w : key_ok k -> 0 <= lo <= 64 -> wf_tree (root (w_state w)) -> wf_tree (peer_root (w_peer w)) -> has_callback (w_state w) = true -> plain k lo w ->
  exists w', recv_key (parse_message (message_bytes (announced k lo))) w = Some (0, w') /\ heard k w w'.
Proof.
  intros Hk Hlo Hr Hp Hf Hplain. rewrite parse_announced by done. destruct (announced_received k lo w Hk Hlo Hr Hp) as [Hin Hout].
  destruct (decide (k ∈ leaves (root (w_state w)))) as [H|H].
  - destruct (Hin H) as (w' & Hrecv & [Hroot Hflag Hc Hwf Hkeep Hkeys (events & Hlog & Hev)]). exists w'. split; [done|]. split; try done.
    + intros x. rewrite !elem_of_app. split; [intros [Hx|Hx]; [auto | destruct (Hkeys x Hx); auto]|]. intros [->|[Hx|Hx]]; [auto..|]. destruct (Hkeep x Hx) as [->|]; auto.
    + exists events. split; [done|]. rewrite bool_decide_true by (apply elem_of_app; by left). by apply has_calls_none.
  - destruct (Hout H) as (w' & Hrecv & [Hroot Hflag Hc Hwf Hkeep Hkeys (events & Hlog & _ & Hl)]); [apply Hplain; [exact Hr | by left]|].
    destruct (Hl (or_intror Hplain)) as [Hink Hcalls]. exists w'. split; [done|]. split; try done.
    + intros x. rewrite !elem_of_app. split; [intros [Hx|Hx]; [auto | destruct (Hkeys x Hx) as [|[|]]; auto]|]. intros [->|[Hx|Hx]]; auto.
    + exists events. split; [done|]. rewrite (Hcalls Hf).
      rewrite (bool_decide_ext (k ∈ leaves (root (w_state w)) ++ _) (k ∈ leaves (peer_root (w_peer w)))); [done|]. rewrite elem_of_app. tauto.
Qed.

(** the keys that are new, in their order *)
Fixpoint fresh (known ks : list sync_key_t) : list sync_key_t :=
  match ks with
  | [] => []
  | k :: ks => if decide (k ∈ known) then fresh known ks else k :: fresh (k :: known) ks
  end.
Lemma fresh_ext ks : forall a b, (forall x, x ∈ a <-> x ∈ b) -> fresh a ks = fresh b ks.
Proof.
  induction ks as [|k ks IH]; intros a b H; [done|]. cbn [fresh]. destruct (decide (k ∈ a)) as [Ha|Ha]; destruct (decide (k ∈ b)) as [Hb|Hb]; [by apply IH | by apply H in Ha | by apply H in Hb|].
  f_equal. apply IH. intros x. rewrite !elem_of_cons, H. tauto.
Qed.
Lemma fresh_in x ks : forall known, x ∈ fresh known ks <-> x ∈ ks /\ x ∉ known.
Proof.
  induction ks as [|k ks IH]; intros known; cbn [fresh]; [rewrite elem_of_nil; tauto|]. destruct (decide (k ∈ known)) as [Hk|Hk].
  - rewrite IH, elem_of_cons. split; [tauto|]. intros [[->|H] Hn]; tauto.
  - rewrite !elem_of_cons, IH, elem_of_cons. destruct (decide (x = k)) as [->|]; tauto.
Qed.

Definition record_of (r : sync_key_t * Z) : list Z := message_bytes (announced (fst r) (snd r)).
Definition record_ok (r : sync_key_t * Z) : Prop := key_ok (fst r) /\ 0 <= snd r <= 64.
(** no key of the packet is mistaken in any tree of keys that are there, or come *)
Definition all_plain (rs : list (sync_key_t * Z)) (w : world) : Prop :=
  forall t, wf_tree t -> (forall x, x ∈ leaves t -> x ∈ leaves (root (w_state w)) ++ leaves (peer_root (w_peer w)) \/ x ∈ map fst rs) ->
  Forall (fun r => unmistaken (announced (fst r) (snd r)) t) rs.

Lemma length_record r : record_ok r -> length (record_of r) = 10%nat.
Proof. intros [Hk _]. by apply length_announced. Qed.
Lemma length_packet rs : Forall record_ok rs -> length (flat_map record_of rs) = (10 * length rs)%nat.
Proof. induction 1 as [|r rs Hr _ IH]; [done|]. cbn [flat_map length]. rewrite length_app, IH, (length_record _ Hr). lia. Qed.
Lemma packet_heard rs : Forall record_ok rs -> forall fuel w, (length rs < fuel)%nat -> wf_tree (root (w_state w)) -> wf_tree (peer_root (w_peer w)) ->
  has_callback (w_state w) = true -> all_plain rs w ->
  exists w' events, recv_records fuel (flat_map record_of rs) w = Some (0, w') /\ root (w_state w') = root (w_state w) /\ w_log w' = w_log w ++ events /\
    has_calls events = map (Has (peer_context (w_peer w))) (fresh (leaves (root (w_state w)) ++ leaves (peer_root (w_peer w))) (map fst rs)) /\
    forall x, x ∈ leaves (root (w_state w)) ++ leaves (peer_root (w_peer w')) <-> x ∈ map fst rs \/ x ∈ leaves (root (w_state w)) ++ leaves (peer_root (w_peer w)).
Proof.
  induction 1 as [|[k lo] rs Hok Hrs IH]; intros fuel w Hfuel Hr Hp Hf Hplain; (destruct fuel as [|fuel]; [cbn [length] in Hfuel; lia|]); cbn [recv_records flat_map map fst fresh].
  { exists w, []. split; [done|]. split; [done|]. split; [by rewrite app_nil_r|]. split; [done|]. intros x. rewrite elem_of_nil. tauto. }
  pose proof (length_record _ Hok) as Hlen. destruct Hok as [Hk Hlo]. cbn [fst snd length] in *. destruct (Z.ltb_spec (Z.of_nat (length (record_of (k, lo) ++ flat_map record_of rs))) MESSAGE_BYTES) as [H|_];
    [rewrite length_app, Hlen in H; change MESSAGE_BYTES with 10 in H; lia|].
  rewrite firstn_app, Hlen, Nat.sub_diag, firstn_O, app_nil_r, firstn_all2 by (rewrite Hlen; lia). rewrite skipn_app, Hlen, Nat.sub_diag, skipn_O, (skipn_all2 (record_of _)) by (rewrite Hlen; lia). cbn [app].
  destruct (recv_heard k lo w Hk Hlo Hr Hp Hf) as (w1 & Hrecv & [Hroot Hflag Hc Hwf Hknown (e1 & Hlog & Hcalls)]).
  { intros t Ht Hsub. apply (Forall_inv (Hplain t Ht ltac:(intros x Hx; left; apply elem_of_app; auto))). }
  unfold sbind, record_of at 1. cbn [fst snd]. rewrite Hrecv. change (0 =? -1) with false. cbv iota.
  destruct (IH fuel w1) as (w' & e2 & Hrun & Hroot' & Hlog' & Hcalls' & Hknown'); [lia | by rewrite Hroot | done | by rewrite Hflag | |].
  { intros t Ht Hsub. apply (Forall_inv_tail (Hplain t Ht ltac:(intros x Hx; destruct (Hsub x Hx) as [H|H]; [rewrite Hroot in H; apply Hknown in H as [->|H]; [right; by left | by left] | right; by right]))). }
  rewrite Hroot, Hc in *. exists w', (e1 ++ e2). split; [done|]. split; [done|]. split; [by rewrite Hlog', Hlog, app_assoc|]. split.
  - rewrite has_calls_app, Hcalls, Hcalls'. destruct (decide (k ∈ _)) as [Hin|Hin]; [rewrite bool_decide_true by done | rewrite bool_decide_false by done]; cbn [map app].
    + f_equal. apply fresh_ext. intros x. rewrite Hknown. split; [by intros [->|H] | auto].
    + do 2 f_equal. apply fresh_ext. intros x. by rewrite Hknown, elem_of_cons.
  - intros x. rewrite Hknown', Hknown, elem_of_cons. tauto.
Qed.

(** *** Keys that are not mistaken

    When the prefix of a record ends before the last byte, that byte is compared with
    every node.  Keys that have a bit of their own there are never mistaken. *)
Lemma memcmp_last a b s : length a = 8%nat -> length b = 8%nat -> 0 <= s <= 7 -> memcmp a b s (KEY_LEN - s) = 0 -> rd a 7 = rd b 7.
Proof.
  intros La Lb Hs. unfold memcmp, streq. destruct (bool_decide_reflect (firstn (Z.to_nat (KEY_LEN - s)) (skipn (Z.to_nat s) a) = firstn (Z.to_nat (KEY_LEN - s)) (skipn (Z.to_nat s) b))) as [E|]; [|done]. intros _.
  unfold KEY_LEN in E. rewrite !firstn_all2 in E by (rewrite length_skipn; lia). rewrite !rd_nth by lia. change (Z.to_nat 7) with 7%nat.
  replace 7%nat with (Z.to_nat s + (7 - Z.to_nat s))%nat by lia. by rewrite <- !nth_skipn, E.
Qed.
Lemma same_last m k lo : key_ok (key m) -> key_ok k -> 0 <= lo <= 56 -> 0 <= prefix_len m < 64 -> same_message m (announced k lo) = true -> forall i, 56 <= i < 64 -> kbit (key m) i = kbit k i.
Proof.
  intros [Lm _] [Lk _] Hlo Hm Hs i Hi. assert (rd (key m) 7 = rd k 7) as E; [|unfold kbit; replace (i / 8) with 7 by divmod; by rewrite E].
  unfold same_message, cmp_message, xor_begin in Hs. change (prefix_len (announced k lo)) with 64 in Hs. change (min_prefix_len (announced k lo)) with lo in Hs. change (key (announced k lo)) with k in Hs.
  unfold KEY_LEN_BITS in Hs. destruct (Z.eqb_spec (prefix_len m) 64); [lia|]. cbn [Z.eqb Pos.eqb] in Hs. replace (Z.min (prefix_len m) 64) with (prefix_len m) in Hs by lia.
  destruct (Z.ltb_spec (prefix_len m) (Z.max (prefix_len m) lo)).
  - destruct (_ && _); [done|]. set (s := Z.shiftr _ 3) in Hs. assert (0 <= s <= 7) as Hb by (subst s; rewrite Z.shiftr_div_pow2 by lia; change (2 ^ 3) with 8; divmod).
    destruct (Z.ltb_spec s KEY_LEN); [|unfold KEY_LEN in *; lia]. cbn [andb] in Hs. apply (memcmp_last _ _ s); try done.
    unfold nz in Hs. destruct (Z.eqb_spec (memcmp (key m) k s (KEY_LEN - s)) 0); [done | by rewrite bool_decide_false in Hs || done].
  - apply Z.eqb_eq in Hs. by apply (memcmp_last _ _ 0).
Qed.

(** each of the keys has a bit of the last byte that the others have not *)
Definition private (l : list sync_key_t) : Prop := Forall (fun x => exists i, 56 <= i < 64 /\ kbit x i = true /\ Forall (fun y => y = x \/ kbit y i = false) l) l.
Lemma xor_bits_none i l : Forall (fun y => kbit y i = false) l -> xor_bits i l = false.
Proof. induction 1 as [|y l Hy _ IH]; [done|]. unfold xor_bits in *. cbn [fold_right]. by rewrite Hy, IH. Qed.
Lemma xor_bits_single i x l : NoDup l -> x ∈ l -> kbit x i = true -> (forall y, y ∈ l -> y = x \/ kbit y i = false) -> xor_bits i l = true.
Proof.
  intros Hnd Hin Hx Hl. induction Hnd as [|y l Hy Hnd IH]; [by apply not_elem_of_nil in Hin|]. change (xor_bits i (y :: l)) with (xorb (kbit y i) (xor_bits i l)).
  destruct (decide (y = x)) as [->|Hne].
  - rewrite Hx, xor_bits_none; [done|]. apply List.Forall_forall. intros z Hz. apply list_elem_of_In in Hz. destruct (Hl z ltac:(by right)) as [->|]; done.
  - apply elem_of_cons in Hin as [->|Hin]; [done|]. destruct (Hl y ltac:(by left)) as [|Hy0]; [done|]. rewrite Hy0, IH; [done | done|]. intros z Hz. apply Hl. by right.
Qed.
Lemma private_unmistaken keys k lo : private keys -> k ∈ keys -> key_ok k -> 0 <= lo <= 56 -> forall t, wf_tree t -> (forall x, x ∈ leaves t -> x ∈ keys) -> unmistaken (announced k lo) t.
Proof.
  intros Hpriv Hin Hk Hlo. assert (forall lo' t, wf lo' t -> (forall x, x ∈ leaves t -> x ∈ keys) -> unmistaken (announced k lo) t) as H.
  2: { intros t [->|Hwf] Hsub; [by apply List.Forall_nil | by eapply H]. }
  unfold unmistaken. induction 1 as [lo' m ctx Hm Hl Hp Hkm | lo' m ctx c0 c1 Hm Hl Hp Hkm H0 IH0 H1 IH1 B0 B1 Hx]; intros Hsub; cbn [inner].
  { rewrite Hp. by apply List.Forall_nil. }
  assert (wf lo' (Node m ctx c0 c1)) as Hwf by (by apply wf_inner). pose proof (leaves_inner _ _ _ _ _ Hwf Hp) as El. rewrite El in Hsub.
  unfold KEY_LEN_BITS. destruct (Z.eqb_spec (prefix_len m) 64); [lia|]. apply List.Forall_cons.
  2: { apply Forall_app. split; [apply IH0 | apply IH1]; intros x Hx'; apply Hsub, elem_of_app; auto. }
  destruct (same_message m (announced k lo)) eqn:Es; [exfalso | done]. pose proof (same_last m k lo Hkm Hk Hlo ltac:(lia) Es) as Hlast.
  assert (exists x, x ∈ leaves c0 ++ leaves c1 /\ x <> k) as (x & Hxin & Hne).
  { destruct (wf_leaves_ok _ _ H0) as [_ N0], (wf_leaves_ok _ _ H1) as [_ N1]. destruct (leaves c0) as [|x0 l0]; [done|]. destruct (leaves c1) as [|x1 l1]; [done|].
    apply Forall_cons_iff in B0 as [[_ E0] _]. apply Forall_cons_iff in B1 as [[_ E1] _].
    destruct (decide (x0 = k)) as [->|]; [|exists x0; split; [by left | done]]. exists x1. split; [apply elem_of_app; right; by left | congruence]. }
  unfold private in Hpriv. rewrite List.Forall_forall in Hpriv. destruct (Hpriv x ltac:(by apply list_elem_of_In, Hsub)) as (i & Hi & Hbit & Hothers). rewrite List.Forall_forall in Hothers.
  assert (kbit k i = false) as Hki by (destruct (Hothers k ltac:(by apply list_elem_of_In)) as [E|]; [by destruct Hne | done]).
  specialize (Hlast i Hi). rewrite Hki in Hlast. destruct (Z.lt_ge_cases i (prefix_len m)) as [Hlt|Hge].
  - pose proof (wf_prefix _ _ _ _ _ Hwf) as Hpre. rewrite El, List.Forall_forall in Hpre. rewrite <- (Hpre x ltac:(by apply list_elem_of_In) i) in Hlast by lia. congruence.
  - rewrite Hx in Hlast by lia. rewrite (xor_bits_single i x) in Hlast; [done | | done | done|].
    + rewrite <- El. by apply (wf_nodup lo').
    + intros y Hy. apply Hothers. by apply list_elem_of_In, Hsub.
Qed.

(** C9: A packet of keys tells what the peer has: has is called for each of them that is
    neither in the own set nor known of the peer, once and in the order in which they
    come, and for no other; and afterwards these keys, and no others, have been added to
    what is known, the own set unchanged.  So a peer that announces all of its keys is
    asked for exactly the difference of the sets.  It holds for keys that no inner node
    of a tree of keys of the two sides is mistaken for, as cmp_message compares nodes. *)
Theorem sync_keys_announced w rs : Forall record_ok rs -> wf_tree (root (w_state w)) -> wf_tree (peer_root (w_peer w)) -> has_callback (w_state w) = true -> all_plain rs w ->
  exists w' events, sync_recv_message (flat_map record_of rs) w = Some (0, w') /\ root (w_state w') = root (w_state w) /\ w_log w' = w_log w ++ events /\
    has_calls events = map (Has (peer_context (w_peer w))) (fresh (leaves (root (w_state w)) ++ leaves (peer_root (w_peer w))) (map fst rs)) /\
    forall x, x ∈ leaves (root (w_state w)) ++ leaves (peer_root (w_peer w')) <-> x ∈ map fst rs \/ x ∈ leaves (root (w_state w)) ++ leaves (peer_root (w_peer w)).
Proof.
  intros Hok Hr Hp Hf Hplain. pose proof (length_packet rs Hok) as Hlen. unfold sync_recv_message. change MESSAGE_BYTES with 10. rewrite Hlen.
  replace (Z.of_nat (10 * length rs) mod 10) with 0 by (rewrite Nat2Z.inj_mul, Z.mul_comm; symmetry; apply Z_mod_mult).
  change (nz 0) with false. cbv iota. apply packet_heard; (done || lia).
Qed.

(** ** Evaluated *)
Definition sample_world : world := World (add_all sample_state [1; 2]) (Peer 7 0 0 Null) [].
Lemma sync_key_announced_witness :
  exists w' events, sync_recv_message (message_bytes (announced (key_of 900) 53)) sample_world = Some (0, w') /\ root (w_state w') = root (w_state sample_world) /\
    w_log w' = w_log sample_world ++ events /\
    (key_of 900 ∈ leaves (root (w_state sample_world)) -> Forall (fun e => ~ is_has e) events) /\
    (key_of 900 ∉ leaves (root (w_state sample_world)) -> unmistaken (announced (key_of 900) 53) (peer_root (w_peer w')) -> key_of 900 ∈ leaves (peer_root (w_peer w')) /\
      (key_of 900 ∉ leaves (peer_root (w_peer sample_world)) -> has_callback (w_state sample_world) = true -> Has (peer_context (w_peer sample_world)) (key_of 900) ∈ events)).
Proof.
  apply (sync_key_announced sample_world (key_of 900) 53).
  - apply key_of_ok. lia.
  - lia.
  - exact (proj1 (proj1 add_all_ok)).
  - by left.
  - apply (bool_decide_unpack _). vm_compute. reflexivity.
Defined.
(** the calls for it: the own keys, which the peer lacks, are sent, and the new one is noted *)
Example announced_events : option_map (fun '(r, w) => w_log w) (sync_recv_message (message_bytes (announced (key_of 900) 53)) sample_world) =
  Some [HasNot 7 1 (key_of 1); QueueMessage 7 [191; 64; 0; 0; 0; 0; 0; 0; 0; 1]; HasNot 7 2 (key_of 2); QueueMessage 7 [191; 64; 0; 0; 0; 0; 0; 0; 0; 2];
        Has 7 (key_of 900); QueueMessage 7 [55; 64; 0; 0; 0; 0; 0; 0; 3; 132]].
Proof. vm_compute. reflexivity. Qed.

(** a packet of three keys: one that is here, and two that are new, the first of them
    twice *)
Definition packet : list (sync_key_t * Z) := [(key_of 900, 53); (key_of 2, 0); (key_of 776, 53); (key_of 900, 53)].
Definition privateb (l : list sync_key_t) : bool :=
  forallb (fun x => existsb (fun i => kbit x i && forallb (fun y => streq y x || negb (kbit y i)) l) (seqZ 56 8)) l.
Lemma privateb_spec l : privateb l = true -> private l.
Proof.
  unfold privateb, private. rewrite forallb_forall, List.Forall_forall. intros H x Hx. specialize (H x Hx). apply existsb_exists in H as (i & Hi & H).
  apply list_elem_of_In, elem_of_seqZ in Hi. apply andb_true_iff in H as [Hbit H]. exists i. split; [lia|]. split; [done|]. apply List.Forall_forall. intros y Hy.
  rewrite forallb_forall in H. specialize (H y Hy). apply orb_true_iff in H as [H|H]; [left; by apply bool_decide_eq_true in H | right; by apply negb_true_iff in H].
Qed.
Lemma packet_plain : all_plain packet sample_world.
Proof.
  intros t Ht Hsub. set (all := [key_of 1; key_of 2; key_of 900; key_of 776]).
  assert (private all) as Hpriv by (apply privateb_spec; vm_compute; reflexivity).
  assert (forall x, x ∈ leaves t -> x ∈ all) as Hall.
  { intros x Hx. destruct (Hsub x Hx) as [H|H].
    - change (leaves (root (w_state sample_world)) ++ leaves (peer_root (w_peer sample_world))) with [key_of 1; key_of 2] in H. subst all. rewrite !elem_of_cons in *. tauto.
    - change (map fst packet) with [key_of 900; key_of 2; key_of 776; key_of 900] in H. subst all. rewrite !elem_of_cons in *. tauto. }
  repeat (apply List.Forall_cons; [apply (private_unmistaken all); [exact Hpriv | subst all; rewrite !elem_of_cons; cbn [fst]; tauto | apply key_of_ok; lia | cbn; lia | exact Ht | exact Hall]|]). apply List.Forall_nil.
Qed.
Lemma sync_keys_announced_witness : exists w' events, sync_recv_message (flat_map record_of packet) sample_world = Some (0, w') /\
  w_log w' = w_log sample_world ++ events /\ has_calls events = [Has 7 (key_of 900); Has 7 (key_of 776)] /\ key_of 776 ∈ leaves (root (w_state sample_world)) ++ leaves (peer_root (w_peer w')).
Proof.
  destruct (sync_keys_announced sample_world packet) as (w' & events & H1 & _ & H2 & H3 & H4).
  - repeat (apply List.Forall_cons; [split; [apply key_of_ok; lia | cbn; lia]|]). apply List.Forall_nil.
  - exact (proj1 (proj1 add_all_ok)).
  - by left.
  - reflexivity.
  - exact packet_plain.
  - exists w', events. split; [exact H1|]. split; [exact H2|]. split; [exact H3|]. apply H4. left. by right; right; left.
Defined.
