(* ===== verification/SyncNewDevice.v ===== *)
(** sync_keys.cpp: the conversation of a device that has nothing yet with one that has
    keys: two states, and the messages between them. *)
From S2P Require Import Prelude CString SyncKeys SyncTree SyncProtocol SyncSafety SyncLearn.
Local Open Scope Z_scope.
Local Open Scope succinct_scope.

(** ** Messages *)

(** what queue_message is given, a packet for each call *)
Definition queued (l : list event) : list (list Z) := flat_map (fun e => match e with QueueMessage _ b => [b] | _ => [] end) l.
Lemma queued_app a b : queued (a ++ b) = queued a ++ queued b.
Proof. apply flat_map_app. Qed.
(** packets are handled one after the other, whatever is returned *)
Fixpoint recv_each (s : sync_state) (i : nat) (packets : list (list Z)) : option (sync_state * list event) :=
  match packets with
  | [] => Some (s, [])
  | b :: packets =>
      match sync_recv_from s i b with
      | None => None
      | Some (_, s, e) => match recv_each s i packets with Some (s, e') => Some (s, e ++ e') | None => None end
      end
  end.

(** the leaves of a tree as they are announced: keys with the lengths that they begin at *)
Fixpoint leaf_records (n : node) : list (sync_key_t * Z) :=
  match n with
  | Null => []
  | Node m _ c0 c1 => if prefix_len m =? KEY_LEN_BITS then [(key m, min_prefix_len m)] else leaf_records c0 ++ leaf_records c1
  end.
Lemma leaf_records_keys n : map fst (leaf_records n) = leaves n.
Proof. induction n as [|m ctx c0 IH0 c1 IH1]; cbn [leaf_records leaves]; [done|]. destruct (_ =? _); [done|]. by rewrite map_app, IH0, IH1. Qed.
Lemma leaf_records_ok lo n : wf lo n -> Forall record_ok (leaf_records n).
Proof.
  induction 1 as [lo m ctx Hm Hl Hp Hk | lo m ctx c0 c1 Hm Hl Hp Hk H0 IH0 H1 IH1 B0 B1 Hx]; cbn [leaf_records]; unfold KEY_LEN_BITS.
  - rewrite Hp. apply Forall_singleton. split; [done | cbn; lia].
  - destruct (Z.eqb_spec (prefix_len m) 64); [lia|]. by apply Forall_app.
Qed.
(** no tree of the keys has a node that is taken for one of the records *)
Definition distinct (keys : list sync_key_t) (rs : list (sync_key_t * Z)) : Prop :=
  forall t, wf_tree t -> (forall x, x ∈ leaves t -> x ∈ keys) -> Forall (fun r => unmistaken (announced (fst r) (snd r)) t) rs.

(** ** The one that has keys sends them all *)
Record told (n : node) (w0 w : world) : Prop := {
  t_root : root (w_state w) = root (w_state w0);
  t_queue : queue_callback (w_state w) = queue_callback (w_state w0);
  t_wf : wf_tree (peer_root (w_peer w));
  t_leaves : leaves (peer_root (w_peer w)) ≡ₚ leaves n ++ leaves (peer_root (w_peer w0));
  t_log : exists events, w_log w = w_log w0 ++ events /\ queued events = map record_of (leaf_records n)
}.
Lemma told_leaf lo m ctx b w : prefix_len m = 64 -> stored m = true -> min_prefix_len m = lo -> 0 <= lo <= 64 -> key_ok (key m) -> wf_tree (peer_root (w_peer w)) ->
  queue_callback (w_state w) = true -> key m ∉ leaves (peer_root (w_peer w)) -> unmistaken (announced (key m) lo) (peer_root (w_peer w)) ->
  exists w', (let! missing := peer_is_missing m ctx b in if nz missing then queue_message m else sret tt) w = Some (tt, w') /\ told (Node m ctx Null Null) w w'.
Proof.
  intros Hp Hst Hmin Hlo Hk Hwf Hq Hnot Hun. assert (m = announced (key m) lo) as Em by (destruct m; cbn in *; by subst).
  assert (is_null (find_message (peer_root (w_peer w)) m) = true) as Hnull.
  { rewrite Em. destruct (is_null _) eqn:E; [done|]. by apply (found_key _ lo) in E. }
  destruct (add_key_spec (key m) ctx true Hk _ Hwf Hnot) as [W L]. unfold peer_is_missing, sbind, get, notify, peer_insert, on_peer, on_state, sret, queue_message.
  destruct (find_message _ _); [clear Hnull | done]. cbn [w_state w_peer w_log with_peer_root peer_root peer_context nz Z.eqb negb].
  change (has_not_callback (reset_progress (w_state w))) with (has_not_callback (w_state w)).
  assert (record_of (key m, lo) = message_bytes m) as Er by (unfold record_of; cbn [fst snd]; by rewrite <- Em).
  assert (leaf_records (Node m ctx Null Null) = [(key m, lo)] /\ leaves (Node m ctx Null Null) = [key m]) as [ER EL] by (cbn [leaf_records leaves]; by rewrite Hp, Hmin).
  unfold notify. destruct (has_not_callback (w_state w)); cbn [w_state w_peer w_log];
    change (queue_callback (reset_progress (w_state w))) with (queue_callback (w_state w)); rewrite Hq; (eexists; split; [reflexivity|]).
  all: split; [done | done | exact W | rewrite EL; exact L|]; cbn [w_log]; rewrite <- ?app_assoc; (eexists; split; [reflexivity|]); rewrite ER; cbn [map queued flat_map app]; by rewrite Er.
Qed.
Lemma missing_told keys b lo n : wf lo n -> forall w, all_marked n -> wf_tree (peer_root (w_peer w)) -> queue_callback (w_state w) = true ->
  (forall x, x ∈ leaves n -> x ∉ leaves (peer_root (w_peer w))) -> (forall x, x ∈ leaves n \/ x ∈ leaves (peer_root (w_peer w)) -> x ∈ keys) -> distinct keys (leaf_records n) ->
  exists w', missing_leaf_nodes n NODE_CHILDREN b w = Some (tt, w') /\ told n w w'.
Proof.
  induction 1 as [lo m ctx Hm Hl Hp Hk | lo m ctx c0 c1 Hm Hl Hp Hk H0 IH0 H1 IH1 B0 B1 Hx]; intros w Hmark Hwf Hq Hnot Hkeys Hdis; destruct Hmark as (Hst & M0 & M1);
    cbn [missing_leaf_nodes leaf_records leaves] in *; unfold KEY_LEN_BITS in *.
  - rewrite Hp in *. change (64 =? 64) with true in *. cbv iota in *. apply (told_leaf lo); try (done || lia); [apply Hnot; by left|].
    rewrite <- Hm. exact (Forall_inv (Hdis _ Hwf ltac:(intros x Hx; apply Hkeys; by right))).
  - destruct (Z.eqb_spec (prefix_len m) 64) as [|E]; [lia|]. change (negb (0 =? NODE_CHILDREN)) with true. change (negb (1 =? NODE_CHILDREN)) with true. cbv iota.
    destruct (IH0 w M0 Hwf Hq) as (w1 & Hr1 & [R1 Q1 W1 L1 (e1 & Log1 & Qe1)]).
    { intros x Hin. apply Hnot, elem_of_app. by left. }
    { intros x [Hin|Hin]; apply Hkeys; [left; apply elem_of_app; by left | by right]. }
    { intros t Ht Hsub. exact (proj1 (proj1 (Forall_app _ _ _) (Hdis t Ht Hsub))). }
    destruct (IH1 w1 M1 W1) as (w2 & Hr2 & [R2 Q2 W2 L2 (e2 & Log2 & Qe2)]); [by rewrite Q1 | | | |].
    { intros x Hin. rewrite L1, elem_of_app. intros [H|H]; [|by apply (Hnot x); [apply elem_of_app; right|]].
      unfold below in *. rewrite List.Forall_forall in B0, B1. apply list_elem_of_In in H, Hin. destruct (B0 x H), (B1 x Hin). congruence. }
    { intros x [Hin|Hin]; [apply Hkeys; left; apply elem_of_app; by right|]. rewrite L1, elem_of_app in Hin. apply Hkeys. rewrite elem_of_app. tauto. }
    { intros t Ht Hsub. exact (proj2 (proj1 (Forall_app _ _ _) (Hdis t Ht Hsub))). }
    exists w2. unfold sbind. rewrite Hr1, Hr2. split; [done|]. assert ((prefix_len m =? 64) = false) as En by (by apply Z.eqb_neq).
    split; [congruence | congruence | done | cbn [leaves]; unfold KEY_LEN_BITS; by rewrite En, L2, L1, app_assoc, (Permutation_app_comm (leaves c1) (leaves c0))|].
    exists (e1 ++ e2). cbn [leaf_records]. unfold KEY_LEN_BITS. rewrite En, queued_app, Qe1, Qe2, map_app, Log2, Log1, app_assoc. done.
Qed.

(** the answer to the root message of a device without keys *)
Lemma empty_root_answered ss i p n : own_ok ss -> peers ss !! i = Some p -> peer_root p = Null -> queue_callback ss = true -> MESSAGE_BYTES <= n ->
  distinct (leaves (root ss)) (leaf_records (root ss)) ->
  exists ss' log, sync_recv_from ss i (sync_root_msg Null n) = Some (0, ss', log) /\ queued log = map record_of (leaf_records (root ss)) /\ root ss' = root ss.
Proof.
  intros [Hwf Hmark] Hp Hpr Hq Hn Hdis. set (w := World (count_record ss) p []).
  assert (exists w', recv_key (parse_message (sync_root_msg Null n)) (World ss p []) = Some (0, w') /\ told (root ss) w w') as (w' & Hrecv & [R Q W L (e & Log & Qe)]).
  { unfold sync_root_msg. destruct (Z.ltb_spec n MESSAGE_BYTES); [lia|]. change (parse_message _) with (Message 0 true 65 (repeat 0 8)). unfold recv_key. cbn [min_prefix_len prefix_len].
    change ((0 >? 65) || _) with false. cbv iota. unfold sbind at 1 2. unfold on_state, get. cbn [w_state w_peer w_log]. change (root (count_record ss)) with (root ss). fold w.
    destruct (root ss) as [|m ctx c0 c1] eqn:Er.
    - exists w. split; [reflexivity|]. split; [done | done | subst w; cbn [w_peer]; rewrite Hpr; by left | done | exists []; by rewrite app_nil_r].
    - change (65 =? KEY_LEN_BITS + 1) with true. cbv iota. destruct Hwf as [|Hwf]; [done|].
      destruct (missing_told (leaves (Node m ctx c0 c1)) false 0 _ Hwf w) as (w' & Hrun & Ht); try done.
      + subst w. cbn [w_peer]. rewrite Hpr. by left.
      + subst w. cbn [w_peer]. rewrite Hpr. intros x _. apply not_elem_of_nil.
      + subst w. cbn [w_peer]. rewrite Hpr. intros x [Hx|Hx]; [done | by apply not_elem_of_nil in Hx].
      + exists w'. split; [|exact Ht]. unfold peer_missing_leaf_nodes, sbind, get. change (queue_callback (w_state w)) with (queue_callback ss). rewrite Hq. cbn [negb]. by rewrite Hrun. }
  exists (set_peers (<[i := w_peer w']> (peers ss)) (w_state w')), (w_log w'). unfold sync_recv_from. rewrite Hp.
  rewrite (recv_one_record _ _ 0 w' (length_root_msg Null n ltac:(by left) Hn) Hrecv). split; [reflexivity|]. split; [by rewrite Log | exact R].
Qed.

(** ** The other one hears of them *)
Lemma recv_record_from s i p r : peers s !! i = Some p -> record_ok r -> wf_tree (root s) -> wf_tree (peer_root p) -> has_callback s = true ->
  plain (fst r) (snd r) (World s p []) ->
  exists s' p' e, sync_recv_from s i (record_of r) = Some (0, s', e) /\ peers s' !! i = Some p' /\ root s' = root s /\ has_callback s' = true /\
    peer_context p' = peer_context p /\ wf_tree (peer_root p') /\
    (forall x, x ∈ leaves (root s) ++ leaves (peer_root p') <-> x = fst r \/ x ∈ leaves (root s) ++ leaves (peer_root p)) /\
    has_calls e = if bool_decide (fst r ∈ leaves (root s) ++ leaves (peer_root p)) then [] else [Has (peer_context p) (fst r)].
Proof.
  intros Hp [Hk Hlo] Hr Hwf Hf Hplain. destruct (recv_heard (fst r) (snd r) (World s p []) Hk Hlo Hr Hwf Hf Hplain) as (w & Hrecv & [R F C W Hknown (e & Hlog & Hcalls)]).
  exists (set_peers (<[i := w_peer w]> (peers s)) (w_state w)), (w_peer w), (w_log w). unfold sync_recv_from. rewrite Hp.
  rewrite (recv_one_record (record_of r) _ 0 w (length_announced _ _ Hk) Hrecv). cbn [w_state w_peer w_log app] in *.
  split; [reflexivity|]. split; [cbn [set_peers peers]; apply list_lookup_insert_eq; by apply lookup_lt_Some in Hp|].
  split; [exact R|]. split; [cbn [set_peers has_callback]; by rewrite F|]. split; [exact C|]. split; [exact W|]. split; [exact Hknown|]. by rewrite Hlog.
Qed.
Lemma recv_each_heard rs : Forall record_ok rs -> forall s i p, peers s !! i = Some p -> wf_tree (root s) -> wf_tree (peer_root p) -> has_callback s = true ->
  all_plain rs (World s p []) ->
  exists s' p' log, recv_each s i (map record_of rs) = Some (s', log) /\ peers s' !! i = Some p' /\ root s' = root s /\
    has_calls log = map (Has (peer_context p)) (fresh (leaves (root s) ++ leaves (peer_root p)) (map fst rs)) /\
    forall x, x ∈ leaves (root s) ++ leaves (peer_root p') <-> x ∈ map fst rs \/ x ∈ leaves (root s) ++ leaves (peer_root p).
Proof.
  induction 1 as [|r rs Hok Hrs IH]; intros s i p Hp Hr Hwf Hf Hplain; cbn [map recv_each fresh].
  { exists s, p, []. split; [done|]. split; [done|]. split; [done|]. split; [done|]. intros x. rewrite elem_of_nil. tauto. }
  destruct (recv_record_from s i p r Hp Hok Hr Hwf Hf) as (s1 & p1 & e1 & H1 & P1 & R1 & F1 & C1 & W1 & K1 & E1).
  { intros t Ht Hsub. apply (Forall_inv (Hplain t Ht ltac:(intros x Hx; left; apply elem_of_app; auto))). }
  destruct (IH s1 i p1 P1) as (s2 & p2 & e2 & H2 & P2 & R2 & E2 & K2); [by rewrite R1 | done | done | |].
  { intros t Ht Hsub. apply (Forall_inv_tail (Hplain t Ht ltac:(intros x Hx; destruct (Hsub x Hx) as [H|H];
      [cbn [w_state w_peer] in H; rewrite R1 in H; apply K1 in H as [->|H]; [right; by left | by left] | right; by right]))). }
  rewrite H1, H2, R1, C1 in *. exists s2, p2, (e1 ++ e2). split; [done|]. split; [done|]. split; [done|]. split.
  - rewrite has_calls_app, E1, E2. destruct (decide (fst r ∈ _)) as [Hin|Hin]; [rewrite bool_decide_true by done | rewrite bool_decide_false by done]; cbn [map app].
    + f_equal. apply fresh_ext. intros x. rewrite K1. split; [by intros [->|H] | auto].
    + do 2 f_equal. apply fresh_ext. intros x. by rewrite K1, elem_of_cons.
  - intros x. rewrite K2, K1, elem_of_cons. tauto.
Qed.
Lemma fresh_nodup ks : forall known, NoDup ks -> (forall x, x ∈ ks -> x ∉ known) -> fresh known ks = ks.
Proof.
  induction ks as [|k ks IH]; intros known Hnd Hno; [done|]. apply list.NoDup_cons in Hnd as [Hk Hnd]. cbn [fresh]. rewrite decide_False by (apply Hno; by left).
  f_equal. apply IH; [done|]. intros x Hx. rewrite elem_of_cons. intros [->|H]; [done|]. apply (Hno x); [by right | done].
Qed.

(** ** Property *)

(** C8: A new device hears of everything.  When a device that has no keys sends its root
    message to one that has, and the packets of the answer come back, it is told, by
    has, of each key of the other one exactly once and of no other key, and knows
    the other one to have exactly these keys; the sets of both stay as they were.  It
    holds for keys that no inner node of a tree of them is mistaken for. *)
Theorem sync_new_device a b i j pa pb n : own_ok b -> peers b !! i = Some pb -> peer_root pb = Null -> queue_callback b = true ->
  root a = Null -> peers a !! j = Some pa -> peer_root pa = Null -> has_callback a = true -> MESSAGE_BYTES <= n ->
  distinct (leaves (root b)) (leaf_records (root b)) ->
  exists b' answer a' pa' calls,
    sync_recv_from b i (sync_root_msg (root a) n) = Some (0, b', answer) /\ recv_each a j (queued answer) = Some (a', calls) /\
    root b' = root b /\ root a' = Null /\ peers a' !! j = Some pa' /\
    has_calls calls = map (Has (peer_context pa)) (leaves (root b)) /\ (forall x, x ∈ leaves (peer_root pa') <-> x ∈ leaves (root b)).
Proof.
  intros Hb Hpb Hpbr Hq Ha Hpa Hpar Hf Hn Hdis. rewrite Ha. destruct (empty_root_answered b i pb n Hb Hpb Hpbr Hq Hn Hdis) as (b' & answer & H1 & Hqueued & Hroot).
  assert (Forall record_ok (leaf_records (root b))) as Hok by (destruct Hb as [[->|Hw] _]; [by apply List.Forall_nil | by eapply leaf_records_ok]).
  destruct (recv_each_heard (leaf_records (root b)) Hok a j pa Hpa) as (a' & pa' & calls & H2 & P2 & R2 & E2 & K2); [rewrite Ha; by left | rewrite Hpar; by left | done | |].
  { intros t Ht Hsub. apply Hdis; [done|]. intros x Hx. destruct (Hsub x Hx) as [H|H]; [|by rewrite leaf_records_keys in H]. cbn [w_state w_peer] in H.
    rewrite Ha, Hpar in H. by apply not_elem_of_nil in H. }
  exists b', answer, a', pa', calls. rewrite Hqueued. rewrite leaf_records_keys, Ha, Hpar in *. cbn [leaves app] in *. do 5 (split; [done|]). split.
  - rewrite E2, fresh_nodup; [done | by apply tree_nodup, Hb | intros x _; apply not_elem_of_nil].
  - intros x. rewrite K2, elem_of_nil. tauto.
Qed.

(** ** Evaluated *)
Definition key_a : sync_key_t := [128; 3; 0; 0; 0; 0; 0; 1].
Definition key_b : sync_key_t := [0; 5; 9; 0; 0; 0; 0; 2].
Definition key_c : sync_key_t := [64; 0; 0; 0; 0; 0; 1; 4].
Definition filled : sync_state := add_keys sample_state [key_a; key_b; key_c].
Lemma small_key_ok k : length k = 8%nat -> forallb (fun b => (0 <=? b) && (b <? 256)) k = true -> key_ok k.
Proof. intros Hl H. split; [done|]. apply List.Forall_forall. intros b Hb. rewrite forallb_forall in H. specialize (H b Hb). lia. Qed.
Lemma filled_ok : own_ok filled.
Proof.
  split; [|vm_compute; auto 20].
  assert (root filled = add_key key_c 0 true (add_key key_b 0 true (add_key key_a 0 true Null))) as -> by (vm_compute; reflexivity).
  destruct (add_key_spec key_a 0 true (small_key_ok key_a eq_refl eq_refl) Null ltac:(by left) ltac:(apply not_elem_of_nil)) as [W L].
  destruct (add_key_spec key_b 0 true (small_key_ok key_b eq_refl eq_refl) _ W) as [W' L']; [rewrite L; intros Hin%list_elem_of_singleton; discriminate Hin|].
  apply (add_key_spec key_c 0 true (small_key_ok key_c eq_refl eq_refl) _ W'). rewrite L', L. intros Hin. apply elem_of_cons in Hin as [Hin|Hin]; [discriminate Hin|].
  apply list_elem_of_singleton in Hin. discriminate Hin.
Qed.
Lemma filled_distinct : distinct (leaves (root filled)) (leaf_records (root filled)).
Proof.
  intros t Ht Hsub. assert (private (leaves (root filled))) as Hpriv by (apply privateb_spec; vm_compute; reflexivity).
  apply List.Forall_forall. intros r Hr. assert (key_ok (fst r) /\ 0 <= snd r <= 56 /\ fst r ∈ leaves (root filled)) as (Hk & Hlo & Hin).
  { change (leaf_records (root filled)) with [(key_b, 2); (key_c, 2); (key_a, 1)] in Hr. change (leaves (root filled)) with [key_b; key_c; key_a].
    destruct Hr as [<-|[<-|[<-|[]]]]; (split; [by apply small_key_ok|]; split; [cbn; lia|]; rewrite !elem_of_cons; cbn [fst]; tauto). }
  by apply (private_unmistaken (leaves (root filled))).
Qed.
Lemma sync_new_device_witness : exists b' answer a' pa' calls,
  sync_recv_from filled 0 (sync_root_msg Null 64) = Some (0, b', answer) /\ recv_each sample_state 0 (queued answer) = Some (a', calls) /\ root b' = root filled /\
  root a' = Null /\ peers a' !! O = Some pa' /\ has_calls calls = [Has 7 key_b; Has 7 key_c; Has 7 key_a] /\ (forall x, x ∈ leaves (peer_root pa') <-> x ∈ leaves (root filled)).
Proof.
  apply (sync_new_device sample_state filled 0 0 (Peer 7 0 0 Null) (Peer 7 0 0 Null) 64); try reflexivity; [exact filled_ok | unfold MESSAGE_BYTES, KEY_LEN; lia | exact filled_distinct].
Defined.
