(* ===== verification/Lmdb.v ===== *)
(** What storage.cpp relies on of LMDB: transactions on tables of keys and values, as
    a class with the laws that its documentation states, and an implementation by
    finite maps. *)
From stdpp Require Export gmap.
From S2P Require Import Prelude.
Local Open Scope Z_scope.

(** the two tables *)
Inductive MDB_dbi := files | index.
#[export] Instance dbi_eq_dec : EqDecision MDB_dbi.
Proof. solve_decision. Defined.

Inductive mdb_result (V : Type) := Found (v : V) | NotFound | Failed.
Arguments Found {V} v.
Arguments NotFound {V}.
Arguments Failed {V}.

(** [env] is an environment with what it keeps on the disk, [txn] a transaction.  A
    transaction that is dropped, or aborted, leaves the environment as it was. *)
Class Lmdb (V env txn : Type) := {
  mdb_txn_begin : env -> option txn;
  mdb_get : txn -> MDB_dbi -> list Z -> mdb_result V;
  mdb_put : txn -> MDB_dbi -> list Z -> V -> option txn;
  mdb_drop : txn -> MDB_dbi -> txn;
  (** the pairs, in the order of a cursor *)
  mdb_records : txn -> MDB_dbi -> list (list Z * V);
  mdb_txn_commit : txn -> option env
}.

Class LmdbLaws {V env txn} (L : Lmdb V env txn) := {
  stored_in : env -> MDB_dbi -> gmap (list Z) V;
  txn_in : txn -> MDB_dbi -> gmap (list Z) V;
  begin_law e t : mdb_txn_begin e = Some t -> forall i, txn_in t i = stored_in e i;
  get_law t i k : match mdb_get t i k with
                  | Found v => txn_in t i !! k = Some v
                  | NotFound => txn_in t i !! k = None
                  | Failed => True
                  end;
  put_law t i k v t' : mdb_put t i k v = Some t' -> forall j, txn_in t' j = if decide (i = j) then <[k := v]> (txn_in t j) else txn_in t j;
  drop_law t i j : txn_in (mdb_drop t i) j = if decide (i = j) then ∅ else txn_in t j;
  records_law t i : mdb_records t i ≡ₚ map_to_list (txn_in t i);
  commit_law t e : mdb_txn_commit t = Some e -> forall i, stored_in e i = txn_in t i
}.

Section Laws.
Context `{Laws : LmdbLaws V env txn}.
Lemma put_same t i k v t' : mdb_put t i k v = Some t' -> txn_in t' i = <[k := v]> (txn_in t i).
Proof. intros H. rewrite (put_law _ _ _ _ _ H). by destruct (decide (i = i)). Qed.
Lemma put_other t i j k v t' : mdb_put t i k v = Some t' -> i <> j -> txn_in t' j = txn_in t j.
Proof. intros H Hne. rewrite (put_law _ _ _ _ _ H). by destruct (decide (i = j)). Qed.
End Laws.

(** ** Finite maps are an implementation

    Keys have from 1 to 511 bytes; [room] is the number of records that there is
    space for. *)
Section Maps.
Context {V : Type}.
Record tables := Tables { room : nat; table : MDB_dbi -> gmap (list Z) V }.
Definition key_size_ok (k : list Z) : bool := (1 <=? Z.of_nat (length k)) && (Z.of_nat (length k) <=? 511).
Definition put_table (m : MDB_dbi -> gmap (list Z) V) (i : MDB_dbi) (t : gmap (list Z) V) : MDB_dbi -> gmap (list Z) V :=
  fun j => if decide (i = j) then t else m j.
Definition fits_in (t : tables) : bool := bool_decide (size (table t files) + size (table t index) <= room t)%nat.

#[export] Instance map_lmdb : Lmdb V tables tables := {|
  mdb_txn_begin e := Some e;
  mdb_get t i k := if key_size_ok k then match table t i !! k with Some v => Found v | None => NotFound end else Failed;
  mdb_put t i k v := if key_size_ok k then Some (Tables (room t) (put_table (table t) i (<[k := v]> (table t i)))) else None;
  mdb_drop t i := Tables (room t) (put_table (table t) i ∅);
  mdb_records t i := map_to_list (table t i);
  mdb_txn_commit t := if fits_in t then Some t else None
|}.
#[export, program] Instance map_lmdb_laws : LmdbLaws map_lmdb := {| stored_in := table; txn_in := table |}.
Next Obligation. intros e t [= ->] i. done. Qed.
Next Obligation. intros t i k. cbn. destruct (key_size_ok k); [|done]. by destruct (table t i !! k) eqn:E. Qed.
Next Obligation.
  intros t i k v t'. cbn. destruct (key_size_ok k); [|done]. intros [= <-] j. cbn. unfold put_table.
  by destruct (decide (i = j)) as [->|].
Qed.
Next Obligation. done. Qed.
Next Obligation. done. Qed.
Next Obligation. intros t e. cbn. destruct (fits_in t); [|done]. by intros [= ->]. Qed.
End Maps.
Arguments tables V : clear implicits.
