(* ===== verification/Storage.v ===== *)
(** storage.cpp: the files of a device, their versions and hashes in the database, and
    the messages by which two devices find out what the other one has. *)
From S2P Require Import Prelude CString BlockHash Sha256 SyncKeys Lmdb.
Local Open Scope Z_scope.
Local Open Scope succinct_scope.

Definition MAX_NAME : Z := 256.
Definition SYNC_MSG_KEY : Z := 0.
Definition SYNC_MSG_REQ_METADATA : Z := 1.
Definition SYNC_MSG_SEND_METADATA : Z := 2.
Definition VERSION : Z := 2.
Definition crypto_hash_sha256_BYTES : nat := 32.
(** offsetof(struct file_version, name) *)
Definition file_version_name_offset : Z := 16.

Record file_version := FileVersion { v_version : Z; v_length : Z; v_name : list Z }.
(** what of a struct file_data is kept: its first PERSIST_LEN bytes *)
Record persisted := Persisted { p_version : Z; p_length : Z; p_hash : list Z; p_partial : sha256_state }.
Record file_data := FileData { kept : persisted; name : list Z; new_length : Z; new_hash : sha256_state }.
Definition version (f : file_data) : Z := p_version (kept f).
Definition length_of (f : file_data) : Z := p_length (kept f).
Definition hash (f : file_data) : list Z := p_hash (kept f).
Definition partial_hash (f : file_data) : sha256_state := p_partial (kept f).
Record root_state := RootState { r_hash : list Z; r_version : Z }.

(** What the values of the database are the memory of.  A value of the table of files
    that has not the length PERSIST_LEN is [OtherData]. *)
Inductive value := FileValue (d : persisted) | VersionValue (v : file_version) | RootValue (r : root_state) | OtherData.

Section Storage.
Context `{M : Memory} {env txn : Type} `{L : !Lmdb value env txn}.

Record dbstate := DbState { db : env; root : root_state; sync_state : option SyncKeys.sync_state; keys : Z; deleted : Z }.

(** the calls of Java, on the object of a peer, of a file or of the store *)
Inductive output :=
  | SyncMessage (peer : Z) (bytes : list Z)
  | PeerHas (peer : Z) (key name : list Z) (length : Z)
  | FileCallback (length : Z) (hash : list Z)
  | StoreCallback (root_hash : list Z).

(** ** Files *)
Definition zero_hash : list Z := repeat 0 crypto_hash_sha256_BYTES.
Definition root_key : list Z := [95].
Definition memcmp_eq (expected hash : list Z) : bool := bool_decide (expected = firstn (length expected) hash).

(** [None]: an error of the database; a database of another version is cleared *)
Definition open_db (e : env) : option dbstate :=
  match mdb_txn_begin e with
  | None => None
  | Some t =>
      let empty := RootState zero_hash 0 in
      let '(t, root) :=
        match mdb_get t index root_key with
        | Found v =>
            let root := match v with RootValue r => r | _ => empty end in
            if negb (r_version root =? VERSION) then (mdb_drop (mdb_drop t index) files, empty) else (t, root)
        | _ => (t, empty)
        end in
      match mdb_txn_commit t with
      | None => None
      | Some e => Some (DbState e (RootState (r_hash root) VERSION) None 0 0)
      end
  end.

Definition file_open (s : dbstate) (filename : list Z) : option file_data :=
  match mdb_txn_begin (db s) with
  | None => None
  | Some t =>
      let filename := cstr filename in
      let key := firstn (Z.to_nat (MAX_NAME - 1)) filename in
      let zeroed := Persisted 0 0 zero_hash (crypto_hash_sha256_init (repeat 0 64)) in
      match mdb_get t files key with
      | Failed => None
      | r =>
          let kept := match r with Found (FileValue d) => d | _ => zeroed end in
          Some (FileData kept key (p_length kept) (p_partial kept))
      end
  end.

Definition file_append (f : file_data) (data : list Z) : file_data :=
  FileData (kept f) (name f) (u64 (new_length f + Z.of_nat (length data))) (crypto_hash_sha256_update (garbage 64) (new_hash f) data).

Definition xor_bytes (a b : list Z) : list Z := map (fun '(x, y) => Z.lxor x y) (combine a b).
Definition sync_key_of (hash : list Z) : sync_key_t := firstn (Z.to_nat KEY_LEN) hash.
Definition rewind (f : file_data) : file_data := FileData (kept f) (name f) (length_of f) (partial_hash f).

(** the three records that are written in one transaction *)
Definition flush_txn (t : txn) (name : list Z) (d : persisted) (root : root_state) : option txn :=
  match mdb_put t files name (FileValue d) with
  | None => None
  | Some t =>
      match mdb_put t index (sync_key_of (p_hash d)) (VersionValue (FileVersion (p_version d) (p_length d) name)) with
      | None => None
      | Some t => mdb_put t index root_key (RootValue root)
      end
  end.

(** A put that failed is followed by mdb_txn_abort.  So is a commit that failed, but
    mdb_txn_commit has ended the transaction then. *)
Inductive stored := Stored (e : env) | NotStored | CommitFailed.
Definition store_records (e : env) (name : list Z) (d : persisted) (root : root_state) : stored :=
  match mdb_txn_begin e with
  | None => NotStored
  | Some t =>
      match flush_txn t name d root with
      | None => NotStored
      | Some t => match mdb_txn_commit t with Some e => Stored e | None => CommitFailed end
      end
  end.

(** The code, the state and the file.  [None]: sync_add_key followed a null pointer, or a
    transaction that had ended was aborted, of which LMDB says nothing.
    [expected_hash] is empty when there is none; it is not longer than a hash. *)
Definition file_flush (s : dbstate) (f : file_data) (expected_hash : list Z) : option (Z * dbstate * file_data) :=
  if length_of f =? new_length f then Some (0, s, f)
  else
    let h := crypto_hash_sha256_final (garbage 64) (new_hash f) in
    let failed := Some (-1, s, rewind f) in
    if negb (memcmp_eq expected_hash h) then failed
    else
      let d := Persisted (u32 (version f + 1)) (new_length f) h (new_hash f) in
      let new_root := RootState (xor_bytes (xor_bytes (r_hash (root s)) h) (hash f)) VERSION in
      match store_records (db s) (name f) d new_root with
      | NotStored => failed
      | CommitFailed => None
      | Stored e =>
          let new_file := FileData d (name f) (new_length f) (new_hash f) in
          match sync_state s with
          | None => Some (1, DbState e new_root None (keys s) (deleted s), new_file)
          | Some ss =>
              match sync_add_key ss (sync_key_of h) 0 with
              | None => None
              | Some ss =>
                  Some (1, DbState e new_root (Some ss) (u32 (keys s + 1)) (if length_of f >? 0 then u32 (deleted s + 1) else deleted s), new_file)
              end
          end
      end.

(** ** Numbers in messages *)
Fixpoint pack_loop (fuel : nat) (v : Z) : list Z :=
  match fuel with
  | O => []
  | S fuel =>
      let byte := Z.lor (Z.land v 0x7f) (if v >? 0x7f then 0x80 else 0) in
      let v := Z.shiftr v 7 in
      byte :: (if nz v then pack_loop fuel v else [])
  end.
(** a turn for each seven bits *)
Definition pack_uint (v : Z) : list Z := pack_loop 10 v.

(** The code and the number; the shift is one of an int.  [None]: by more than the
    width of an int. *)
Fixpoint unpack_loop (i v : Z) (buffer : list Z) : option (Z * Z) :=
  match buffer with
  | [] => Some (-1, v)
  | byte :: buffer =>
      if i * 7 >=? 32 then None
      else
        let v := Z.lor v (u64 (i32 (Z.shiftl (Z.land byte 0x7f) (i * 7)))) in
        let i := i + 1 in
        if nz (Z.land byte 0x80) then unpack_loop i v buffer else Some (i, v)
  end.
Definition unpack_uint (buffer : list Z) : option (Z * Z) := unpack_loop 0 0 buffer.

(** ** Messages *)

(** the bytes of a hash state, which follow those of the hash in a struct file_data *)
Variable state_bytes : sha256_state -> list Z.

(** The value is taken for a struct file_version: the name begins where the hash is.
    [None]: it is not one that file_flush has written. *)
Definition process_difference (s : dbstate) (peer : Z) (key : sync_key_t) : option (list output) :=
  match mdb_txn_begin (db s) with
  | None => Some []
  | Some t =>
      match mdb_get t files key with
      | NotFound => Some [SyncMessage peer (SYNC_MSG_REQ_METADATA :: key)]
      | Found (FileValue d) => Some [PeerHas peer key (cstr (p_hash d ++ state_bytes (p_partial d))) (i64 (p_length d))]
      | Found _ => None
      | Failed => Some []
      end
  end.

Definition metadata_bytes (key : sync_key_t) (v : file_version) : list Z :=
  SYNC_MSG_SEND_METADATA :: key ++ pack_uint (v_version v) ++ pack_uint (v_length v) ++ v_name v ++ [0].
(** the array that the message is built in *)
Definition metadata_size (v : file_version) : Z := 1 + KEY_LEN + 16 + Z.of_nat (length (v_name v)) + 1.
Definition send_metadata (s : dbstate) (peer : Z) (key : sync_key_t) : list output :=
  match mdb_txn_begin (db s) with
  | None => []
  | Some t => match mdb_get t index key with Found (VersionValue v) => [SyncMessage peer (metadata_bytes key v)] | _ => [] end
  end.

(** [None]: the name is written, or read, past its array, or a transaction that had ended
    is aborted, as in [file_flush] *)
Definition receive_metadata (s : dbstate) (peer : Z) (msg : list Z) : option (dbstate * list output) :=
  let len := Z.of_nat (length msg) in
  if len <? KEY_LEN + file_version_name_offset + 2 then Some (s, [])
  else
    let key := firstn (Z.to_nat KEY_LEN) msg in
    let offset := KEY_LEN in
    opt (r, v) <- unpack_uint (skipn (Z.to_nat offset) msg) ;;
    let offset := u32 (offset + r) in
    opt (r, l) <- unpack_uint (skipn (Z.to_nat offset) msg) ;;
    let offset := u32 (offset + r) in
    let bytes := skipn (Z.to_nat offset) msg in
    let name := cstr bytes in
    if (Z.of_nat (length bytes) >? MAX_NAME) || (Z.of_nat (length name) >=? MAX_NAME) then None
    else
      match mdb_txn_begin (db s) with
      | None => Some (s, [])
      | Some t =>
          match mdb_put t index key (VersionValue (FileVersion (u32 v) l name)) with
          | None => Some (s, [])
          | Some t =>
              match mdb_txn_commit t with
              | None => None
              | Some e => Some (DbState e (root s) (sync_state s) (keys s) (deleted s), [PeerHas peer key name (i64 l)])
              end
          end
      end.

(** ** The conversation with a peer *)
Definition add_record (acc : option (SyncKeys.sync_state * Z)) (record : list Z * value) : option (SyncKeys.sync_state * Z) :=
  opt (ss, n) <- acc ;;
  match snd record with
  | FileValue d => opt ss <- sync_add_key ss (sync_key_of (p_hash d)) 0 ;; Some (ss, u32 (n + 1))
  | _ => Some (ss, n)
  end.
Definition init_sync_state (s : dbstate) : option dbstate :=
  match sync_state s with
  | Some _ => Some s
  | None =>
      match mdb_txn_begin (db s) with
      | None => Some s
      | Some t =>
          opt (ss, n) <- fold_left add_record (mdb_records t files) (Some (sync_alloc_state true true true true, 0)) ;;
          Some (DbState (db s) (root s) (Some ss) n 0)
      end
  end.

(** what the callbacks do; the reading of the database is not affected by the
    handling of the message, so that they may be run after it *)
Definition callback (s : dbstate) (e : event) : option (list output) :=
  match e with
  | Has peer k => process_difference s peer k
  | NowHas peer _ k => process_difference s peer k
  | HasNot _ _ _ => Some []
  | QueueMessage peer bytes => Some [SyncMessage peer (SYNC_MSG_KEY :: bytes)]
  end.
Fixpoint callbacks (s : dbstate) (l : list event) : option (list output) :=
  match l with
  | [] => Some []
  | e :: l => opt a <- callback s e ;; opt b <- callbacks s l ;; Some (a ++ b)
  end.

Definition set_sync (ss : SyncKeys.sync_state) (s : dbstate) : dbstate := DbState (db s) (root s) (Some ss) (keys s) (deleted s).
(** The peer is the one whose context is the object; [known]: its state has been
    allocated.  [None]: a null pointer is followed, or a message is read past its end. *)
Definition find_peer (object : Z) (ss : SyncKeys.sync_state) : option nat := fst <$> list_find (fun p => peer_context p = object) (peers ss).
Definition jni_peer_message (s : dbstate) (object : Z) (known : bool) (message : option (list Z)) : option (dbstate * bool * list output) :=
  match message with
  | Some msg =>
      opt s <- init_sync_state s ;;
      opt ss <- sync_state s ;;
      let s := set_sync (if known then ss else sync_alloc_peer_state ss object) s in
      match msg with
      | [] => None
      | type :: msg =>
          if type =? SYNC_MSG_KEY then
            opt ss <- sync_state s ;;
            opt i <- find_peer object ss ;;
            opt (_, ss, log) <- sync_recv_from ss i msg ;;
            let s := set_sync ss s in
            opt out <- callbacks s log ;;
            Some (s, true, out)
          else if type =? SYNC_MSG_REQ_METADATA then
            if Z.of_nat (length msg) <? KEY_LEN then None
            else Some (s, true, send_metadata s object (firstn (Z.to_nat KEY_LEN) msg))
          else if type =? SYNC_MSG_SEND_METADATA then
            opt (s, out) <- receive_metadata s object msg ;;
            Some (s, true, out)
          else Some (s, true, [])
      end
  | None =>
      if known then
        opt ss <- sync_state s ;;
        opt i <- find_peer object ss ;;
        opt (_, ss) <- sync_free_peer_state ss i ;;
        Some (set_sync ss s, false, [])
      else Some (s, false, [])
  end.
Definition jni_queue_root_message (s : dbstate) (peer : Z) : option (dbstate * list output) :=
  opt s <- init_sync_state s ;;
  opt ss <- sync_state s ;;
  Some (s, [SyncMessage peer (SYNC_MSG_KEY :: sync_root_msg (SyncKeys.root ss) 64)]).

(** ** The calls for files *)
Definition storage_callback (s : dbstate) : output := StoreCallback (r_hash (root s)).
Definition jni_storage_open (e : env) : option (dbstate * list output) :=
  opt s <- open_db e ;; Some (s, [storage_callback s]).
(** [None]: the null pointer of file_open is followed *)
Definition jni_file_open (s : dbstate) (filename : list Z) : option (file_data * list output) :=
  opt f <- file_open s filename ;; Some (f, [FileCallback (i64 (length_of f)) (hash f)]).
Definition jni_file_flush (s : dbstate) (f : file_data) (expected_hash : list Z) : option (Z * dbstate * file_data * list output) :=
  opt (r, s, f) <- file_flush s f expected_hash ;;
  Some (r, s, f, (if negb (r =? 0) then [FileCallback (i64 (length_of f)) (hash f)] else []) ++ (if r =? 1 then [storage_callback s] else [])).
End Storage.
Arguments dbstate env : clear implicits.
