(* ===== verification/StorageRefine.v ===== *)
(** storage.cpp: the store refines a map from names to contents, its root hash is the
    exclusive or of the hashes of the files, and what is known of it to peers. *)
From S2P Require Import Prelude CString BlockHash Sha256 SyncKeys SyncTree SyncProtocol Lmdb Storage.
Local Open Scope Z_scope.
Local Open Scope succinct_scope.

Fixpoint list_sum_Z (l : list Z) : Z := match l with [] => 0 | x :: l => x + list_sum_Z l end.

(** ** Exclusive or of hashes *)
Lemma xor_bytes_comm a : forall b, xor_bytes a b = xor_bytes b a.
Proof. unfold xor_bytes. induction a as [|x a IH]; intros [|y b]; try done. cbn [combine map]. by rewrite Z.lxor_comm, IH. Qed.
Lemma xor_bytes_assoc a : forall b c, xor_bytes a (xor_bytes b c) = xor_bytes (xor_bytes a b) c.
Proof. unfold xor_bytes. induction a as [|x a IH]; intros [|y b] [|z c]; try done. cbn [combine map]. by rewrite Z.lxor_assoc, IH. Qed.
Lemma length_xor_bytes a b : length (xor_bytes a b) = Nat.min (length a) (length b).
Proof. unfold xor_bytes. by rewrite length_map, length_combine. Qed.
Lemma xor_bytes_cancel a : forall b, (length a <= length b)%nat -> xor_bytes (xor_bytes a b) b = a.
Proof.
  unfold xor_bytes. induction a as [|x a IH]; intros [|y b] Hl; cbn [length] in Hl; try done; [lia|]. cbn [combine map].
  rewrite IH by lia. by rewrite Z.lxor_assoc, Z.lxor_nilpotent, Z.lxor_0_r.
Qed.
Lemma xor_bytes_zero a n : (length a <= n)%nat -> xor_bytes a (repeat 0 n) = a.
Proof.
  revert n. unfold xor_bytes. induction a as [|x a IH]; intros [|n] Hl; cbn [length] in Hl; try done; [lia|]. cbn [repeat combine map].
  rewrite IH by lia. by rewrite Z.lxor_0_r.
Qed.

Lemma length_sha256 msg : length (sha256 msg) = 32%nat.
Proof.
  unfold sha256, digest, final_state. change (@digest_of SHA256) with be32enc_vect. unfold be32enc_vect.
  set (st := compress_blocks _ _ _). assert (length st = 8%nat) as Hl by (by apply length_compress_blocks).
  do 9 (destruct st as [|? st]; try done).
Qed.

(** ** The contents of the store *)
Abbreviation contents := (gmap (list Z) (list Z)).
Definition hash_of (c : option (list Z)) : list Z := match c with Some c => sha256 c | None => zero_hash end.
Definition bytes_of (c : option (list Z)) : list Z := default [] c.
(** the hash by which devices compare all of their files *)
Definition root_hash (m : contents) : list Z := map_fold (fun _ c acc => xor_bytes (sha256 c) acc) zero_hash m.

Lemma length_hash_of c : length (hash_of c) = 32%nat.
Proof. destruct c; [apply length_sha256 | done]. Qed.
Lemma root_hash_insert m n c : m !! n = None -> root_hash (<[n := c]> m) = xor_bytes (sha256 c) (root_hash m).
Proof.
  intros H. unfold root_hash. rewrite map_fold_insert_L; [done | | done].
  intros j1 j2 z1 z2 y _ _ _. rewrite !xor_bytes_assoc. f_equal. apply xor_bytes_comm.
Qed.
Lemma length_root_hash m : length (root_hash m) = 32%nat.
Proof.
  induction m as [|n c m Hn IH] using map_ind; [done|]. rewrite root_hash_insert by done. rewrite length_xor_bytes, length_sha256, IH. done.
Qed.
Lemma root_hash_delete m n : xor_bytes (root_hash m) (hash_of (m !! n)) = root_hash (delete n m).
Proof.
  destruct (m !! n) as [c|] eqn:E; cbn [hash_of].
  - rewrite <- (insert_delete_id m n c E) at 1. rewrite root_hash_insert by apply lookup_delete_eq.
    rewrite (xor_bytes_comm (sha256 c)). by rewrite xor_bytes_cancel by (rewrite length_root_hash, length_sha256; lia).
  - rewrite delete_id by done. unfold zero_hash. by rewrite xor_bytes_zero by (rewrite length_root_hash; done).
Qed.
(** the hash after a file has changed *)
Lemma root_hash_change m n c : xor_bytes (xor_bytes (root_hash m) (sha256 c)) (hash_of (m !! n)) = root_hash (<[n := c]> m).
Proof.
  rewrite <- insert_delete_eq, root_hash_insert by apply lookup_delete_eq. rewrite <- root_hash_delete, xor_bytes_assoc. by rewrite (xor_bytes_comm (sha256 c)).
Qed.

(** ** What the state and a file that is open stand for *)
Section Refine.
Context `{M : Memory} `{HM : !MemoryOk M} {env txn : Type} `{L : !Lmdb value env txn} `{Laws : !LmdbLaws L}.

Definition stored_file (c : list Z) (d : persisted) : Prop :=
  p_length d = Z.of_nat (length c) /\ p_hash d = sha256 c /\ hashed c (p_partial d).
Definition file_record (c : option (list Z)) (v : option value) : Prop :=
  match c, v with
  | Some c, Some (FileValue d) => stored_file c d
  | None, None => True
  | _, _ => False
  end.

(** the database holds [m] *)
Record holds (m : contents) (e : env) : Prop := {
  h_files n : file_record (m !! n) (stored_in e files !! n);
  h_root : match stored_in e index !! root_key with
           | Some v => v = RootValue (RootState (root_hash m) VERSION)
           | None => m = ∅
           end;
  h_index n c : m !! n = Some c -> exists v, stored_in e index !! sync_key_of (sha256 c) = Some (VersionValue v)
}.
Record represents (m : contents) (s : dbstate env) : Prop := {
  r_db : holds m (db s);
  r_root : root s = RootState (root_hash m) VERSION
}.

(** [f] is open for the file [n], with the bytes [p] appended and not flushed *)
Record is_open (m : contents) (n p : list Z) (f : file_data) : Prop := {
  o_name : name f = n;
  o_hash : hash f = hash_of (m !! n);
  o_length : length_of f = Z.of_nat (length (bytes_of (m !! n)));
  o_partial : hashed (bytes_of (m !! n)) (partial_hash f);
  o_new_length : new_length f = Z.of_nat (length (bytes_of (m !! n) ++ p));
  o_new_hash : hashed (bytes_of (m !! n) ++ p) (new_hash f)
}.

Lemma garbage_64 : length (garbage 64) = 64%nat.
Proof. pose proof (garbage_length 64 ltac:(lia)). lia. Qed.

Lemma open_is_open m s n f : represents m s -> file_open s n = Some f -> is_open m (firstn 255 (cstr n)) [] f.
Proof.
  intros [[Hf _ _] _]. unfold file_open. destruct (mdb_txn_begin (db s)) as [t|] eqn:Et; [|done]. set (key := firstn _ _).
  change (firstn 255 (cstr n)) with key. specialize (Hf key). rewrite <- (begin_law _ _ Et) in Hf. pose proof (get_law t files key) as Hg.
  assert (forall d, p_hash d = hash_of (m !! key) -> p_length d = Z.of_nat (length (bytes_of (m !! key))) -> hashed (bytes_of (m !! key)) (p_partial d) ->
    is_open m key [] (FileData d key (p_length d) (p_partial d))) as H by (intros d H1 H2 H3; split; try done; by rewrite app_nil_r).
  destruct (mdb_get t files key) as [v| |]; [| |done]; rewrite Hg in Hf; intros [= <-]; apply H; destruct (m !! key) as [c|]; try done; destruct v as [d| | |]; try done;
    try (by destruct Hf as (? & ? & ?)); by apply hashed_init.
Qed.

Lemma append_is_open m n p f data : is_open m n p f -> Z.of_nat (length (bytes_of (m !! n) ++ p ++ data)) < 2 ^ 64 -> is_open m n (p ++ data) (file_append f data).
Proof.
  intros [H1 H2 H3 H4 H5 H6] Hl. split; try done; cbn [file_append new_length new_hash].
  - rewrite H5, u64_small; rewrite !length_app in *; lia.
  - rewrite app_assoc. apply update_hashed; [done | apply garbage_64].
Qed.
Lemma rewind_is_open m n p f : is_open m n p f -> is_open m n [] (rewind f).
Proof. intros [H1 H2 H3 H4 H5 H6]. split; try done; cbn [rewind new_length new_hash]; by rewrite app_nil_r. Qed.

(** ** Flushing *)
Lemma sync_key_not_root k : length k = 8%nat -> k <> root_key.
Proof. by intros H ->. Qed.
Lemma length_sync_key h : length h = 32%nat -> length (sync_key_of h) = 8%nat.
Proof. intros H. unfold sync_key_of. by rewrite length_firstn, H. Qed.

Lemma records_hold m e e' n c d : holds m e -> stored_file c d ->
  store_records e n d (RootState (root_hash (<[n := c]> m)) VERSION) = Stored e' -> holds (<[n := c]> m) e'.
Proof.
  intros [Hf _ Hi] Hd. unfold store_records. destruct (mdb_txn_begin e) as [t|] eqn:Hb; [|done]. destruct (flush_txn _ _ _ _) as [t'|] eqn:Hput; [|done]. destruct (mdb_txn_commit t') as [e1|] eqn:Hc; [|done]. intros [= ->].
  pose proof (begin_law _ _ Hb) as Lb. pose proof (commit_law _ _ Hc) as Lc. unfold flush_txn in Hput.
  destruct (mdb_put t files n _) as [t1|] eqn:E1; [|done]. destruct (mdb_put t1 index _ _) as [t2|] eqn:E2; [|done].
  assert (stored_in e' files = <[n := FileValue d]> (stored_in e files)) as Ef.
  { by rewrite Lc, (put_other _ _ _ _ _ _ Hput), (put_other _ _ _ _ _ _ E2), (put_same _ _ _ _ _ E1), Lb. }
  assert (stored_in e' index = <[root_key := RootValue (RootState (root_hash (<[n := c]> m)) VERSION)]> (<[sync_key_of (p_hash d) := VersionValue (FileVersion (p_version d) (p_length d) n)]> (stored_in e index))) as Ei.
  { by rewrite Lc, (put_same _ _ _ _ _ Hput), (put_same _ _ _ _ _ E2), (put_other _ _ _ _ _ _ E1), Lb. }
  split.
  - intros k. rewrite Ef. destruct (decide (n = k)) as [<-|Hne]; [by rewrite !lookup_insert_eq|]. rewrite !lookup_insert_ne by done. apply Hf.
  - by rewrite Ei, lookup_insert_eq.
  - intros k x Hx. rewrite Ei, lookup_insert_ne by (intros E; by apply (sync_key_not_root (sync_key_of (sha256 x))); [apply length_sync_key, length_sha256|]).
    destruct Hd as (_ & Hh & _). rewrite Hh. destruct (decide (sync_key_of (sha256 c) = sync_key_of (sha256 x))) as [->|Hne]; [rewrite lookup_insert_eq; by eexists|].
    rewrite lookup_insert_ne by done. destruct (decide (n = k)) as [<-|Hnk]; [rewrite lookup_insert_eq in Hx; by injection Hx as ->|].
    rewrite lookup_insert_ne in Hx by done. by apply (Hi k).
Qed.

(** the keys that are offered to peers *)
Definition own_keys (s : dbstate env) : list sync_key_t := match sync_state s with Some ss => leaves (SyncKeys.root ss) | None => [] end.
(** the database does not take the records *)
Definition refused (s : dbstate env) (n : list Z) : Prop := exists d r, length (p_hash d) = 32%nat /\ forall e, store_records (db s) n d r <> Stored e.

Lemma flush_spec m s f n p expected r s' f' : represents m s -> is_open m n p f -> file_flush s f expected = Some (r, s', f') ->
  let c := bytes_of (m !! n) ++ p in
  (r = 0 /\ p = [] /\ s' = s /\ f' = f) \/
  (r = -1 /\ p <> [] /\ s' = s /\ f' = rewind f /\ (memcmp_eq expected (sha256 c) = false \/ refused s n)) \/
  (r = 1 /\ p <> [] /\ memcmp_eq expected (sha256 c) = true /\ represents (<[n := c]> m) s' /\ is_open (<[n := c]> m) n [] f').
Proof.
  intros [Hdb Hroot] Hopen Hflush c. pose proof Hopen as [H1 H2 H3 H4 H5 H6]. unfold file_flush in Hflush. cbv zeta in Hflush. rewrite H3, H5, H1 in Hflush.
  destruct (Z.eqb_spec (Z.of_nat (length (bytes_of (m !! n)))) (Z.of_nat (length (bytes_of (m !! n) ++ p)))) as [El|El]; rewrite length_app in El.
  { left. injection Hflush as <- <- <-. destruct p; [done | cbn [length] in El; lia]. }
  right. assert (p <> []) as Hp by (intros ->; cbn [length] in El; lia). rewrite (final_hashed _ _ _ H6 garbage_64) in Hflush. fold c in Hflush.
  destruct (memcmp_eq expected (sha256 c)) eqn:Hm; cbn [negb] in Hflush.
  2: { left. injection Hflush as <- <- <-. repeat split; try done. by left. }
  rewrite Hroot, H2 in Hflush. cbn [r_hash] in Hflush. rewrite root_hash_change in Hflush. set (d := Persisted _ _ _ _) in *.
  destruct (store_records (db s) n d _) as [e| |] eqn:Est; [| |done].
  2: { left. injection Hflush as <- <- <-. repeat split; try done. right. exists d, (RootState (root_hash (<[n := c]> m)) VERSION). split; [apply length_sha256|]. rewrite Est. discriminate. }
  right. assert (holds (<[n := c]> m) e) as He by (eapply records_hold; [done | | exact Est]; by split).
  assert (is_open (<[n := c]> m) n [] (FileData d n (Z.of_nat (length c)) (new_hash f))) as Ho.
  { split; cbn [name new_length new_hash]; rewrite ?lookup_insert_eq; cbn [hash_of bytes_of default]; rewrite ?app_nil_r; try done. }
  destruct (sync_state s) as [ss|]; [destruct (sync_add_key ss _ 0) as [ss'|]; [|done]|]; injection Hflush as <- <- <-;
    (split; [done|]; split; [done|]; split; [done|]; split; [by split | exact Ho]).
Qed.

(** ** Opening the store again, and what peers send *)
Lemma represents_holds m s s' : represents m s -> db s' = db s -> root s' = root s -> represents m s'.
Proof. intros [H1 H2] E1 E2. split; [by rewrite E1 | by rewrite E2]. Qed.

Lemma open_db_spec m e s : holds m e -> (forall t, mdb_txn_begin e = Some t -> mdb_get t index root_key <> Failed) -> open_db e = Some s ->
  represents m s /\ sync_state s = None.
Proof.
  intros [Hf Hr Hi] Hget. unfold open_db. destruct (mdb_txn_begin e) as [t|] eqn:Et; [|done]. specialize (Hget t eq_refl).
  pose proof (get_law t index root_key) as Hg. pose proof (begin_law _ _ Et index) as Hb. rewrite Hb in Hg.
  assert (forall t', mdb_txn_commit t = Some t' -> holds m t') as Hc.
  { intros t' Ht. pose proof (commit_law _ _ Ht) as Hl. split; [intros n | | ]; rewrite Hl, (begin_law _ _ Et); auto. }
  destruct (mdb_get t index root_key) as [v| |]; [| |done]; rewrite Hg in Hr.
  - subst v. cbn [r_version Z.eqb VERSION negb Pos.eqb]. destruct (mdb_txn_commit t) as [e'|] eqn:Ec; [|done]. intros [= <-]. split; [|done]. by split; [apply Hc|].
  - destruct (mdb_txn_commit t) as [e'|] eqn:Ec; [|done]. intros [= <-]. split; [|done]. split; [by apply Hc|]. cbn [root r_hash]. by rewrite Hr.
Qed.

Lemma receive_metadata_spec m s peer msg s' out : represents m s -> receive_metadata s peer msg = Some (s', out) ->
  represents m s' /\ sync_state s' = sync_state s.
Proof.
  intros Hr. unfold receive_metadata. destruct (Z.ltb_spec (Z.of_nat (length msg)) (KEY_LEN + file_version_name_offset + 2)) as [|Hl]; [by intros [= <- <-]|].
  destruct (unpack_uint _) as [[r v]|]; [|done]. destruct (unpack_uint _) as [[r' l]|]; [|done]. destruct (_ || _); [done|].
  destruct (mdb_txn_begin (db s)) as [t|] eqn:Et; [|by intros [= <- <-]]. destruct (mdb_put t index _ _) as [t'|] eqn:Ep; [|by intros [= <- <-]].
  destruct (mdb_txn_commit t') as [e|] eqn:Ec; [|by intros [= <- <-]]. intros [= <- <-]. split; [|done].
  destruct Hr as [[Hf Hro Hi] Hroot]. pose proof (commit_law _ _ Ec) as Lc. pose proof (begin_law _ _ Et) as Lb.
  assert (length (firstn (Z.to_nat KEY_LEN) msg) = 8%nat) as Hkey by (rewrite length_firstn; unfold KEY_LEN, file_version_name_offset in *; lia).
  split; [|done]. cbn [db]. split.
  - intros n. rewrite Lc, (put_other _ _ _ _ _ _ Ep), Lb by done. apply Hf.
  - rewrite Lc, (put_same _ _ _ _ _ Ep), Lb. rewrite lookup_insert_ne by (by apply sync_key_not_root). exact Hro.
  - intros n c Hc. rewrite Lc, (put_same _ _ _ _ _ Ep), Lb. destruct (decide (firstn (Z.to_nat KEY_LEN) msg = sync_key_of (sha256 c))) as [->|Hne].
    + rewrite lookup_insert_eq. by eexists.
    + rewrite lookup_insert_ne by done. by apply (Hi n).
Qed.

Lemma init_sync_spec m s s' : represents m s -> init_sync_state s = Some s' -> represents m s'.
Proof.
  intros Hr. unfold init_sync_state. destruct (sync_state s); [by intros [= <-]|]. destruct (mdb_txn_begin (db s)); [|by intros [= <-]].
  destruct (fold_left _ _ _) as [[ss n]|]; [|done]. intros [= <-]. by apply (represents_holds m s).
Qed.
Lemma peer_message_spec state_bytes m s object known msg s' b out : represents m s -> jni_peer_message state_bytes s object known msg = Some (s', b, out) -> represents m s'.
Proof.
  intros Hr. unfold jni_peer_message. destruct msg as [msg|].
  - destruct (init_sync_state s) as [s1|] eqn:E1; [|done]. apply (init_sync_spec m) in E1; [|done]. clear Hr s. destruct (sync_state s1) as [ss|]; [|done].
    set (s2 := set_sync _ s1). assert (represents m s2) as Hr by (by apply (represents_holds m s1)). clearbody s2. clear E1 s1.
    destruct msg as [|type msg]; [done|]. destruct (type =? SYNC_MSG_KEY).
    + destruct (sync_state s2) as [ss2|]; [|done]. destruct (find_peer _ _); [|done]. destruct (sync_recv_from _ _ _) as [[[? ss3] log]|]; [|done].
      destruct (callbacks _ _ _); [|done]. intros [= <- _ _]. by apply (represents_holds m s2).
    + destruct (type =? SYNC_MSG_REQ_METADATA); [destruct (_ <? _); [done|]; by intros [= <- _ _]|].
      destruct (type =? SYNC_MSG_SEND_METADATA); [|by intros [= <- _ _]]. destruct (receive_metadata _ _ _) as [[s3 o]|] eqn:Em; [|done]. intros [= <- _ _].
      by apply (receive_metadata_spec m) in Em as [? _].
  - destruct known; [|by intros [= <- _ _]]. destruct (sync_state s); [|done]. destruct (find_peer _ _); [|done]. destruct (sync_free_peer_state _ _) as [[? ?]|]; [|done].
    intros [= <- _ _]. by apply (represents_holds m s).
Qed.

(** ** The store as it is used

    The store, with the files that are open, one for each name, as RecordStore.java
    keeps them. *)
Inductive op :=
  | Open (filename : list Z) | Append (n data : list Z) | Flush (n expected : list Z) | Close (n : list Z)
  | PeerSays (object : Z) (known : bool) (msg : option (list Z)) | Restart.
Variable state_bytes : sha256_state -> list Z.
Definition config : Type := dbstate env * gmap (list Z) file_data.
Definition step (c : config) (o : op) : option (config * Z) :=
  let '(s, opened) := c in
  match o with
  | Open filename =>
      let key := firstn 255 (cstr filename) in
      match opened !! key with
      | Some _ => None
      | None => opt f <- file_open s filename ;; Some ((s, <[key := f]> opened), 0)
      end
  | Append n data => opt f <- opened !! n ;; Some ((s, <[n := file_append f data]> opened), 0)
  | Flush n expected => opt f <- opened !! n ;; opt (r, s, f) <- file_flush s f expected ;; Some ((s, <[n := f]> opened), r)
  | Close n => Some ((s, delete n opened), 0)
  | PeerSays object known msg => opt (s, _, _) <- jni_peer_message state_bytes s object known msg ;; Some ((s, opened), 0)
  | Restart => opt s <- open_db (db s) ;; Some ((s, ∅), 0)
  end.
Fixpoint runs (c : config) (ops : list op) : option (config * list Z) :=
  match ops with
  | [] => Some (c, [])
  | o :: ops => opt (c, r) <- step c o ;; opt (c, rs) <- runs c ops ;; Some (c, r :: rs)
  end.

(** what it promises: contents that are committed, and bytes that are not yet *)
Record store := Store { committed : contents; pending : contents }.
Definition abstract_step (a : store) (o : op) (r : Z) : store :=
  match o with
  | Open filename => Store (committed a) (<[firstn 255 (cstr filename) := []]> (pending a))
  | Append n data => Store (committed a) (<[n := bytes_of (pending a !! n) ++ data]> (pending a))
  | Flush n _ =>
      Store (if r =? 1 then <[n := bytes_of (committed a !! n) ++ bytes_of (pending a !! n)]> (committed a) else committed a) (<[n := []]> (pending a))
  | Close n => Store (committed a) (delete n (pending a))
  | PeerSays _ _ _ => a
  | Restart => Store (committed a) ∅
  end.
Fixpoint abstract_runs (a : store) (ops : list op) (rs : list Z) : store :=
  match ops, rs with
  | o :: ops, r :: rs => abstract_runs (abstract_step a o r) ops rs
  | _, _ => a
  end.
Definition file_related (m : contents) (n : list Z) (f : option file_data) (p : option (list Z)) : Prop :=
  match f, p with Some f, Some p => is_open m n p f | None, None => True | _, _ => False end.
Record related (a : store) (c : config) : Prop := {
  rel_store : represents (committed a) (fst c);
  rel_files n : file_related (committed a) n (snd c !! n) (pending a !! n)
}.

Lemma is_open_other m m' n p f : m !! n = m' !! n -> is_open m n p f -> is_open m' n p f.
Proof. intros E [H1 H2 H3 H4 H5 H6]. rewrite E in *. by split. Qed.

Definition size_at (a : store) (n : list Z) : Z := Z.of_nat (length (bytes_of (committed a !! n) ++ bytes_of (pending a !! n))).
Definition appended (o : op) : Z := match o with Append _ data => Z.of_nat (length data) | _ => 0 end.
Definition within (N : Z) (a : store) : Prop := forall n, size_at a n <= N.

Lemma bytes_some x : bytes_of (Some x) = x.
Proof. done. Qed.
Lemma within_step N a o r : 0 <= N -> within N a -> within (N + appended o) (abstract_step a o r).
Proof.
  intros HN H n. pose proof (H n) as Hn. unfold size_at in *. rewrite length_app in *.
  destruct o as [filename|k data|k expected|k|object known msg|]; cbn [abstract_step committed pending appended] in *.
  - destruct (decide (firstn 255 (cstr filename) = n)) as [<-|]; [rewrite lookup_insert_eq; rewrite ?bytes_some; cbn [length]; lia | rewrite lookup_insert_ne by done; lia].
  - destruct (decide (k = n)) as [->|]; [rewrite lookup_insert_eq; rewrite bytes_some, length_app; lia | rewrite lookup_insert_ne by done; lia].
  - destruct (decide (k = n)) as [->|].
    + rewrite lookup_insert_eq. destruct (r =? 1); [rewrite lookup_insert_eq|]; rewrite ?bytes_some, ?length_app; cbn [length]; lia.
    + rewrite lookup_insert_ne by done. destruct (r =? 1); [rewrite lookup_insert_ne by done|]; lia.
  - destruct (decide (k = n)) as [->|]; [rewrite lookup_delete_eq; change (bytes_of None) with (@nil Z); cbn [length]; lia | rewrite lookup_delete_ne by done; lia].
  - lia.
  - rewrite lookup_empty. change (bytes_of None) with (@nil Z). cbn [length]. lia.
Qed.

Hypothesis root_readable : forall e t, mdb_txn_begin e = Some t -> mdb_get t index root_key <> Failed.

Lemma step_related N a c o c' r : related a c -> within N a -> N + appended o < 2 ^ 64 -> step c o = Some (c', r) -> related (abstract_step a o r) c'.
Proof.
  intros [Hs Hf] HN Hsmall Hstep. destruct c as [s opened]. cbn [fst snd] in *. unfold step in Hstep.
  destruct o as [filename|n data|n expected|n|object known msg|]; cbn [abstract_step appended] in *.
  - set (key := firstn 255 (cstr filename)) in *. destruct (opened !! key) eqn:Ek; [done|]. destruct (file_open s filename) as [f|] eqn:Eo; [|done]. injection Hstep as <- <-.
    split; [done|]. cbn [fst snd committed pending]. intros n. destruct (decide (key = n)) as [<-|Hne].
    + rewrite !lookup_insert_eq. by apply (open_is_open _ s).
    + rewrite !lookup_insert_ne by done. apply Hf.
  - destruct (opened !! n) as [f|] eqn:En; [|done]. injection Hstep as <- <-. split; [done|]. cbn [fst snd committed pending]. intros k.
    destruct (decide (n = k)) as [<-|Hne]; [|rewrite !lookup_insert_ne by done; apply Hf]. rewrite !lookup_insert_eq. pose proof (Hf n) as Hn. pose proof (HN n) as Hsize. rewrite En in Hn.
    unfold size_at in Hsize. destruct (pending a !! n) as [p|]; [|done]. cbn [file_related bytes_of default] in *. apply append_is_open; [done|]. rewrite !length_app in *. lia.
  - destruct (opened !! n) as [f|] eqn:En; [|done]. destruct (file_flush s f expected) as [[[r1 s1] f1]|] eqn:Ef; [|done]. injection Hstep as <- <-.
    pose proof (Hf n) as Hn. rewrite En in Hn. destruct (pending a !! n) as [p|] eqn:Ep; [|done]. cbn [file_related bytes_of default] in *.
    destruct (flush_spec _ _ _ _ _ _ _ _ _ Hs Hn Ef) as [(-> & -> & -> & ->)|[(-> & Hp & -> & -> & _)|(-> & Hp & _ & Hs' & Hf')]]; cbn [Z.eqb Pos.eqb]; (split; [done|]); cbn [fst snd committed pending]; intros k;
      (destruct (decide (n = k)) as [<-|Hne]; [rewrite !lookup_insert_eq | rewrite !lookup_insert_ne by done]); try apply Hf.
    + done.
    + by apply (rewind_is_open _ _ p).
    + exact Hf'.
    + specialize (Hf k). destruct (opened !! k), (pending a !! k); try done. eapply is_open_other; [|exact Hf]. by rewrite lookup_insert_ne.
  - injection Hstep as <- <-. split; [done|]. cbn [fst snd committed pending]. intros k. destruct (decide (n = k)) as [<-|Hne]; [by rewrite !lookup_delete_eq | rewrite !lookup_delete_ne by done; apply Hf].
  - destruct (jni_peer_message _ _ _ _ _) as [[[s1 b] out]|] eqn:Em; [|done]. injection Hstep as <- <-. split; [by apply (peer_message_spec _ (committed a)) in Em | done].
  - destruct (open_db (db s)) as [s1|] eqn:Eo; [|done]. injection Hstep as <- <-. destruct Hs as [Hdb _].
    apply (open_db_spec _ _ _ Hdb (root_readable _)) in Eo as [Hr _]. split; [done|]. cbn [fst snd committed pending]. intros k. by rewrite !lookup_empty.
Qed.
Lemma runs_related ops : forall N a c c' rs, related a c -> within N a -> 0 <= N -> N + list_sum_Z (map appended ops) < 2 ^ 64 -> runs c ops = Some (c', rs) -> related (abstract_runs a ops rs) c'.
Proof.
  induction ops as [|o ops IH]; intros N a c c' rs Hr HN H0 Hsmall Hrun; cbn [runs] in Hrun; [by injection Hrun as <- <-|].
  destruct (step c o) as [[c1 r]|] eqn:Es; [|done]. destruct (runs c1 ops) as [[c2 rs']|] eqn:Er; [|done]. injection Hrun as <- <-. cbn [abstract_runs map list_sum_Z] in *.
  assert (0 <= appended o) by (destruct o; cbn; lia). assert (0 <= list_sum_Z (map appended ops)) by (clear; induction ops as [|[] ops IH]; cbn [map list_sum_Z appended]; lia).
  apply (IH (N + appended o) _ c1); [by eapply step_related; [done | done | lia|] | by apply within_step | lia | lia | done].
Qed.
End Refine.
