(* ===== verification/StorageMessages.v ===== *)
(** storage.cpp: numbers in messages, what is known of files to peers, and the keys
    that are offered to them. *)
From S2P Require Import Prelude CString BlockHash Sha256 SyncKeys SyncTree SyncProtocol Lmdb Storage StorageRefine.
Local Open Scope Z_scope.
Local Open Scope succinct_scope.

(** ** Numbers in messages *)
Lemma land_byte v : 0 <= v -> let byte := Z.lor (Z.land v 0x7f) (if v >? 0x7f then 0x80 else 0) in
  Z.land byte 0x7f = v mod 2 ^ 7 /\ nz (Z.land byte 0x80) = (127 <? v).
Proof.
  intros Hv. change 0x7f with (2 ^ 7 - 1) at 1. rewrite !land_mod by lia. pose proof (Z.mod_pos_bound v (2 ^ 7) ltac:(lia)) as Hm.
  set (x := v mod 2 ^ 7) in *. clearbody x. rewrite Z.gtb_ltb.
  pose proof (below_cases 128 (fun x => (Z.land (Z.lor x 0x80) 127 =? x) && nz (Z.land (Z.lor x 0x80) 0x80) && (Z.land (Z.lor x 0) 127 =? x) && negb (nz (Z.land (Z.lor x 0) 0x80))) ltac:(vm_compute; reflexivity) x Hm) as H.
  cbv beta in H. b2p. cbv zeta. destruct (Z.ltb_spec 127 v); split; (done || lia || by destruct (nz _)).
Qed.
Lemma shift_split v n : 0 <= v -> 0 <= n -> Z.shiftl v n = Z.lor (Z.shiftl (v mod 2 ^ 7) n) (Z.shiftl (Z.shiftr v 7) (n + 7)).
Proof.
  intros Hv Hn. apply Z.bits_inj'. intros i Hi. rewrite Z.lor_spec. destruct (Z.ltb_spec i n).
  - by rewrite !Z.shiftl_spec_low by lia.
  - rewrite !Z.shiftl_spec by lia. destruct (Z.ltb_spec (i - n) 7).
    + rewrite Z.mod_pow2_bits_low by lia. rewrite (Z.testbit_neg_r _ (i - (n + 7))) by lia. by rewrite orb_false_r.
    + rewrite Z.mod_pow2_bits_high, Z.shiftr_spec by lia. cbn [orb]. f_equal. lia.
Qed.
Lemma unpack_pack fuel : forall i acc v rest, 0 <= i -> 0 <= v -> v < 2 ^ (7 * Z.of_nat fuel) -> v * 2 ^ (7 * i) < 2 ^ 31 -> (v = 0 -> i = 0) ->
  (0 < fuel)%nat -> unpack_loop i acc (pack_loop fuel v ++ rest) = Some (i + Z.of_nat (length (pack_loop fuel v)), Z.lor acc (Z.shiftl v (7 * i))).
Proof.
  induction fuel as [|fuel IH]; intros i acc v rest Hi Hv Hf Hw H0 Hpos; [lia|]. cbn [pack_loop]. destruct (land_byte v Hv) as [Hlow Hmore]. cbv zeta in Hlow, Hmore.
  set (byte := Z.lor _ _) in *. cbn [app unpack_loop].
  assert (i * 7 < 32) as Hshift.
  { destruct (Z.eq_dec v 0) as [E|]; [rewrite (H0 E); lia|]. assert (2 ^ (7 * i) < 2 ^ 31) as Hlt by nia. apply Z.pow_lt_mono_r_iff in Hlt; lia. }
  destruct (Z.geb_spec (i * 7) 32); [lia|]. rewrite Hlow, Hmore, (Z.mul_comm i 7).
  assert (0 <= Z.shiftl (v mod 2 ^ 7) (7 * i) < 2 ^ 31) as Hr.
  { rewrite Z.shiftl_mul_pow2 by lia. pose proof (Z.mod_pos_bound v (2 ^ 7) ltac:(lia)). pose proof (Z.mod_le v (2 ^ 7) Hv ltac:(lia)). nia. }
  rewrite i32_small, u64_small by lia.
  assert (Z.shiftr v 7 = v / 128) as Hshr by (by rewrite Z.shiftr_div_pow2).
  destruct (Z.ltb_spec 127 v) as [Hbig|Hsmall].
  - assert (nz (Z.shiftr v 7) = true) as -> by (unfold nz; apply negb_true_iff, Z.eqb_neq; rewrite Hshr; divmod).
    rewrite Nat2Z.inj_succ in Hf. replace (7 * Z.succ (Z.of_nat fuel)) with (7 * Z.of_nat fuel + 7) in Hf by lia. rewrite Z.pow_add_r in Hf by lia.
    destruct fuel as [|fuel']; [cbn in Hf; lia|]. set (fuel := S fuel') in *.
    rewrite IH; [| lia | rewrite Hshr; divmod | rewrite Hshr; apply Z.div_lt_upper_bound; lia | | intros E; rewrite Hshr in E; divmod | lia].
    + cbn [length]. f_equal. f_equal; [lia|]. rewrite <- Z.lor_assoc. f_equal. replace (7 * (i + 1)) with (7 * i + 7) by lia. by rewrite <- shift_split by lia.
    + replace (7 * (i + 1)) with (7 * i + 7) by lia. rewrite Z.pow_add_r, Hshr by lia. pose proof (Z.mul_div_le v 128 ltac:(lia)). assert (0 < 2 ^ (7 * i)) by (by apply Z.pow_pos_nonneg; lia). nia.
  - assert (Z.shiftr v 7 = 0) as E by (rewrite Hshr; apply Z.div_small; lia). rewrite E. cbn [nz Z.eqb negb length]. f_equal. f_equal.
    do 2 f_equal. apply Z.mod_small. lia.
Qed.
Lemma unpack_uint_pack v rest : 0 <= v < 2 ^ 31 -> unpack_uint (pack_uint v ++ rest) = Some (Z.of_nat (length (pack_uint v)), v).
Proof.
  intros Hv. unfold unpack_uint, pack_uint. rewrite unpack_pack by (try done; lia). by rewrite Z.mul_0_r, Z.shiftl_0_r.
Qed.

Lemma pack_length n : forall fuel v, 0 <= v < 2 ^ (7 * Z.of_nat n) -> (0 < n)%nat -> (length (pack_loop fuel v) <= n)%nat.
Proof.
  induction n as [|n IH]; intros fuel v Hv Hn; [lia|]. destruct fuel as [|fuel]; cbn [pack_loop length]; [lia|].
  destruct (nz (Z.shiftr v 7)) eqn:E; [|cbn [length]; lia]. unfold nz in E. b2p. rewrite Nat2Z.inj_succ in Hv. replace (7 * Z.succ (Z.of_nat n)) with (7 * Z.of_nat n + 7) in Hv by lia.
  rewrite Z.pow_add_r in Hv by lia. rewrite Z.shiftr_div_pow2 in * by lia. change (2 ^ 7) with 128 in *.
  destruct n as [|n]; [exfalso; apply E, Z.div_small; cbn in Hv; lia|]. cbn [length]. apply le_n_S, IH; [|lia].
  split; [apply Z.div_pos; lia | apply Z.div_lt_upper_bound; lia].
Qed.
(** the message of send_metadata fits into its array: five and ten bytes are enough for
    the numbers *)
Theorem metadata_fits key v : length key = 8%nat -> 0 <= v_version v < 2 ^ 32 -> 0 <= v_length v < 2 ^ 64 -> Z.of_nat (length (metadata_bytes key v)) <= metadata_size v.
Proof.
  intros Hk Hver Hl. unfold metadata_bytes, metadata_size, KEY_LEN. cbn [length]. rewrite !length_app, Hk. cbn [length].
  pose proof (pack_length 5 10 (v_version v) ltac:(lia) ltac:(lia)). pose proof (pack_length 10 10 (v_length v) ltac:(lia) ltac:(lia)). unfold pack_uint. lia.
Qed.

(** ** Keys *)
Lemma sha256_bytes msg : Forall (fun b => 0 <= b < 256) (sha256 msg).
Proof.
  unfold sha256, digest. change (@digest_of SHA256) with be32enc_vect. unfold be32enc_vect. generalize (@final_state SHA256 msg). intros st.
  induction st as [|w st IH]; [constructor|]. cbn [flat_map]. apply Forall_app. split; [|exact IH].
  unfold store32_be. repeat (constructor; [exact (u8_range _)|]). constructor.
Qed.
Lemma sync_key_ok msg : key_ok (sync_key_of (sha256 msg)).
Proof. split; [apply length_sync_key, length_sha256 | apply Forall_take, sha256_bytes]. Qed.

(** what it takes to add the keys one after the other: none of them is the exclusive
    or of others below a node (see [sync_add_key_collision]) *)
Fixpoint chain_ok (ss : SyncKeys.sync_state) (ks : list sync_key_t) : Prop :=
  match ks with
  | [] => True
  | k :: ks =>
      (k ∈ summaries (SyncKeys.root ss) -> k ∈ leaves (SyncKeys.root ss)) /\
      match sync_add_key ss k 0 with Some ss => chain_ok ss ks | None => True end
  end.

(** a key is added to a tree that has the keys of a set *)
Lemma add_key_leaves ss k : own_ok ss -> key_ok k -> (k ∈ summaries (SyncKeys.root ss) -> k ∈ leaves (SyncKeys.root ss)) -> Forall (peer_ok k) (peers ss) ->
  exists ss', sync_add_key ss k 0 = Some ss' /\ own_ok ss' /\ (forall x, x ∈ leaves (SyncKeys.root ss') <-> x = k \/ x ∈ leaves (SyncKeys.root ss)) /\
    (peers ss = [] -> peers ss' = []).
Proof.
  intros Hok Hk Hcol Hpeers. destruct (add_key_result ss k 0 Hok Hk Hcol Hpeers) as (ss' & Hs & Hok' & Hl & Hp). exists ss'. do 3 (split; [done|]).
  intros E. destruct Hp as [(_ & -> & _)|(_ & HF & _)]; [done|]. rewrite E in HF. by inversion HF.
Qed.

(** ** The keys of the files *)
Section Keys.
Context `{M : Memory} `{HM : !MemoryOk M} {env txn : Type} `{L : !Lmdb value env txn} `{Laws : !LmdbLaws L}.

Definition record_keys (l : list (list Z * value)) : list sync_key_t :=
  flat_map (fun r => match snd r with FileValue d => [sync_key_of (p_hash d)] | _ => [] end) l.
Lemma add_records l : forall ss n, own_ok ss -> peers ss = [] -> Forall key_ok (record_keys l) -> chain_ok ss (record_keys l) ->
  exists ss' n', fold_left add_record l (Some (ss, n)) = Some (ss', n') /\ own_ok ss' /\ peers ss' = [] /\
    forall x, x ∈ leaves (SyncKeys.root ss') <-> x ∈ record_keys l \/ x ∈ leaves (SyncKeys.root ss).
Proof.
  induction l as [|[name v] l IH]; intros ss n Hok Hp Hk Hc; cbn [fold_left].
  { exists ss, n. split; [done|]. split; [done|]. split; [done|]. intros x. cbn [record_keys flat_map]. rewrite elem_of_nil. tauto. }
  destruct v as [d|v|r|]; try (apply IH; done). cbn [record_keys flat_map snd app] in Hk, Hc |- *. apply Forall_cons_iff in Hk as [Hk Hks]. destruct Hc as [Hcol Hc].
  destruct (add_key_leaves ss (sync_key_of (p_hash d)) Hok Hk Hcol) as (ss1 & Hadd & Hok1 & Hl1 & Hp1); [by rewrite Hp|]. rewrite Hadd in Hc.
  assert (add_record (Some (ss, n)) (name, FileValue d) = Some (ss1, u32 (n + 1))) as -> by (unfold add_record; cbn [snd]; by rewrite Hadd).
  destruct (IH ss1 (u32 (n + 1)) Hok1 (Hp1 Hp) Hks Hc) as (ss' & n' & H1 & H2 & H3 & H4). exists ss', n'. do 3 (split; [done|]).
  intros x. rewrite H4, Hl1. change (flat_map _ l) with (record_keys l). rewrite elem_of_cons. tauto.
Qed.

(** the keys of all files *)
Definition file_keys (m : contents) (k : sync_key_t) : Prop := exists n c, m !! n = Some c /\ k = sync_key_of (sha256 c).
Lemma record_keys_files m e t : holds m e -> mdb_txn_begin e = Some t -> forall k, k ∈ record_keys (mdb_records t files) <-> file_keys m k.
Proof.
  intros [Hf _ _] Ht k. unfold record_keys. rewrite list_elem_of_In, in_flat_map. split.
  - intros ([n v] & Hin & Hk). apply list_elem_of_In in Hin. rewrite (records_law t files), elem_of_map_to_list, (begin_law _ _ Ht) in Hin. specialize (Hf n). rewrite Hin in Hf.
    destruct (m !! n) as [c|] eqn:En; [|done]. destruct v as [d|v|r|]; try done. destruct Hf as (_ & Hh & _). cbn [snd] in Hk. rewrite Hh in Hk. destruct Hk as [<-|[]]. by exists n, c.
  - intros (n & c & Hn & ->). specialize (Hf n). rewrite Hn in Hf. destruct (stored_in e files !! n) as [[d|v|r|]|] eqn:Ed; try done. destruct Hf as (_ & Hh & _).
    exists (n, FileValue d). cbn [snd]. rewrite Hh. split; [|by left]. apply list_elem_of_In. by rewrite (records_law t files), elem_of_map_to_list, (begin_law _ _ Ht).
Qed.
Lemma init_keys m s t : represents m s -> sync_state s = None -> mdb_txn_begin (db s) = Some t ->
  chain_ok (sync_alloc_state true true true true) (record_keys (mdb_records t files)) ->
  exists s' ss, init_sync_state s = Some s' /\ sync_state s' = Some ss /\ represents m s' /\ own_ok ss /\ forall k, k ∈ leaves (SyncKeys.root ss) <-> file_keys m k.
Proof.
  intros Hr Hnone Ht Hc. pose proof (record_keys_files m _ _ (r_db _ _ Hr) Ht) as Hk. unfold init_sync_state. rewrite Hnone, Ht.
  destruct (add_records (mdb_records t files) (sync_alloc_state true true true true) 0) as (ss & n & Hadd & Hok & _ & Hl); [by split; [left|] | done | | done |].
  - apply List.Forall_forall. intros k Hin. apply list_elem_of_In, Hk in Hin as (n & c & _ & ->). apply sync_key_ok.
  - rewrite Hadd. eexists _, ss. split; [reflexivity|]. split; [done|]. split; [by apply (represents_holds m s)|]. split; [done|].
    intros k. rewrite Hl, Hk. cbn [sync_alloc_state SyncKeys.root leaves]. rewrite elem_of_nil. tauto.
Qed.
End Keys.

(** ** Properties *)
Section Properties.
Context `{M : Memory} `{HM : !MemoryOk M} {env txn : Type} `{L : !Lmdb value env txn} `{Laws : !LmdbLaws L}.
Variable state_bytes : sha256_state -> list Z.

Definition packed_length (v : file_version) : Z := Z.of_nat (length (pack_uint (v_version v)) + length (pack_uint (v_length v)) + length (v_name v)).
Lemma metadata_received key v (s2 : dbstate env) peer2 t2 t2' e2 : length key = 8%nat -> 0 <= v_version v < 2 ^ 31 -> 0 <= v_length v < 2 ^ 31 -> no_nul (v_name v) ->
  Z.of_nat (length (v_name v)) < MAX_NAME -> mdb_txn_begin (db s2) = Some t2 -> mdb_put t2 index key (VersionValue v) = Some t2' -> mdb_txn_commit t2' = Some e2 ->
  receive_metadata s2 peer2 (key ++ pack_uint (v_version v) ++ pack_uint (v_length v) ++ v_name v ++ [0]) =
  if packed_length v <? 17 then Some (s2, []) else Some (DbState e2 (root s2) (sync_state s2) (keys s2) (deleted s2), [PeerHas peer2 key (v_name v) (v_length v)]).
Proof.
  intros Hkey Hver Hlen Hnul Hname Ht2 Hput Hc. set (known := packed_length v). unfold receive_metadata. rewrite !length_app. cbn [length].
  change (KEY_LEN + file_version_name_offset + 2) with 26.
  replace (Z.of_nat (length key + (length (pack_uint (v_version v)) + (length (pack_uint (v_length v)) + (length (v_name v) + 1)))) <? 26) with (known <? 17)
    by (subst known; unfold packed_length; rewrite Hkey; destruct (Z.ltb_spec (Z.of_nat (length (pack_uint (v_version v)) + length (pack_uint (v_length v)) + length (v_name v))) 17); symmetry; [apply Z.ltb_lt | apply Z.ltb_ge]; lia).
  destruct (known <? 17); [done|]. cbv zeta. unfold KEY_LEN. change (Z.to_nat 8) with 8%nat. rewrite <- Hkey, drop_app_length, take_app_length.
  rewrite unpack_uint_pack by done. cbv iota.
  assert (length (pack_uint (v_version v)) <= 10 /\ length (pack_uint (v_length v)) <= 10)%nat as [Hl1 Hl2].
  { assert (forall fuel x, (length (pack_loop fuel x) <= fuel)%nat) as H by (intros fuel; induction fuel as [|fuel IH]; intros x; cbn [pack_loop length]; [lia|]; destruct (nz _); cbn [length]; [specialize (IH (Z.shiftr x 7)); lia | lia]). split; apply H. }
  rewrite u32_small by lia. replace (Z.to_nat (8 + Z.of_nat (length (pack_uint (v_version v))))) with (length (key ++ pack_uint (v_version v))) by (rewrite length_app; lia).
  rewrite (app_assoc key), drop_app_length, unpack_uint_pack by done. cbv iota. rewrite u32_small by lia.
  replace (Z.to_nat (8 + Z.of_nat (length (pack_uint (v_version v))) + Z.of_nat (length (pack_uint (v_length v))))) with (length ((key ++ pack_uint (v_version v)) ++ pack_uint (v_length v))) by (rewrite !length_app; lia).
  rewrite (app_assoc (key ++ _)), drop_app_length, length_app, cstr_app by done. cbn [length].
  unfold MAX_NAME in *. destruct (Z.gtb_spec (Z.of_nat (length (v_name v) + 1)) 256); [lia|]. destruct (Z.geb_spec (Z.of_nat (length (v_name v))) 256); [lia|]. cbn [orb].
  rewrite Ht2, u32_small by lia. destruct v as [ver l nm]. cbn [v_version v_length v_name] in *. rewrite Hput, Hc. by rewrite i64_small by lia.
Qed.
Lemma difference_asks m s peer key t : represents m s -> m !! key = None -> mdb_txn_begin (db s) = Some t -> mdb_get t files key <> Failed ->
  process_difference state_bytes s peer key = Some [SyncMessage peer (SYNC_MSG_REQ_METADATA :: key)].
Proof.
  intros [[Hf _ _] _] Hm Ht Hget. unfold process_difference. rewrite Ht. pose proof (get_law t files key) as Hg. rewrite (begin_law _ _ Ht) in Hg.
  specialize (Hf key). rewrite Hm in Hf. destruct (mdb_get t files key) as [v| |]; [by rewrite Hg in Hf | done | done].
Qed.

(** C7: The store refines a map from names to contents, with bytes that are not
    committed for the files that are open: whatever is done with it, in any order,
    restarts and messages of peers included, the records of the files, the states of
    the hashes, and the files that are open stand for the contents; a flush that
    returns 1 commits what was appended, any other one drops it; and the root hash is
    the exclusive or of the hashes of the contents. *)
Theorem storage_refines e s0 ops c rs : holds ∅ e -> open_db e = Some s0 ->
  (forall e t, mdb_txn_begin e = Some t -> mdb_get t index root_key <> Failed) ->
  list_sum_Z (map appended ops) < 2 ^ 64 -> runs state_bytes (s0, ∅) ops = Some (c, rs) ->
  related (abstract_runs (Store ∅ ∅) ops rs) c.
Proof.
  intros He Ho Hget Hsum Hrun. apply (open_db_spec ∅ e s0 He (Hget e)) in Ho as [Hr _].
  apply (runs_related state_bytes Hget ops 0 (Store ∅ ∅) (s0, ∅)); [split; [done | intros n; cbn [snd pending]; by rewrite !lookup_empty] | | done | lia | done].
  intros n. unfold size_at. cbn [committed pending]. by rewrite !lookup_empty.
Qed.

(** C37: A flush of appended bytes whose hash is the expected one returns 1 when the
    database takes the records: the file then has the new contents, and peers are
    offered the key of its new hash besides the keys they were offered; with another
    hash it returns -1, nothing is stored, and the file is as it was committed. *)
Theorem file_flush_commits m s f n p expected : represents m s -> is_open m n p f -> p <> [] ->
  let c := bytes_of (m !! n) ++ p in
  (memcmp_eq expected (sha256 c) = false -> file_flush s f expected = Some (-1, s, rewind f) /\ is_open m n [] (rewind f)) /\
  (memcmp_eq expected (sha256 c) = true -> ~ refused s n ->
   (forall ss, sync_state s = Some ss -> own_ok ss /\ chain_ok ss [sync_key_of (sha256 c)] /\ Forall (peer_ok (sync_key_of (sha256 c))) (peers ss)) ->
   exists s' f', file_flush s f expected = Some (1, s', f') /\ represents (<[n := c]> m) s' /\ is_open (<[n := c]> m) n [] f' /\
     forall ss, sync_state s = Some ss -> forall k, k ∈ own_keys s' <-> k = sync_key_of (sha256 c) \/ k ∈ own_keys s).
Proof.
  intros Hr Ho Hp c. pose proof Ho as [H1 H2 H3 H4 H5 H6].
  assert ((length_of f =? new_length f) = false) as Hlen by (apply Z.eqb_neq; rewrite H3, H5, length_app; destruct p; [done | cbn [length]; lia]).
  assert (crypto_hash_sha256_final (garbage 64) (new_hash f) = sha256 c) as Hfinal by (by apply final_hashed, garbage_64).
  split; intros Hm.
  - split; [|by apply (rewind_is_open _ _ p)]. unfold file_flush. by rewrite Hlen, Hfinal, Hm.
  - intros Href Hsync. assert (exists r s' f', file_flush s f expected = Some (r, s', f') /\ (forall ss, sync_state s = Some ss -> r = 1 -> exists ss', sync_state s' = Some ss' /\ sync_add_key ss (sync_key_of (sha256 c)) 0 = Some ss')) as (r & s' & f' & Hf & Hss).
    { unfold file_flush. rewrite Hlen, Hfinal, Hm, H1. cbn [negb]. match goal with |- context [store_records ?a ?k ?d ?r] => assert (exists e, store_records a k d r = Stored e) as [e Est]; [|rewrite Est] end.
      { match goal with |- exists _, store_records ?e ?k ?d ?r = _ => destruct (store_records e k d r) eqn:Est; [by eexists | exfalso; apply Href; exists d, r; split; [apply length_sha256 | intros ?; rewrite Est; discriminate] ..] end. }
      destruct (sync_state s) as [ss|]; [|by eexists _, _, _]. destruct (Hsync ss eq_refl) as (Hok & [Hcol _] & Hpeers).
      destruct (add_key_leaves ss _ Hok (sync_key_ok c) Hcol Hpeers) as (ss' & Hadd & _). rewrite Hadd. eexists _, _, _. split; [reflexivity|]. intros ss2 [= <-] _. by exists ss'. }
    destruct (flush_spec _ _ _ _ _ _ _ _ _ Hr Ho Hf) as [(_ & ? & _)|[(_ & _ & _ & _ & [Hbad|?])|(-> & _ & _ & Hr' & Ho')]]; [done | by fold c in Hbad; rewrite Hm in Hbad | done|].
    exists s', f'. do 3 (split; [done|]). intros ss Ess. destruct (Hss ss Ess eq_refl) as (ss' & Es' & Hadd). unfold own_keys. rewrite Es', Ess.
    destruct (Hsync ss Ess) as (Hok & [Hcol _] & Hpeers). destruct (add_key_leaves ss _ Hok (sync_key_ok c) Hcol Hpeers) as (ss2 & Hadd2 & _ & Hl & _).
    rewrite Hadd in Hadd2. by injection Hadd2 as <-.
Qed.

(** C38: Two devices that hold the same files, and have not talked to a peer since they were
    started, announce the same root: init_sync_state offers the keys of all files that
    the database holds and no others, provided that no key is mistaken for what an inner
    node carries (chain_ok), and the first message of the conversation depends on them only, not on
    how the files came about.  A device that goes on running also offers the keys of the
    versions that it has replaced ([old_keys_stay]), and may announce another root. *)
Theorem same_files_same_root m1 m2 s1 s2 t1 t2 peer : represents m1 s1 -> represents m2 s2 -> sync_state s1 = None -> sync_state s2 = None ->
  mdb_txn_begin (db s1) = Some t1 -> mdb_txn_begin (db s2) = Some t2 ->
  chain_ok (sync_alloc_state true true true true) (record_keys (mdb_records t1 files)) -> chain_ok (sync_alloc_state true true true true) (record_keys (mdb_records t2 files)) ->
  (forall k, file_keys m1 k <-> file_keys m2 k) ->
  exists s1' s2' msg, jni_queue_root_message s1 peer = Some (s1', [SyncMessage peer msg]) /\ jni_queue_root_message s2 peer = Some (s2', [SyncMessage peer msg]) /\
    (forall k, k ∈ own_keys s1' <-> file_keys m1 k) /\ (forall k, k ∈ own_keys s2' <-> file_keys m2 k).
Proof.
  intros Hr1 Hr2 Hn1 Hn2 Ht1 Ht2 Hc1 Hc2 Hsame. destruct (init_keys m1 s1 t1 Hr1 Hn1 Ht1 Hc1) as (s1' & ss1 & Hi1 & Es1 & _ & [Hw1 Hm1] & Hl1).
  destruct (init_keys m2 s2 t2 Hr2 Hn2 Ht2 Hc2) as (s2' & ss2 & Hi2 & Es2 & _ & [Hw2 Hm2] & Hl2).
  exists s1', s2', (SYNC_MSG_KEY :: sync_root_msg (SyncKeys.root ss1) 64). unfold jni_queue_root_message, own_keys. rewrite Hi1, Hi2, Es1, Es2. split; [done|]. split; [|by split].
  rewrite (same_set_root_msg (SyncKeys.root ss1) (SyncKeys.root ss2)); try done. apply list.NoDup_Permutation; [by apply tree_nodup | by apply tree_nodup|]. intros k. by rewrite Hl1, Hl2.
Qed.

(** C39: What send_metadata sends of a file is what receive_metadata stores, for
    versions and lengths below 2^31; but a message that is shorter than the structs
    would be in memory is dropped, although the numbers are packed: the metadata of
    files with short names never arrives. *)
Theorem metadata_roundtrip s key v t : mdb_txn_begin (db s) = Some t -> mdb_get t index key = Found (VersionValue v) ->
  length key = 8%nat -> 0 <= v_version v < 2 ^ 31 -> 0 <= v_length v < 2 ^ 31 -> no_nul (v_name v) -> Z.of_nat (length (v_name v)) < MAX_NAME ->
  forall peer, exists msg, send_metadata s peer key = [SyncMessage peer (SYNC_MSG_SEND_METADATA :: msg)] /\
  forall (s2 : dbstate env) peer2 t2 t2' e2, mdb_txn_begin (db s2) = Some t2 -> mdb_put t2 index key (VersionValue v) = Some t2' -> mdb_txn_commit t2' = Some e2 ->
    let known := Z.of_nat (length (pack_uint (v_version v)) + length (pack_uint (v_length v)) + length (v_name v)) in
    receive_metadata s2 peer2 msg =
    if known <? 17 then Some (s2, []) else Some (DbState e2 (root s2) (sync_state s2) (keys s2) (deleted s2), [PeerHas peer2 key (v_name v) (v_length v)]).
Proof.
  intros Ht Hget Hkey Hver Hlen Hnul Hname peer. exists (key ++ pack_uint (v_version v) ++ pack_uint (v_length v) ++ v_name v ++ [0]).
  split; [unfold send_metadata; by rewrite Ht, Hget|]. intros s2 peer2 t2 t2' e2 Ht2 Hput Hc. by apply (metadata_received key v s2 peer2 t2 t2' e2).
Qed.

(** C40: process_difference looks in the table of files, where keys are names, for what
    is in the index: it asks the peer for the metadata of every key that is not the
    name of a file, however often the peer has sent it. *)
Theorem process_difference_asks m s peer key t : represents m s -> m !! key = None -> mdb_txn_begin (db s) = Some t -> mdb_get t files key <> Failed ->
  process_difference state_bytes s peer key = Some [SyncMessage peer (SYNC_MSG_REQ_METADATA :: key)].
Proof. apply difference_asks. Qed.
End Properties.

(** ** Examples *)
#[local] Existing Instances sample_memory sample_memory_ok.
Definition empty_env : tables value := Tables 100 (fun _ => ∅).
Definition sample_bytes : sha256_state -> list Z := buf.
Definition sample_store : dbstate (tables value) := DbState empty_env (RootState zero_hash VERSION) None 0 0.
Definition notes : list Z := [110; 111; 116; 101; 115].
Definition sample_ops : list op :=
  [Open notes; Append notes [1; 2]; Append notes [3]; Flush notes []; Append notes [4]; Flush notes [0]; Append notes [5; 6]; Flush notes (firstn 2 (sha256 [1; 2; 3; 5; 6]));
   Restart; Open notes; Append notes [7]].
Definition sample_run : option (config * list Z) := runs sample_bytes (sample_store, ∅) sample_ops.
Example sample_codes : option_map snd sample_run = Some [0; 0; 0; 1; 0; -1; 0; 1; 0; 0; 0].
Proof. vm_compute. reflexivity. Qed.

Lemma empty_holds : holds ∅ empty_env.
Proof. split; [intros n; by rewrite !lookup_empty | done | intros n c H; by rewrite lookup_empty in H]. Qed.
Lemma sample_open : open_db empty_env = Some sample_store.
Proof. reflexivity. Qed.
Lemma maps_readable (e t : tables value) : mdb_txn_begin e = Some t -> mdb_get t index root_key <> Failed.
Proof. intros _. cbn. by destruct (table t index !! root_key). Qed.

Lemma sample_runs : match sample_run with Some _ => true | None => false end = true.
Proof. vm_compute. reflexivity. Qed.
Lemma storage_refines_witness : match sample_run with Some (c, rs) => related (abstract_runs (Store ∅ ∅) sample_ops rs) c | None => False end.
Proof.
  pose proof sample_runs as Hsome. destruct sample_run as [[c rs]|] eqn:E; [clear Hsome | discriminate Hsome].
  apply (storage_refines sample_bytes empty_env sample_store sample_ops c rs); [apply empty_holds | apply sample_open | apply maps_readable | vm_compute; reflexivity | exact E].
Defined.

(** a file that is open, with bytes that were appended *)
Definition open_notes : file_data := FileData (Persisted 0 0 zero_hash (crypto_hash_sha256_init (repeat 0 64))) notes 0 (crypto_hash_sha256_init (repeat 0 64)).
Lemma sample_represents : represents ∅ sample_store.
Proof. split; [apply empty_holds | done]. Qed.
Lemma appended_open : is_open ∅ notes [1; 2; 3] (file_append open_notes [1; 2; 3]).
Proof. apply (append_is_open ∅ notes [] open_notes [1; 2; 3]); [|vm_compute; reflexivity]. by apply (open_is_open ∅ sample_store notes). Qed.
Lemma size_put {A} (k : list Z) (v : A) (m : gmap (list Z) A) : (size (<[k := v]> m) <= S (size m))%nat.
Proof. rewrite map_size_insert. destruct (m !! k); unfold id; lia. Qed.
Lemma sample_accepts : ~ refused sample_store notes.
Proof.
  intros (d & r & Hl & H). unfold store_records in H. cbn [mdb_txn_begin map_lmdb sample_store db] in H. unfold flush_txn in H. cbn [mdb_put map_lmdb] in H.
  assert (key_size_ok notes = true /\ key_size_ok (sync_key_of (p_hash d)) = true /\ key_size_ok root_key = true) as (K1 & K2 & K3).
  { split; [done|]. split; [|done]. unfold key_size_ok. by rewrite (length_sync_key _ Hl). }
  rewrite K1, K2, K3 in H. cbn [mdb_txn_commit map_lmdb] in H. destruct (fits_in _) eqn:E; [exact (H _ eq_refl)|]. unfold fits_in in E. apply bool_decide_eq_false in E. apply E.
  set (v := VersionValue (FileVersion (p_version d) (p_length d) notes)). set (none := ∅ : gmap (list Z) value).
  change (size (<[notes := FileValue d]> none) + size (<[root_key := RootValue r]> (<[sync_key_of (p_hash d) := v]> none)) <= 100)%nat.
  etransitivity; [apply Nat.add_le_mono; [apply size_put | etransitivity; [apply size_put | apply le_n_S, size_put]]|].
  vm_compute. lia.
Qed.

Lemma file_flush_commits_witness : exists s' f',
  file_flush sample_store (file_append open_notes [1; 2; 3]) (sha256 [1; 2; 3]) = Some (1, s', f') /\ represents (<[notes := [1; 2; 3]]> ∅) s'.
Proof.
  pose proof (file_flush_commits ∅ sample_store _ notes [1; 2; 3] (sha256 [1; 2; 3]) sample_represents appended_open ltac:(discriminate)) as H.
  cbv zeta in H. apply proj2 in H. assert (bytes_of ((∅ : contents) !! notes) ++ [1; 2; 3] = [1; 2; 3]) as E by (vm_compute; reflexivity). rewrite E in H.
  specialize (H ltac:(vm_compute; reflexivity) sample_accepts). destruct H as (s' & f' & H1 & H2 & _); [discriminate|]. exists s', f'. split; [exact H1 | exact H2].
Defined.

(** the same files, written in one go and in several *)
Definition lists : list Z := [108; 105; 115; 116; 115].
Definition other_ops : list op := [Open lists; Append lists [9]; Flush lists []; Open notes; Append notes [1; 2; 3; 5; 6]; Flush notes []].
Definition first_files : contents := <[lists := [9]]> (<[notes := [1; 2; 3; 5; 6]]> ∅).
Definition run_store (ops : list op) : dbstate (tables value) := match runs sample_bytes (sample_store, ∅) ops with Some (c, _) => fst c | None => sample_store end.
Definition more_ops : list op := sample_ops ++ [Open lists; Append lists [9]; Flush lists []].
Definition chain_okb : SyncKeys.sync_state -> list sync_key_t -> bool :=
  fix ok ss ks :=
    match ks with
    | [] => true
    | k :: ks =>
        (negb (bool_decide (k ∈ summaries (SyncKeys.root ss))) || bool_decide (k ∈ leaves (SyncKeys.root ss))) &&
        match sync_add_key ss k 0 with Some ss => ok ss ks | None => true end
    end.
Lemma chain_okb_spec ks : forall ss, chain_okb ss ks = true -> chain_ok ss ks.
Proof.
  induction ks as [|k ks IH]; intros ss H; cbn in *; [done|]. b2p. split.
  - intros Hin. destruct (bool_decide_reflect (k ∈ leaves (SyncKeys.root ss))); [done|]. match goal with Ho : _ \/ _ |- _ => destruct Ho as [Ho|Ho]; [|done] end.
    apply negb_true_iff, bool_decide_eq_false in H. done.
  - destruct (sync_add_key ss k 0); [by apply IH | done].
Qed.
Definition codes_of (ops : list op) : list Z := match runs sample_bytes (sample_store, ∅) ops with Some (_, rs) => rs | None => [-2] end.
Lemma run_represents ops : list_sum_Z (map appended ops) < 2 ^ 64 -> codes_of ops <> [-2] ->
  represents (committed (abstract_runs (Store ∅ ∅) ops (codes_of ops))) (run_store ops).
Proof.
  intros Hsum Hcodes. unfold run_store, codes_of in *. destruct (runs sample_bytes (sample_store, ∅) ops) as [[c rs]|] eqn:E; [|done].
  apply (runs_related sample_bytes maps_readable ops 0 (Store ∅ ∅) (sample_store, ∅) c rs); [split; [apply sample_represents | intros n; cbn [snd pending]; by rewrite !lookup_empty] | | done | done | done].
  intros n. unfold size_at. cbn [committed pending]. by rewrite !lookup_empty.
Qed.
Lemma more_represents : represents first_files (run_store more_ops).
Proof.
  assert (committed (abstract_runs (Store ∅ ∅) more_ops (codes_of more_ops)) = first_files) as <- by (vm_compute; reflexivity).
  apply run_represents; [reflexivity | vm_compute; discriminate].
Qed.
Lemma other_represents : represents first_files (run_store other_ops).
Proof.
  assert (committed (abstract_runs (Store ∅ ∅) other_ops (codes_of other_ops)) = first_files) as <- by (vm_compute; reflexivity).
  apply run_represents; [reflexivity | vm_compute; discriminate].
Qed.
Lemma same_files_same_root_witness : exists s1 s2 msg,
  jni_queue_root_message (run_store more_ops) 5 = Some (s1, [SyncMessage 5 msg]) /\ jni_queue_root_message (run_store other_ops) 5 = Some (s2, [SyncMessage 5 msg]) /\
  sync_key_of (sha256 [9]) ∈ own_keys s2.
Proof.
  destruct (same_files_same_root first_files first_files (run_store more_ops) (run_store other_ops) (db (run_store more_ops)) (db (run_store other_ops)) 5) as (s1 & s2 & msg & H1 & H2 & _ & H3).
  - apply more_represents.
  - apply other_represents.
  - vm_compute. reflexivity.
  - vm_compute. reflexivity.
  - reflexivity.
  - reflexivity.
  - apply chain_okb_spec. vm_compute. reflexivity.
  - apply chain_okb_spec. vm_compute. reflexivity.
  - done.
  - exists s1, s2, msg. split; [exact H1|]. split; [exact H2|]. apply H3. exists lists, [9]. by split.
Defined.

(** a file that is flushed twice by a device with a state, before and after it is started again *)
Definition flushed_twice : option (dbstate (tables value)) :=
  opt s <- init_sync_state sample_store ;;
  opt (_, s, f) <- file_flush s (file_append open_notes [1; 2; 3]) [] ;;
  opt (_, s, _) <- file_flush s (file_append f [4]) [] ;;
  Some s.
Definition restarted (s : dbstate (tables value)) : option (dbstate (tables value)) := opt s <- open_db (db s) ;; init_sync_state s.
Example old_keys_stay :
  option_map own_keys flushed_twice = Some [sync_key_of (sha256 [1; 2; 3]); sync_key_of (sha256 [1; 2; 3; 4])] /\
  option_map own_keys (opt s <- flushed_twice ;; restarted s) = Some [sync_key_of (sha256 [1; 2; 3; 4])].
Proof. vm_compute. split; reflexivity. Qed.
(** the three records do not fit into the database: its commit fails, and the abort after
    it is not something that LMDB describes *)
Example commit_fails :
  store_records (Tables 2 (fun _ => ∅)) notes (kept open_notes) (RootState zero_hash VERSION) = CommitFailed /\
  file_flush (DbState (Tables 2 (fun _ => ∅)) (root sample_store) None 0 0) (file_append open_notes [1; 2; 3]) [] = None.
Proof. split; vm_compute; reflexivity. Qed.

(** metadata that is sent from one device to the other *)
Definition some_key : sync_key_t := [1; 2; 3; 4; 5; 6; 7; 200].
Definition long_name : list Z := repeat 110 20.
Definition some_version : file_version := FileVersion 3 1000 long_name.
Definition knowing_env (v : file_version) : tables value := Tables 100 (fun i => if decide (i = index) then {[some_key := VersionValue v]} else ∅).
Definition knowing_store (v : file_version) : dbstate (tables value) := DbState (knowing_env v) (RootState zero_hash VERSION) None 0 0.

Lemma metadata_roundtrip_witness : exists msg s2, send_metadata (knowing_store some_version) 1 some_key = [SyncMessage 1 (SYNC_MSG_SEND_METADATA :: msg)] /\
  receive_metadata sample_store 2 msg = Some (s2, [PeerHas 2 some_key long_name 1000]).
Proof.
  destruct (metadata_roundtrip (knowing_store some_version) some_key some_version (knowing_env some_version)) with (peer := 1) as (msg & H1 & H2);
    [reflexivity | reflexivity | reflexivity | cbn; lia | cbn; lia | | reflexivity |].
  - apply (bool_decide_unpack _). vm_compute. exact Logic.I.
  - exists msg. eexists. split; [exact H1|]. eapply H2; reflexivity.
Defined.

(** the file "notes", in its third version, with 1000 bytes: eight bytes are missing *)
Example short_name_lost : match send_metadata (knowing_store (FileVersion 3 1000 notes)) 1 some_key with
  | [SyncMessage _ (_ :: msg)] => receive_metadata sample_store 2 msg = Some (sample_store, [])
  | _ => False
  end.
Proof. vm_compute. reflexivity. Qed.
(** the shift of an int that becomes negative *)
Example length_sign_extended : unpack_uint (pack_uint (2 ^ 31)) = Some (5, 2 ^ 64 - 2 ^ 31).
Proof. vm_compute. reflexivity. Qed.

Lemma process_difference_asks_witness :
  process_difference sample_bytes (knowing_store some_version) 1 some_key = Some [SyncMessage 1 (SYNC_MSG_REQ_METADATA :: some_key)].
Proof.
  apply (process_difference_asks sample_bytes ∅ (knowing_store some_version) 1 some_key (knowing_env some_version)); [|reflexivity | reflexivity | by vm_compute].
  split; [|done]. split; [intros n; by rewrite !lookup_empty | by vm_compute | intros n c H; by rewrite lookup_empty in H].
Defined.
