(* ===== verification/StorageJourney.v ===== *)
(** storage.cpp and sync_keys.cpp on two devices: from the announcement of a key to the
    metadata of its file in the store of the other one. *)
From S2P Require Import Prelude CString BlockHash Sha256 SyncKeys SyncTree SyncProtocol SyncSafety SyncLearn Lmdb Storage StorageRefine StorageMessages.
Local Open Scope Z_scope.
Local Open Scope succinct_scope.

Section Journey.
Context `{M : Memory} `{HM : !MemoryOk M} {env txn : Type} `{L : !Lmdb value env txn} `{Laws : !LmdbLaws L}.
Variable state_bytes : sha256_state -> list Z.

(** ** The calls that the handling of one message makes *)
Lemma callbacks_all s l : Forall (fun e => exists o, callback state_bytes s e = Some o) l ->
  exists out, callbacks state_bytes s l = Some out /\ forall e o x, e ∈ l -> callback state_bytes s e = Some o -> x ∈ o -> x ∈ out.
Proof.
  induction 1 as [|e l [o Ho] _ (out & Hout & IH)]; cbn [callbacks].
  { exists []. split; [done|]. intros e o x H. by apply not_elem_of_nil in H. }
  rewrite Ho, Hout. exists (o ++ out). split; [done|]. intros e' o' x Hin He Hx. apply elem_of_app.
  apply elem_of_cons in Hin as [->|Hin]; [left; congruence | right; eauto].
Qed.
Lemma find_peer_spec object ss i : find_peer object ss = Some i -> exists p, peers ss !! i = Some p /\ peer_context p = object.
Proof.
  unfold find_peer. destruct (list_find _ _) as [[j p]|] eqn:E; [|done]. intros [= <-]. apply list_find_Some in E as (Hp & Hc & _). by exists p.
Qed.

(** ** The two devices *)

(** the device has the metadata [v] of a file under the key [k] *)
Record offers (s : dbstate env) (k : sync_key_t) (v : file_version) : Prop := {
  o_sync : exists ss, sync_state s = Some ss;
  o_index : exists t, mdb_txn_begin (db s) = Some t /\ mdb_get t index k = Found (VersionValue v);
  o_version : 0 <= v_version v < 2 ^ 31;
  o_length : 0 <= v_length v < 2 ^ 31;
  o_name : no_nul (v_name v) /\ Z.of_nat (length (v_name v)) < MAX_NAME;
  (** what a name has to be long enough for: see [metadata_roundtrip] *)
  o_packed : 17 <= packed_length v
}.
(** the device has the files [m], converses with the peer [object], and has not heard
    of the key [k] *)
Record lacks (s : dbstate env) (m : contents) (object : Z) (k : sync_key_t) (lo : Z) : Prop := {
  k_store : represents m s;
  k_name : m !! k = None;
  k_sync : exists ss i p, sync_state s = Some ss /\ find_peer object ss = Some i /\ peers ss !! i = Some p /\ has_callback ss = true /\
    wf_tree (SyncKeys.root ss) /\ wf_tree (peer_root p) /\ (k ∉ leaves (SyncKeys.root ss)) /\ (k ∉ leaves (peer_root p)) /\ plain k lo (World ss p []);
  k_read : exists t, mdb_txn_begin (db s) = Some t /\ mdb_get t files k <> Failed
}.
(** the database takes the record *)
Definition accepts (s : dbstate env) (k : sync_key_t) (v : file_version) : Prop :=
  exists t t' e, mdb_txn_begin (db s) = Some t /\ mdb_put t index k (VersionValue v) = Some t' /\ mdb_txn_commit t' = Some e.

(** the one that lacks the key asks for its metadata *)
Lemma announcement_asks s m object k lo : key_ok k -> 0 <= lo <= 64 -> lacks s m object k lo ->
  exists s' ss out, jni_peer_message state_bytes s object true (Some (SYNC_MSG_KEY :: message_bytes (announced k lo))) = Some (s', true, out) /\
    SyncMessage object (SYNC_MSG_REQ_METADATA :: k) ∈ out /\ db s' = db s /\ root s' = root s /\ sync_state s' = Some ss.
Proof.
  intros Hk Hlo [Hr Hm (ss & i & p & Hs & Hi & Hp & Hf & Hw & Hwp & Hn & Hnp & Hplain) (t & Ht & Hget)].
  destruct (announced_received k lo (World ss p []) Hk Hlo Hw Hwp) as [_ Hlearn].
  destruct (Hlearn Hn) as (w' & Hrecv & [_ _ _ _ _ _ (events & Hlog & Hev & Hl)]); [apply Hplain; [exact Hw | by left]|].
  destruct (Hl (or_intror Hplain)) as [_ Hcalls].
  assert (Has (peer_context p) k ∈ events) as Hhas by (apply has_calls_in; rewrite (Hcalls Hf), bool_decide_false by done; by left). cbn [w_log w_peer app] in *.
  assert (peer_context p = object) as Hctx by (destruct (find_peer_spec _ _ _ Hi) as (p' & Hp' & Hc); congruence). rewrite Hctx in *.
  pose proof (parse_announced k lo Hk Hlo) as Hparse. pose proof (length_announced k lo Hk) as Hlen.
  rewrite <- Hparse in Hrecv. pose proof (recv_one_record _ (World ss p []) 0 w' Hlen Hrecv) as Hmsg. change (if 0 =? -1 then -1 else 0) with 0 in Hmsg.
  set (ss' := set_peers (<[i := w_peer w']> (peers ss)) (w_state w')). set (s' := set_sync ss' (set_sync ss s)).
  assert (represents m s') as Hr' by (by apply (represents_holds m s)).
  pose proof (difference_asks state_bytes m s' object k t Hr' Hm Ht Hget) as Hask.
  destruct (callbacks_all s' events) as (out & Hout & Hin).
  { apply (Forall_impl _ _ _ Hev). intros e [He| ->]; [|by eexists]. destruct e; try done; by eexists. }
  exists s', ss', out. split; [|split; [|done]].
  - unfold jni_peer_message, init_sync_state. rewrite Hs. change (SYNC_MSG_KEY =? SYNC_MSG_KEY) with true. cbv iota. rewrite Hs. cbn [set_sync sync_state]. rewrite Hi.
    unfold sync_recv_from. rewrite Hp, Hmsg, Hlog. fold ss' s'. by rewrite Hout.
  - apply (Hin (Has object k) _ _ Hhas Hask). by left.
Qed.
(** the one that has it answers *)
Lemma request_answered s object k v : key_ok k -> offers s k v ->
  jni_peer_message state_bytes s object true (Some (SYNC_MSG_REQ_METADATA :: k)) =
  Some (s, true, [SyncMessage object (SYNC_MSG_SEND_METADATA :: k ++ pack_uint (v_version v) ++ pack_uint (v_length v) ++ v_name v ++ [0])]).
Proof.
  intros [Hk _] [(ss & Hs) (t & Ht & Hget) _ _ _ _]. unfold jni_peer_message, init_sync_state. rewrite Hs. rewrite Hs.
  change (SYNC_MSG_REQ_METADATA =? SYNC_MSG_KEY) with false. change (SYNC_MSG_REQ_METADATA =? SYNC_MSG_REQ_METADATA) with true. cbv iota.
  rewrite Hk. change (Z.of_nat 8 <? KEY_LEN) with false. cbv iota. rewrite (firstn_all2 k) by (rewrite Hk; unfold KEY_LEN; lia).
  unfold send_metadata. cbn [set_sync db]. rewrite Ht, Hget. destruct s as [d r x n del]. cbn [sync_state] in Hs. rewrite Hs. done.
Qed.
(** and the first one keeps the answer *)
Lemma answer_kept s s0 ss object k v : key_ok k -> offers s0 k v -> sync_state s = Some ss -> accepts s k v ->
  exists e, jni_peer_message state_bytes s object true (Some (SYNC_MSG_SEND_METADATA :: k ++ pack_uint (v_version v) ++ pack_uint (v_length v) ++ v_name v ++ [0])) =
    Some (DbState e (root s) (sync_state s) (keys s) (deleted s), true, [PeerHas object k (v_name v) (v_length v)]) /\
    stored_in e index !! k = Some (VersionValue v).
Proof.
  intros [Hk _] [_ _ Hver Hlen [Hnul Hname] Hpacked] Hs (t & t' & e & Ht & Hput & Hc). exists e. split.
  - unfold jni_peer_message, init_sync_state. rewrite Hs. rewrite Hs.
    change (SYNC_MSG_SEND_METADATA =? SYNC_MSG_KEY) with false. change (SYNC_MSG_SEND_METADATA =? SYNC_MSG_REQ_METADATA) with false.
    change (SYNC_MSG_SEND_METADATA =? SYNC_MSG_SEND_METADATA) with true. cbv iota.
    rewrite (metadata_received k v (set_sync ss s) object t t' e) by done. destruct (Z.ltb_spec (packed_length v) 17); [lia|].
    destruct s as [d r x n del]. cbn [sync_state] in Hs. by rewrite Hs.
  - rewrite (commit_law _ _ Hc), (put_same _ _ _ _ _ Hput). by rewrite lookup_insert_eq.
Qed.

(** C10: Metadata finds its way.  When a device that has the metadata of a file announces
    the key of it to one that has not heard of it, this one asks for the metadata; the
    first answers; and the second tells the application what the peer has and keeps
    the metadata under the key, its own files as they were.  It holds for keys that no
    node is mistaken for, and for names that are long enough for the message. *)
Theorem metadata_journey sA sB m a b k lo v : key_ok k -> 0 <= lo <= 64 -> offers sA k v -> lacks sB m a k lo -> accepts sB k v ->
  exists sB1 sB2 out answer,
    jni_peer_message state_bytes sB a true (Some (SYNC_MSG_KEY :: message_bytes (announced k lo))) = Some (sB1, true, out) /\
    SyncMessage a (SYNC_MSG_REQ_METADATA :: k) ∈ out /\
    jni_peer_message state_bytes sA b true (Some (SYNC_MSG_REQ_METADATA :: k)) = Some (sA, true, [SyncMessage b answer]) /\
    jni_peer_message state_bytes sB1 a true (Some answer) = Some (sB2, true, [PeerHas a k (v_name v) (v_length v)]) /\
    represents m sB2 /\ stored_in (db sB2) index !! k = Some (VersionValue v).
Proof.
  intros Hk Hlo Ho Hl Ha. destruct (announcement_asks sB m a k lo Hk Hlo Hl) as (s1 & ss & out & H1 & Hin & Hdb & Hroot & Hs).
  assert (represents m s1) as Hr by (apply (represents_holds m sB); [apply (k_store _ _ _ _ _ Hl) | done | done]).
  assert (accepts s1 k v) as Ha1 by (unfold accepts; by rewrite Hdb). destruct (answer_kept s1 sA ss a k v Hk Ho Hs Ha1) as (e & H2 & Hstored).
  eexists s1, _, out, _. split; [exact H1|]. split; [exact Hin|]. split; [by apply (request_answered sA b k v)|]. split; [exact H2|].
  split; [exact (peer_message_spec state_bytes m _ _ _ _ _ _ _ Hr H2) | exact Hstored].
Qed.
End Journey.

(** ** Evaluated *)

(** no node is mistaken when there is one key at most *)
Lemma single_plain x k lo t : wf_tree t -> (forall y, y ∈ leaves t -> y = x) -> unmistaken (announced k lo) t.
Proof.
  intros [->|Hwf] Hx; [by apply List.Forall_nil|]. inversion Hwf as [? m ctx ? ? Hp ? | ? m ctx c0 c1 ? ? Hp ? H0 H1 B0 B1 ?]; subst.
  - unfold unmistaken. cbn [inner]. rewrite Hp. by apply List.Forall_nil.
  - exfalso. pose proof (leaves_inner _ _ _ _ _ Hwf Hp) as El. rewrite El in Hx.
    destruct (wf_leaves_ok _ _ H0) as [_ N0], (wf_leaves_ok _ _ H1) as [_ N1]. destruct (leaves c0) as [|y0 l0]; [done|]. destruct (leaves c1) as [|y1 l1]; [done|].
    apply Forall_cons_iff in B0 as [[_ E0] _]. apply Forall_cons_iff in B1 as [[_ E1] _].
    rewrite (Hx y0) in E0 by by left. rewrite (Hx y1) in E1 by (apply elem_of_app; right; by left). congruence.
Qed.
#[local] Existing Instances sample_memory sample_memory_ok.
Definition with_sync (ss : SyncKeys.sync_state) (s : dbstate (tables value)) : dbstate (tables value) := DbState (db s) (root s) (Some ss) 1 0.
Definition teller : dbstate (tables value) := with_sync sample_state (knowing_store some_version).
(** with one key, and the peer 7 *)
Definition listener : dbstate (tables value) := with_sync (add_all sample_state [1]) sample_store.
Lemma metadata_journey_witness : exists s1 s2 out answer,
  jni_peer_message sample_bytes listener 7 true (Some (SYNC_MSG_KEY :: message_bytes (announced some_key 0))) = Some (s1, true, out) /\
  SyncMessage 7 (SYNC_MSG_REQ_METADATA :: some_key) ∈ out /\
  jni_peer_message sample_bytes teller 8 true (Some (SYNC_MSG_REQ_METADATA :: some_key)) = Some (teller, true, [SyncMessage 8 answer]) /\
  jni_peer_message sample_bytes s1 7 true (Some answer) = Some (s2, true, [PeerHas 7 some_key long_name 1000]) /\
  represents ∅ s2 /\ stored_in (db s2) index !! some_key = Some (VersionValue some_version).
Proof.
  apply (metadata_journey sample_bytes teller listener ∅ 7 8 some_key 0 some_version).
  - split; [reflexivity | apply (bool_decide_unpack _); vm_compute; exact Logic.I].
  - lia.
  - split; [by eexists | eexists; split; reflexivity | cbn; lia | cbn; lia | split; [apply (bool_decide_unpack _); vm_compute; exact Logic.I | reflexivity] | vm_compute; discriminate].
  - assert (wf_tree (SyncKeys.root (add_all sample_state [1]))) as Hw.
    { change (wf_tree (add_key (key_of 1) 1 true Null)). apply (add_key_spec (key_of 1) 1 true); [by apply key_of_ok | by left | by apply not_elem_of_nil]. }
    split; [by apply (represents_holds ∅ sample_store); [apply sample_represents| |] | reflexivity | | by eexists; split; [reflexivity | vm_compute]].
    eexists _, O, (Peer 7 0 0 Null). do 4 (split; [reflexivity|]). split; [exact Hw|]. split; [by left|].
    split; [apply (bool_decide_unpack _); vm_compute; exact Logic.I|]. split; [by apply not_elem_of_nil|].
    intros t Ht Hsub. apply (single_plain (key_of 1)); [exact Ht|]. intros y Hy. destruct (Hsub y Hy) as [H|H]; [|by apply not_elem_of_nil in H].
    apply list_elem_of_singleton. exact H.
  - eexists _, _, _. split; [reflexivity|]. split; reflexivity.
Defined.
