(* ===== verification/Stun.v ===== *)
(** stun.c: the service that tells the senders of broadcasts about each other. *)
From S2P Require Import Prelude BlockHash.
Local Open Scope Z_scope.
Local Open Scope succinct_scope.

Definition STUN_MSG : Z := 8.
Definition STUN_ADDRS : nat := 255.
Definition AF_INET : Z := 2.

(** the parts of the union that the code reads; the port and the address are in the
    order of the network *)
Record socket_address := Address { addr_len : Z; sa_family : Z; sin_port : Z; sin_addr : list Z }.
Record heard := Heard { time : Z; addr : socket_address }.
(** static storage is zero *)
Definition heard_table : list heard := repeat (Heard 0 (Address 0 0 0 [0; 0; 0; 0])) STUN_ADDRS.

Definition same_sender (a b : socket_address) : bool :=
  (sa_family a =? sa_family b) && (sa_family a =? AF_INET) && (sin_port a =? sin_port b) && bool_decide (sin_addr a = sin_addr b).
Definition recent (now : Z) (a : socket_address) (h : heard) : bool := (sin_port a =? sin_port (addr h)) && (now - time h <=? 10).

(** the loop over the slots: [found] is an index, [offset] that of the next byte *)
Fixpoint scan (now : Z) (a : socket_address) (i : nat) (slots : list heard) (found : option nat) (buff : list Z) (offset : Z) : option nat * list Z * Z :=
  match slots with
  | [] => (found, buff, offset)
  | h :: slots =>
      if same_sender a (addr h) then scan now a (S i) slots (Some i) buff offset
      else if recent now a h then
        scan now a (S i) slots found (copy_into (wr buff offset 4) (offset + 1) (sin_addr (addr h))) (offset + 5)
      else scan now a (S i) slots (match found with None => Some i | Some j => Some j end) buff offset
  end.

(** one packet that was received: [buff] holds it.  The new table, and the bytes that
    are sent to [a], from an array of 1024 *)
Definition stun_packet (now : Z) (a : socket_address) (buff : list Z) (table : list heard) : list heard * option (Z * list Z) :=
  if rd buff 0 =? STUN_MSG then (table, None)
  else
    let buff := wr buff 0 STUN_MSG in
    let '(found, buff, offset) := scan now a 0 table None buff 3 in
    let table := match found with Some i => <[i := Heard now a]> table | None => table end in
    if offset >? 3 then
      let len := offset - 3 in
      let buff := wr (wr buff 1 (Z.land (Z.shiftl len 8) 0xff)) 2 (Z.land len 0xff) in
      (table, Some (offset, buff))
    else (table, None).

(** ** What a packet is answered with *)
Definition others (now : Z) (a : socket_address) (table : list heard) : list heard :=
  List.filter (fun h => negb (same_sender a (addr h)) && recent now a h) table.
Definition entry (h : heard) : list Z := 4 :: sin_addr (addr h).
(** a slot that may be overwritten *)
Definition free (now : Z) (a : socket_address) (h : heard) : bool := negb (same_sender a (addr h)) && negb (recent now a h).
Definition well_formed (table : list heard) : Prop := Forall (fun h => length (sin_addr (addr h)) = 4%nat) table.

Fixpoint find_slot (now : Z) (a : socket_address) (i : nat) (slots : list heard) (found : option nat) : option nat :=
  match slots with
  | [] => found
  | h :: slots =>
      find_slot now a (S i) slots
        (if same_sender a (addr h) then Some i else if recent now a h then found else match found with None => Some i | Some j => Some j end)
  end.

Lemma scan_spec now a slots : forall i found buff (k : nat), well_formed slots ->
  (k + 5 * length (others now a slots) <= length buff)%nat ->
  scan now a i slots found buff (Z.of_nat k) =
    (find_slot now a i slots found, copy_into buff (Z.of_nat k) (flat_map entry (others now a slots)), Z.of_nat (k + 5 * length (others now a slots))).
Proof.
  induction slots as [|h slots IH]; intros i found buff k Hwf Hlen; cbn [scan find_slot]; [by rewrite Nat.add_0_r|].
  apply Forall_cons_iff in Hwf as [Hh Hwf]. unfold others in *. cbn [List.filter] in *.
  destruct (same_sender a (addr h)); cbn [negb andb] in *; [by apply IH|]. destruct (recent now a h); cbn [andb] in *; [|by apply IH].
  cbn [length flat_map] in *. replace (Z.of_nat k + 5) with (Z.of_nat (k + 5)) by lia. rewrite IH by (rewrite ?length_copy_into, ?length_wr; done || lia).
  f_equal; [f_equal | lia]. unfold entry at 2. cbn [app copy_into].
  assert (forall data dst i more, copy_into dst i (data ++ more) = copy_into (copy_into dst i data) (i + Z.of_nat (length data)) more) as Happ.
  { induction data as [|x data IHd]; intros dst j more; cbn [app copy_into length]; [by rewrite Z.add_0_r|]. rewrite IHd. f_equal. lia. }
  rewrite Happ, Hh. f_equal. lia.
Qed.

(** ** One slot for each sender *)
Lemma same_sender_iff a b : same_sender a b = true <-> sa_family a = AF_INET /\ sa_family b = AF_INET /\ sin_port a = sin_port b /\ sin_addr a = sin_addr b.
Proof.
  unfold same_sender. split.
  - intros H. b2p. match goal with H : bool_decide _ = _ |- _ => apply bool_decide_eq_true in H end. repeat split; congruence.
  - intros (-> & -> & -> & ->). rewrite !Z.eqb_refl. by rewrite bool_decide_true.
Qed.
Lemma same_sender_sym a b : same_sender a b = true -> same_sender b a = true.
Proof. rewrite !same_sender_iff. intuition congruence. Qed.

Definition one_slot (table : list heard) : Prop := forall i j h h', table !! i = Some h -> table !! j = Some h' ->
  same_sender (addr h) (addr h') = true -> i = j.

Lemma find_slot_stays now a slots : forall i j, (forall h, h ∈ slots -> same_sender a (addr h) = false) -> find_slot now a i slots (Some j) = Some j.
Proof.
  induction slots as [|h slots IH]; intros i j Hno; cbn [find_slot]; [done|]. rewrite (Hno h) by (by left).
  destruct (recent now a h); apply IH; intros x Hx; apply Hno; by right.
Qed.
(** the slot of the sender *)
Lemma find_slot_same now a slots : forall i found k h, slots !! k = Some h -> same_sender a (addr h) = true ->
  (forall k' h', slots !! k' = Some h' -> same_sender a (addr h') = true -> k' = k) -> find_slot now a i slots found = Some (i + k)%nat.
Proof.
  induction slots as [|x slots IH]; intros i found [|k] h Hk Hs Hone; try done; cbn [find_slot].
  - injection Hk as ->. rewrite Hs, Nat.add_0_r. apply find_slot_stays. intros h' [k' Hk']%list_elem_of_lookup.
    destruct (same_sender a (addr h')) eqn:E; [|done]. discriminate (Hone (S k') h' Hk' E).
  - rewrite (IH (S i) _ k h Hk Hs); [f_equal; lia|]. intros k' h' Hk' Hs'. by injection (Hone (S k') h' Hk' Hs').
Qed.
(** or the first free one *)
Lemma find_slot_free now a slots : forall i, (forall h, h ∈ slots -> same_sender a (addr h) = false) ->
  match find_slot now a i slots None with
  | Some j => exists k h, j = (i + k)%nat /\ slots !! k = Some h /\ free now a h = true
  | None => forall h, h ∈ slots -> recent now a h = true
  end.
Proof.
  induction slots as [|x slots IH]; intros i Hno; cbn [find_slot]; [by intros h ?%not_elem_of_nil|].
  assert (forall h, h ∈ slots -> same_sender a (addr h) = false) as Hno' by (intros h Hh; apply Hno; by right).
  pose proof (Hno x ltac:(by left)) as Hx. rewrite Hx. destruct (recent now a x) eqn:Er.
  - specialize (IH (S i) Hno'). destruct (find_slot now a (S i) slots None) as [j|].
    + destruct IH as (k & h & -> & Hk & Hf). exists (S k), h. split; [lia | done].
    + intros h [->|Hh]%elem_of_cons; auto.
  - rewrite find_slot_stays by done. exists 0%nat, x. split; [lia|]. split; [done|]. unfold free. by rewrite Hx, Er.
Qed.

Lemma find_slot_bound now a slots : forall i found j, find_slot now a i slots found = Some j -> found = Some j \/ (i <= j < i + length slots)%nat.
Proof.
  induction slots as [|x slots IH]; intros i found j; cbn [find_slot length]; [by left|]. intros H. apply IH in H as [H|H]; [|right; lia].
  destruct (same_sender a (addr x)); [injection H as <-; right; lia|]. destruct (recent now a x); [by left|]. destruct found; [by left|]. injection H as <-. right; lia.
Qed.

(** the table after a packet from [a]: it is where it was, or in a free slot *)
Lemma find_slot_cases now a table : one_slot table ->
  match find_slot now a 0 table None with
  | Some j => (j < length table)%nat /\ forall k h, table !! k = Some h -> same_sender a (addr h) = true -> k = j
  | None => forall h, h ∈ table -> same_sender a (addr h) = false /\ recent now a h = true
  end.
Proof.
  intros Hone. destruct (decide (Exists (fun h => same_sender a (addr h) = true) table)) as [He|Hno].
  - apply Exists_exists in He as (h & Hin%list_elem_of_In & Hs). apply list_elem_of_lookup in Hin as [k Hk].
    rewrite (find_slot_same now a table 0 None k h Hk Hs).
    + split; [by eapply lookup_lt_Some|]. intros k' h' Hk' Hs'. eapply Hone; [exact Hk' | exact Hk|]. apply same_sender_iff in Hs, Hs'. apply same_sender_iff. intuition congruence.
    + intros k' h' Hk' Hs'. eapply Hone; [exact Hk' | exact Hk|]. apply same_sender_iff in Hs, Hs'. apply same_sender_iff. intuition congruence.
  - assert (forall h, h ∈ table -> same_sender a (addr h) = false) as Hno'.
    { intros h Hh. destruct (same_sender a (addr h)) eqn:E; [|done]. exfalso. apply Hno, Exists_exists. exists h. split; [by apply list_elem_of_In | done]. }
    pose proof (find_slot_free now a table 0 Hno') as H. destruct (find_slot now a 0 table None) as [j|]; [|by auto].
    destruct H as (k & h & -> & Hk & _). split; [by eapply lookup_lt_Some|]. intros k' h' Hk' Hs'. rewrite (Hno' h') in Hs'; [done|]. by eapply list_elem_of_lookup_2.
Qed.

Lemma one_slot_insert now a table j : one_slot table -> (forall k h, table !! k = Some h -> same_sender a (addr h) = true -> k = j) -> one_slot (<[j := Heard now a]> table).
Proof.
  intros Hone Hj i k h h' Hi Hk Hs.
  destruct (decide (i = j)) as [->|Hij], (decide (k = j)) as [->|Hkj]; [done | | |].
  - rewrite list_lookup_insert_eq in Hi by (apply lookup_lt_Some in Hi; by rewrite length_insert in Hi). injection Hi as <-.
    rewrite list_lookup_insert_ne in Hk by done. symmetry. by eapply Hj.
  - rewrite list_lookup_insert_eq in Hk by (apply lookup_lt_Some in Hk; by rewrite length_insert in Hk). injection Hk as <-.
    rewrite list_lookup_insert_ne in Hi by done. eapply Hj; [exact Hi|]. by apply same_sender_sym.
  - rewrite list_lookup_insert_ne in Hi, Hk by done. by eapply Hone.
Qed.

(** ** Properties *)
Section Packet.
Variables (now : Z) (a : socket_address) (buff : list Z) (table : list heard).
Hypothesis buffer : length buff = 1024%nat.
Hypothesis request : rd buff 0 <> STUN_MSG.
Hypothesis addresses : well_formed table.
(** what the array has room for *)
Hypothesis room : (length (others now a table) <= 204)%nat.

Lemma packet_result :
  let reply := flat_map entry (others now a table) in
  fst (stun_packet now a buff table) = match find_slot now a 0 table None with Some i => <[i := Heard now a]> table | None => table end /\
  match snd (stun_packet now a buff table) with
  | None => reply = []
  | Some (offset, sent) => reply <> [] /\ offset = 3 + Z.of_nat (length reply) /\
      take (Z.to_nat offset) sent = [STUN_MSG; 0; Z.of_nat (length reply) mod 256] ++ reply
  end.
Proof.
  unfold stun_packet. destruct (Z.eqb_spec (rd buff 0) STUN_MSG); [done|].
  assert (length (flat_map entry (others now a table)) = 5 * length (others now a table))%nat as Hlen.
  { unfold others. clear room. induction addresses as [|h t Hh Ht IH]; cbn [List.filter]; [done|]. destruct (_ && _); cbn [flat_map length]; [|by apply IH].
    rewrite length_app, IH by done. cbn [entry length]. rewrite Hh. lia. }
  pose proof (scan_spec now a table 0 None (wr buff 0 STUN_MSG) 3 addresses ltac:(rewrite length_wr; lia)) as Hscan. change (Z.of_nat 3) with 3 in Hscan. rewrite Hscan.
  cbv zeta. set (reply := flat_map entry (others now a table)) in *. rewrite Hlen.
  destruct (Z.gtb_spec (Z.of_nat (3 + 5 * length (others now a table))) 3) as [Hgt|Hle]; cbn [fst snd]; (split; [done|]).
  - split; [intros E; rewrite E in Hlen; cbn [length] in Hlen; lia|]. split; [lia|].
    destruct buff as [|b0 [|b1 [|b2 rest]]]; try done. change (wr (b0 :: b1 :: b2 :: rest) 0 STUN_MSG) with (STUN_MSG :: b1 :: b2 :: rest).
    change (copy_into ?d 3 ?r) with (copy_into d (Z.of_nat 3) r).
    rewrite copy_into_split by (cbn [length] in *; rewrite Hlen; lia). change (take 3 (STUN_MSG :: b1 :: b2 :: rest)) with [STUN_MSG; b1; b2]. cbn [app].
    change (wr (STUN_MSG :: b1 :: ?l) 1 ?v) with (STUN_MSG :: v :: l). change (wr (STUN_MSG :: ?v :: b2 :: ?l) 2 ?w) with (STUN_MSG :: v :: w :: l).
    rewrite Nat2Z.id.
    cbn [Nat.add take]. f_equal. f_equal; [|f_equal].
    + change 255 with (2 ^ 8 - 1). rewrite land_mod, Z.shiftl_mul_pow2 by lia. apply Z.mod_mul. lia.
    + change 255 with (2 ^ 8 - 1). rewrite land_mod by lia. f_equal. lia.
    + rewrite take_app_le by (rewrite Hlen; lia). rewrite <- Hlen. by rewrite firstn_all.
  - destruct reply; [done|]. cbn [length] in Hlen. lia.
Qed.
End Packet.

(** C35: A packet is answered with the addresses of the other senders that used the
    same port in the last ten seconds, five bytes each, in the order of the slots,
    and not at all when there are none.  The length before them is its low byte
    only: the high byte is always zero. *)
Theorem stun_reply now a buff table : length buff = 1024%nat -> rd buff 0 <> STUN_MSG -> well_formed table -> (length (others now a table) <= 204)%nat ->
  let reply := flat_map entry (others now a table) in
  match snd (stun_packet now a buff table) with
  | None => reply = []
  | Some (offset, sent) => reply <> [] /\ offset = 3 + Z.of_nat (length reply) /\
      take (Z.to_nat offset) sent = [STUN_MSG; 0; Z.of_nat (length reply) mod 256] ++ reply
  end.
Proof. intros Hb Hr Hw Ho. by apply packet_result. Qed.

(** C36: No sender takes two slots, and a packet changes one slot at most: that of its
    sender, who is in the table then, unless all slots are those of other senders of
    the last ten seconds. *)
Theorem stun_one_slot now a buff table : length buff = 1024%nat -> rd buff 0 <> STUN_MSG -> well_formed table -> (length (others now a table) <= 204)%nat ->
  length (sin_addr a) = 4%nat -> one_slot table ->
  let table' := fst (stun_packet now a buff table) in
  one_slot table' /\ well_formed table' /\ length table' = length table /\
  ((exists i, (i < length table)%nat /\ table' = <[i := Heard now a]> table) \/
   table' = table /\ forall h, h ∈ table -> same_sender a (addr h) = false /\ recent now a h = true).
Proof.
  intros Hb Hr Hw Ho H4 Hone. cbv zeta. destruct (packet_result now a buff table Hb Hr Hw Ho) as [-> _].
  pose proof (find_slot_cases now a table Hone) as H. destruct (find_slot now a 0 table None) as [j|]; [|by repeat split; try done; right]. destruct H as [Hj Hs].
  split; [by apply one_slot_insert|]. split; [by apply Forall_insert|]. split; [apply length_insert|]. left. by exists j.
Qed.

(** ** Evaluated *)
Definition host (n port : Z) : socket_address := Address 16 AF_INET port [10; 0; 0; n].
Definition request_buff : list Z := repeat 1 1024.
Definition two_heard : list heard := fst (stun_packet 101 (host 2 7) request_buff (fst (stun_packet 100 (host 1 7) request_buff heard_table))).
Example two_replies : snd (stun_packet 108 (host 3 7) request_buff two_heard) =
    Some (13, wr (wr (copy_into (wr request_buff 0 8) 3 [4; 10; 0; 0; 1; 4; 10; 0; 0; 2]) 1 0) 2 10) /\
  snd (stun_packet 108 (host 3 8) request_buff two_heard) = None /\ snd (stun_packet 111 (host 1 7) request_buff two_heard) <> None /\
  snd (stun_packet 112 (host 1 7) request_buff two_heard) = None.
Proof. repeat split; vm_compute; (reflexivity || discriminate). Qed.

(** 205 entries do not fit into the 1024 bytes *)
Definition many_heard : list heard := map (fun n => Heard 100 (Address 16 AF_INET 7 [10; 0; 1; n])) (upto 205).
Example reply_overruns : match snd (stun_packet 100 (host 3 7) request_buff many_heard) with Some (offset, _) => offset = 1028 | None => False end.
Proof. vm_compute. reflexivity. Qed.

Definition short_table : list heard := take 3 two_heard.
Lemma short_table_ok : well_formed short_table /\ one_slot short_table.
Proof.
  split; [unfold well_formed; apply (bool_decide_unpack _); vm_compute; reflexivity|].
  assert (short_table = [Heard 100 (host 1 7); Heard 101 (host 2 7); Heard 0 (Address 0 0 0 [0; 0; 0; 0])]) as -> by (vm_compute; reflexivity).
  intros [|[|[|i]]] [|[|[|j]]] h h' Hi Hj Hs; try done; injection Hi as <-; injection Hj as <-; discriminate Hs.
Qed.
Lemma stun_reply_witness :
  match snd (stun_packet 108 (host 3 7) request_buff short_table) with
  | None => False
  | Some (offset, sent) => take (Z.to_nat offset) sent = [8; 0; 10; 4; 10; 0; 0; 1; 4; 10; 0; 0; 2]
  end.
Proof.
  pose proof (stun_reply 108 (host 3 7) request_buff short_table ltac:(vm_compute; reflexivity) ltac:(vm_compute; discriminate) (proj1 short_table_ok) ltac:(vm_compute; lia)) as H.
  destruct (snd _) as [[offset sent]|]; [exact (proj2 (proj2 H)) | discriminate H].
Defined.
Lemma stun_one_slot_witness : one_slot (fst (stun_packet 108 (host 1 7) request_buff short_table)).
Proof.
  exact (proj1 (stun_one_slot 108 (host 1 7) request_buff short_table ltac:(vm_compute; reflexivity) ltac:(vm_compute; discriminate) (proj1 short_table_ok)
    ltac:(vm_compute; lia) ltac:(reflexivity) (proj2 short_table_ok))).
Defined.
