(* ===== verification/StatsPages.v ===== *)
(** packed_stats.c: the file of the statistics, which is mapped, or read in pieces
    of 1024 bytes when it cannot be. *)
From S2P Require Import Prelude PackedStats.
Local Open Scope Z_scope.
Local Open Scope succinct_scope.

(** a file that is open, and what of it is in memory: [mmap], or [buffer] and
    [bufferBitmap], which says what pieces have been read *)
Record stats_file := StatsFile {
  file : list Z; position : Z;
  mmap : option (list Z);
  file_buffer : list Z; bufferBitmap : list bool
}.
Definition file_length (f : stats_file) : Z := Z.of_nat (length (file f)).
(** the memory that the pointers of getCompressedBytes point into *)
Definition visible (f : stats_file) : list Z := match mmap f with Some m => m | None => file_buffer f end.

(** [data] over the bytes of [buff] from [p] on *)
Definition overwrite (buff : list Z) (p : Z) (data : list Z) : list Z :=
  firstn (Z.to_nat p) buff ++ data ++ skipn (Z.to_nat p + length data) buff.
(** [fread((void* )&h->buffer[i<<10],1024,1,h->file)], which begins at the position
    of the file *)
Definition fread_piece (f : stats_file) (i : Z) : stats_file :=
  let data := firstn 1024 (skipn (Z.to_nat (position f)) (file f)) in
  StatsFile (file f) (position f + Z.of_nat (length data)) (mmap f) (overwrite (file_buffer f) (Z.shiftl i 10) data) (bufferBitmap f).
Definition set_bitmap (f : stats_file) (i : Z) : stats_file :=
  StatsFile (file f) (position f) (mmap f) (file_buffer f) (<[Z.to_nat i := true]> (bufferBitmap f)).
(** [Undefined]: an index past the bitmap *)
Definition load_piece (f : stats_file) (i : Z) : outcome stats_file :=
  match nth_error (bufferBitmap f) (Z.to_nat i) with
  | None => Undefined
  | Some true => Done f
  | Some false => Done (set_bitmap (fread_piece f i) i)
  end.
Fixpoint load_pieces (n : nat) (f : stats_file) (i : Z) : outcome stats_file :=
  match n with
  | O => Done f
  | S n => do f <- load_piece f i ;; load_pieces n f (i + 1)
  end.

(** what a pointer gives: [None] when it is NULL *)
Definition getCompressedBytes (f : stats_file) (start count : Z) : outcome (option (list Z) * stats_file) :=
  if (start <? 0) || (start >=? file_length f) then Done (None, f)
  else
    let count := if start + count >? file_length f then file_length f - start else count in
    match mmap f with
    | Some m => Done (Some (skipn (Z.to_nat start) m), f)
    | None =>
        let first := Z.shiftr start 10 in
        let last := Z.shiftr (start + count) 10 in
        do f <- load_pieces (Z.to_nat (last - first + 1)) f first ;;
        Done (Some (skipn (Z.to_nat start) (file_buffer f)), f)
    end.

Section Open.
Context `{M : Memory}.
(** the bytes that load_headers asks for *)
Definition header_bytes : Z := 3 * 4 + 1 + (1 + 2 + 4 + 80 + 160 + 1) * 3 + 4096.
(** the file that is found and whether mmap succeeds; the position is at the end
    of the file, from where its size is taken *)
Definition open_file (contents : list Z) (maps : bool) : stats_file :=
  let n := Z.of_nat (length contents) in
  if maps then StatsFile contents n (Some contents) [] []
  else StatsFile contents n None (garbage n) (repeat false (Z.to_nat (Z.shiftr (n + 1) 10))).
Definition stats_new_handle (contents : option (list Z)) (maps : bool) : outcome (option stats_handle) :=
  match contents with
  | None => Done None
  | Some contents =>
      do (ptr, f) <- getCompressedBytes (open_file contents maps) 4 header_bytes ;;
      match ptr with
      | None => Undefined
      | Some _ => load_headers (Some (file f)) (visible f)
      end
  end.

(** ** What is read *)

(** at the end of the file, fread gives nothing *)
Lemma piece_at_end f i : position f = file_length f -> 0 <= i -> fread_piece f i = f.
Proof.
  intros Hp Hi. unfold fread_piece. rewrite Hp. unfold file_length. rewrite Nat2Z.id, skipn_all. cbn [firstn length]. rewrite Z.add_0_r. unfold overwrite.
  cbn [app length]. rewrite Nat.add_0_r, take_drop. destruct f as [c p m b bm]. unfold file_length in Hp. cbn in *. by rewrite Hp.
Qed.
Lemma pieces_at_end n : forall f i f', position f = file_length f -> 0 <= i -> load_pieces n f i = Done f' ->
  file f' = file f /\ position f' = position f /\ mmap f' = mmap f /\ file_buffer f' = file_buffer f.
Proof.
  induction n as [|n IH]; intros f i f' Hp Hi H; cbn [load_pieces] in H; [by injection H as <-|].
  unfold load_piece in H. destruct (nth_error _ _) as [[]|]; cbn [and_then] in H; [apply IH in H; (done || lia) | | done].
  rewrite piece_at_end in H by done. apply IH in H; [exact H | exact Hp | lia].
Qed.

(** *** Properties *)

(** A statistics file that is mapped is read as one that is in memory: the pointers
    give the bytes of the file. *)
Theorem mapped_file contents : 4 < Z.of_nat (length contents) -> stats_new_handle (Some contents) true = load_headers (Some contents) contents.
Proof.
  intros Hl. unfold stats_new_handle, getCompressedBytes, open_file, file_length. cbn [file mmap].
  destruct (Z.ltb_spec 4 0); [lia|]. rewrite Z.geb_leb. destruct (Z.leb_spec (Z.of_nat (length contents)) 4); [lia|]. done.
Qed.

(** When mmap fails, nothing of the file is ever read: it was left at its end, and
    no piece is sought.  The bytes that a pointer gives, for any request in any
    order, are what malloc had left there. *)
Theorem pages_are_garbage contents requests f : let read f r := match f with Done (_, f) => getCompressedBytes f (fst r) (snd r) | _ => f end in
  fold_left read requests (Done (None, open_file contents false)) = Done f -> file_buffer (snd f) = garbage (Z.of_nat (length contents)) /\
  forall bytes, fst f = Some bytes -> exists start, bytes = skipn start (garbage (Z.of_nat (length contents))).
Proof.
  intros read. set (good := fun g : stats_file => position g = file_length g /\ mmap g = None /\ file_buffer g = garbage (Z.of_nat (length contents))).
  enough (forall reqs x, good (snd x) -> (forall bytes, fst x = Some bytes -> exists start, bytes = skipn start (garbage (Z.of_nat (length contents)))) ->
    fold_left read reqs (Done x) = Done f -> file_buffer (snd f) = garbage (Z.of_nat (length contents)) /\
    forall bytes, fst f = Some bytes -> exists start, bytes = skipn start (garbage (Z.of_nat (length contents)))) as H by (apply (H requests (None, open_file contents false)); done).
  assert (forall reqs (o : outcome (option (list Z) * stats_file)), (forall x, o <> Done x) -> fold_left read reqs o <> Done f) as Hstop
    by (induction reqs as [|r reqs IH]; intros o Ho; [apply Ho | cbn [fold_left]; apply IH; by destruct o as [x| |]; [destruct (Ho x)|..]]).
  induction reqs as [|[s c] reqs IH]; intros [p g] Hg Hbytes H; [injection H as <-; split; [apply Hg | exact Hbytes]|].
  cbn [fold_left read fst snd] in H. unfold getCompressedBytes in H. cbn [snd] in Hg. destruct Hg as (Hpos & Hmap & Hbuf). rewrite Hmap in H.
  destruct (Z.ltb_spec s 0); [apply IH in H; [done | by split | done]|]. destruct (s >=? file_length g); [apply IH in H; [done | by split | done]|]. cbn [orb] in H.
  destruct (load_pieces _ g _) as [g'| |] eqn:E; cbn [and_then] in H; [|by apply Hstop in H..].
  apply pieces_at_end in E as (Ef & Ep & Em & Eb); [|done | by apply Z.shiftr_nonneg]. apply IH in H; [done | |].
  - unfold good, file_length in *. cbn [snd]. rewrite Ef, Ep, Em, Eb. done.
  - cbn [fst]. intros bytes [= <-]. rewrite Eb, Hbuf. by eexists.
Qed.
End Open.

(** ** Evaluated *)
#[local] Existing Instance sample_memory.
(** the bitmap has no place for a last piece that is not whole *)
Example bitmap_overrun : stats_new_handle (Some (repeat 1 1500)) false = Undefined.
Proof. vm_compute. reflexivity. Qed.
Lemma mapped_file_witness : stats_new_handle (Some (repeat 1 1500)) true = load_headers (Some (repeat 1 1500)) (repeat 1 1500).
Proof. apply mapped_file. reflexivity. Defined.
Lemma pages_are_garbage_witness : exists f, getCompressedBytes (open_file (repeat 1 2047) false) 100 10 = Done f /\
  file_buffer (snd f) = garbage 2047 /\ forall bytes, fst f = Some bytes -> exists start, bytes = skipn start (garbage 2047).
Proof. eexists. split; [reflexivity|]. apply (pages_are_garbage (repeat 1 2047) [(100, 10)]). reflexivity. Defined.
