(* ===== verification/Networks.v ===== *)
(** networks.cpp: the changes of network addresses that the kernel announces.  The
    layout of netlink messages and the macros that walk through them are those of
    linux/netlink.h, linux/rtnetlink.h and linux/if_addr.h on a little-endian machine
    with pointers of 64 bits. *)
From Stdlib Require Import String.
From S2P Require Import Prelude Charset CString.
Local Open Scope Z_scope.
Local Open Scope succinct_scope.

(** ** The system's headers *)
Definition NLM_F_REQUEST : Z := 1.
Definition NLM_F_ROOT : Z := 0x100.
Definition NLMSG_DONE : Z := 3.
Definition RTM_NEWADDR : Z := 20.
Definition RTM_DELADDR : Z := 21.
Definition RTM_GETADDR : Z := 22.
Definition RT_SCOPE_HOST : Z := 254.
Definition AF_INET : Z := 2.
Definition IFA_LOCAL : Z := 2.
Definition IFA_LABEL : Z := 3.
Definition IFA_BROADCAST : Z := 4.
(** struct nlmsghdr, struct ifaddrmsg, struct rtattr *)
Definition sizeof_nlmsghdr : Z := 16.
Definition sizeof_ifaddrmsg : Z := 8.
Definition sizeof_rtattr : Z := 4.
(** NLMSG_ALIGN and RTA_ALIGN of an unsigned int *)
Definition ALIGN (len : Z) : Z := Z.land (u32 (len + 3)) (u32 (Z.lnot 3)).

Definition le16 (v : Z) : list Z := [v mod 256; v / 256 mod 256].
Definition le32 (v : Z) : list Z := [v mod 256; v / 256 mod 256; v / 65536 mod 256; v / 16777216 mod 256].
Definition load16 (buff : list Z) (p : Z) : Z := rd buff p + 256 * rd buff (p + 1).
Definition load32 (buff : list Z) (p : Z) : Z := load16 buff p + 65536 * load16 buff (p + 2).

(** ** The program *)

(** the bytes that request_addresses sends *)
Definition request_addresses : list Z :=
  le32 (sizeof_nlmsghdr + sizeof_ifaddrmsg) ++ le16 RTM_GETADDR ++ le16 (Z.lor NLM_F_REQUEST NLM_F_ROOT) ++ le32 0 ++ le32 0 ++ AF_INET :: [0; 0; 0] ++ le32 0.

(** a call of onAdd or onRemove: the name, the addresses, which may be NULL, and the
    length of the prefix *)
Record network := Network { added : bool; name : list Z; addr : option (list Z); broadcast : option (list Z); prefixlen : Z }.

(** the size of the array on the stack *)
Definition buff_size : Z := 4096.
(** whether [n] bytes from [p] on are in the array *)
Definition inside (p n : Z) : bool := (0 <=? p) && (p + n <=? buff_size).

(** what the attributes have said so far: name, addr_bytes, broadcast_bytes *)
Definition attributes : Type := option (list Z) * option (list Z) * option (list Z).
Definition read_attribute (buff : list Z) (rth rta_len : Z) (found : attributes) : outcome attributes :=
  let '(name, addr, broadcast) := found in
  let data := rth + sizeof_rtattr in
  let len := rta_len - sizeof_rtattr in
  let bytes := firstn (Z.to_nat len) (skipn (Z.to_nat data) buff) in
  let type := load16 buff (rth + 2) in
  if type =? IFA_LOCAL then if inside data len then Done (name, Some bytes, broadcast) else Undefined
  else if type =? IFA_LABEL then
    if existsb (Z.eqb 0) (skipn (Z.to_nat data) buff) then Done (Some (cstr (skipn (Z.to_nat data) buff)), addr, broadcast) else Undefined
  else if type =? IFA_BROADCAST then if inside data len then Done (name, addr, Some bytes) else Undefined
  else Done found.
(** [rtl] is an int *)
Fixpoint read_attributes (fuel : nat) (buff : list Z) (rth rtl : Z) (found : attributes) : outcome attributes :=
  match fuel with
  | O => OutOfFuel
  | S fuel =>
      if (rtl =? 0) || (rtl <? sizeof_rtattr) then Done found
      else if negb (inside rth sizeof_rtattr) then Undefined
      else
        let rta_len := load16 buff rth in
        if (rta_len <? sizeof_rtattr) || (rta_len >? rtl) then Done found
        else
          do found <- read_attribute buff rth rta_len found ;;
          read_attributes fuel buff (rth + ALIGN rta_len) (i32 (rtl - ALIGN rta_len)) found
  end.

(** the body of the loop for a message about an address *)
Definition read_address (fuel : nat) (buff : list Z) (nlh : Z) : outcome (list network) :=
  let ifa := nlh + sizeof_nlmsghdr in
  if negb (inside ifa sizeof_ifaddrmsg) then Undefined
  else if (rd buff (ifa + 3) =? RT_SCOPE_HOST) || negb (rd buff ifa =? AF_INET) then Done []
  else
    let rtl := i32 (load32 buff nlh - (sizeof_nlmsghdr + sizeof_ifaddrmsg)) in
    do (name, addr, broadcast) <- read_attributes fuel buff (ifa + sizeof_ifaddrmsg) rtl (None, None, None) ;;
    match name with
    | None => Done []
    | Some name => Done [Network (load16 buff (nlh + 4) =? RTM_NEWADDR) name addr broadcast (rd buff (ifa + 1))]
    end.
(** [len] is an ssize_t, which NLMSG_OK is given as a size_t *)
Fixpoint read_messages (fuel : nat) (buff : list Z) (nlh len : Z) : outcome (list network) :=
  match fuel with
  | O => OutOfFuel
  | S fuel' =>
      if u64 len <? sizeof_nlmsghdr then Done []
      else if negb (inside nlh sizeof_nlmsghdr) then Undefined
      else
        let nlmsg_len := load32 buff nlh in
        let nlmsg_type := load16 buff (nlh + 4) in
        if (nlmsg_len <? sizeof_nlmsghdr) || (nlmsg_len >? u64 len) || (nlmsg_type =? NLMSG_DONE) then Done []
        else
          do calls <- (if (nlmsg_type =? RTM_NEWADDR) || (nlmsg_type =? RTM_DELADDR) then read_address fuel buff nlh else Done []) ;;
          do more <- read_messages fuel' buff (nlh + ALIGN nlmsg_len) (i64 (len - ALIGN nlmsg_len)) ;;
          Done (calls ++ more)
  end.
(** [buff] after recv, which returned [len] *)
Definition read_addresses (fuel : nat) (buff : list Z) (len : Z) : outcome (list network) :=
  if len <=? 0 then Done [] else read_messages fuel buff 0 len.

(** ** What the kernel sends *)
Definition padding (n : Z) : list Z := repeat 0 (Z.to_nat ((- n) mod 4)).
Record attribute := Attribute { a_type : Z; a_data : list Z }.
Definition attribute_len (a : attribute) : Z := sizeof_rtattr + Z.of_nat (length (a_data a)).
Definition print_attribute (a : attribute) : list Z := le16 (attribute_len a) ++ le16 (a_type a) ++ a_data a ++ padding (attribute_len a).
(** an address that is there or gone, or another message; the header has flags, a
    sequence number and a port after its type *)
Inductive message :=
  | Address (new : bool) (header : list Z) (family prefix flags scope : Z) (index : list Z) (attrs : list attribute)
  | Other (type : Z) (header payload : list Z).
Definition message_type (m : message) : Z :=
  match m with Address new _ _ _ _ _ _ _ => if new then RTM_NEWADDR else RTM_DELADDR | Other type _ _ => type end.
Definition message_header (m : message) : list Z := match m with Address _ header _ _ _ _ _ _ => header | Other _ header _ => header end.
Definition message_payload (m : message) : list Z :=
  match m with
  | Address _ _ family prefix flags scope index attrs => [family; prefix; flags; scope] ++ index ++ flat_map print_attribute attrs
  | Other _ _ payload => payload
  end.
Definition message_len (m : message) : Z := sizeof_nlmsghdr + Z.of_nat (length (message_payload m)).
Definition print_message (m : message) : list Z :=
  le32 (message_len m) ++ le16 (message_type m) ++ message_header m ++ message_payload m ++ padding (message_len m).

(** what the application is told *)
Definition learn (found : attributes) (a : attribute) : attributes :=
  let '(name, addr, broadcast) := found in
  if a_type a =? IFA_LOCAL then (name, Some (a_data a), broadcast)
  else if a_type a =? IFA_LABEL then (Some (cstr (a_data a)), addr, broadcast)
  else if a_type a =? IFA_BROADCAST then (name, addr, Some (a_data a))
  else found.
Definition told (m : message) : list network :=
  match m with
  | Address new _ family prefix _ scope _ attrs =>
      if (scope =? RT_SCOPE_HOST) || negb (family =? AF_INET) then []
      else
        match fold_left learn attrs (None, None, None) with
        | (Some name, addr, broadcast) => [Network new name addr broadcast prefix]
        | _ => []
        end
  | Other _ _ _ => []
  end.
(** nothing is read after the end of a dump *)
Fixpoint all_told (ms : list message) : list network :=
  match ms with
  | [] => []
  | m :: ms => if message_type m =? NLMSG_DONE then [] else told m ++ all_told ms
  end.

Definition attribute_ok (a : attribute) : Prop := 0 <= a_type a < 2 ^ 16 /\ (a_type a = IFA_LABEL -> existsb (Z.eqb 0) (a_data a) = true).
Definition message_ok (m : message) : Prop :=
  length (message_header m) = 10%nat /\
  match m with
  | Address _ _ _ _ _ _ index attrs => length index = 4%nat /\ Forall attribute_ok attrs
  | Other type _ _ => 0 <= type < 2 ^ 16 /\ type <> RTM_NEWADDR /\ type <> RTM_DELADDR
  end.

(** ** Lengths and loads *)
Lemma align_spec n : 0 <= n < 2 ^ 31 -> ALIGN n = n + (- n) mod 4.
Proof.
  intros Hn. unfold ALIGN. rewrite (u32_small (n + 3)) by lia. change (u32 (Z.lnot 3)) with (Z.land (Z.ones 32) (Z.lnot (Z.ones 2))).
  rewrite Z.land_assoc, Z.land_ones, Z.mod_small by lia. rewrite <- Z.ldiff_land, Z.ldiff_ones_r, Z.shiftl_mul_pow2, Z.shiftr_div_pow2 by lia. change (2 ^ 2) with 4. divmod.
Qed.
Lemma length_padding n : Z.of_nat (length (padding n)) = (- n) mod 4.
Proof. unfold padding. rewrite repeat_length. pose proof (Z.mod_pos_bound (- n) 4 ltac:(lia)). lia. Qed.
Lemma length_attribute a : Z.of_nat (length (print_attribute a)) = attribute_len a + (- attribute_len a) mod 4.
Proof. unfold print_attribute. rewrite !length_app, !Nat2Z.inj_add, length_padding. unfold attribute_len, sizeof_rtattr. cbn [length le16]. lia. Qed.
Lemma length_message m : length (message_header m) = 10%nat -> Z.of_nat (length (print_message m)) = message_len m + (- message_len m) mod 4.
Proof. intros Hh. unfold print_message. rewrite !length_app, !Nat2Z.inj_add, length_padding, Hh. unfold message_len, sizeof_nlmsghdr. cbn [length le16 le32]. lia. Qed.

Lemma rd_at pre l k p : 0 <= k -> p = Z.of_nat (length pre) + k -> rd (pre ++ l) p = rd l k.
Proof. intros Hk ->. by apply rd_app_r. Qed.
Lemma load16_at pre v l p : p = Z.of_nat (length pre) -> 0 <= v < 2 ^ 16 -> load16 (pre ++ le16 v ++ l) p = v.
Proof.
  intros Hp Hv. unfold load16. rewrite (rd_at pre _ 0), (rd_at pre _ 1) by lia. cbn [le16 app]. rewrite rd_cons_0. rewrite rd_cons by lia. change (1 - 1) with 0. rewrite rd_cons_0. divmod.
Qed.
Lemma load32_at pre v l p : p = Z.of_nat (length pre) -> 0 <= v < 2 ^ 32 -> load32 (pre ++ le32 v ++ l) p = v.
Proof.
  intros Hp Hv. unfold load32, load16. replace (p + 2 + 1) with (p + 3) by lia. rewrite (rd_at pre _ 0), (rd_at pre _ 1), (rd_at pre _ 2), (rd_at pre _ 3) by lia.
  cbn [le32 app]. rewrite !rd_nth by lia.
  change (Z.to_nat 0) with 0%nat. change (Z.to_nat 1) with 1%nat. change (Z.to_nat 2) with 2%nat. change (Z.to_nat 3) with 3%nat. cbn [nth]. divmod.
Qed.

(** ** The loop over the attributes *)
Lemma cstr_app_nul s t : existsb (Z.eqb 0) s = true -> cstr (s ++ t) = cstr s.
Proof.
  induction s as [|x s IH]; cbn [existsb app cstr]; [done|]. destruct (Z.eqb_spec x 0) as [|Hx]; [done|]. destruct (Z.eqb_spec 0 x) as [He|_]; [lia|]. intros H. by rewrite IH.
Qed.
Lemma inside_in p n : 0 <= p -> p + n <= buff_size -> inside p n = true.
Proof. intros. unfold inside. apply andb_true_iff. split; lia. Qed.
Lemma read_attribute_spec pre a post found : Z.of_nat (length (pre ++ print_attribute a ++ post)) = buff_size -> attribute_ok a ->
  read_attribute (pre ++ print_attribute a ++ post) (Z.of_nat (length pre)) (attribute_len a) found = Done (learn found a).
Proof.
  intros Hsize [Ht Hl]. set (data_post := padding (attribute_len a) ++ post).
  assert (pre ++ print_attribute a ++ post = (pre ++ le16 (attribute_len a) ++ le16 (a_type a)) ++ a_data a ++ data_post) as E by (unfold print_attribute; subst data_post; by rewrite <- !app_assoc).
  assert (forall p, p = Z.of_nat (length pre) + 4 -> skipn (Z.to_nat p) (pre ++ print_attribute a ++ post) = a_data a ++ data_post) as Hskip.
  { intros p ->. rewrite E. apply drop_app_length'. rewrite !length_app. cbn [length le16]. lia. }
  assert (load16 (pre ++ print_attribute a ++ post) (Z.of_nat (length pre) + 2) = a_type a) as Hload.
  { rewrite E, <- !app_assoc, app_assoc. apply load16_at; [|done]. rewrite length_app. cbn [length le16]. lia. }
  assert (inside (Z.of_nat (length pre) + sizeof_rtattr) (attribute_len a - sizeof_rtattr) = true) as Hin.
  { apply inside_in; [unfold sizeof_rtattr; lia|]. rewrite !length_app, !Nat2Z.inj_add, length_attribute in Hsize. unfold attribute_len, sizeof_rtattr in *. pose proof (Z.mod_pos_bound (- (4 + Z.of_nat (length (a_data a)))) 4). lia. }
  unfold read_attribute. rewrite Hload, Hskip, Hin by done. rewrite take_app_length' by (unfold attribute_len; lia).
  destruct found as [[name addr] broadcast]. unfold learn. destruct (a_type a =? IFA_LOCAL); [done|].
  destruct (Z.eqb_spec (a_type a) IFA_LABEL) as [Hlabel|_]; [|by destruct (a_type a =? IFA_BROADCAST)].
  rewrite existsb_app, (Hl Hlabel). cbn [orb]. by rewrite cstr_app_nul by auto.
Qed.

Lemma attributes_loop attrs : forall fuel pre post rtl found, Forall attribute_ok attrs -> rtl = Z.of_nat (length (flat_map print_attribute attrs)) ->
  Z.of_nat (length (pre ++ flat_map print_attribute attrs ++ post)) = buff_size -> (length attrs < fuel)%nat ->
  read_attributes fuel (pre ++ flat_map print_attribute attrs ++ post) (Z.of_nat (length pre)) rtl found = Done (fold_left learn attrs found).
Proof.
  induction attrs as [|a attrs IH]; intros [|fuel] pre post rtl found Hok Hrtl Hsize Hfuel; try (cbn [length] in Hfuel; lia); cbn [read_attributes flat_map fold_left] in *.
  - subst rtl. done.
  - apply Forall_cons_iff in Hok as [Ha Hok]. rewrite <- app_assoc in *.
    pose proof (length_attribute a) as Hl. assert (4 <= attribute_len a) as H4 by (unfold attribute_len, sizeof_rtattr; lia).
    assert (Z.of_nat (length pre) + Z.of_nat (length (print_attribute a)) + Z.of_nat (length (flat_map print_attribute attrs)) + Z.of_nat (length post) = 4096) as Hsum
      by (rewrite !length_app in Hsize; unfold buff_size in Hsize; lia).
    pose proof (Z.mod_pos_bound (- attribute_len a) 4 ltac:(lia)) as Hm. rewrite length_app, Nat2Z.inj_add in Hrtl.
    destruct (Z.eqb_spec rtl 0); [lia|]. destruct (Z.ltb_spec rtl sizeof_rtattr); [unfold sizeof_rtattr in *; lia|]. cbn [orb].
    rewrite inside_in by (unfold sizeof_rtattr, buff_size; lia). cbn [negb].
    assert (load16 (pre ++ print_attribute a ++ flat_map print_attribute attrs ++ post) (Z.of_nat (length pre)) = attribute_len a) as ->
      by (unfold print_attribute; rewrite <- app_assoc; apply load16_at; lia).
    destruct (Z.ltb_spec (attribute_len a) sizeof_rtattr); [unfold sizeof_rtattr in *; lia|]. rewrite Z.gtb_ltb. destruct (Z.ltb_spec rtl (attribute_len a)); [lia|]. cbn [orb].
    rewrite read_attribute_spec by done. cbn [and_then]. rewrite align_spec, <- Hl, <- Nat2Z.inj_add, <- length_app, app_assoc by lia.
    apply IH; [done | rewrite i32_small; lia | by rewrite <- app_assoc | cbn [length] in Hfuel; lia].
Qed.

(** ** The loop over the messages *)
Lemma read_address_spec fuel pre new header family prefix flags scope index attrs post :
  let m := Address new header family prefix flags scope index attrs in
  message_ok m -> Z.of_nat (length (pre ++ print_message m ++ post)) = buff_size -> (length attrs < fuel)%nat ->
  read_address fuel (pre ++ print_message m ++ post) (Z.of_nat (length pre)) = Done (told m).
Proof.
  intros m [Hh [Hi Hok]] Hsize Hfuel. cbn [m message_header] in Hh.
  set (head := le32 (message_len m) ++ le16 (message_type m) ++ header).
  assert (length head = 16%nat) as Hhead by (subst head; rewrite !length_app, Hh; reflexivity).
  assert (print_message m = head ++ [family; prefix; flags; scope] ++ index ++ flat_map print_attribute attrs ++ padding (message_len m)) as E
    by (unfold print_message; cbn [m message_header message_payload]; subst head; by rewrite <- !app_assoc).
  assert (Z.of_nat (length pre) + 24 + Z.of_nat (length (flat_map print_attribute attrs)) + (Z.of_nat (length post) + Z.of_nat (length (padding (message_len m)))) = 4096) as Hsum.
  { rewrite E, !length_app, Hhead, Hi in Hsize. cbn [length] in Hsize. unfold buff_size in Hsize. lia. }
  assert (message_len m = 24 + Z.of_nat (length (flat_map print_attribute attrs))) as Hlen.
  { unfold message_len. cbn [m message_payload]. rewrite !length_app, Hi. unfold sizeof_nlmsghdr. cbn [length]. lia. }
  unfold read_address. rewrite inside_in by (unfold sizeof_nlmsghdr, sizeof_ifaddrmsg, buff_size; lia). cbn [negb].
  assert (forall k, 0 <= k -> rd (pre ++ print_message m ++ post) (Z.of_nat (length pre) + sizeof_nlmsghdr + k) = rd ([family; prefix; flags; scope] ++ index ++ flat_map print_attribute attrs ++ padding (message_len m) ++ post) k) as Hifa.
  { intros k Hk. rewrite E, <- !app_assoc, app_assoc. apply rd_at; [done|]. rewrite length_app, Hhead. unfold sizeof_nlmsghdr. lia. }
  rewrite (Hifa 3), (Hifa 1) by lia. replace (Z.of_nat (length pre) + sizeof_nlmsghdr) with (Z.of_nat (length pre) + sizeof_nlmsghdr + 0) at 1 by lia. rewrite (Hifa 0) by lia.
  change (rd (_ ++ _) 3) with scope. change (rd (_ ++ _) 1) with prefix. change (rd (_ ++ _) 0) with family.
  cbn [m told]. destruct (_ || _); [done|].
  assert (load32 (pre ++ print_message m ++ post) (Z.of_nat (length pre)) = message_len m) as ->
    by (unfold print_message; rewrite <- app_assoc; apply load32_at; lia).
  rewrite i32_small by (unfold sizeof_nlmsghdr, sizeof_ifaddrmsg; lia).
  assert (load16 (pre ++ print_message m ++ post) (Z.of_nat (length pre) + 4) = message_type m) as ->.
  { unfold print_message. rewrite <- !app_assoc, app_assoc. apply load16_at; [by rewrite length_app, Nat2Z.inj_add | by destruct new]. }
  set (p := pre ++ head ++ [family; prefix; flags; scope] ++ index).
  replace (pre ++ print_message m ++ post) with (p ++ flat_map print_attribute attrs ++ padding (message_len m) ++ post) by (subst p; rewrite E, <- !app_assoc; done).
  replace (_ + sizeof_ifaddrmsg) with (Z.of_nat (length p)) by (subst p; rewrite !length_app, Hhead, Hi; unfold sizeof_nlmsghdr, sizeof_ifaddrmsg; cbn [length]; lia).
  rewrite attributes_loop; [| done | unfold sizeof_nlmsghdr, sizeof_ifaddrmsg; lia | | done].
  - cbn [and_then]. destruct (fold_left learn attrs _) as [[[n|] a] b]; [|done]. by destruct new.
  - subst p. rewrite !length_app, Hhead, Hi. unfold buff_size. cbn [length]. lia.
Qed.

Lemma message_type_range m : message_ok m -> 0 <= message_type m < 2 ^ 16.
Proof. destruct m as [[] ? ? ? ? ? ? ?|]; cbn [message_type]; intros [_ H]; unfold RTM_NEWADDR, RTM_DELADDR; [lia | lia | apply H]. Qed.
Lemma attributes_count attrs : 4 * Z.of_nat (length attrs) <= Z.of_nat (length (flat_map print_attribute attrs)).
Proof.
  induction attrs as [|a attrs IH]; [done|]. cbn [flat_map length]. rewrite length_app, Nat2Z.inj_add, length_attribute. unfold attribute_len, sizeof_rtattr.
  pose proof (Z.mod_pos_bound (- (4 + Z.of_nat (length (a_data a)))) 4 ltac:(lia)). lia.
Qed.
(** the body of the loop *)
Lemma message_body fuel pre m post : message_ok m -> Z.of_nat (length (pre ++ print_message m ++ post)) = buff_size ->
  Z.of_nat (length (print_message m)) < 4 * Z.of_nat fuel ->
  (if (message_type m =? RTM_NEWADDR) || (message_type m =? RTM_DELADDR) then read_address fuel (pre ++ print_message m ++ post) (Z.of_nat (length pre)) else Done []) = Done (told m).
Proof.
  intros Hok Hsize Hfuel. destruct m as [new header family prefix flags scope index attrs|type header payload].
  - destruct Hok as [Hh Hm]. assert ((message_type (Address new header family prefix flags scope index attrs) =? RTM_NEWADDR) || (message_type (Address new header family prefix flags scope index attrs) =? RTM_DELADDR) = true) as ->
      by (by destruct new).
    apply read_address_spec; [by split | done|]. rewrite length_message in Hfuel by done. pose proof (attributes_count attrs). unfold message_len in Hfuel. cbn [message_payload] in Hfuel.
    rewrite !length_app in Hfuel. pose proof (Z.mod_pos_bound (- (sizeof_nlmsghdr + Z.of_nat (length ([family; prefix; flags; scope] ++ index ++ flat_map print_attribute attrs)))) 4 ltac:(lia)) as Hmod.
    rewrite !length_app in Hmod. unfold sizeof_nlmsghdr in *. lia.
  - destruct Hok as (_ & _ & Hn & Hd). cbn [message_type told]. destruct (Z.eqb_spec type RTM_NEWADDR), (Z.eqb_spec type RTM_DELADDR); done.
Qed.
Lemma messages_loop ms : forall fuel pre post len, Forall message_ok ms -> len = Z.of_nat (length (flat_map print_message ms)) ->
  Z.of_nat (length (pre ++ flat_map print_message ms ++ post)) = buff_size -> len < 4 * Z.of_nat fuel ->
  read_messages fuel (pre ++ flat_map print_message ms ++ post) (Z.of_nat (length pre)) len = Done (all_told ms).
Proof.
  induction ms as [|m ms IH]; intros [|fuel] pre post len Hok Hlen Hsize Hfuel; try (cbn [length] in Hfuel; lia); cbn [read_messages flat_map all_told] in *.
  - subst len. done.
  - apply Forall_cons_iff in Hok as [Hm Hok]. rewrite <- app_assoc in *. pose proof (length_message m (proj1 Hm)) as Hl.
    assert (16 <= message_len m) as H16 by (unfold message_len, sizeof_nlmsghdr; lia). pose proof (Z.mod_pos_bound (- message_len m) 4 ltac:(lia)) as Hmod.
    assert (Z.of_nat (length pre) + Z.of_nat (length (print_message m)) + Z.of_nat (length (flat_map print_message ms)) + Z.of_nat (length post) = 4096) as Hsum
      by (rewrite !length_app in Hsize; unfold buff_size in Hsize; lia).
    rewrite length_app, Nat2Z.inj_add in Hlen. rewrite (u64_small len) by lia.
    destruct (Z.ltb_spec len sizeof_nlmsghdr); [unfold sizeof_nlmsghdr in *; lia|]. rewrite inside_in by (unfold sizeof_nlmsghdr, buff_size; lia). cbn [negb].
    assert (load32 (pre ++ print_message m ++ flat_map print_message ms ++ post) (Z.of_nat (length pre)) = message_len m) as ->
      by (unfold print_message; rewrite <- app_assoc; apply load32_at; lia).
    assert (load16 (pre ++ print_message m ++ flat_map print_message ms ++ post) (Z.of_nat (length pre) + 4) = message_type m) as ->
      by (unfold print_message; rewrite <- !app_assoc, app_assoc; apply load16_at; [by rewrite length_app, Nat2Z.inj_add | by apply message_type_range]).
    destruct (Z.ltb_spec (message_len m) sizeof_nlmsghdr); [unfold sizeof_nlmsghdr in *; lia|]. rewrite Z.gtb_ltb. destruct (Z.ltb_spec len (message_len m)); [lia|]. cbn [orb].
    destruct (message_type m =? NLMSG_DONE); [done|]. cbn [length] in Hfuel.
    rewrite message_body by (done || lia). cbn [and_then]. rewrite align_spec, <- Hl, <- Nat2Z.inj_add, <- length_app, app_assoc by lia.
    rewrite i64_small by lia. rewrite IH; [done | done | lia | by rewrite <- app_assoc | lia].
Qed.

(** ** The loops end *)
Lemma attributes_end buff fuel : forall rth rtl found, rtl < 4 * Z.of_nat fuel -> - 2 ^ 31 <= rtl < 2 ^ 30 -> (0 < fuel)%nat -> read_attributes fuel buff rth rtl found <> OutOfFuel.
Proof.
  induction fuel as [|fuel IH]; intros rth rtl found Hf Hr Hpos; [lia|]. cbn [read_attributes].
  destruct (Z.eqb_spec rtl 0) as [|Hz]; [done|]. destruct (Z.ltb_spec rtl sizeof_rtattr) as [|H4]; [done|]. cbn [orb]. destruct (inside rth sizeof_rtattr); [|done]. cbn [negb].
  set (n := load16 buff rth). destruct (Z.ltb_spec n sizeof_rtattr) as [|Hn]; [done|]. rewrite Z.gtb_ltb. destruct (Z.ltb_spec rtl n) as [|Hl]; [done|]. cbn [orb]. unfold sizeof_rtattr in *.
  assert (read_attribute buff rth n found <> OutOfFuel) as Ha by (unfold read_attribute; destruct found as [[? ?] ?]; by repeat case_match).
  destruct (read_attribute buff rth n found) as [found'| |]; cbn [and_then]; [|done|done].
  rewrite align_spec by lia. pose proof (Z.mod_pos_bound (- n) 4 ltac:(lia)) as Hm. rewrite i32_small by lia.
  destruct fuel as [|fuel]; [lia|]. apply IH; lia.
Qed.
Lemma messages_end buff fuel : forall nlh len, len mod 4 = 0 -> 0 <= len < 4 * Z.of_nat fuel -> len < 2 ^ 30 -> read_messages fuel buff nlh len <> OutOfFuel.
Proof.
  induction fuel as [|fuel IH]; intros nlh len Hmod Hf Hl; [lia|]. cbn [read_messages]. rewrite (u64_small len) by lia.
  destruct (Z.ltb_spec len sizeof_nlmsghdr) as [|H16]; [done|]. destruct (inside nlh sizeof_nlmsghdr); [|done]. cbn [negb].
  set (n := load32 buff nlh). set (t := load16 buff (nlh + 4)). destruct (Z.ltb_spec n sizeof_nlmsghdr) as [|Hn]; [done|]. rewrite Z.gtb_ltb. destruct (Z.ltb_spec len n) as [|Hle]; [done|].
  destruct (t =? NLMSG_DONE); [done|]. cbn [orb]. unfold sizeof_nlmsghdr in *.
  assert ((if (t =? RTM_NEWADDR) || (t =? RTM_DELADDR) then read_address (S fuel) buff nlh else Done []) <> OutOfFuel) as Hbody.
  { destruct (_ || _); [|done]. unfold read_address. destruct (inside _ _); [|done]. cbn [negb]. destruct (_ || _); [done|]. fold n. unfold sizeof_nlmsghdr, sizeof_ifaddrmsg. rewrite i32_small by lia.
    match goal with |- context [read_attributes ?f ?b ?r ?l ?x] => pose proof (attributes_end b f r l x ltac:(lia) ltac:(lia) ltac:(lia)) as Hend end.
    destruct (read_attributes _ _ _ _ _) as [[[[?|] ?] ?]| |]; done. }
  destruct (if _ || _ then _ else _) as [calls| |]; cbn [and_then]; [|done|done].
  rewrite align_spec by lia. assert (n + (- n) mod 4 <= len) as Hal by divmod. pose proof (Z.mod_pos_bound (- n) 4 ltac:(lia)) as Hm. rewrite i64_small by lia.
  specialize (IH (nlh + (n + (- n) mod 4)) (len - (n + (- n) mod 4)) ltac:(divmod) ltac:(lia) ltac:(lia)).
  by destruct (read_messages fuel buff _ _).
Qed.

(** ** Properties *)

(** read_addresses ends for all contents of its array when what was received has
    aligned length, as what the kernel sends has. *)
Theorem read_addresses_ends buff len : len mod 4 = 0 -> len <= buff_size -> read_addresses 1025 buff len <> OutOfFuel.
Proof. intros Hmod Hlen. unfold read_addresses, buff_size in *. destruct (Z.leb_spec len 0); [done|]. apply messages_end; lia. Qed.

(** C34: read_addresses tells the application about every message of the kernel, in their
    order and up to the end of a dump: which interface has got or lost which
    address, the loopback and other families left out. *)
Theorem read_addresses_messages ms post : Forall message_ok ms -> Z.of_nat (length (flat_map print_message ms ++ post)) = buff_size ->
  read_addresses 1025 (flat_map print_message ms ++ post) (Z.of_nat (length (flat_map print_message ms))) = Done (all_told ms).
Proof.
  intros Hok Hsize. unfold read_addresses. destruct (Z.leb_spec (Z.of_nat (length (flat_map print_message ms))) 0) as [H0|H0].
  - destruct ms as [|m ms]; [done|]. cbn [flat_map] in H0. rewrite length_app, Nat2Z.inj_add in H0. unfold print_message in H0. rewrite length_app in H0. cbn [length le32] in H0. lia.
  - apply (messages_loop ms 1025 [] post); [done | done | done|]. rewrite length_app in Hsize. unfold buff_size in Hsize. lia.
Qed.

(** ** Evaluated *)
Definition zeros (n : nat) : list Z := repeat 0 n.
Definition sample_message : message := Address true (zeros 10) AF_INET 24 0 0 [3; 0; 0; 0]
  [Attribute 1 [192; 168; 1; 7]; Attribute IFA_LOCAL [192; 168; 1; 7]; Attribute IFA_BROADCAST [192; 168; 1; 255]; Attribute IFA_LABEL (codes "wlan0" ++ [0])].
Definition loopback : message := Address true (zeros 10) AF_INET 8 0 RT_SCOPE_HOST [1; 0; 0; 0] [Attribute IFA_LOCAL [127; 0; 0; 1]; Attribute IFA_LABEL (codes "lo" ++ [0])].
Definition sample_messages : list message := [loopback; sample_message; Other NLMSG_DONE (zeros 10) (zeros 4); sample_message].
Definition rest (ms : list message) : list Z := zeros (4096 - length (flat_map print_message ms)).

Lemma read_addresses_messages_witness :
  read_addresses 1025 (flat_map print_message sample_messages ++ rest sample_messages) (Z.of_nat (length (flat_map print_message sample_messages))) =
  Done [Network true (codes "wlan0") (Some [192; 168; 1; 7]) (Some [192; 168; 1; 255]) 24].
Proof.
  apply (read_addresses_messages sample_messages (rest sample_messages)); [|vm_compute; reflexivity].
  repeat apply List.Forall_cons; try apply List.Forall_nil; (split; [reflexivity|]); cbn.
  1, 2, 4: split; [reflexivity|]; repeat (apply List.Forall_cons; [split; [vm_compute; split; congruence | try done]|]); apply List.Forall_nil.
  split; [split; [discriminate | reflexivity] | split; discriminate].
Defined.

(** a message of 17 bytes, which is not padded: what the array held before is read,
    since the length has become negative and NLMSG_OK is given it as a size_t *)
Definition unpadded : list Z := le32 17 ++ le16 16 ++ zeros 10 ++ [0].
Example stale_message :
  read_addresses 1025 (unpadded ++ zeros 3 ++ print_message sample_message ++ zeros (4076 - length (print_message sample_message))) 17 =
  Done [Network true (codes "wlan0") (Some [192; 168; 1; 7]) (Some [192; 168; 1; 255]) 24].
Proof. vm_compute. reflexivity. Qed.
(** a length that is rounded up to 2^32, which is 0: the loop does not end *)
Definition endless : list Z := unpadded ++ zeros 3 ++ le32 (2 ^ 32 - 3) ++ zeros 4072.
Lemma read_addresses_endless fuel : read_addresses fuel endless 17 = OutOfFuel.
Proof.
  assert (forall fuel, read_messages fuel endless 20 (-3) = OutOfFuel) as H.
  { clear fuel. induction fuel as [|fuel IH]; [done|]. cbn [read_messages]. replace (u64 (-3) <? sizeof_nlmsghdr) with false by reflexivity. change (negb (inside 20 sizeof_nlmsghdr)) with false.
    replace (load32 endless 20) with (2 ^ 32 - 3) by reflexivity. replace (load16 endless (20 + 4)) with 0 by reflexivity.
    change ((2 ^ 32 - 3 <? sizeof_nlmsghdr) || (2 ^ 32 - 3 >? u64 (-3)) || (0 =? NLMSG_DONE)) with false. cbn [orb]. change ((0 =? RTM_NEWADDR) || (0 =? RTM_DELADDR)) with false. cbn [and_then].
    change (20 + ALIGN (2 ^ 32 - 3)) with 20. change (i64 (-3 - ALIGN (2 ^ 32 - 3))) with (-3). by rewrite IH. }
  unfold read_addresses. change (17 <=? 0) with false. cbv iota. destruct fuel as [|fuel]; [done|]. cbn [read_messages].
  change (u64 17 <? sizeof_nlmsghdr) with false. change (negb (inside 0 sizeof_nlmsghdr)) with false.
  replace (load32 endless 0) with 17 by reflexivity. replace (load16 endless (0 + 4)) with 16 by reflexivity.
  change ((17 <? sizeof_nlmsghdr) || (17 >? u64 17) || (16 =? NLMSG_DONE)) with false. cbn [orb]. change ((16 =? RTM_NEWADDR) || (16 =? RTM_DELADDR)) with false. cbn [and_then].
  change (0 + ALIGN 17) with 20. change (i64 (17 - ALIGN 17)) with (-3). by rewrite H.
Qed.
